(** * Scraper: the resumable hierarchical crawl engine

    A shallow embedding of [arcat_scraper.py] and [sweets_scraper.py]:
    the retrying fetch client, the progress tracker, the listing-page
    expansion of category nodes, the multi-strategy detail extraction, the
    checkpoint store and the crawl orchestrators.

    Conventions of the embedding.
    - Python [str] values are [string]s of ASCII characters; [str.lower],
      [str.strip] and the regular-expression classes are the ASCII parts of
      their Python counterparts.
    - What BeautifulSoup computes from a response (the page text and the
      list of anchors) is part of the input: a [Page] carries the raw
      markup, the text of [soup.get_text()] and the anchors in document
      order.  Everything the scrapers do with them (regular-expression
      searches, filters, loops, mutation of the records) is modelled.
    - The network is a function from a URL and an attempt number to an
      outcome, which makes the markup deterministic.
    - Mutation of a dataclass instance is state passing: a function that
      mutates [company] returns the new [Company]. *)

From Stdlib Require Import Bool Arith Lia List String Ascii ZArith QArith Permutation.
Import ListNotations.
Open Scope string_scope.
Open Scope list_scope.
Open Scope nat_scope.

(* ------------------------------------------------------------------ *)
(** ** Python string operations (ASCII) *)
(* ------------------------------------------------------------------ *)

Module PyStr.

Definition dq : ascii := "034"%char.
Definition nl : ascii := "010"%char.

Definition code (c : ascii) : nat := nat_of_ascii c.

Definition in_range (lo hi : ascii) (c : ascii) : bool :=
  (code lo <=? code c) && (code c <=? code hi).

Definition is_digit (c : ascii) : bool := in_range "0" "9" c.
Definition is_upper (c : ascii) : bool := in_range "A" "Z" c.
Definition is_lower (c : ascii) : bool := in_range "a" "z" c.
Definition is_alpha (c : ascii) : bool := is_upper c || is_lower c.

(** [\w] *)
Definition is_word (c : ascii) : bool :=
  is_alpha c || is_digit c || Ascii.eqb c "_".

(** [\s] and the characters removed by [str.strip()]: tab, LF, VT, FF,
    CR, the separators 28 to 31 and the space. *)
Definition is_space (c : ascii) : bool :=
  let n := code c in
  ((9 <=? n) && (n <=? 13)) || ((28 <=? n) && (n <=? 31)) || (n =? 32).

Definition lower_char (c : ascii) : ascii :=
  if is_upper c then ascii_of_nat (code c + 32) else c.

Definition upper_char (c : ascii) : ascii :=
  if is_lower c then ascii_of_nat (code c - 32) else c.

Fixpoint map_str (f : ascii -> ascii) (s : string) : string :=
  match s with
  | EmptyString => EmptyString
  | String c s' => String (f c) (map_str f s')
  end.

(** [s.lower()], [s.upper()] *)
Definition lower (s : string) : string := map_str lower_char s.
Definition upper (s : string) : string := map_str upper_char s.

(** [not s]: the empty string is falsy. *)
Definition is_empty (s : string) : bool :=
  match s with EmptyString => true | _ => false end.

Definition nonempty (s : string) : bool := negb (is_empty s).

(** [s.startswith(p)] *)
Definition startswith (p s : string) : bool := String.prefix p s.

(** [p in s] *)
Fixpoint contains (p s : string) : bool :=
  String.prefix p s ||
  match s with
  | EmptyString => false
  | String _ s' => contains p s'
  end.

(** [s.split(c)[0]]: the part of [s] before the first [c]. *)
Fixpoint before_char (c : ascii) (s : string) : string :=
  match s with
  | EmptyString => EmptyString
  | String x s' => if Ascii.eqb x c then EmptyString else String x (before_char c s')
  end.

(** [s.lstrip(chars)], [s.rstrip(chars)], [s.strip(chars)] for a
    predicate on characters. *)
Fixpoint lstrip_by (p : ascii -> bool) (s : string) : string :=
  match s with
  | EmptyString => EmptyString
  | String x s' => if p x then lstrip_by p s' else s
  end.

Fixpoint rstrip_by (p : ascii -> bool) (s : string) : string :=
  match s with
  | EmptyString => EmptyString
  | String x s' =>
      match rstrip_by p s' with
      | EmptyString => if p x then EmptyString else String x EmptyString
      | r => String x r
      end
  end.

Definition strip_by (p : ascii -> bool) (s : string) : string :=
  rstrip_by p (lstrip_by p s).

(** [s.strip()] *)
Definition strip (s : string) : string := strip_by is_space s.

Fixpoint char_in (cs : string) (c : ascii) : bool :=
  match cs with
  | EmptyString => false
  | String x cs' => Ascii.eqb x c || char_in cs' c
  end.

(** [s.strip(cs)] and [s.rstrip(cs)] with an explicit character set. *)
Definition strip_chars (cs s : string) : string := strip_by (char_in cs) s.
Definition rstrip_chars (cs s : string) : string := rstrip_by (char_in cs) s.

(** [s.replace(c, "")] for a single character [c]. *)
Fixpoint remove_char (c : ascii) (s : string) : string :=
  match s with
  | EmptyString => EmptyString
  | String x s' =>
      if Ascii.eqb x c then remove_char c s' else String x (remove_char c s')
  end.

(** [sep.join(l)] *)
Fixpoint join (sep : string) (l : list string) : string :=
  match l with
  | [] => EmptyString
  | [x] => x
  | x :: l' => x ++ sep ++ join sep l'
  end.

(** [s.split(c)] for a single character separator. *)
Fixpoint split_char_aux (c : ascii) (s : string) (cur : string) : list string :=
  match s with
  | EmptyString => [cur]
  | String x s' =>
      if Ascii.eqb x c then cur :: split_char_aux c s' EmptyString
      else split_char_aux c s' (cur ++ String x EmptyString)
  end.

Definition split_char (c : ascii) (s : string) : list string :=
  split_char_aux c s EmptyString.

(** [any(k in s for k in ks)] *)
Definition any_in (ks : list string) (s : string) : bool :=
  existsb (fun k => contains k s) ks.

(** [u in urls] for a set of strings kept as a list. *)
Definition mem (u : string) (urls : list string) : bool :=
  existsb (String.eqb u) urls.

End PyStr.

Import PyStr.

(* ------------------------------------------------------------------ *)
(** ** Python regular expressions: a backtracking matcher *)
(* ------------------------------------------------------------------ *)

(** The scrapers use [re.search], [re.match], [re.findall] and [re.sub]
    with hand-written patterns.  [PyRe] is the fragment of Python's [re]
    they need: a backtracking matcher with leftmost alternatives first,
    greedy and lazy repetition, capturing groups, anchors, word
    boundaries and negative look-around.  Patterns are abstract syntax;
    each pattern below quotes the source pattern in its comment, with DQ
    standing for the double-quote character. *)

Module PyRe.

Inductive regex : Type :=
| Eps                                   (* the empty pattern *)
| Chr (p : ascii -> bool)               (* one character of a class *)
| NChr (p : ascii -> bool)              (* one character outside a class *)
| Seq (r1 r2 : regex)                   (* r1 r2 *)
| Alt (r1 r2 : regex)                   (* r1|r2 *)
| Star (greedy : bool) (r : regex)      (* r* and r*? *)
| Grp (n : nat) (r : regex)             (* capturing group number n *)
| Bol                                   (* ^ *)
| Eol                                   (* $ *)
| WordB                                 (* \b *)
| NotAhead (r : regex)                  (* (?!r) *)
| NotBehind (p : ascii -> bool).        (* (?<!c) for a class c *)

Definition chars := list ascii.

(** Captured groups, most recent binding first. *)
Definition caps := list (nat * string).

(** The result of a match: the characters left after it and the groups. *)
Definition result := (chars * caps)%type.

(** Continuations receive the reversed text before the position, the
    text after it and the groups bound so far. *)
Definition cont := chars -> chars -> caps -> option result.

Definition or_else (a b : option result) : option result :=
  match a with Some _ => a | None => b end.

(** Repetition of [body]; an iteration has to consume input, so [n]
    iterations suffice for [n] remaining characters. *)
Fixpoint star (body : chars -> chars -> caps -> cont -> option result)
         (greedy : bool) (n : nat) (b a : chars) (c : caps) (k : cont)
  : option result :=
  match n with
  | O => k b a c
  | S n' =>
      let again :=
        body b a c (fun b' a' c' =>
          if List.length a' <? List.length a then star body greedy n' b' a' c' k
          else None) in
      if greedy then or_else again (k b a c)
      else or_else (k b a c) again
  end.

Definition at_word_boundary (b a : chars) : bool :=
  let before := match b with x :: _ => is_word x | [] => false end in
  let after := match a with x :: _ => is_word x | [] => false end in
  xorb before after.

(** [$] matches at the end and before a newline that ends the string. *)
Definition at_eol (a : chars) : bool :=
  match a with
  | [] => true
  | [x] => Ascii.eqb x nl
  | _ => false
  end.

Fixpoint run (r : regex) (b a : chars) (c : caps) (k : cont) {struct r}
  : option result :=
  match r with
  | Eps => k b a c
  | Chr p =>
      match a with
      | x :: a' => if p x then k (x :: b) a' c else None
      | [] => None
      end
  | NChr p =>
      match a with
      | x :: a' => if p x then None else k (x :: b) a' c
      | [] => None
      end
  | Seq r1 r2 => run r1 b a c (fun b' a' c' => run r2 b' a' c' k)
  | Alt r1 r2 => or_else (run r1 b a c k) (run r2 b a c k)
  | Star g r1 => star (run r1) g (List.length a) b a c k
  | Grp n r1 =>
      run r1 b a c (fun b' a' c' =>
        k b' a' ((n, string_of_list_ascii (firstn (List.length a - List.length a') a)) :: c'))
  | Bol => match b with [] => k b a c | _ => None end
  | Eol => if at_eol a then k b a c else None
  | WordB => if at_word_boundary b a then k b a c else None
  | NotAhead r1 =>
      match run r1 b a c (fun _ a' c' => Some (a', c')) with
      | Some _ => None
      | None => k b a c
      end
  | NotBehind p =>
      match b with
      | x :: _ => if p x then None else k b a c
      | [] => k b a c
      end
  end.

(** A match object: where the match starts, its text, the text after it
    and its groups. *)
Record rmatch : Type := {
  m_start : nat;
  m_text : string;
  m_rest : chars;
  m_caps : caps
}.

Definition finish : cont := fun _ a c => Some (a, c).

Definition match_here (r : regex) (pos : nat) (b a : chars) : option rmatch :=
  match run r b a [] finish with
  | Some (a', c) =>
      Some {| m_start := pos;
              m_text := string_of_list_ascii (firstn (List.length a - List.length a') a);
              m_rest := a';
              m_caps := c |}
  | None => None
  end.

(** The leftmost match at or after the current position. *)
Fixpoint search_from (r : regex) (pos : nat) (b a : chars) {struct a}
  : option rmatch :=
  match match_here r pos b a with
  | Some m => Some m
  | None =>
      match a with
      | [] => None
      | x :: a' => search_from r (S pos) (x :: b) a'
      end
  end.

(** [re.search(r, s)] and [re.match(r, s)] *)
Definition search (r : regex) (s : string) : option rmatch :=
  search_from r 0 [] (list_ascii_of_string s).

Definition rmatch_start (r : regex) (s : string) : option rmatch :=
  match_here r 0 [] (list_ascii_of_string s).

Definition matches (r : regex) (s : string) : bool :=
  match search r s with Some _ => true | None => false end.

(** [m.group(n)]; a group that took no part in the match gives the empty
    string here (Python gives None, which no caller below reads). *)
Fixpoint lookup_group (n : nat) (c : caps) : string :=
  match c with
  | [] => EmptyString
  | (k, v) :: c' => if k =? n then v else lookup_group n c'
  end.

Definition group (m : rmatch) (n : nat) : string := lookup_group n (m_caps m).

(** All non-overlapping matches from left to right, as [re.finditer]
    gives them: after an empty match the scan moves one character on. *)
Fixpoint finditer_from (r : regex) (fuel pos : nat) (b a : chars)
  : list rmatch :=
  match fuel with
  | O => []
  | S fuel' =>
      match search_from r pos b a with
      | None => []
      | Some m =>
          let consumed := (m_start m - pos) + String.length (m_text m) in
          match String.length (m_text m) with
          | O =>
              match skipn (m_start m - pos) a with
              | [] => [m]
              | x :: a' =>
                  m :: finditer_from r fuel' (S (m_start m))
                         (x :: rev (firstn (m_start m - pos) a) ++ b) a'
              end
          | S _ =>
              m :: finditer_from r fuel' (pos + consumed)
                     (rev (firstn consumed a) ++ b) (skipn consumed a)
          end
      end
  end.

Definition finditer (r : regex) (s : string) : list rmatch :=
  let a := list_ascii_of_string s in
  finditer_from r (S (List.length a)) 0 [] a.

(** [re.findall(r, s)] for a pattern with one group. *)
Definition findall1 (r : regex) (s : string) : list string :=
  map (fun m => group m 1) (finditer r s).

(** [re.sub(r, repl, s)] for a constant replacement. *)
Fixpoint sub_from (r : regex) (repl : string) (fuel pos : nat) (b a : chars)
  : string :=
  match fuel with
  | O => string_of_list_ascii a
  | S fuel' =>
      match search_from r pos b a with
      | None => string_of_list_ascii a
      | Some m =>
          let skipped := m_start m - pos in
          let consumed := skipped + String.length (m_text m) in
          let kept := string_of_list_ascii (firstn skipped a) in
          match String.length (m_text m) with
          | O =>
              match skipn skipped a with
              | [] => (kept ++ repl)%string
              | x :: a' =>
                  (kept ++ repl ++ String x
                     (sub_from r repl fuel' (S (m_start m))
                        (x :: (rev (firstn skipped a) ++ b)%list) a'))%string
              end
          | S _ =>
              (kept ++ repl ++
                 sub_from r repl fuel' (pos + consumed)
                   (rev (firstn consumed a) ++ b)%list (skipn consumed a))%string
          end
      end
  end.

Definition sub (r : regex) (repl s : string) : string :=
  let a := list_ascii_of_string s in
  sub_from r repl (S (List.length a)) 0 [] a.

(** *** Pattern combinators *)

Definition any_char : regex := NChr (Ascii.eqb nl).                    (* . *)
Definition ch (c : ascii) : regex := Chr (Ascii.eqb c).
Definition digit : regex := Chr is_digit.                              (* \d *)
Definition space : regex := Chr is_space.                              (* \s *)
Definition word : regex := Chr is_word.                                (* \w *)
Definition cls (cs : string) : regex := Chr (char_in cs).              (* [cs] *)
Definition ncls (cs : string) : regex := NChr (char_in cs).            (* [^cs] *)
Definition not_ch (c : ascii) : regex := NChr (Ascii.eqb c).           (* [^c] *)

Definition many (r : regex) : regex := Star true r.                    (* r* *)
Definition some (r : regex) : regex := Seq r (Star true r).            (* r+ *)
Definition some_lazy (r : regex) : regex := Seq r (Star false r).      (* r+? *)
Definition opt (r : regex) : regex := Alt r Eps.                       (* r? *)

Fixpoint rep (n : nat) (r : regex) : regex :=                          (* r{n} *)
  match n with
  | O => Eps
  | S n' => Seq r (rep n' r)
  end.

Definition at_least (n : nat) (r : regex) : regex := Seq (rep n r) (many r).

(** r{n,m} *)
Fixpoint up_to (n : nat) (r : regex) : regex :=
  match n with
  | O => Eps
  | S n' => opt (Seq r (up_to n' r))
  end.

Definition between (n m : nat) (r : regex) : regex :=
  Seq (rep n r) (up_to (m - n) r).

Fixpoint lit (s : string) : regex :=
  match s with
  | EmptyString => Eps
  | String c s' => Seq (ch c) (lit s')
  end.

Fixpoint seqs (l : list regex) : regex :=
  match l with
  | [] => Eps
  | [r] => r
  | r :: l' => Seq r (seqs l')
  end.

Fixpoint alts (l : list regex) : regex :=
  match l with
  | [] => NotAhead Eps
  | [r] => r
  | r :: l' => Alt r (alts l')
  end.

Definition lits (l : list string) : regex := alts (map lit l).

(** [re.IGNORECASE]: a character matches a class when either of its
    cases does. *)
Definition fold_case (p : ascii -> bool) : ascii -> bool :=
  fun c => p c || p (lower_char c) || p (upper_char c).

Fixpoint icase (r : regex) : regex :=
  match r with
  | Eps => Eps
  | Chr p => Chr (fold_case p)
  | NChr p => NChr (fold_case p)
  | Seq r1 r2 => Seq (icase r1) (icase r2)
  | Alt r1 r2 => Alt (icase r1) (icase r2)
  | Star g r1 => Star g (icase r1)
  | Grp n r1 => Grp n (icase r1)
  | Bol => Bol
  | Eol => Eol
  | WordB => WordB
  | NotAhead r1 => NotAhead (icase r1)
  | NotBehind p => NotBehind (fold_case p)
  end.

End PyRe.

Import PyRe.

(* ------------------------------------------------------------------ *)
(** ** The network and the parsed page *)
(* ------------------------------------------------------------------ *)

(** An anchor with an [href] attribute: [link.get('href', '')], the text
    [link.get_text(strip=True)], and the text of the enclosing row or
    division, [parent.get_text()], where the link has one. *)
Record Anchor : Type := {
  href : string;
  atext : string;
  parent_text : option string
}.

(** The [address] element inside the [companyInfo] division of a SWEETS
    page, as BeautifulSoup presents it: the [href] of its anchors in
    document order and its markup [str(address_tag)]. *)
Record AddressTag : Type := {
  tag_hrefs : list string;
  tag_markup : string
}.

(** A response body and what BeautifulSoup reads from it. *)
Record Page : Type := {
  html : string;                      (* response.text *)
  text : string;                      (* soup.get_text() *)
  text_sep : string;                  (* soup.get_text(separator=' ', strip=True) *)
  anchors : list Anchor;              (* soup.find_all('a', href=True) *)
  company_info : option AddressTag;   (* div.companyInfo > address *)
  meta_description : option string    (* meta[name=description].content *)
}.

(** What one [session.get] followed by [raise_for_status] does. *)
Inductive Outcome : Type :=
| Ok (p : Page)
| Timeout                (* requests.exceptions.Timeout *)
| ConnectionError        (* requests.exceptions.ConnectionError *)
| HttpError.             (* any other requests.RequestException *)

(** The web site: the outcome of the [attempt]-th request of a call for
    a URL.  It is a function, so the markup is deterministic. *)
Definition Site : Type := string -> nat -> Outcome.

(** The browser: the rendered page of a URL, None when Selenium fails. *)
Definition Browser : Type := string -> option Page.

(** What the fetch client does, in order. *)
Inductive Event : Type :=
| RateSleep                       (* time.sleep(REQUEST_DELAY) *)
| Get (url : string)              (* session.get(url, timeout=...) *)
| BackoffSleep (seconds : nat).   (* time.sleep(retry_delay) *)

(** [soup.find_all('a', href=re.compile(r))] *)
Definition find_links (r : regex) (p : Page) : list Anchor :=
  filter (fun l => matches r (href l)) (anchors p).

(* ------------------------------------------------------------------ *)
(** ** Constants shared by the two scrapers *)
(* ------------------------------------------------------------------ *)

Definition REQUEST_DELAY : Q := (3 # 2)%Q.
Definition CHECKPOINT_INTERVAL : nat := 10.
Definition MAX_RETRIES : nat := 3.
Definition RETRY_DELAY_BASE : nat := 5.
Definition REQUEST_TIMEOUT : nat := 30.

(* ------------------------------------------------------------------ *)
(** ** Fetch client: [_make_request] *)
(* ------------------------------------------------------------------ *)

(** The loop [for attempt in range(MAX_RETRIES)] from [attempt] on, with
    [todo] iterations left.  A timeout or a connection error sleeps for
    [RETRY_DELAY_BASE * 2 ** attempt] seconds and goes round again unless
    this was the last attempt; any other request exception returns None
    at once.  The function falls off the loop with None. *)
Fixpoint request_loop (max_retries base : nat) (outcomes : nat -> Outcome)
         (url : string) (attempt todo : nat) : option Page * list Event :=
  match todo with
  | O => (None, [])
  | S todo' =>
      match outcomes attempt with
      | Ok p => (Some p, [RateSleep; Get url])
      | Timeout | ConnectionError =>
          let retry_delay := base * 2 ^ attempt in
          if attempt <? max_retries - 1 then
            let '(r, evs) :=
              request_loop max_retries base outcomes url (S attempt) todo' in
            (r, RateSleep :: Get url :: BackoffSleep retry_delay :: evs)
          else (None, [RateSleep; Get url])
      | HttpError => (None, [RateSleep; Get url])
      end
  end.

Definition make_request_with (max_retries base : nat) (site : Site)
           (url : string) : option Page * list Event :=
  request_loop max_retries base (site url) url 0 max_retries.

(** [ARCATScraper._make_request] and [SWEETSScraper._make_request] *)
Definition _make_request (site : Site) (url : string)
  : option Page * list Event :=
  make_request_with MAX_RETRIES RETRY_DELAY_BASE site url.

(** [SWEETSScraper._make_request_raw]: only a timeout is retried; a
    connection error is a [RequestException] like any other there. *)
Fixpoint request_raw_loop (max_retries base : nat) (outcomes : nat -> Outcome)
         (url : string) (attempt todo : nat) : option Page * list Event :=
  match todo with
  | O => (None, [])
  | S todo' =>
      match outcomes attempt with
      | Ok p => (Some p, [RateSleep; Get url])
      | Timeout =>
          let retry_delay := base * 2 ^ attempt in
          if attempt <? max_retries - 1 then
            let '(r, evs) :=
              request_raw_loop max_retries base outcomes url (S attempt) todo' in
            (r, RateSleep :: Get url :: BackoffSleep retry_delay :: evs)
          else (None, [RateSleep; Get url])
      | ConnectionError | HttpError => (None, [RateSleep; Get url])
      end
  end.

Definition _make_request_raw (site : Site) (url : string)
  : option Page * list Event :=
  request_raw_loop MAX_RETRIES RETRY_DELAY_BASE (site url) url 0 MAX_RETRIES.

(** The requests of a trace and its back-off sleeps, in order. *)
Definition gets (evs : list Event) : list string :=
  flat_map (fun e => match e with Get u => [u] | _ => [] end) evs.

Definition backoffs (evs : list Event) : list nat :=
  flat_map (fun e => match e with BackoffSleep d => [d] | _ => [] end) evs.

(** A transient failure: the two kinds that [_make_request] retries. *)
Definition transient (o : Outcome) : bool :=
  match o with
  | Timeout | ConnectionError => true
  | _ => false
  end.

(** Strictly increasing lists of delays. *)
Fixpoint increasing (l : list nat) : Prop :=
  match l with
  | [] => True
  | x :: l' =>
      match l' with
      | [] => True
      | y :: _ => x < y /\ increasing l'
      end
  end.

(* ------------------------------------------------------------------ *)
(** ** Progress tracker *)
(* ------------------------------------------------------------------ *)

(** Python floats are idealised as rationals: the guards of the tracker
    compare with zero and test emptiness, which is what the model keeps.
    A division is a partial operation, [None] standing for
    ZeroDivisionError. *)

Definition Qeq_zero (q : Q) : bool := Qeq_bool q 0%Q.

Definition py_div (a b : Q) : option Q :=
  if Qeq_zero b then None else Some (a / b)%Q.

Definition Qsum (l : list Q) : Q := fold_left Qplus l 0%Q.

Definition Qnat (n : nat) : Q := inject_Z (Z.of_nat n).

Module ProgressTracker.

Record t : Type := {
  start_time : option Q;
  total_items : nat;            (* total_companies in arcat_scraper.py *)
  scraped_items : nat;          (* scraped_companies in arcat_scraper.py *)
  scrape_times : list Q;
  last_update_time : option Q
}.

(** [__init__] *)
Definition init : t :=
  {| start_time := None; total_items := 0; scraped_items := 0;
     scrape_times := []; last_update_time := None |}.

(** [start(total)], the two readings of the clock being [now1], [now2]. *)
Definition start (now1 now2 : Q) (total : nat) (p : t) : t :=
  {| start_time := Some now1; total_items := total; scraped_items := 0;
     scrape_times := []; last_update_time := Some now2 |}.

Definition set_total (total : nat) (p : t) : t :=
  {| start_time := start_time p; total_items := total;
     scraped_items := scraped_items p; scrape_times := scrape_times p;
     last_update_time := last_update_time p |}.

(** [l[-100:]] *)
Definition last100 (l : list Q) : list Q := skipn (List.length l - 100) l.

(** [if self.last_update_time:] a time of 0.0 is falsy, like None. *)
Definition truthy_time (o : option Q) : option Q :=
  match o with
  | Some q => if Qeq_zero q then None else Some q
  | None => None
  end.

(** [update(count)] at clock reading [now]. *)
Definition update (now : Q) (count : nat) (p : t) : t :=
  let times :=
    match truthy_time (last_update_time p) with
    | Some last =>
        let l := scrape_times p ++ [(now - last)%Q] in
        if 100 <? List.length l then last100 l else l
    | None => scrape_times p
    end in
  {| start_time := start_time p; total_items := total_items p;
     scraped_items := scraped_items p + count; scrape_times := times;
     last_update_time := Some now |}.

(** [get_percentage] *)
Definition get_percentage (p : t) : option Q :=
  if total_items p =? 0 then Some 0%Q
  else
    match py_div (Qnat (scraped_items p)) (Qnat (total_items p)) with
    | Some q => Some (q * 100)%Q
    | None => None
    end.

(** [get_eta_seconds] *)
Definition get_eta_seconds (p : t) : option Q :=
  match scrape_times p with
  | [] => Some 0%Q
  | _ =>
      if scraped_items p =? 0 then Some 0%Q
      else
        match py_div (Qsum (scrape_times p))
                     (Qnat (List.length (scrape_times p))) with
        | Some avg_time =>
            let remaining :=
              inject_Z (Z.of_nat (total_items p) - Z.of_nat (scraped_items p))%Z in
            Some (avg_time * remaining)%Q
        | None => None
        end
  end.

(** [get_speed] *)
Definition get_speed (p : t) : option Q :=
  match scrape_times p with
  | [] => Some 0%Q
  | _ =>
      match py_div (Qsum (scrape_times p))
                   (Qnat (List.length (scrape_times p))) with
      | Some avg_time =>
          if Qeq_zero avg_time then Some 0%Q else py_div 60%Q avg_time
      | None => None
      end
  end.

End ProgressTracker.

(* ------------------------------------------------------------------ *)
(** ** Tables of the scrapers *)
(* ------------------------------------------------------------------ *)

Definition table := list (string * string).

(** [d.get(k, default)] *)
Fixpoint table_get (d : table) (k default : string) : string :=
  match d with
  | [] => default
  | (k', v) :: d' => if String.eqb k' k then v else table_get d' k default
  end.

Definition US_STATES : table :=
  [ ("AL", "Alabama"); ("AK", "Alaska"); ("AZ", "Arizona"); ("AR", "Arkansas");
    ("CA", "California"); ("CO", "Colorado"); ("CT", "Connecticut");
    ("DE", "Delaware"); ("FL", "Florida"); ("GA", "Georgia"); ("HI", "Hawaii");
    ("ID", "Idaho"); ("IL", "Illinois"); ("IN", "Indiana"); ("IA", "Iowa");
    ("KS", "Kansas"); ("KY", "Kentucky"); ("LA", "Louisiana"); ("ME", "Maine");
    ("MD", "Maryland"); ("MA", "Massachusetts"); ("MI", "Michigan");
    ("MN", "Minnesota"); ("MS", "Mississippi"); ("MO", "Missouri");
    ("MT", "Montana"); ("NE", "Nebraska"); ("NV", "Nevada");
    ("NH", "New Hampshire"); ("NJ", "New Jersey"); ("NM", "New Mexico");
    ("NY", "New York"); ("NC", "North Carolina"); ("ND", "North Dakota");
    ("OH", "Ohio"); ("OK", "Oklahoma"); ("OR", "Oregon"); ("PA", "Pennsylvania");
    ("RI", "Rhode Island"); ("SC", "South Carolina"); ("SD", "South Dakota");
    ("TN", "Tennessee"); ("TX", "Texas"); ("UT", "Utah"); ("VT", "Vermont");
    ("VA", "Virginia"); ("WA", "Washington"); ("WV", "West Virginia");
    ("WI", "Wisconsin"); ("WY", "Wyoming"); ("DC", "District of Columbia") ].

(** The street-type words of the address patterns, in pattern order. *)
Definition STREET_WORDS : list string :=
  [ "Rd"; "St"; "Ave"; "Dr"; "Blvd"; "Way"; "Ln"; "Pkwy"; "Place"; "Pl";
    "Circle"; "Ct"; "Court"; "Road"; "Street"; "Avenue"; "Drive";
    "Boulevard"; "Lane"; "Parkway" ].

(** Classes and pieces that recur in the patterns. *)
Definition is_alnum (c : ascii) : bool := is_alpha c || is_digit c.
Definition upper2 : regex := rep 2 (Chr is_upper).                 (* [A-Z]{2} *)
Definition spaces : regex := many space.                           (* \s* *)
Definition quoted (r : regex) : regex := seqs [ch dq; r; ch dq].
Definition no_dq : regex := many (not_ch dq).                      (* [^DQ]* *)
Definition zip5 : regex := rep 5 digit.                            (* \d{5} *)
Definition zip9 : regex :=                                         (* \d{5}(?:-\d{4})? *)
  Seq zip5 (opt (Seq (ch "-") (rep 4 digit))).
Definition sep_opt (cs : string) : regex := opt (cls cs).

(** \d{3}[-.\s]?\d{3}[-.\s]?\d{4} *)
Definition is_phone_sep (c : ascii) : bool := char_in "-." c || is_space c.
Definition phone_loose : regex :=
  seqs [rep 3 digit; opt (Chr is_phone_sep); rep 3 digit;
        opt (Chr is_phone_sep); rep 4 digit].

(** \d{3}[-.\s]\d{3}[-.\s]\d{4} *)
Definition phone_strict : regex :=
  seqs [rep 3 digit; Chr is_phone_sep; rep 3 digit; Chr is_phone_sep;
        rep 4 digit].

(** [a-zA-Z0-9._%+-]+@[a-zA-Z0-9.-]+\.[a-zA-Z]{2,} *)
Definition is_email_local (c : ascii) : bool := is_alnum c || char_in "._%+-" c.
Definition is_domain_char (c : ascii) : bool := is_alnum c || char_in ".-" c.
Definition email_re : regex :=
  seqs [some (Chr is_email_local); ch "@"; some (Chr is_domain_char); ch ".";
        at_least 2 (Chr is_alpha)].

(** [A-Z][a-z]+\s+[A-Z][a-z]+ *)
Definition person_name : regex :=
  seqs [Chr is_upper; some (Chr is_lower); some space; Chr is_upper;
        some (Chr is_lower)].

(** [s.zfill(2)] for a string of digits. *)
Definition zfill2 (s : string) : string :=
  match s with
  | EmptyString => "00"
  | String c EmptyString => String "0" (String c EmptyString)
  | _ => s
  end.

(** [s[:n]] *)
Fixpoint str_take (n : nat) (s : string) : string :=
  match n, s with
  | O, _ => EmptyString
  | _, EmptyString => EmptyString
  | S n', String c s' => String c (str_take n' s')
  end.

(** [l[:n] if n else l]: None and 0 both mean no limit. *)
Definition limit {A : Type} (n : option nat) (l : list A) : list A :=
  match n with
  | None | Some O => l
  | Some k => firstn k l
  end.

(** How many elements [limit n l] keeps. *)
Definition limit_len {A : Type} (n : option nat) (l : list A) : nat :=
  List.length (limit n l).

(** First element satisfying [f], as a loop with [break] finds it. *)
Fixpoint first_some {A B : Type} (f : A -> option B) (l : list A) : option B :=
  match l with
  | [] => None
  | x :: l' => match f x with Some y => Some y | None => first_some f l' end
  end.

(** The first pattern of a list that matches, as the loops with [break]
    find it. *)
Definition first_match (patterns : list regex) (s : string) : option rmatch :=
  first_some (fun r => search r s) patterns.

Definition group1 (o : option rmatch) : string :=
  match o with Some m => group m 1 | None => EmptyString end.

(** [not l] *)
Definition is_nil {A : Type} (l : list A) : bool :=
  match l with [] => true | _ => false end.

(** ^https?:// *)
Definition http_start : regex :=
  seqs [Bol; lit "http"; opt (ch "s"); lit "://"].

(* ------------------------------------------------------------------ *)
(** ** arcat_scraper.py *)
(* ------------------------------------------------------------------ *)

Module Arcat.

Definition BASE_URL : string := "https://www.arcat.com".

Definition STATE_ABBREV_TO_FULL : table :=
  US_STATES ++
  [ ("AB", "Alberta"); ("BC", "British Columbia"); ("MB", "Manitoba");
    ("NB", "New Brunswick"); ("NL", "Newfoundland and Labrador");
    ("NS", "Nova Scotia"); ("NT", "Northwest Territories"); ("NU", "Nunavut");
    ("ON", "Ontario"); ("PE", "Prince Edward Island"); ("QC", "Quebec");
    ("SK", "Saskatchewan"); ("YT", "Yukon") ].

Definition ASSOCIATION_KEYWORDS : list string :=
  [ "association"; "institute"; "society"; "council"; "foundation";
    "federation"; "board"; "committee"; "organization"; "alliance";
    "coalition"; "consortium"; "forum"; "guild"; "league"; "union" ].

(** *** Data model *)

Record Company : Type := {
  name : string;
  url : string;
  company_id : string;
  address : string;
  state : string;
  phone : string;
  website : string;
  email : string;
  product_expert_name : string;
  product_expert_phone : string;
  product_expert_email : string;
  products : list string;
  building_product_category : string
}.

(** [Company(name=..., url=..., company_id=..., building_product_category=...)] *)
Definition new_company (n u cid cat : string) : Company :=
  {| name := n; url := u; company_id := cid; address := EmptyString;
     state := EmptyString; phone := EmptyString; website := EmptyString;
     email := EmptyString; product_expert_name := EmptyString;
     product_expert_phone := EmptyString;
     product_expert_email := EmptyString; products := [];
     building_product_category := cat |}.

Definition set_address (v : string) (c : Company) : Company :=
  {| name := name c; url := url c; company_id := company_id c; address := v;
     state := state c; phone := phone c; website := website c;
     email := email c; product_expert_name := product_expert_name c;
     product_expert_phone := product_expert_phone c;
     product_expert_email := product_expert_email c; products := products c;
     building_product_category := building_product_category c |}.

Definition set_state (v : string) (c : Company) : Company :=
  {| name := name c; url := url c; company_id := company_id c;
     address := address c; state := v; phone := phone c;
     website := website c; email := email c;
     product_expert_name := product_expert_name c;
     product_expert_phone := product_expert_phone c;
     product_expert_email := product_expert_email c; products := products c;
     building_product_category := building_product_category c |}.

Definition set_phone (v : string) (c : Company) : Company :=
  {| name := name c; url := url c; company_id := company_id c;
     address := address c; state := state c; phone := v;
     website := website c; email := email c;
     product_expert_name := product_expert_name c;
     product_expert_phone := product_expert_phone c;
     product_expert_email := product_expert_email c; products := products c;
     building_product_category := building_product_category c |}.

Definition set_website (v : string) (c : Company) : Company :=
  {| name := name c; url := url c; company_id := company_id c;
     address := address c; state := state c; phone := phone c;
     website := v; email := email c;
     product_expert_name := product_expert_name c;
     product_expert_phone := product_expert_phone c;
     product_expert_email := product_expert_email c; products := products c;
     building_product_category := building_product_category c |}.

Definition set_email (v : string) (c : Company) : Company :=
  {| name := name c; url := url c; company_id := company_id c;
     address := address c; state := state c; phone := phone c;
     website := website c; email := v;
     product_expert_name := product_expert_name c;
     product_expert_phone := product_expert_phone c;
     product_expert_email := product_expert_email c; products := products c;
     building_product_category := building_product_category c |}.

Definition set_product_expert (n p e : string) (c : Company) : Company :=
  {| name := name c; url := url c; company_id := company_id c;
     address := address c; state := state c; phone := phone c;
     website := website c; email := email c; product_expert_name := n;
     product_expert_phone := p; product_expert_email := e;
     products := products c;
     building_product_category := building_product_category c |}.

Record Specification : Type := {
  csi_code : string;
  title : string;
  spec_division : string
}.

Record Division : Type := {
  code : string;
  dname : string;
  durl : string;
  specifications : list Specification;
  companies : list Company
}.

Definition new_division (c n u : string) : Division :=
  {| code := c; dname := n; durl := u; specifications := []; companies := [] |}.

Definition set_companies (cs : list Company) (d : Division) : Division :=
  {| code := code d; dname := dname d; durl := durl d;
     specifications := specifications d; companies := cs |}.

(** A sub-category or related division of a category: a dict with the
    keys name and url. *)
Record NamedLink : Type := { link_name : string; link_url : string }.

Record BuildingProductCategory : Type := {
  cname : string;
  curl : string;
  subcategories : list NamedLink;
  related_csi_divisions : list NamedLink;
  ccompanies : list Company
}.

(** *** Listing pages *)

(** /content-type/product/[\w-]+-\d+/[\w-]+-\d+ *)
Definition slug_id : regex :=
  seqs [some (Chr (fun c => is_word c || Ascii.eqb c "-")); ch "-"; some digit].

Definition csi_link_re : regex :=
  seqs [lit "/content-type/product/"; slug_id; ch "/"; slug_id].

(** ^(\d+)\s*-\s*(.+)$ *)
Definition csi_text_re : regex :=
  seqs [Bol; Grp 1 (some digit); spaces; ch "-"; spaces;
        Grp 2 (some any_char); Eol].

(** The loop of [scrape_related_csi_divisions] over the links: a link
    whose [href] was seen is skipped; a text of the form code - name
    gives a division. *)
Fixpoint csi_divisions_loop (links : list Anchor) (seen_urls : list string)
  : list Division :=
  match links with
  | [] => []
  | link :: rest =>
      if mem (href link) seen_urls then csi_divisions_loop rest seen_urls
      else
        let seen_urls' := href link :: seen_urls in
        let full_url := (BASE_URL ++ href link)%string in
        match rmatch_start csi_text_re (atext link) with
        | Some m =>
            let formatted_code := (zfill2 (group m 1) ++ " 00 00")%string in
            new_division formatted_code (strip (group m 2)) full_url
              :: csi_divisions_loop rest seen_urls'
        | None => csi_divisions_loop rest seen_urls'
        end
  end.

Definition categories_url : string :=
  (BASE_URL ++ "/products/building_products_categories")%string.

(** [scrape_related_csi_divisions]: the new value of [self.divisions]
    (None when the request fails: the attribute is left alone) and the
    trace of the request. *)
Definition scrape_related_csi_divisions (site : Site)
  : option (list Division) * list Event :=
  let '(soup, evs) := _make_request site categories_url in
  match soup with
  | None => (None, evs)
  | Some p => (Some (csi_divisions_loop (find_links csi_link_re p) []), evs)
  end.

(** [_is_association] *)
Definition _is_association (company_name : string) : bool :=
  let name_lower := lower company_name in
  any_in ASSOCIATION_KEYWORDS name_lower.

(** /company/[\w-]+-\d+(?:\?|$) *)
Definition company_link_re : regex :=
  seqs [lit "/company/"; slug_id; Alt (ch "?") Eol].

(** -(\d+)(?:\?|$) *)
Definition company_id_re : regex :=
  seqs [ch "-"; Grp 1 (some digit); Alt (ch "?") Eol].

(** [seen_companies]: a dict from the link without its query to the
    company, in insertion order. *)
Definition seen_dict := list (string * Company).

Definition dict_has (k : string) (d : seen_dict) : bool :=
  existsb (fun kv => String.eqb k (fst kv)) d.

(** [href.split('?')[0]] *)
Definition base_href_of (h : string) : string := before_char "?" h.

(** One iteration of the loop of [scrape_division_manufacturers] over
    the company links; the state is [seen_companies] and
    [skipped_associations]. *)
Definition manufacturers_step (d : Division) (st : seen_dict * nat)
           (link : Anchor) : seen_dict * nat :=
  let '(seen_companies, skipped_associations) := st in
  let h := href link in
  let company_name := atext link in
  if is_empty company_name || contains "/cad" h || contains "/bim" h
     || contains "/spec" h
  then st
  else
    let base_href := base_href_of h in
    if dict_has base_href seen_companies then st
    else if _is_association company_name
    then (seen_companies, S skipped_associations)
    else
      let cid :=
        match search company_id_re h with
        | Some m => group m 1
        | None => EmptyString
        end in
      let full_url := if startswith "/" h then (BASE_URL ++ h)%string else h in
      let company :=
        new_company company_name full_url cid
                    (code d ++ " - " ++ dname d)%string in
      (seen_companies ++ [(base_href, company)], skipped_associations).

Definition manufacturers_loop (d : Division) (links : list Anchor)
  : seen_dict * nat :=
  fold_left (manufacturers_step d) links ([], 0).

(** [scrape_division_manufacturers]: the division comes back unchanged
    when the request fails; otherwise its companies are replaced by the
    values of [seen_companies]. *)
Definition scrape_division_manufacturers (site : Site) (d : Division)
  : Division * list Event :=
  let '(soup, evs) := _make_request site (durl d) in
  match soup with
  | None => (d, evs)
  | Some p =>
      let '(seen_companies, _) :=
        manufacturers_loop d (find_links company_link_re p) in
      (set_companies (map snd seen_companies) d, evs)
  end.

(** ^/manufacturers/[a-z_-]+$ *)
Definition subcategory_link_re : regex :=
  seqs [Bol; lit "/manufacturers/";
        some (Chr (fun c => is_lower c || char_in "_-" c)); Eol].

(** /content-type/spec/[\w-]+-\d+$ *)
Definition spec_link_re : regex :=
  seqs [lit "/content-type/spec/"; slug_id; Eol].

(** [s.title()]: the first letter of every run of letters in upper
    case, the others in lower case. *)
Fixpoint title_from (prev_alpha : bool) (s : string) : string :=
  match s with
  | EmptyString => EmptyString
  | String c s' =>
      String (if prev_alpha then lower_char c else upper_char c)
             (title_from (is_alpha c) s')
  end.

Definition title_case (s : string) : string := title_from false s.

(** [s.replace(a, b)] for single characters. *)
Definition replace_char (a b : ascii) (s : string) : string :=
  map_str (fun c => if Ascii.eqb c a then b else c) s.

(** [href.split('/')[-1]] *)
Definition last_segment (h : string) : string :=
  List.last (split_char "/" h) EmptyString.

(** The two loops of [scrape_category_subcategories]: each appends to
    the list the category already has. *)
Fixpoint subcategories_loop (links : list Anchor) (seen_urls : list string)
         (acc : list NamedLink) : list NamedLink :=
  match links with
  | [] => acc
  | link :: rest =>
      if mem (href link) seen_urls then subcategories_loop rest seen_urls acc
      else
        let full_url := (BASE_URL ++ href link)%string in
        let subcategory_name :=
          title_case (replace_char "-" " "
                        (replace_char "_" " " (last_segment (href link)))) in
        subcategories_loop rest (href link :: seen_urls)
          (acc ++ [{| link_name := subcategory_name; link_url := full_url |}])
  end.

Fixpoint related_csi_loop (links : list Anchor) (seen_csi : list string)
         (acc : list NamedLink) : list NamedLink :=
  match links with
  | [] => acc
  | link :: rest =>
      if mem (href link) seen_csi then related_csi_loop rest seen_csi acc
      else
        let full_url := (BASE_URL ++ href link)%string in
        related_csi_loop rest (href link :: seen_csi)
          (acc ++ [{| link_name := atext link; link_url := full_url |}])
  end.

(** [scrape_category_subcategories] *)
Definition scrape_category_subcategories (site : Site)
           (category : BuildingProductCategory)
  : BuildingProductCategory * list Event :=
  let '(soup, evs) := _make_request site (curl category) in
  match soup with
  | None => (category, evs)
  | Some p =>
      ({| cname := cname category; curl := curl category;
          subcategories :=
            subcategories_loop (find_links subcategory_link_re p) []
                               (subcategories category);
          related_csi_divisions :=
            related_csi_loop (find_links spec_link_re p) []
                             (related_csi_divisions category);
          ccompanies := ccompanies category |}, evs)
  end.

(** *** Detail pages: the serialized (NUXT) data *)

Record NuxtData : Type := {
  n_address : string;
  n_city : string;
  n_state : string;
  n_zip : string;
  n_phone : string;
  n_email : string;
  n_website : string
}.

Definition nuxt_empty : NuxtData :=
  {| n_address := EmptyString; n_city := EmptyString; n_state := EmptyString;
     n_zip := EmptyString; n_phone := EmptyString; n_email := EmptyString;
     n_website := EmptyString |}.

(** The street field, a quoted group:
    DQ( \d+ [^DQ]* (?:Rd|St|...|Parkway) \.? [^DQ]* )DQ *)
Definition street_field : regex :=
  quoted (Grp 1 (seqs [some digit; no_dq; lits STREET_WORDS; opt (ch ".");
                       no_dq])).

Definition comma : regex := Seq (ch ",") spaces.                    (* ,\s* *)

(** Pattern 1, with null between ZIP and phone (IGNORECASE); each field
    is followed by a comma and \s*:
    street  DQ( [^DQ]* )DQ  DQ( [A-Z]{2} )DQ  DQ( \d{5}(?:-\d{4})? )DQ
    null  DQ( [^DQ]* )DQ  DQ( [^DQ]* @ [^DQ]* )DQ *)
Definition pattern_with_null : regex :=
  icase (seqs [street_field; comma; quoted (Grp 2 no_dq); comma;
               quoted (Grp 3 upper2); comma; quoted (Grp 4 zip9); comma;
               lit "null"; comma; quoted (Grp 5 no_dq); comma;
               quoted (Grp 6 (seqs [no_dq; ch "@"; no_dq]))]).

(** Pattern 2, phone directly after ZIP (IGNORECASE). *)
Definition pattern_direct : regex :=
  icase (seqs [street_field; comma; quoted (Grp 2 no_dq); comma;
               quoted (Grp 3 upper2); comma; quoted (Grp 4 zip9); comma;
               quoted (Grp 5 no_dq); comma;
               quoted (Grp 6 (seqs [no_dq; ch "@"; no_dq]))]).

(** Pattern 3, no email required; after the ZIP field:
    (?:null,\s* )?  DQ( \d{3}[-.]?\d{3}[-.]?\d{4} )DQ *)
Definition pattern3 : regex :=
  icase (seqs [street_field; comma; quoted (Grp 2 no_dq); comma;
               quoted (Grp 3 upper2); comma; quoted (Grp 4 zip9); comma;
               opt (Seq (lit "null") comma);
               quoted (Grp 5 (seqs [rep 3 digit; sep_opt "-."; rep 3 digit;
                                    sep_opt "-."; rep 4 digit]))]).

(** Pattern 4, Canadian (IGNORECASE); after the city field:
    DQ( [A-Z]{2} ),?\s* Canada DQ   DQ( [A-Z]\d[A-Z]\s*\d[A-Z]\d )DQ
    DQ( [^DQ]* )DQ  DQ( [^DQ]* )DQ  DQ( [^DQ]* @ [^DQ]* )DQ *)
Definition postal_ca : regex :=
  seqs [Chr is_upper; digit; Chr is_upper; spaces; digit; Chr is_upper; digit].

Definition pattern_canada : regex :=
  icase (seqs [street_field; comma; quoted (Grp 2 no_dq); comma;
               seqs [ch dq; Grp 3 upper2; opt (ch ","); spaces; lit "Canada";
                     ch dq];
               comma; quoted (Grp 4 postal_ca); comma; quoted (Grp 5 no_dq);
               comma; quoted (Grp 6 no_dq); comma;
               quoted (Grp 7 (seqs [no_dq; ch "@"; no_dq]))]).

(** DQ( https?:// (?:www\.)? (?! .* arcat\.com ) [a-zA-Z0-9] [-a-zA-Z0-9]*
    \. [a-zA-Z]{2,} (?: / [^DQ]* )? )DQ *)
Definition website_pattern : regex :=
  quoted (Grp 1 (seqs [lit "http"; opt (ch "s"); lit "://"; opt (lit "www.");
                       NotAhead (Seq (many any_char) (lit "arcat.com"));
                       Chr is_alnum;
                       many (Chr (fun c => is_alnum c || Ascii.eqb c "-"));
                       ch "."; at_least 2 (Chr is_alpha);
                       opt (Seq (ch "/") no_dq)])).

Definition skip_domains : list string :=
  [ "facebook"; "twitter"; "linkedin"; "google"; "youtube"; "clarity";
    "analytics"; "schema.org"; "w3.org"; "cloudflare"; "jsdelivr";
    "googleapis"; "gstatic"; "microsoft"; "bing"; "doubleclick" ].

Definition set_contact (a c s z p e : string) (d : NuxtData) : NuxtData :=
  {| n_address := a; n_city := c; n_state := s; n_zip := z; n_phone := p;
     n_email := e; n_website := n_website d |}.

Definition set_n_website (w : string) (d : NuxtData) : NuxtData :=
  {| n_address := n_address d; n_city := n_city d; n_state := n_state d;
     n_zip := n_zip d; n_phone := n_phone d; n_email := n_email d;
     n_website := w |}.

(** [a or b] on strings *)
Definition str_or (a b : string) : string := if is_empty a then b else a.

(** [_extract_from_nuxt_data]: the four patterns in turn, each tried
    only while the address is still empty; then the web site. *)
Definition _extract_from_nuxt_data (html : string) : NuxtData :=
  let data := nuxt_empty in
  let data :=
    match search pattern_with_null html with
    | Some m =>
        set_contact (strip (group m 1)) (strip (group m 2)) (strip (group m 3))
                    (strip (group m 4)) (strip (group m 5)) (strip (group m 6))
                    data
    | None => data
    end in
  let data :=
    if is_empty (n_address data) then
      match search pattern_direct html with
      | Some m =>
          set_contact (strip (group m 1)) (strip (group m 2))
                      (strip (group m 3)) (strip (group m 4))
                      (strip (group m 5)) (strip (group m 6)) data
      | None => data
      end
    else data in
  let data :=
    if is_empty (n_address data) then
      match search pattern3 html with
      | Some m =>
          set_contact (strip (group m 1)) (strip (group m 2))
                      (strip (group m 3)) (strip (group m 4))
                      (strip (group m 5)) (n_email data) data
      | None => data
      end
    else data in
  let data :=
    if is_empty (n_address data) then
      match search pattern_canada html with
      | Some m =>
          set_contact (strip (group m 1)) (strip (group m 2))
                      (strip (group m 3)) (strip (group m 4))
                      (str_or (strip (group m 5)) (strip (group m 6)))
                      (strip (group m 7)) data
      | None => data
      end
    else data in
  match find (fun u => negb (any_in skip_domains (lower u)))
             (findall1 website_pattern html) with
  | Some u => set_n_website u data
  | None => data
  end.

(** *** Detail pages: the rendered page (Selenium mode) *)

Record RenderedData : Type := {
  r_address : string;
  r_state : string;
  r_phone : string;
  r_email : string;
  r_website : string
}.

Definition STREET_WORDS_RENDERED : list string :=
  [ "Rd"; "Road"; "St"; "Street"; "Ave"; "Avenue"; "Dr"; "Drive"; "Blvd";
    "Boulevard"; "Way"; "Ln"; "Lane"; "Pkwy"; "Parkway"; "Place"; "Pl";
    "Circle"; "Court"; "Ct" ].

(** [\w\s\.\,] *)
Definition is_addr_char (c : ascii) : bool :=
  is_word c || is_space c || char_in ".," c.

(** ( \d+ [\w\s\.\,]+ (?:Rd|Road|...|Ct) \.? [\w\s\.\,]+ ,? \s* [A-Z]{2}
      \s+ \d{5}(?:-\d{4})? )   (IGNORECASE) *)
Definition rendered_address_full : regex :=
  icase (Grp 1 (seqs [some digit; some (Chr is_addr_char);
                      lits STREET_WORDS_RENDERED; opt (ch ".");
                      some (Chr is_addr_char); opt (ch ","); spaces; upper2;
                      some space; zip9])).

(** P\.?\s* O\.?\s* Box \s+ \d+ *)
Definition po_box : regex :=
  seqs [ch "P"; opt (ch "."); spaces; ch "O"; opt (ch "."); spaces; lit "Box";
        some space; some digit].

(** ( P\.?\s*O\.?\s*Box\s+\d+ [\w\s\.\,]+ ,? \s* [A-Z]{2} \s+ \d{5} )
    (IGNORECASE) *)
Definition rendered_address_pobox : regex :=
  icase (Grp 1 (seqs [po_box; some (Chr is_addr_char); opt (ch ","); spaces;
                      upper2; some space; zip5])).

(** ,? \s* ([A-Z]{2}) \s+ \d{5} *)
Definition rendered_state_re : regex :=
  seqs [opt (ch ","); spaces; Grp 1 upper2; some space; zip5].

(** [:\s]* *)
Definition colon_spaces : regex :=
  many (Chr (fun c => Ascii.eqb c ":" || is_space c)).

(** (?:Phone|Tel|Telephone) [:\s]* ( phone )   (IGNORECASE) *)
Definition phone_labelled : regex :=
  icase (seqs [lits ["Phone"; "Tel"; "Telephone"]; colon_spaces;
               Grp 1 phone_loose]).

(** (?:Toll\s*Free) [:\s]* ( phone )   (IGNORECASE) *)
Definition phone_toll_free : regex :=
  icase (seqs [lit "Toll"; spaces; lit "Free"; colon_spaces;
               Grp 1 phone_loose]).

(** ( \d{3}[-.\s]\d{3}[-.\s]\d{4} )   (IGNORECASE) *)
Definition phone_bare : regex := icase (Grp 1 phone_strict).

(** ^mailto: and mailto:([^\?]+) *)
Definition mailto_start : regex := Seq Bol (lit "mailto:").
Definition mailto_target : regex :=
  Seq (lit "mailto:") (Grp 1 (some (not_ch "?"))).

(** \b ( email ) \b *)
Definition email_in_text : regex := seqs [WordB; Grp 1 email_re; WordB].

(** \.[a-z]{2,4}/?$ *)
Definition tld_end : regex :=
  seqs [ch "."; between 2 4 (Chr is_lower); opt (ch "/"); Eol].

Definition rendered_excluded_domains : list string :=
  [ "facebook.com"; "twitter.com"; "linkedin.com"; "instagram.com";
    "youtube.com"; "arcat.com"; "pinterest.com"; "tiktok.com"; "google.com";
    "clarity.ms" ].

Definition is_doc_link (h : string) : bool :=
  contains "/spec-doc/" h || contains "/specification/" h.

(** [_extract_from_rendered_html] *)
Definition _extract_from_rendered_html (p : Page) : RenderedData :=
  let page_text := text_sep p in
  let '(addr_v, state_v) :=
    match first_match [rendered_address_full; rendered_address_pobox]
                      page_text with
    | Some m =>
        let addr := strip (group m 1) in
        (sub (some space) " " addr, group1 (search rendered_state_re addr))
    | None => (EmptyString, EmptyString)
    end in
  let phone_v :=
    match first_match [phone_labelled; phone_toll_free; phone_bare]
                      page_text with
    | Some m => strip (group m 1)
    | None => EmptyString
    end in
  let email_v :=
    match find (fun l => matches mailto_start (href l)) (anchors p) with
    | Some mailto_link =>
        match search mailto_target (href mailto_link) with
        | Some m => strip (group m 1)
        | None => EmptyString
        end
    | None =>
        match search email_in_text page_text with
        | Some m =>
            let e := group m 1 in
            if any_in ["noreply"; "donotreply"; "unsubscribe"; "@arcat"]
                      (lower e)
            then EmptyString else e
        | None => EmptyString
        end
    end in
  let website_v :=
    match find (fun l =>
                  let h := href l in
                  negb (any_in rendered_excluded_domains (lower h))
                  && negb (is_doc_link h)
                  && (contains "www." h || matches tld_end h))
               (find_links http_start p) with
    | Some l => href l
    | None => EmptyString
    end in
  {| r_address := addr_v; r_state := state_v; r_phone := phone_v;
     r_email := email_v; r_website := website_v |}.

(** *** Detail pages: [scrape_company_details] *)

(** The function mutates [company] and may stop with an exception
    (calling a method of [soup] when it is None): [Raised] carries the
    company as mutated so far. *)
Inductive Res : Type :=
| Fine (c : Company)
| Raised (c : Company).

Definition bind (r : Res) (f : Company -> Res) : Res :=
  match r with
  | Fine c => f c
  | Raised c => Raised c
  end.

Notation "x <- r ;; k" := (bind r (fun x => k))
  (at level 61, r at next level, right associativity).

Definition res_company (r : Res) : Company :=
  match r with Fine c | Raised c => c end.

Definition raised (r : Res) : bool :=
  match r with Fine _ => false | Raised _ => true end.

(** The values of the rendered page go into the company where they are
    non-empty; the state only together with the address. *)
Definition apply_rendered (rd : RenderedData) (company : Company) : Company :=
  let company :=
    if nonempty (r_address rd) then
      let company := set_address (r_address rd) company in
      if nonempty (r_state rd)
      then set_state (table_get STATE_ABBREV_TO_FULL (upper (r_state rd))
                                (r_state rd)) company
      else company
    else company in
  let company :=
    if nonempty (r_phone rd) then set_phone (r_phone rd) company else company in
  let company :=
    if nonempty (r_email rd) then set_email (r_email rd) company else company in
  if nonempty (r_website rd) then set_website (r_website rd) company
  else company.

(** The values of the serialized data go into the company where they
    are non-empty, whatever the company holds. *)
Definition apply_nuxt (nuxt_data : NuxtData) (company : Company) : Company :=
  let company :=
    if nonempty (n_address nuxt_data) then
      let city := strip (n_city nuxt_data) in
      let st := strip (n_state nuxt_data) in
      let zip_code := strip (n_zip nuxt_data) in
      let company :=
        set_address
          (strip_chars ", "
             (n_address nuxt_data ++ ", " ++ city ++ ", " ++ st ++ " "
                ++ zip_code)%string) company in
      set_state (table_get STATE_ABBREV_TO_FULL (upper st) st) company
    else company in
  let company :=
    if nonempty (n_phone nuxt_data) then set_phone (n_phone nuxt_data) company
    else company in
  let company :=
    if nonempty (n_email nuxt_data) then set_email (n_email nuxt_data) company
    else company in
  if nonempty (n_website nuxt_data)
  then set_website (n_website nuxt_data) company
  else company.

Definition STREET_WORDS_TEXT : list string :=
  [ "Ave"; "Avenue"; "St"; "Street"; "Rd"; "Road"; "Dr"; "Drive"; "Blvd";
    "Boulevard"; "Pkwy"; "Parkway"; "Way"; "Ln"; "Lane"; "Circle"; "Court";
    "Ct"; "Place"; "Pl" ].

(** [,\s]+ and [\w\s]+ and [\w\s\.]+ *)
Definition comma_or_space : regex :=
  some (Chr (fun c => Ascii.eqb c "," || is_space c)).
Definition words : regex := some (Chr (fun c => is_word c || is_space c)).
Definition words_dots : regex :=
  some (Chr (fun c => is_word c || is_space c || Ascii.eqb c ".")).

(** ( \d+ \s+ [\w\s\.]+ (?:Ave|...|Pl) \.? [,\s]+ [\w\s]+ , \s* [A-Z]{2}
      \s* \d{5}(?:-\d{4})? )   (IGNORECASE) *)
Definition text_address_full : regex :=
  icase (Grp 1 (seqs [some digit; some space; words_dots;
                      lits STREET_WORDS_TEXT; opt (ch "."); comma_or_space;
                      words; ch ","; spaces; upper2; spaces; zip9])).

(** ( P\.?\s*O\.?\s*Box\s+\d+ [,\s]+ [\w\s]+ , \s* [A-Z]{2} \s* \d{5} )
    (IGNORECASE) *)
Definition text_address_pobox : regex :=
  icase (Grp 1 (seqs [po_box; comma_or_space; words; ch ","; spaces; upper2;
                      spaces; zip5])).

(** , \s* ([A-Z]{2}) \s* \d{5} *)
Definition state_in_address : regex :=
  seqs [ch ","; spaces; Grp 1 upper2; spaces; zip5].

(** [_extract_state_from_address] *)
Definition _extract_state_from_address (addr : string) : string :=
  if is_empty addr then EmptyString
  else
    match search state_in_address addr with
    | Some m =>
        let abbrev := upper (group m 1) in
        table_get STATE_ABBREV_TO_FULL abbrev abbrev
    | None => EmptyString
    end.

(** ( \(\d{3}\) \s* \d{3} [-.\s]? \d{4} )   (IGNORECASE) *)
Definition phone_parens : regex :=
  icase (Grp 1 (seqs [ch "("; rep 3 digit; ch ")"; spaces; rep 3 digit;
                      opt (Chr is_phone_sep); rep 4 digit])).

(** (?<!\d) ( \d{3}[-.\s]\d{3}[-.\s]\d{4} ) (?!\d)   (IGNORECASE) *)
Definition phone_isolated : regex :=
  icase (seqs [NotBehind is_digit; Grp 1 phone_strict; NotAhead digit]).

Definition excluded_domains : list string :=
  [ "facebook.com"; "twitter.com"; "linkedin.com"; "instagram.com";
    "youtube.com"; "arcat.com"; "pinterest.com"; "tiktok.com" ].

(** href=DQ mailto:( email )DQ *)
Definition mailto_attr : regex :=
  seqs [lit "href="; ch dq; lit "mailto:"; Grp 1 email_re; ch dq].

(** The three patterns of the product expert. *)
Definition br_tag : regex := seqs [lit "<br"; many (not_ch ">"); ch ">"].

(** <p>( name )<br[^>]*>( phone )<br[^>]*><a[^>]*href=DQ mailto:( [^DQ]+ )DQ *)
Definition expert_html_pattern : regex :=
  seqs [lit "<p>"; Grp 1 person_name; br_tag; Grp 2 phone_loose; br_tag;
        lit "<a"; many (not_ch ">"); lit "href="; ch dq; lit "mailto:";
        Grp 3 (some (not_ch dq)); ch dq].

(** Product\s*Expert [^DQ]* DQ( name )DQ [^DQ]* DQ( phone )DQ [^DQ]*
    DQ( email )DQ   (IGNORECASE) *)
Definition expert_pattern : regex :=
  icase (seqs [lit "Product"; spaces; lit "Expert"; no_dq;
               quoted (Grp 1 person_name); no_dq; quoted (Grp 2 phone_loose);
               no_dq; quoted (Grp 3 email_re)]).

(** DQ( name )DQ,\d+,DQ( phone )DQ,DQ( email )DQ *)
Definition alt_expert_pattern : regex :=
  seqs [quoted (Grp 1 person_name); ch ","; some digit; ch ",";
        quoted (Grp 2 phone_loose); ch ","; quoted (Grp 3 email_re)].

(** The fall-backs of [scrape_company_details]; each runs only while
    its field is empty, and reads [soup], which may be None. *)
Definition fallback_address (soup : option Page) (company : Company) : Res :=
  if is_empty (address company) then
    match soup with
    | None => Raised company
    | Some p =>
        let company :=
          match first_match [text_address_full; text_address_pobox] (text p) with
          | Some m => set_address (strip (group m 1)) company
          | None => company
          end in
        Fine (if nonempty (address company)
              then set_state (_extract_state_from_address (address company))
                             company
              else company)
    end
  else Fine company.

Definition fallback_phone (soup : option Page) (company : Company) : Res :=
  if is_empty (phone company) then
    match soup with
    | None => Raised company
    | Some p =>
        Fine match first_match [phone_labelled; phone_toll_free; phone_parens;
                                phone_isolated] (text p) with
             | Some m => set_phone (strip (group m 1)) company
             | None => company
             end
    end
  else Fine company.

Definition fallback_website (soup : option Page) (company : Company) : Res :=
  if is_empty (website company) then
    match soup with
    | None => Raised company
    | Some p =>
        Fine match find (fun l =>
                           let h := href l in
                           negb (any_in excluded_domains (lower h))
                           && negb (is_doc_link h)
                           && (contains "www." h
                               || any_in [".com"; ".org"; ".net"; ".us"; ".co"] h))
                        (find_links http_start p) with
             | Some l => set_website (href l) company
             | None => company
             end
    end
  else Fine company.

Definition fallback_email (html_ : string) (soup : option Page)
           (company : Company) : Res :=
  if is_empty (email company) then
    match search mailto_attr html_ with
    | Some m => Fine (set_email (strip (group m 1)) company)
    | None =>
        match soup with
        | None => Raised company
        | Some p =>
            Fine match search email_in_text (text p) with
                 | Some m =>
                     let e := group m 1 in
                     if any_in ["noreply"; "donotreply"; "unsubscribe"] (lower e)
                     then company else set_email e company
                 | None => company
                 end
        end
    end
  else Fine company.

Definition set_expert_from (m : rmatch) (company : Company) : Company :=
  set_product_expert (strip (group m 1)) (strip (group m 2))
                     (strip (group m 3)) company.

Definition product_expert (html_ : string) (company : Company) : Company :=
  match search expert_html_pattern html_ with
  | Some m => set_expert_from m company
  | None =>
      match search expert_pattern html_ with
      | Some m => set_expert_from m company
      | None =>
          match search alt_expert_pattern html_ with
          | Some m => set_expert_from m company
          | None => company
          end
      end
  end.

(** What follows the fetches in [scrape_company_details]: the
    serialized data first, then the fall-backs, then the product expert. *)
Definition extract_details (html_ : string) (soup : option Page)
           (company : Company) : Res :=
  let nuxt_data := _extract_from_nuxt_data html_ in
  let company := apply_nuxt nuxt_data company in
  company <- fallback_address soup company ;;
  company <- fallback_phone soup company ;;
  company <- fallback_website soup company ;;
  company <- fallback_email html_ soup company ;;
  Fine (product_expert html_ company).

(** A detail fetch is recorded with the URL of the company. *)
Inductive DetailEvent : Type :=
| Rendered (url : string)         (* driver.get(url) *)
| Requested (url : string).       (* session.get(url, timeout=30) *)

(** [scrape_company_details].  [selenium] stands for
    [self.use_selenium and self.driver]. *)
Definition scrape_company_details (selenium : bool) (site : Site)
           (browser : Browser) (company : Company) : Res * list DetailEvent :=
  let '(company, html_, soup, evs) :=
    if selenium then
      match browser (url company) with
      | Some p =>
          (apply_rendered (_extract_from_rendered_html p) company,
           html p, Some p, [Rendered (url company)])
      | None => (company, EmptyString, None, [Rendered (url company)])
      end
    else (company, EmptyString, None, []) in
  if is_empty (address company) then
    match site (url company) 0 with
    | Ok p =>
        (extract_details (html p) (Some p) company,
         evs ++ [Requested (url company)])
    | _ => (Fine company, evs ++ [Requested (url company)])
    end
  else (extract_details html_ soup company, evs).

(** *** Checkpoint store *)

(** A company entry of the checkpoint file.  [_restore_from_checkpoint]
    indexes the keys "name" and "url" ([comp_data["name"]],
    [comp_data["url"]]), so an entry has both: they are fields here.  The
    other ten keys are read with [comp_data.get(key, "")] and may be
    absent: they are kept as a table from keys to values, read with a
    default. *)
Record CompanyJson : Type := {
  j_company_name : string;
  j_company_url : string;
  j_optional : table
}.

Definition company_to_json (company : Company) : CompanyJson :=
  {| j_company_name := name company;
     j_company_url := url company;
     j_optional :=
       [ ("company_id", company_id company); ("address", address company);
         ("state", state company); ("phone", phone company);
         ("website", website company); ("email", email company);
         ("product_expert_name", product_expert_name company);
         ("product_expert_phone", product_expert_phone company);
         ("product_expert_email", product_expert_email company);
         ("building_product_category",
          building_product_category company) ] |}.

Definition company_of_json (comp_data : CompanyJson) : Company :=
  {| name := j_company_name comp_data;
     url := j_company_url comp_data;
     company_id := table_get (j_optional comp_data) "company_id" EmptyString;
     address := table_get (j_optional comp_data) "address" EmptyString;
     state := table_get (j_optional comp_data) "state" EmptyString;
     phone := table_get (j_optional comp_data) "phone" EmptyString;
     website := table_get (j_optional comp_data) "website" EmptyString;
     email := table_get (j_optional comp_data) "email" EmptyString;
     product_expert_name :=
       table_get (j_optional comp_data) "product_expert_name" EmptyString;
     product_expert_phone :=
       table_get (j_optional comp_data) "product_expert_phone" EmptyString;
     product_expert_email :=
       table_get (j_optional comp_data) "product_expert_email" EmptyString;
     products := [];
     building_product_category :=
       table_get (j_optional comp_data) "building_product_category"
                 EmptyString |}.

Record DivisionJson : Type := {
  j_code : string;
  j_name : string;
  j_url : string;
  j_companies : list CompanyJson
}.

Record CategoryJson : Type := {
  j_cname : string;
  j_curl : string;
  j_subcategories : list NamedLink;
  j_related_csi_divisions : list NamedLink;
  j_ccompanies : list CompanyJson
}.

(** The checkpoint file.  The time stamp and the two progress objects,
    which are written with constant zeros and never read, are left out.
    A value of this type is a file that [_restore_from_checkpoint] can
    read: the keys it indexes (code, name and url of a division, name
    and url of a category and of a company) are fields, so every entry
    has them.  A file in which one of them is missing makes the restore
    raise KeyError before the crawl starts; such a file is no value of
    this type, and no run of the model starts from it. *)
Record Checkpoint : Type := {
  cp_mode : string;
  cp_companies_scraped : nat;
  cp_divisions : list DivisionJson;
  cp_categories : list CategoryJson
}.

Definition division_to_json (d : Division) : DivisionJson :=
  {| j_code := code d; j_name := dname d; j_url := durl d;
     j_companies := map company_to_json (companies d) |}.

Definition division_of_json (div_data : DivisionJson) : Division :=
  {| code := j_code div_data; dname := j_name div_data;
     durl := j_url div_data; specifications := [];
     companies := map company_of_json (j_companies div_data) |}.

Definition category_to_json (c : BuildingProductCategory) : CategoryJson :=
  {| j_cname := cname c; j_curl := curl c;
     j_subcategories := subcategories c;
     j_related_csi_divisions := related_csi_divisions c;
     j_ccompanies := map company_to_json (ccompanies c) |}.

Definition category_of_json (cat_data : CategoryJson)
  : BuildingProductCategory :=
  {| cname := j_cname cat_data; curl := j_curl cat_data;
     subcategories := j_subcategories cat_data;
     related_csi_divisions := j_related_csi_divisions cat_data;
     ccompanies := map company_of_json (j_ccompanies cat_data) |}.

(** *** The scraper and its run *)

(** The attributes of [ARCATScraper] that the crawl reads and writes,
    and around them the checkpoint file, the clock and the record of
    what the run has fetched. *)
Record Scraper : Type := {
  divisions : list Division;
  building_product_categories : list BuildingProductCategory;
  companies_scraped_count : nat;
  interrupted : bool;
  selenium : bool;                    (* use_selenium and driver *)
  progress : ProgressTracker.t;
  disk : option Checkpoint;           (* the checkpoint file *)
  ticks : nat;                        (* readings of the clock so far *)
  requests : list Event;              (* what the fetch client did *)
  details : list DetailEvent;         (* the detail pages fetched *)
  steps : nat;                        (* detail iterations of this run *)
  halted : bool                       (* the process has ended *)
}.

(** A new process: [ARCATScraper(use_selenium)] next to the checkpoint
    file that an earlier process left. *)
Definition new_scraper (use_selenium : bool) (file : option Checkpoint)
  : Scraper :=
  {| divisions := []; building_product_categories := [];
     companies_scraped_count := 0; interrupted := false;
     selenium := use_selenium; progress := ProgressTracker.init;
     disk := file; ticks := 0; requests := []; details := []; steps := 0;
     halted := false |}.

Definition with_divisions (ds : list Division) (s : Scraper) : Scraper :=
  {| divisions := ds;
     building_product_categories := building_product_categories s;
     companies_scraped_count := companies_scraped_count s;
     interrupted := interrupted s; selenium := selenium s;
     progress := progress s; disk := disk s; ticks := ticks s;
     requests := requests s; details := details s; steps := steps s;
     halted := halted s |}.

Definition with_categories (cs : list BuildingProductCategory) (s : Scraper)
  : Scraper :=
  {| divisions := divisions s; building_product_categories := cs;
     companies_scraped_count := companies_scraped_count s;
     interrupted := interrupted s; selenium := selenium s;
     progress := progress s; disk := disk s; ticks := ticks s;
     requests := requests s; details := details s; steps := steps s;
     halted := halted s |}.

Definition with_count (n : nat) (s : Scraper) : Scraper :=
  {| divisions := divisions s;
     building_product_categories := building_product_categories s;
     companies_scraped_count := n; interrupted := interrupted s;
     selenium := selenium s; progress := progress s; disk := disk s;
     ticks := ticks s; requests := requests s; details := details s;
     steps := steps s; halted := halted s |}.

Definition with_progress (p : ProgressTracker.t) (n : nat) (s : Scraper)
  : Scraper :=
  {| divisions := divisions s;
     building_product_categories := building_product_categories s;
     companies_scraped_count := companies_scraped_count s;
     interrupted := interrupted s; selenium := selenium s; progress := p;
     disk := disk s; ticks := n; requests := requests s;
     details := details s; steps := steps s; halted := halted s |}.

Definition with_disk (file : option Checkpoint) (s : Scraper) : Scraper :=
  {| divisions := divisions s;
     building_product_categories := building_product_categories s;
     companies_scraped_count := companies_scraped_count s;
     interrupted := interrupted s; selenium := selenium s;
     progress := progress s; disk := file; ticks := ticks s;
     requests := requests s; details := details s; steps := steps s;
     halted := halted s |}.

Definition log_requests (evs : list Event) (s : Scraper) : Scraper :=
  {| divisions := divisions s;
     building_product_categories := building_product_categories s;
     companies_scraped_count := companies_scraped_count s;
     interrupted := interrupted s; selenium := selenium s;
     progress := progress s; disk := disk s; ticks := ticks s;
     requests := requests s ++ evs; details := details s; steps := steps s;
     halted := halted s |}.

Definition log_details (evs : list DetailEvent) (s : Scraper) : Scraper :=
  {| divisions := divisions s;
     building_product_categories := building_product_categories s;
     companies_scraped_count := companies_scraped_count s;
     interrupted := interrupted s; selenium := selenium s;
     progress := progress s; disk := disk s; ticks := ticks s;
     requests := requests s; details := details s ++ evs;
     steps := S (steps s); halted := halted s |}.

(** The process ends; [by_signal] tells whether the handler ran, which
    sets [interrupted]. *)
Definition halt (by_signal : bool) (s : Scraper) : Scraper :=
  {| divisions := divisions s;
     building_product_categories := building_product_categories s;
     companies_scraped_count := companies_scraped_count s;
     interrupted := interrupted s || by_signal; selenium := selenium s;
     progress := progress s; disk := disk s; ticks := ticks s;
     requests := requests s; details := details s; steps := steps s;
     halted := true |}.

(** [_save_checkpoint(mode)]; the write is taken to succeed. *)
Definition _save_checkpoint (mode : string) (s : Scraper) : Scraper :=
  with_disk
    (Some {| cp_mode := mode;
             cp_companies_scraped := companies_scraped_count s;
             cp_divisions := map division_to_json (divisions s);
             cp_categories :=
               map category_to_json (building_product_categories s) |})
    s.

(** [_load_checkpoint] *)
Definition _load_checkpoint (s : Scraper) : option Checkpoint := disk s.

(** [_restore_from_checkpoint]: the divisions and categories of the file
    are appended to those of the scraper. *)
Definition _restore_from_checkpoint (checkpoint_data : Checkpoint)
           (s : Scraper) : Scraper :=
  with_count (cp_companies_scraped checkpoint_data)
    (with_categories
       (building_product_categories s
          ++ map category_of_json (cp_categories checkpoint_data))
       (with_divisions
          (divisions s ++ map division_of_json (cp_divisions checkpoint_data))
          s)).

(** [_maybe_save_checkpoint(mode)], the interval being a parameter whose
    value in the source is [CHECKPOINT_INTERVAL]. *)
Definition maybe_save_checkpoint_every (interval : nat) (mode : string)
           (s : Scraper) : Scraper :=
  if (0 <? companies_scraped_count s)
     && (companies_scraped_count s mod interval =? 0)
  then _save_checkpoint mode s
  else s.

Definition _maybe_save_checkpoint (mode : string) (s : Scraper) : Scraper :=
  maybe_save_checkpoint_every CHECKPOINT_INTERVAL mode s.

(** The signal handler: it sets [interrupted], saves a checkpoint with
    the default mode and ends the process. *)
Definition signal_handler (s : Scraper) : Scraper :=
  halt true (_save_checkpoint "divisions" s).

(** How a run ends before its time: the process is killed, or a signal
    arrives, when [n] detail pages have been done in this run and the
    next is due.  The end is placed at the boundary between two
    iterations of the detail loop; what holds inside an iteration is
    stated on the steps of the loop themselves, and the write of the
    checkpoint file is taken to succeed at once. *)
Inductive Stop : Type :=
| Never
| KillAfter (n : nat)
| SignalAfter (n : nat).

Definition stop_now (stop : Stop) (s : Scraper) : option bool :=
  match stop with
  | Never => None
  | KillAfter n => if steps s =? n then Some false else None
  | SignalAfter n => if steps s =? n then Some true else None
  end.

(** The URLs of the companies of [ds] that have an address: the set
    [scraped_company_urls] built on resume. *)
Definition scraped_urls (ds : list Division) : list string :=
  flat_map (fun d =>
              flat_map (fun c => if nonempty (address c) then [url c] else [])
                       (companies d)) ds.

(** [close()]: the driver is gone. *)
Definition close (s : Scraper) : Scraper :=
  {| divisions := divisions s;
     building_product_categories := building_product_categories s;
     companies_scraped_count := companies_scraped_count s;
     interrupted := interrupted s; selenium := false;
     progress := progress s; disk := disk s; ticks := ticks s;
     requests := requests s; details := details s; steps := steps s;
     halted := halted s |}.

(** [self.progress.start(total)] and [self.progress.update()] read the
    clock: the [n]-th reading of a run gives [clock n]. *)
Definition progress_start (clock : nat -> Q) (total : nat) (s : Scraper)
  : Scraper :=
  with_progress
    (ProgressTracker.start (clock (ticks s)) (clock (S (ticks s))) total
                           (progress s))
    (S (S (ticks s))) s.

Definition progress_update (clock : nat -> Q) (s : Scraper) : Scraper :=
  with_progress (ProgressTracker.update (clock (ticks s)) 1 (progress s))
                (S (ticks s)) s.

Section Crawl.

Variable site : Site.
Variable browser : Browser.
Variable clock : nat -> Q.
Variable interval : nat.
Variable stop : Stop.
Variables max_divisions max_companies : option nat.

(** The set [scraped_company_urls] is fixed before the passes start. *)
Variable scraped_company_urls : list string.

Definition not_scraped (c : Company) : bool :=
  negb (mem (url c) scraped_company_urls).

(** First pass of [scrape_csi_only]: a division without companies is
    expanded; the companies still to scrape are counted. *)
Fixpoint count_pass (todo : list Division)
  : list Division * nat * list Event :=
  match todo with
  | [] => ([], 0, [])
  | division :: rest =>
      let '(division, evs) :=
        if is_nil (companies division)
        then scrape_division_manufacturers site division
        else (division, []) in
      let n :=
        List.length (filter not_scraped
                            (limit max_companies (companies division))) in
      let '(ds, total, evs') := count_pass rest in
      (division :: ds, n + total, evs ++ evs')
  end.

(** The inner loop of the second pass over the companies of one
    division.  [view] gives [scraper.divisions] for a state of that
    division's companies to process; [done] are the companies the loop
    has passed, [todo] those still to come. *)
Fixpoint detail_companies (view : list Company -> list Division)
         (done todo : list Company) (s : Scraper) : list Company * Scraper :=
  match todo with
  | [] => (done, s)
  | company :: rest =>
      if halted s then (done ++ todo, s)
      else if mem (url company) scraped_company_urls
      then detail_companies view (done ++ [company]) rest s
      else if interrupted s then (done ++ todo, s)
      else
        match stop_now stop s with
        | Some true => (done ++ todo, signal_handler s)
        | Some false => (done ++ todo, halt false s)
        | None =>
            let '(r, evs) :=
              scrape_company_details (selenium s) site browser company in
            let company := res_company r in
            let s :=
              with_divisions (view (done ++ company :: rest))
                             (log_details evs s) in
            if raised r
            then (done ++ company :: rest,
                  halt false (_save_checkpoint "csi-only" s))
            else
              let s := with_count (S (companies_scraped_count s)) s in
              let s := progress_update clock s in
              let s := maybe_save_checkpoint_every interval "csi-only" s in
              detail_companies view (done ++ [company]) rest s
        end
  end.

(** The outer loop of the second pass: [pre] are the divisions done,
    [todo] those to come, [post] those beyond [max_divisions]. *)
Fixpoint detail_divisions (pre todo post : list Division) (s : Scraper)
  : Scraper :=
  match todo with
  | [] => s
  | division :: rest =>
      if halted s || interrupted s then s
      else
        let companies_to_process :=
          limit max_companies (companies division) in
        let beyond :=
          skipn (List.length companies_to_process) (companies division) in
        let view cs :=
          pre ++ set_companies (cs ++ beyond) division :: rest ++ post in
        let '(cs, s) :=
          detail_companies view [] companies_to_process s in
        if halted s || interrupted s then s
        else
          detail_divisions (pre ++ [set_companies (cs ++ beyond) division])
                           rest post s
  end.

End Crawl.

(** The options of a crawl. *)
Record Options : Type := {
  max_divisions : option nat;
  max_companies : option nat;
  resume : bool
}.

Definition csi_only_mode : string := "csi-only".

(** What [scrape_csi_only] does on resume before its passes: a
    checkpoint of the right mode is restored and gives the set of
    scraped URLs. *)
Definition resume_csi_only (o : Options) (s : Scraper)
  : Scraper * list string :=
  if resume o then
    match _load_checkpoint s with
    | Some checkpoint =>
        if String.eqb (cp_mode checkpoint) csi_only_mode then
          let s := _restore_from_checkpoint checkpoint s in
          (s, scraped_urls (divisions s))
        else (s, [])
    | None => (s, [])
    end
  else (s, []).

(** The body of [scrape_csi_only] after that: the divisions, the
    counting pass, the detail pass, the final checkpoint. *)
Definition csi_only_passes (interval : nat) (site : Site)
           (browser : Browser) (clock : nat -> Q) (stop : Stop)
           (o : Options) (scraped_company_urls : list string) (s : Scraper)
  : Scraper :=
  let s :=
    if is_nil (divisions s) then
      let '(ds, evs) := scrape_related_csi_divisions site in
      log_requests evs
        match ds with
        | Some l => with_divisions l s
        | None => s
        end
    else s in
  let divisions_to_process := limit (max_divisions o) (divisions s) in
  let beyond := skipn (List.length divisions_to_process) (divisions s) in
  let '(ds, total_companies, evs) :=
    count_pass site (max_companies o) scraped_company_urls
               divisions_to_process in
  let s := log_requests evs (with_divisions (ds ++ beyond) s) in
  let s := progress_start clock total_companies s in
  let s :=
    detail_divisions site browser clock interval stop (max_companies o)
                     scraped_company_urls [] ds beyond s in
  if halted s then s
  else close (if interrupted s then s else _save_checkpoint csi_only_mode s).

(** [scrape_csi_only(scraper, max_divisions, max_companies, resume)]
    with the interval of the periodic checkpoint as a parameter. *)
Definition scrape_csi_only_every (interval : nat) (site : Site)
           (browser : Browser) (clock : nat -> Q) (stop : Stop)
           (o : Options) (s : Scraper) : Scraper :=
  let '(s, scraped_company_urls) := resume_csi_only o s in
  csi_only_passes interval site browser clock stop o scraped_company_urls s.

(** [scrape_csi_only] *)
Definition scrape_csi_only (site : Site) (browser : Browser)
           (clock : nat -> Q) (stop : Stop) (o : Options) (s : Scraper)
  : Scraper :=
  scrape_csi_only_every CHECKPOINT_INTERVAL site browser clock stop o s.

(** The URLs of the detail pages fetched, in order. *)
Definition detail_urls (evs : list DetailEvent) : list string :=
  map (fun e => match e with Rendered u | Requested u => u end) evs.

(** The entity store as a list: every company of every division. *)
Definition entities (ds : list Division) : list Company :=
  flat_map companies ds.

(** Two stores hold the same entities, whatever the order. *)
Definition same_store (ds1 ds2 : list Division) : Prop :=
  Permutation (entities ds1) (entities ds2).

(** The canonical key of an entity: its URL without the query. *)
Definition canonical_key (c : Company) : string := before_char "?" (url c).

End Arcat.

(* ------------------------------------------------------------------ *)
(** ** sweets_scraper.py *)
(* ------------------------------------------------------------------ *)

Module Sweets.

Definition BASE_URL : string := "https://sweets.construction.com".

Definition STATE_ABBREV_TO_FULL : table :=
  US_STATES ++
  [ ("AB", "Alberta"); ("BC", "British Columbia"); ("MB", "Manitoba");
    ("NB", "New Brunswick"); ("NL", "Newfoundland and Labrador");
    ("NS", "Nova Scotia"); ("ON", "Ontario"); ("PE", "Prince Edward Island");
    ("QC", "Quebec"); ("SK", "Saskatchewan") ].

(** *** Data model *)

(** The contact fields of a product; also the dict that
    [_parse_address_tag] returns. *)
Record Contact : Type := {
  address : string;
  city : string;
  state : string;
  zip_code : string;
  phone : string;
  fax : string;
  email : string;
  website : string
}.

Definition no_contact : Contact :=
  {| address := EmptyString; city := EmptyString; state := EmptyString;
     zip_code := EmptyString; phone := EmptyString; fax := EmptyString;
     email := EmptyString; website := EmptyString |}.

(** The content-type indicators [has_*] of a product. *)
Record Flags : Type := {
  has_3part_spec : bool;
  has_bim : bool;
  has_cad : bool;
  has_ceu : bool;
  has_catalog : bool;
  has_data_sheet : bool;
  has_gallery : bool;
  has_green : bool;
  has_product_selector : bool;
  has_supporting_material : bool
}.

Definition no_flags : Flags :=
  {| has_3part_spec := false; has_bim := false; has_cad := false;
     has_ceu := false; has_catalog := false; has_data_sheet := false;
     has_gallery := false; has_green := false; has_product_selector := false;
     has_supporting_material := false |}.

(** The download counts [count_*] of a product. *)
Record Counts : Type := {
  count_3part_spec : nat;
  count_bim : nat;
  count_cad : nat;
  count_ceu : nat;
  count_catalog : nat;
  count_gallery : nat;
  count_green : nat;
  count_other : nat;
  count_total : nat
}.

Definition no_counts : Counts :=
  {| count_3part_spec := 0; count_bim := 0; count_cad := 0; count_ceu := 0;
     count_catalog := 0; count_gallery := 0; count_green := 0;
     count_other := 0; count_total := 0 |}.

(** The dataclass [Product], its contact fields, indicators and counts
    grouped. *)
Record Product : Type := {
  name : string;
  url : string;
  manufacturer_name : string;
  manufacturer_id : string;
  contact : Contact;
  division_code : string;
  division_name : string;
  section_code : string;
  section_name : string;
  category : string;
  masterformat : string;
  flags : Flags;
  counts : Counts;
  description : string
}.

Definition set_contact (v : Contact) (p : Product) : Product :=
  {| name := name p; url := url p; manufacturer_name := manufacturer_name p;
     manufacturer_id := manufacturer_id p; contact := v;
     division_code := division_code p; division_name := division_name p;
     section_code := section_code p; section_name := section_name p;
     category := category p; masterformat := masterformat p;
     flags := flags p; counts := counts p; description := description p |}.

Definition set_manufacturer_id (v : string) (p : Product) : Product :=
  {| name := name p; url := url p; manufacturer_name := manufacturer_name p;
     manufacturer_id := v; contact := contact p;
     division_code := division_code p; division_name := division_name p;
     section_code := section_code p; section_name := section_name p;
     category := category p; masterformat := masterformat p;
     flags := flags p; counts := counts p; description := description p |}.

Definition set_category (v : string) (p : Product) : Product :=
  {| name := name p; url := url p; manufacturer_name := manufacturer_name p;
     manufacturer_id := manufacturer_id p; contact := contact p;
     division_code := division_code p; division_name := division_name p;
     section_code := section_code p; section_name := section_name p;
     category := v; masterformat := masterformat p;
     flags := flags p; counts := counts p; description := description p |}.

Definition set_masterformat (v : string) (p : Product) : Product :=
  {| name := name p; url := url p; manufacturer_name := manufacturer_name p;
     manufacturer_id := manufacturer_id p; contact := contact p;
     division_code := division_code p; division_name := division_name p;
     section_code := section_code p; section_name := section_name p;
     category := category p; masterformat := v;
     flags := flags p; counts := counts p; description := description p |}.

Definition set_description (v : string) (p : Product) : Product :=
  {| name := name p; url := url p; manufacturer_name := manufacturer_name p;
     manufacturer_id := manufacturer_id p; contact := contact p;
     division_code := division_code p; division_name := division_name p;
     section_code := section_code p; section_name := section_name p;
     category := category p; masterformat := masterformat p;
     flags := flags p; counts := counts p; description := v |}.

Definition set_flags (v : Flags) (p : Product) : Product :=
  {| name := name p; url := url p; manufacturer_name := manufacturer_name p;
     manufacturer_id := manufacturer_id p; contact := contact p;
     division_code := division_code p; division_name := division_name p;
     section_code := section_code p; section_name := section_name p;
     category := category p; masterformat := masterformat p;
     flags := v; counts := counts p; description := description p |}.

Definition set_counts (v : Counts) (p : Product) : Product :=
  {| name := name p; url := url p; manufacturer_name := manufacturer_name p;
     manufacturer_id := manufacturer_id p; contact := contact p;
     division_code := division_code p; division_name := division_name p;
     section_code := section_code p; section_name := section_name p;
     category := category p; masterformat := masterformat p;
     flags := flags p; counts := v; description := description p |}.

Record Section_ : Type := {
  scode : string;
  sname : string;
  surl : string;
  s_item_count : nat;
  products : list Product
}.

Record Division : Type := {
  code : string;
  dname : string;
  durl : string;
  item_count : nat;
  sections : list Section_
}.

Definition set_products (ps : list Product) (s : Section_) : Section_ :=
  {| scode := scode s; sname := sname s; surl := surl s;
     s_item_count := s_item_count s; products := ps |}.

Definition set_sections (ss : list Section_) (d : Division) : Division :=
  {| code := code d; dname := dname d; durl := durl d;
     item_count := item_count d; sections := ss |}.

(** *** Listing pages *)

(** [int(s)] for a string of digits. *)
Definition digit_value (c : ascii) : nat := PyStr.code c - PyStr.code "0".

Fixpoint int_of_digits (acc : nat) (s : string) : nat :=
  match s with
  | EmptyString => acc
  | String c s' => int_of_digits (10 * acc + digit_value c) s'
  end.

(** (\d+)\s*$ *)
Definition trailing_count_re : regex :=
  seqs [Grp 1 (some digit); spaces; Eol].

(** The item count next to a link: the number that ends the text of the
    enclosing row or division, 0 without one. *)
Definition item_count_of (link : Anchor) : nat :=
  match parent_text link with
  | Some t =>
      match search trailing_count_re t with
      | Some m => int_of_digits 0 (group m 1)
      | None => 0
      end
  | None => 0
  end.

(** \d+\s+\d+\s+\d+ *)
Definition code3 : regex :=
  seqs [some digit; some space; some digit; some space; some digit].

(** \d+\s+\d+\s+\d+(?:\.\d+)? *)
Definition code3_dotted : regex :=
  Seq code3 (opt (Seq (ch ".") (some digit))).

Definition dash : regex := seqs [spaces; ch "-"; spaces].         (* \s*-\s* *)

(** /quicklinks/3partspecs/\d+-\d+-\d+ *)
Definition division_link_re : regex :=
  seqs [lit "/quicklinks/3partspecs/"; some digit; ch "-"; some digit; ch "-";
        some digit].

(** ^(\d+\s+\d+\s+\d+)\s*-\s*(.+)$ *)
Definition division_text_re : regex :=
  seqs [Bol; Grp 1 code3; dash; Grp 2 (some any_char); Eol].

Fixpoint divisions_loop (links : list Anchor) (seen_urls : list string)
  : list Division :=
  match links with
  | [] => []
  | link :: rest =>
      if mem (href link) seen_urls then divisions_loop rest seen_urls
      else
        let seen_urls' := href link :: seen_urls in
        let full_url := (BASE_URL ++ href link)%string in
        match rmatch_start division_text_re (atext link) with
        | Some m =>
            {| code := group m 1; dname := strip (group m 2);
               durl := full_url; item_count := item_count_of link;
               sections := [] |}
              :: divisions_loop rest seen_urls'
        | None => divisions_loop rest seen_urls'
        end
  end.

Definition specs_url : string := (BASE_URL ++ "/quicklinks/3partspecs")%string.

(** [scrape_divisions] *)
Definition scrape_divisions (site : Site)
  : option (list Division) * list Event :=
  let '(soup, evs) := _make_request site specs_url in
  match soup with
  | None => (None, evs)
  | Some p => (Some (divisions_loop (find_links division_link_re p) []), evs)
  end.

(** /masterformat/[\w-]+/[\w.%-]+ *)
Definition section_link_re : regex :=
  seqs [lit "/masterformat/";
        some (Chr (fun c => is_word c || Ascii.eqb c "-")); ch "/";
        some (Chr (fun c => is_word c || char_in ".%-" c))].

(** ^(\d+\s+\d+\s+\d+(?:\.\d+)?)\s*-\s*
    (?:\d+\s+\d+\s+\d+(?:\.\d+)?\s*-\s* )?(.+)$ *)
Definition section_text_re : regex :=
  seqs [Bol; Grp 1 code3_dotted; dash; opt (Seq code3_dotted dash);
        Grp 2 (some any_char); Eol].

(** The loop of [scrape_division_sections]: every section found is
    appended to the sections the division has. *)
Fixpoint sections_loop (links : list Anchor) (seen_urls : list string)
         (acc : list Section_) : list Section_ :=
  match links with
  | [] => acc
  | link :: rest =>
      if mem (href link) seen_urls then sections_loop rest seen_urls acc
      else
        let seen_urls' := href link :: seen_urls in
        let full_url := (BASE_URL ++ href link)%string in
        match rmatch_start section_text_re (atext link) with
        | Some m =>
            sections_loop rest seen_urls'
              (acc ++ [{| scode := group m 1; sname := strip (group m 2);
                          surl := full_url; s_item_count := item_count_of link;
                          products := [] |}])
        | None => sections_loop rest seen_urls' acc
        end
  end.

(** [scrape_division_sections] *)
Definition scrape_division_sections (site : Site) (division : Division)
  : Division * list Event :=
  let '(soup, evs) := _make_request site (durl division) in
  match soup with
  | None => (division, evs)
  | Some p =>
      (set_sections
         (sections_loop (find_links section_link_re p) [] (sections division))
         division, evs)
  end.

(** /manufacturer/[\w-]+/products/[\w-]+ *)
Definition slug : regex := some (Chr (fun c => is_word c || Ascii.eqb c "-")).

Definition product_link_re : regex :=
  seqs [lit "/manufacturer/"; slug; lit "/products/"; slug].

(** /manufacturer/([\w-]+)/products/ *)
Definition manufacturer_id_re : regex :=
  seqs [lit "/manufacturer/"; Grp 1 slug; lit "/products/"].

(** [s.split(sep, 1)] when [sep] occurs in [s]. *)
Fixpoint split_once (sep s : string) : option (string * string) :=
  if String.prefix sep s
  then Some (EmptyString, substring (String.length sep)
                                    (String.length s - String.length sep) s)
  else
    match s with
    | EmptyString => None
    | String c s' =>
        match split_once sep s' with
        | Some (a, b) => Some (String c a, b)
        | None => None
        end
    end.

Definition base_href_of (h : string) : string := before_char "?" h.

(** One iteration of the loop of [scrape_section_products]; the state is
    [seen_urls] and [section.products].  A link whose [href] without the
    query was seen, or that has no text, is skipped. *)
Definition products_step (section : Section_) (division : Division)
           (st : list string * list Product) (link : Anchor)
  : list string * list Product :=
  let '(seen_urls, prods) := st in
  let h := href link in
  let base_href := base_href_of h in
  if is_empty h || mem base_href seen_urls then st
  else
    let t := atext link in
    if is_empty t then st
    else
      let full_url := (BASE_URL ++ h)%string in
      let '(manufacturer_name_v, product_name) :=
        match split_once " - " t with
        | Some (a, b) => (strip a, strip b)
        | None => (EmptyString, t)
        end in
      let manufacturer_id_v := group1 (search manufacturer_id_re h) in
      let product :=
        {| name := product_name; url := full_url;
           manufacturer_name := manufacturer_name_v;
           manufacturer_id := manufacturer_id_v; contact := no_contact;
           division_code := code division; division_name := dname division;
           section_code := scode section; section_name := sname section;
           category := EmptyString; masterformat := EmptyString;
           flags := no_flags; counts := no_counts;
           description := EmptyString |} in
      (base_href :: seen_urls, prods ++ [product]).

Definition products_loop (section : Section_) (division : Division)
           (links : list Anchor) : list string * list Product :=
  fold_left (products_step section division) links ([], products section).

(** [scrape_section_products] *)
Definition scrape_section_products (site : Site) (section : Section_)
           (division : Division) : Section_ * list Event :=
  let '(soup, evs) := _make_request site (surl section) in
  match soup with
  | None => (section, evs)
  | Some p =>
      (set_products
         (snd (products_loop section division (find_links product_link_re p)))
         section, evs)
  end.

(** *** The address element: [_parse_address_tag] *)

Definition excluded_email_domains_tag : list string :=
  [ "construction.com"; "sweets.com"; "sso.construction.com"; "noreply";
    "donotreply"; "unsubscribe" ].

Definition excluded_domains_tag : list string :=
  [ "construction.com"; "sweets.com"; "sso.construction.com"; "facebook.com";
    "linkedin.com"; "twitter.com"; "instagram.com"; "youtube.com";
    "google.com"; "pinterest.com"; "tiktok.com"; "amazonaws.com";
    "cloudfront.net"; "cloudflare.com"; "googleapis.com"; "gstatic.com";
    "bootstrapcdn.com"; "jquery.com"; "fontawesome.com"; "microsoft.com";
    "bing.com"; "w3.org"; "schema.org"; "doubleclick.net";
    "googlesyndication.com"; "googletagmanager.com" ].

(** ^mailto: (IGNORECASE) *)
Definition mailto_start_i : regex := icase (Seq Bol (lit "mailto:")).

(** https?://(?:www\.)?([a-zA-Z0-9.-]+) *)
Definition domain_re : regex :=
  seqs [lit "http"; opt (ch "s"); lit "://"; opt (lit "www.");
        Grp 1 (some (Chr is_domain_char))].

(** <br\s*/?\s*> (IGNORECASE) and <[^>]+> *)
Definition br_re : regex :=
  icase (seqs [lit "<br"; spaces; opt (ch "/"); spaces; ch ">"]).
Definition any_tag_re : regex := seqs [ch "<"; some (not_ch ">"); ch ">"].

(** Tel:\s*(.+) and Fax:\s*(.+) (IGNORECASE) *)
Definition tel_line_re : regex :=
  icase (seqs [lit "Tel:"; spaces; Grp 1 (some any_char)]).
Definition fax_line_re : regex :=
  icase (seqs [lit "Fax:"; spaces; Grp 1 (some any_char)]).

(** \((\d{3})\)\s*(\d{3})-(\d{4}) *)
Definition phone_parens3 : regex :=
  seqs [ch "("; Grp 1 (rep 3 digit); ch ")"; spaces; Grp 2 (rep 3 digit);
        ch "-"; Grp 3 (rep 4 digit)].

(** (\d{3})[-.\s](\d{3})[-.\s](\d{4}) *)
Definition phone_seps3 : regex :=
  seqs [Grp 1 (rep 3 digit); Chr is_phone_sep; Grp 2 (rep 3 digit);
        Chr is_phone_sep; Grp 3 (rep 4 digit)].

(** The canonical form of a phone number: (ddd) ddd-dddd. *)
Definition format_phone (m : rmatch) : string :=
  ("(" ++ group m 1 ++ ") " ++ group m 2 ++ "-" ++ group m 3)%string.

(** The normalisation of the text after Tel: or Fax:. *)
Definition normalize_phone (phone_raw : string) : string :=
  match rmatch_start phone_parens3 phone_raw with
  | Some m => format_phone m
  | None =>
      match rmatch_start phone_seps3 phone_raw with
      | Some m => format_phone m
      | None => phone_raw
      end
  end.

(** [A-Za-z][A-Za-z\s.]+? *)
Definition city_name : regex :=
  Seq (Chr is_alpha)
      (some_lazy (Chr (fun c => is_alpha c || is_space c || Ascii.eqb c "."))).

Definition postal_ca : regex :=
  seqs [Chr is_upper; digit; Chr is_upper; spaces; digit; Chr is_upper; digit].

(** ^(city),\s*([A-Z]{2})\s+(\d{5}(?:-\d{4})?)$ *)
Definition city_state_zip_re : regex :=
  seqs [Bol; Grp 1 city_name; ch ","; spaces; Grp 2 upper2; some space;
        Grp 3 zip9; Eol].

(** ^(city),\s*([A-Z]{2})\s+([A-Z]\d[A-Z]\s*\d[A-Z]\d)$ *)
Definition city_state_ca_re : regex :=
  seqs [Bol; Grp 1 city_name; ch ","; spaces; Grp 2 upper2; some space;
        Grp 3 postal_ca; Eol].

(** ^(city),\s*([A-Za-z\s]+?)\s+([A-Z]\d[A-Z]\s*\d[A-Z]\d)$ *)
Definition city_prov_ca_re : regex :=
  seqs [Bol; Grp 1 city_name; ch ","; spaces;
        Grp 2 (some_lazy (Chr (fun c => is_alpha c || is_space c)));
        some space; Grp 3 postal_ca; Eol].

(** The state of the loop over the lines of the address element. *)
Record LineState : Type := {
  result : Contact;
  address_lines : list string;
  city_state_found : bool
}.

Definition with_phone (v : string) (c : Contact) : Contact :=
  {| address := address c; city := city c; state := state c;
     zip_code := zip_code c; phone := v; fax := fax c; email := email c;
     website := website c |}.

Definition with_fax (v : string) (c : Contact) : Contact :=
  {| address := address c; city := city c; state := state c;
     zip_code := zip_code c; phone := phone c; fax := v; email := email c;
     website := website c |}.

Definition with_email (v : string) (c : Contact) : Contact :=
  {| address := address c; city := city c; state := state c;
     zip_code := zip_code c; phone := phone c; fax := fax c; email := v;
     website := website c |}.

Definition with_website (v : string) (c : Contact) : Contact :=
  {| address := address c; city := city c; state := state c;
     zip_code := zip_code c; phone := phone c; fax := fax c; email := email c;
     website := v |}.

Definition with_address (v : string) (c : Contact) : Contact :=
  {| address := v; city := city c; state := state c;
     zip_code := zip_code c; phone := phone c; fax := fax c; email := email c;
     website := website c |}.

Definition with_place (cy st zp : string) (c : Contact) : Contact :=
  {| address := address c; city := cy; state := st; zip_code := zp;
     phone := phone c; fax := fax c; email := email c;
     website := website c |}.

Definition with_result (r : Contact) (s : LineState) : LineState :=
  {| result := r; address_lines := address_lines s;
     city_state_found := city_state_found s |}.

Definition found_place (r : Contact) (s : LineState) : LineState :=
  {| result := r; address_lines := address_lines s;
     city_state_found := true |}.

Definition state_name (abbr : string) : string :=
  table_get STATE_ABBREV_TO_FULL abbr abbr.

(** One line of the address element. *)
Definition line_step (s : LineState) (line : string) : LineState :=
  if any_in ["find a rep"; "request more info"; "request info"] (lower line)
  then s
  else
    match rmatch_start tel_line_re line with
    | Some m =>
        with_result (with_phone (normalize_phone (strip (group m 1)))
                                (result s)) s
    | None =>
        match rmatch_start fax_line_re line with
        | Some m =>
            with_result (with_fax (normalize_phone (strip (group m 1)))
                                  (result s)) s
        | None =>
            if contains "@" line || startswith "http" line then s
            else if city_state_found s then s
            else
              match rmatch_start city_state_zip_re line with
              | Some m =>
                  found_place
                    (with_place (strip (group m 1))
                                (state_name (strip (group m 2)))
                                (strip (group m 3)) (result s)) s
              | None =>
                  match rmatch_start city_state_ca_re line with
                  | Some m =>
                      found_place
                        (with_place (strip (group m 1))
                                    (state_name (strip (group m 2)))
                                    (strip (group m 3)) (result s)) s
                  | None =>
                      match rmatch_start city_prov_ca_re line with
                      | Some m =>
                          found_place
                            (with_place (strip (group m 1))
                                        (strip (group m 2))
                                        (strip (group m 3)) (result s)) s
                      | None =>
                          {| result := result s;
                             address_lines := address_lines s ++ [line];
                             city_state_found := city_state_found s |}
                      end
                  end
              end
        end
    end.

(** The name of a company without commas and full stops, in lower case. *)
Definition plain_name (s : string) : string :=
  remove_char "." (remove_char "," (lower s)).

Definition asset_extensions : list string :=
  [ ".js"; ".css"; ".png"; ".jpg"; ".gif"; ".ico" ].

(** The lines of the address element: its markup with every br tag
    turned into a newline and every other tag removed, split at the
    newlines, stripped, the empty lines dropped. *)
Definition address_tag_lines (tag : AddressTag) : list string :=
  let address_html := sub br_re (String nl EmptyString) (tag_markup tag) in
  let address_text := sub any_tag_re EmptyString address_html in
  filter nonempty (map strip (split_char nl address_text)).

(** [_parse_address_tag(address_tag, manufacturer_name)] for an address
    element that is there. *)
Definition _parse_address_tag (tag : AddressTag) (manufacturer_name_ : string)
  : Contact :=
  let res := no_contact in
  let res :=
    match find (matches mailto_start_i) (tag_hrefs tag) with
    | Some h =>
        let e := strip (sub mailto_start_i EmptyString h) in
        if any_in excluded_email_domains_tag (lower e) then res
        else with_email e res
    | None => res
    end in
  let res :=
    match find (fun h =>
                  match search domain_re h with
                  | Some m =>
                      negb (any_in excluded_domains_tag (lower (group m 1)))
                      && negb (any_in asset_extensions (lower h))
                  | None => false
                  end)
               (filter (matches http_start) (tag_hrefs tag)) with
    | Some h => with_website (rstrip_chars "/" h) res
    | None => res
    end in
  let st :=
    fold_left line_step (address_tag_lines tag)
              {| result := res; address_lines := [];
                 city_state_found := false |} in
  match address_lines st with
  | [] => result st
  | first :: others =>
      let lines :=
        if nonempty manufacturer_name_
           && String.eqb (plain_name first) (plain_name manufacturer_name_)
        then others else first :: others in
      with_address (join ", " lines) (result st)
  end.

(** *** Detail pages: [scrape_product_details] *)

Definition excluded_email_domains : list string :=
  [ "construction.com"; "sweets.com"; "noreply"; "donotreply"; "unsubscribe" ].

Definition excluded_domains : list string :=
  [ "construction.com"; "sweets.com"; "facebook.com"; "linkedin.com";
    "twitter.com"; "instagram.com"; "youtube.com"; "google.com";
    "pinterest.com"; "tiktok.com"; "amazonaws.com"; "cloudfront.net";
    "cloudflare.com"; "googleapis.com"; "gstatic.com"; "bootstrapcdn.com";
    "jquery.com"; "fontawesome.com"; "microsoft.com"; "bing.com"; "w3.org";
    "schema.org"; "doubleclick.net"; "googlesyndication.com";
    "googletagmanager.com" ].

Definition asset_extensions_html : list string :=
  [ ".js"; ".css"; ".png"; ".jpg"; ".gif"; ".ico"; ".woff"; ".svg" ].

(** Tel:\s*\((\d{3})\)\s*(\d{3})-(\d{4}) and the like *)
Definition tel_parens_re : regex := seqs [lit "Tel:"; spaces; phone_parens3].
Definition tel_seps_re : regex := seqs [lit "Tel:"; spaces; phone_seps3].
Definition fax_parens_re : regex := seqs [lit "Fax:"; spaces; phone_parens3].

(** href=DQ( https?://(?:www\.)?[a-zA-Z0-9.-]+\.[a-zA-Z]{2,}/? )DQ *)
Definition href_site_re : regex :=
  seqs [lit "href="; ch dq;
        Grp 1 (seqs [lit "http"; opt (ch "s"); lit "://"; opt (lit "www.");
                     some (Chr is_domain_char); ch ".";
                     at_least 2 (Chr is_alpha); opt (ch "/")]);
        ch dq].

(** https?://(?:www\.)?([a-zA-Z0-9.-]+\.[a-zA-Z]{2,}) *)
Definition domain_tld_re : regex :=
  seqs [lit "http"; opt (ch "s"); lit "://"; opt (lit "www.");
        Grp 1 (seqs [some (Chr is_domain_char); ch ".";
                     at_least 2 (Chr is_alpha)])].

(** >([^<]+)<[^>]*>(city),?\s*([A-Z]{2})\s+(\d{5}(?:-\d{4})?)<
    (IGNORECASE) *)
Definition addr_pattern : regex :=
  icase (seqs [ch ">"; Grp 1 (some (not_ch "<")); ch "<"; many (not_ch ">");
               ch ">"; Grp 2 city_name; opt (ch ","); spaces; Grp 3 upper2;
               some space; Grp 4 zip9; ch "<"]).

(** The regex fall-back of [scrape_product_details], used when the page
    has no address element: each field is written only when its pattern
    matches. *)
Definition regex_fallback (html_ : string) (c : Contact) : Contact :=
  let c :=
    match search tel_parens_re html_ with
    | Some m => with_phone (format_phone m) c
    | None =>
        match search tel_seps_re html_ with
        | Some m => with_phone (format_phone m) c
        | None => c
        end
    end in
  let c :=
    match search fax_parens_re html_ with
    | Some m => with_fax (format_phone m) c
    | None => c
    end in
  let c :=
    match find (fun e => negb (any_in excluded_email_domains (lower e)))
               (findall1 (Grp 1 email_re) html_) with
    | Some e => with_email e c
    | None => c
    end in
  let c :=
    match find (fun u =>
                  match search domain_tld_re u with
                  | Some m =>
                      negb (any_in excluded_domains (lower (group m 1)))
                      && negb (any_in asset_extensions_html (lower u))
                  | None => false
                  end)
               (findall1 href_site_re html_) with
    | Some u => with_website (rstrip_chars "/" u) c
    | None => c
    end in
  match search addr_pattern html_ with
  | Some m =>
      with_place (strip (group m 2)) (state_name (strip (group m 3)))
                 (strip (group m 4)) (with_address (strip (group m 1)) c)
  | None => c
  end.

(** [self._manufacturer_cache]: a manufacturer id gives the contact read
    from the manufacturer's page, None standing for the empty dict of a
    page that gave nothing. *)
Definition Cache : Type := list (string * option Contact).

Fixpoint cache_get (k : string) (d : Cache) : option (option Contact) :=
  match d with
  | [] => None
  | (k', v) :: d' => if String.eqb k' k then Some v else cache_get k d'
  end.

(** [d[k] = v] *)
Fixpoint cache_set (k : string) (v : option Contact) (d : Cache) : Cache :=
  match d with
  | [] => [(k, v)]
  | (k', v') :: d' =>
      if String.eqb k' k then (k, v) :: d' else (k', v') :: cache_set k v d'
  end.

(** [_scrape_manufacturer_contact] *)
Definition _scrape_manufacturer_contact (site : Site) (manufacturer_id_ : string)
  : option Contact * list Event :=
  let mfr_url := (BASE_URL ++ "/manufacturer/" ++ manufacturer_id_)%string in
  let '(r, evs) := _make_request_raw site mfr_url in
  match r with
  | None => (None, evs)
  | Some p =>
      if is_empty (html p) then (None, evs)
      else
        match company_info p with
        | Some tag => (Some (_parse_address_tag tag EmptyString), evs)
        | None => (None, evs)
        end
  end.

(** What a manufacturer's contact does to a product whose address is
    empty: address, city, state and ZIP are taken over; phone, fax,
    email and web site only where the product has none. *)
Definition apply_manufacturer (m : Contact) (c : Contact) : Contact :=
  {| address := address m; city := city m; state := state m;
     zip_code := zip_code m;
     phone := if is_empty (phone c) then phone m else phone c;
     fax := if is_empty (fax c) then fax m else fax c;
     email := if is_empty (email c) then email m else email c;
     website := if is_empty (website c) then website m else website c |}.

(** Category:\s*</strong>\s*([^<]+) and Category:\s*([^<\n]+) *)
Definition labelled_strong (label : string) : regex :=
  seqs [lit label; spaces; lit "</strong>"; spaces; Grp 1 (some (not_ch "<"))].

Definition labelled_plain (label : string) : regex :=
  seqs [lit label; spaces;
        Grp 1 (some (NChr (fun c => Ascii.eqb c "<" || Ascii.eqb c nl)))].

Definition labelled_value (label html_ : string) : option string :=
  match search (labelled_strong label) html_ with
  | Some m => Some (strip (group m 1))
  | None =>
      match search (labelled_plain label) html_ with
      | Some m => Some (strip (group m 1))
      | None => None
      end
  end.

(** selectedProductID\s*=\s*[DQ']?(\d+) *)
Definition product_id_re : regex :=
  seqs [lit "selectedProductID"; spaces; ch "="; spaces;
        opt (Chr (fun c => Ascii.eqb c dq || Ascii.eqb c "'"));
        Grp 1 (some digit)].

(** The pieces of the indicator patterns: two words with \s* between,
    a quoted word, and downloadtype[DQ\s:]+word. *)
Definition w2 (a b : string) : regex := seqs [lit a; spaces; lit b].
Definition qw (a : string) : regex := quoted (lit a).
Definition dl (a : string) : regex :=
  seqs [lit "downloadtype";
        some (Chr (fun c => Ascii.eqb c dq || is_space c || Ascii.eqb c ":"));
        lit a].

Definition any_search (patterns : list regex) (s : string) : bool :=
  existsb (fun r => matches r s) patterns.

(** The content-type indicators, read from the page in lower case. *)
Definition detect_flags (html_lower : string) : Flags :=
  {| has_3part_spec :=
       any_search [w2 "3-part" "spec"; lit "3partspec";
                   w2 "system" "specifications"; lit "specwizard"; qw "spec";
                   w2 "specification" "document"; dl "spec"] html_lower;
     has_bim :=
       any_search [w2 "bim" "library"; qw "bim"; lit ".rfa"; lit ".rvt";
                   w2 "revit" "content"; w2 "revit" "family";
                   w2 "bim" "object"; dl "bim"] html_lower;
     has_cad :=
       any_search [w2 "cad" "library"; qw "cad"; lit ".dwg"; lit ".dxf";
                   lit "autocad"; w2 "cad" "details"; w2 "cad" "drawing";
                   dl "cad"] html_lower;
     has_ceu :=
       any_search [qw "ceu"; w2 "continuing" "education"; w2 "aia" "credit";
                   w2 "aia" "ces"; w2 "education" "course";
                   w2 "learning" "unit"; dl "ceu"] html_lower;
     has_catalog :=
       any_search [qw "catalog"; w2 "product" "catalog"; w2 "full" "catalog";
                   w2 "catalog" "download"; dl "catalog"] html_lower;
     has_data_sheet :=
       any_search [w2 "data" "sheet"; w2 "product" "data";
                   w2 "technical" "data"; w2 "tech" "sheet";
                   w2 "specification" "sheet"; dl "data"] html_lower;
     has_gallery :=
       any_search [qw "gallery"; w2 "photo" "gallery"; w2 "image" "gallery";
                   w2 "case" "stud"; w2 "project" "gallery"; dl "gallery"]
                  html_lower;
     has_green :=
       any_search [qw "green"; w2 "green" "building"; w2 "leed" "credit";
                   w2 "leed" "certif"; lit "sustainab";
                   w2 "environmental" "product"; lit "epd"; dl "green"]
                  html_lower;
     has_product_selector :=
       any_search [w2 "product" "selector"; w2 "line" "card";
                   w2 "selection" "guide"; w2 "product" "guide";
                   dl "selector"] html_lower;
     has_supporting_material :=
       any_search [w2 "supporting" "material"; lit "literature";
                   lit "brochure"; w2 "marketing" "material";
                   w2 "sales" "sheet"; dl "support"] html_lower |}.

(** LABEL\s*\((\d+)\)  (IGNORECASE) *)
Definition tab_count_re (label : regex) : regex :=
  icase (seqs [label; spaces; ch "("; Grp 1 (some digit); ch ")"]).

Definition tab_count (label : regex) (page_source : string) : option nat :=
  match search (tab_count_re label) page_source with
  | Some m => Some (int_of_digits 0 (group m 1))
  | None => None
  end.

Definition or_count (o : option nat) (old : nat) : nat :=
  match o with Some n => n | None => old end.

Definition or_flag (o : option nat) (old : bool) : bool :=
  match o with Some n => 0 <? n | None => old end.

(** [_extract_download_counts_selenium]: the counts of the download
    tabs of the rendered page; a tab that is absent leaves its count and
    indicator alone. *)
Definition _extract_download_counts_selenium (browser : string -> option Page)
           (product : Product) : Product :=
  match browser (url product) with
  | None => product
  | Some pg =>
      let src := html pg in
      let all := tab_count (lit "ALL") src in
      let catalog := tab_count (Seq (lit "CATALOG") (opt (ch "S"))) src in
      let cad := tab_count (lit "CAD") src in
      let bim := tab_count (lit "BIM") src in
      let spec :=
        tab_count (seqs [lit "3-PART"; spaces; lit "SPEC"; opt (ch "S")]) src in
      let gallery :=
        tab_count (Seq (lit "GALLER") (Alt (lit "Y") (lit "IES"))) src in
      let ceu := tab_count (lit "CEU") src in
      let green := tab_count (lit "GREEN") src in
      let other := tab_count (lit "OTHER") src in
      let cs := counts product in
      let fs := flags product in
      set_flags
        {| has_3part_spec := or_flag spec (has_3part_spec fs);
           has_bim := or_flag bim (has_bim fs);
           has_cad := or_flag cad (has_cad fs);
           has_ceu := or_flag ceu (has_ceu fs);
           has_catalog := or_flag catalog (has_catalog fs);
           has_data_sheet := has_data_sheet fs;
           has_gallery := or_flag gallery (has_gallery fs);
           has_green := or_flag green (has_green fs);
           has_product_selector := has_product_selector fs;
           has_supporting_material := has_supporting_material fs |}
        (set_counts
           {| count_3part_spec := or_count spec (count_3part_spec cs);
              count_bim := or_count bim (count_bim cs);
              count_cad := or_count cad (count_cad cs);
              count_ceu := or_count ceu (count_ceu cs);
              count_catalog := or_count catalog (count_catalog cs);
              count_gallery := or_count gallery (count_gallery cs);
              count_green := or_count green (count_green cs);
              count_other := or_count other (count_other cs);
              count_total := or_count all (count_total cs) |}
           product)
  end.

(** The manufacturer-page fall-back of [scrape_product_details]: it
    runs when the address is still empty and the product has a
    manufacturer id; the page is fetched once per id and kept in the
    cache. *)
Definition manufacturer_fallback (site : Site) (cache : Cache)
           (product : Product) : Product * Cache * list Event :=
  if is_empty (address (contact product))
     && nonempty (manufacturer_id product)
  then
    match cache_get (manufacturer_id product) cache with
    | Some cached =>
        match cached with
        | Some m =>
            (set_contact (apply_manufacturer m (contact product)) product,
             cache, [])
        | None => (product, cache, [])
        end
    | None =>
        let '(mfr_contact, evs) :=
          _scrape_manufacturer_contact site (manufacturer_id product) in
        let cache := cache_set (manufacturer_id product) mfr_contact cache in
        match mfr_contact with
        | Some m =>
            (set_contact (apply_manufacturer m (contact product)) product,
             cache, evs)
        | None => (product, cache, evs)
        end
    end
  else (product, cache, []).

(** What [scrape_product_details] does with a page that came back.
    [selenium] stands for [self.use_selenium and self.driver]. *)
Definition extract_product (selenium : bool) (site : Site)
           (browser : Browser) (cache : Cache) (p : Page) (product : Product)
  : Product * Cache * list Event :=
  let html_ := html p in
  let product :=
    match company_info p with
    | Some address_tag =>
        set_contact (_parse_address_tag address_tag (manufacturer_name product))
                    product
    | None => set_contact (regex_fallback html_ (contact product)) product
    end in
  let '(product, cache, evs) := manufacturer_fallback site cache product in
  let product :=
    match labelled_value "Category:" html_ with
    | Some v => set_category v product
    | None => product
    end in
  let product :=
    match labelled_value "MasterFormat:" html_ with
    | Some v => set_masterformat v product
    | None => product
    end in
  let product :=
    match meta_description p with
    | Some d => set_description (str_take 500 d) product
    | None => product
    end in
  let html_lower := lower html_ in
  let product :=
    match search product_id_re html_ with
    | Some m => set_manufacturer_id (group m 1) product
    | None => product
    end in
  let product := set_flags (detect_flags html_lower) product in
  let product :=
    if selenium then _extract_download_counts_selenium browser product
    else product in
  (product, cache, evs).

(** [scrape_product_details]: the product comes back unchanged when the
    request fails or the body is empty. *)
Definition scrape_product_details (selenium : bool) (site : Site)
           (browser : Browser) (cache : Cache) (product : Product)
  : Product * Cache * list Event :=
  let '(r, evs) := _make_request_raw site (url product) in
  match r with
  | None => (product, cache, evs)
  | Some p =>
      if is_empty (html p) then (product, cache, evs)
      else
        let '(product, cache, evs') :=
          extract_product selenium site browser cache p product in
        (product, cache, evs ++ evs')
  end.

(** *** Checkpoint store and scraper *)

(** The checkpoint file: every attribute of every division, section and
    product is written and read back, so the file holds the divisions as
    they are.  The time stamp is left out. *)
Record Checkpoint : Type := {
  cp_products_scraped : nat;
  cp_divisions : list Division
}.

Record Scraper : Type := {
  divisions : list Division;
  products_scraped_count : nat;
  interrupted : bool;
  selenium : bool;                    (* use_selenium and driver *)
  progress : ProgressTracker.t;
  manufacturer_cache : Cache;
  disk : option Checkpoint;           (* the checkpoint file *)
  ticks : nat;                        (* readings of the clock so far *)
  requests : list Event;              (* what the fetch client did *)
  details : list string;              (* the detail pages asked for *)
  steps : nat;                        (* detail iterations of this run *)
  halted : bool                       (* the process has ended *)
}.

Definition new_scraper (use_selenium : bool) (file : option Checkpoint)
  : Scraper :=
  {| divisions := []; products_scraped_count := 0; interrupted := false;
     selenium := use_selenium; progress := ProgressTracker.init;
     manufacturer_cache := []; disk := file; ticks := 0; requests := [];
     details := []; steps := 0; halted := false |}.

Definition with_divisions (ds : list Division) (s : Scraper) : Scraper :=
  {| divisions := ds; products_scraped_count := products_scraped_count s;
     interrupted := interrupted s; selenium := selenium s;
     progress := progress s; manufacturer_cache := manufacturer_cache s;
     disk := disk s; ticks := ticks s; requests := requests s;
     details := details s; steps := steps s; halted := halted s |}.

Definition with_count (n : nat) (s : Scraper) : Scraper :=
  {| divisions := divisions s; products_scraped_count := n;
     interrupted := interrupted s; selenium := selenium s;
     progress := progress s; manufacturer_cache := manufacturer_cache s;
     disk := disk s; ticks := ticks s; requests := requests s;
     details := details s; steps := steps s; halted := halted s |}.

Definition with_progress (p : ProgressTracker.t) (n : nat) (s : Scraper)
  : Scraper :=
  {| divisions := divisions s;
     products_scraped_count := products_scraped_count s;
     interrupted := interrupted s; selenium := selenium s; progress := p;
     manufacturer_cache := manufacturer_cache s; disk := disk s; ticks := n;
     requests := requests s; details := details s; steps := steps s;
     halted := halted s |}.

Definition with_disk (file : option Checkpoint) (s : Scraper) : Scraper :=
  {| divisions := divisions s;
     products_scraped_count := products_scraped_count s;
     interrupted := interrupted s; selenium := selenium s;
     progress := progress s; manufacturer_cache := manufacturer_cache s;
     disk := file; ticks := ticks s; requests := requests s;
     details := details s; steps := steps s; halted := halted s |}.

Definition log_requests (evs : list Event) (s : Scraper) : Scraper :=
  {| divisions := divisions s;
     products_scraped_count := products_scraped_count s;
     interrupted := interrupted s; selenium := selenium s;
     progress := progress s; manufacturer_cache := manufacturer_cache s;
     disk := disk s; ticks := ticks s; requests := requests s ++ evs;
     details := details s; steps := steps s; halted := halted s |}.

(** One call of [scrape_product_details] has been made for [u]. *)
Definition log_detail (u : string) (cache : Cache) (evs : list Event)
           (s : Scraper) : Scraper :=
  {| divisions := divisions s;
     products_scraped_count := products_scraped_count s;
     interrupted := interrupted s; selenium := selenium s;
     progress := progress s; manufacturer_cache := cache; disk := disk s;
     ticks := ticks s; requests := requests s ++ evs;
     details := details s ++ [u]; steps := S (steps s); halted := halted s |}.

Definition halt (by_signal : bool) (s : Scraper) : Scraper :=
  {| divisions := divisions s;
     products_scraped_count := products_scraped_count s;
     interrupted := interrupted s || by_signal; selenium := selenium s;
     progress := progress s; manufacturer_cache := manufacturer_cache s;
     disk := disk s; ticks := ticks s; requests := requests s;
     details := details s; steps := steps s; halted := true |}.

(** [_save_checkpoint]; the write is taken to succeed. *)
Definition _save_checkpoint (s : Scraper) : Scraper :=
  with_disk (Some {| cp_products_scraped := products_scraped_count s;
                     cp_divisions := divisions s |}) s.

Definition _load_checkpoint (s : Scraper) : option Checkpoint := disk s.

(** [_restore_from_checkpoint] *)
Definition _restore_from_checkpoint (checkpoint_data : Checkpoint)
           (s : Scraper) : Scraper :=
  with_count (cp_products_scraped checkpoint_data)
             (with_divisions (divisions s ++ cp_divisions checkpoint_data) s).

Definition maybe_save_checkpoint_every (interval : nat) (s : Scraper)
  : Scraper :=
  if (0 <? products_scraped_count s)
     && (products_scraped_count s mod interval =? 0)
  then _save_checkpoint s
  else s.

(** [_maybe_save_checkpoint] *)
Definition _maybe_save_checkpoint (s : Scraper) : Scraper :=
  maybe_save_checkpoint_every CHECKPOINT_INTERVAL s.

(** The signal handler saves a checkpoint and ends the process. *)
Definition signal_handler (s : Scraper) : Scraper :=
  halt true (_save_checkpoint s).

Inductive Stop : Type :=
| Never
| KillAfter (n : nat)
| SignalAfter (n : nat).

Definition stop_now (stop : Stop) (s : Scraper) : option bool :=
  match stop with
  | Never => None
  | KillAfter n => if steps s =? n then Some false else None
  | SignalAfter n => if steps s =? n then Some true else None
  end.

(** A product counts as detailed when it has a phone or an email. *)
Definition is_detailed (p : Product) : bool :=
  nonempty (phone (contact p)) || nonempty (email (contact p)).

Definition scraped_urls (ds : list Division) : list string :=
  flat_map (fun d =>
    flat_map (fun sec =>
      flat_map (fun p => if is_detailed p then [url p] else [])
               (products sec))
             (sections d)) ds.

Definition progress_start (clock : nat -> Q) (total : nat) (s : Scraper)
  : Scraper :=
  with_progress
    (ProgressTracker.start (clock (ticks s)) (clock (S (ticks s))) total
                           (progress s))
    (S (S (ticks s))) s.

Definition progress_update (clock : nat -> Q) (s : Scraper) : Scraper :=
  with_progress (ProgressTracker.update (clock (ticks s)) 1 (progress s))
                (S (ticks s)) s.

Section Crawl.

Variable site : Site.
Variable browser : Browser.
Variable clock : nat -> Q.
Variable interval : nat.
Variable stop : Stop.
Variables max_divisions max_sections max_products : option nat.
Variable scraped_product_urls : list string.

Definition not_scraped (p : Product) : bool :=
  negb (mem (url p) scraped_product_urls).

(** First pass of [scrape_all], the sections of one division. *)
Fixpoint count_sections (division : Division) (todo : list Section_)
  : list Section_ * nat * list Event :=
  match todo with
  | [] => ([], 0, [])
  | section :: rest =>
      let '(section, evs) :=
        if is_nil (products section)
        then scrape_section_products site section division
        else (section, []) in
      let n :=
        List.length (filter not_scraped
                            (limit max_products (products section))) in
      let '(ss, total, evs') := count_sections division rest in
      (section :: ss, n + total, evs ++ evs')
  end.

(** First pass of [scrape_all], the divisions. *)
Fixpoint count_pass (todo : list Division)
  : list Division * nat * list Event :=
  match todo with
  | [] => ([], 0, [])
  | division :: rest =>
      let '(division, evs) :=
        if is_nil (sections division)
        then scrape_division_sections site division
        else (division, []) in
      let sections_to_count := limit max_sections (sections division) in
      let beyond :=
        skipn (List.length sections_to_count) (sections division) in
      let '(ss, n, evs1) := count_sections division sections_to_count in
      let division := set_sections (ss ++ beyond) division in
      let '(ds, total, evs2) := count_pass rest in
      (division :: ds, n + total, evs ++ evs1 ++ evs2)
  end.

(** Second pass, the products of one section. *)
Fixpoint detail_products (view : list Product -> list Division)
         (done todo : list Product) (s : Scraper) : list Product * Scraper :=
  match todo with
  | [] => (done, s)
  | product :: rest =>
      if halted s then (done ++ todo, s)
      else if mem (url product) scraped_product_urls
      then detail_products view (done ++ [product]) rest s
      else if interrupted s then (done ++ todo, s)
      else
        match stop_now stop s with
        | Some true => (done ++ todo, signal_handler s)
        | Some false => (done ++ todo, halt false s)
        | None =>
            let '(product', cache, evs) :=
              scrape_product_details (selenium s) site browser
                                     (manufacturer_cache s) product in
            let s :=
              with_divisions (view (done ++ product' :: rest))
                             (log_detail (url product) cache evs s) in
            let s := with_count (S (products_scraped_count s)) s in
            let s := progress_update clock s in
            let s := maybe_save_checkpoint_every interval s in
            detail_products view (done ++ [product']) rest s
        end
  end.

(** Second pass, the sections of one division. *)
Fixpoint detail_sections (view : list Section_ -> list Division)
         (done todo : list Section_) (s : Scraper) : list Section_ * Scraper :=
  match todo with
  | [] => (done, s)
  | section :: rest =>
      if halted s || interrupted s then (done ++ todo, s)
      else
        let products_to_process := limit max_products (products section) in
        let beyond :=
          skipn (List.length products_to_process) (products section) in
        let section_with ps := set_products (ps ++ beyond) section in
        let '(ps, s) :=
          detail_products
            (fun ps => view (done ++ section_with ps :: rest))
            [] products_to_process s in
        detail_sections view (done ++ [section_with ps]) rest s
  end.

(** Second pass, the divisions. *)
Fixpoint detail_divisions (pre todo post : list Division) (s : Scraper)
  : Scraper :=
  match todo with
  | [] => s
  | division :: rest =>
      if halted s || interrupted s then s
      else
        let sections_to_process := limit max_sections (sections division) in
        let beyond :=
          skipn (List.length sections_to_process) (sections division) in
        let division_with ss := set_sections (ss ++ beyond) division in
        let '(ss, s) :=
          detail_sections
            (fun ss => pre ++ division_with ss :: rest ++ post)
            [] sections_to_process s in
        if halted s || interrupted s then s
        else detail_divisions (pre ++ [division_with ss]) rest post s
  end.

End Crawl.

Record Options : Type := {
  max_divisions : option nat;
  max_sections_per_division : option nat;
  max_products_per_section : option nat;
  resume : bool
}.

(** What [scrape_all] does on resume before its passes. *)
Definition resume_all (o : Options) (s : Scraper) : Scraper * list string :=
  if resume o then
    match _load_checkpoint s with
    | Some checkpoint =>
        let s := _restore_from_checkpoint checkpoint s in
        (s, scraped_urls (divisions s))
    | None => (s, [])
    end
  else (s, []).

(** The body of [scrape_all] after that. *)
Definition all_passes (interval : nat) (site : Site) (browser : Browser)
           (clock : nat -> Q) (stop : Stop) (o : Options)
           (scraped_product_urls : list string) (s : Scraper) : Scraper :=
  let s :=
    if is_nil (divisions s) then
      let '(ds, evs) := scrape_divisions site in
      log_requests evs
        match ds with
        | Some l => with_divisions l s
        | None => s
        end
    else s in
  let divisions_to_process := limit (max_divisions o) (divisions s) in
  let beyond := skipn (List.length divisions_to_process) (divisions s) in
  let '(ds, total_products, evs) :=
    count_pass site (max_sections_per_division o)
               (max_products_per_section o) scraped_product_urls
               divisions_to_process in
  let s := log_requests evs (with_divisions (ds ++ beyond) s) in
  let s := progress_start clock total_products s in
  let s :=
    detail_divisions site browser clock interval stop
                     (max_sections_per_division o)
                     (max_products_per_section o) scraped_product_urls
                     [] ds beyond s in
  if halted s then s
  else if interrupted s then s else _save_checkpoint s.

(** [scrape_all(max_divisions, max_sections_per_division,
    max_products_per_section, resume)] with the interval of the periodic
    checkpoint as a parameter. *)
Definition scrape_all_every (interval : nat) (site : Site) (browser : Browser)
           (clock : nat -> Q) (stop : Stop) (o : Options) (s : Scraper)
  : Scraper :=
  let '(s, scraped_product_urls) := resume_all o s in
  all_passes interval site browser clock stop o scraped_product_urls s.

(** [scrape_all] *)
Definition scrape_all (site : Site) (browser : Browser) (clock : nat -> Q)
           (stop : Stop) (o : Options) (s : Scraper) : Scraper :=
  scrape_all_every CHECKPOINT_INTERVAL site browser clock stop o s.

(** The entity store as a list: every product of every section. *)
Definition entities (ds : list Division) : list Product :=
  flat_map (fun d => flat_map products (sections d)) ds.

Definition same_store (ds1 ds2 : list Division) : Prop :=
  Permutation (entities ds1) (entities ds2).

Definition canonical_key (p : Product) : string := before_char "?" (url p).

End Sweets.

(* ------------------------------------------------------------------ *)
(** ** Notions used to state the properties *)
(* ------------------------------------------------------------------ *)

(** What one failed attempt of [_make_request] leaves in the trace when
    the failure is a timeout or a connection error: a back-off sleep
    follows the request unless the attempt is the last. *)
Definition failed_attempt (max_retries base : nat) (url : string)
           (attempt : nat) : list Event :=
  if attempt <? max_retries - 1
  then [RateSleep; Get url; BackoffSleep (base * 2 ^ attempt)]
  else [RateSleep; Get url].

Module ArcatNotions.
Import Arcat.

(** A company is ready for the detail loop when it has no address yet
    or its URL is in the set of scraped URLs. *)
Definition ready (scraped : list string) (c : Company) : Prop :=
  is_empty (address c) = true \/ mem (url c) scraped = true.

(** A company link reaches the association test of
    [scrape_division_manufacturers] when no earlier guard of the loop
    skips it: its text is not empty, its [href] has none of the
    sub-page markers, and its key is not in [seen_companies]. *)
Definition reaches_test (seen_companies : seen_dict) (link : Anchor) : bool :=
  negb (is_empty (atext link) || contains "/cad" (href link)
        || contains "/bim" (href link) || contains "/spec" (href link))
  && negb (dict_has (base_href_of (href link)) seen_companies).

(** The company that the loop creates for a link. *)
Definition company_of_link (d : Division) (link : Anchor) : Company :=
  new_company (atext link)
    (if startswith "/" (href link) then (BASE_URL ++ href link)%string
     else href link)
    (match search company_id_re (href link) with
     | Some m => group m 1
     | None => EmptyString
     end)
    (code d ++ " - " ++ dname d)%string.

(** An entry of [seen_companies] comes from a link of the page. *)
Definition keyed (kv : string * Company) : Prop :=
  exists d link,
    fst kv = base_href_of (href link) /\ snd kv = company_of_link d link.

(** The key of an entry of [seen_companies] is the canonical key of its
    company without the prefix of the site. *)
Definition key_matches (kv : string * Company) : Prop :=
  canonical_key (snd kv) = (BASE_URL ++ fst kv)%string.

(** The detail pages fetched so far are none of the scraped ones. *)
Definition clean (scraped : list string) (s : Scraper) : Prop :=
  Forall (fun u => mem u scraped = false) (detail_urls (details s)).

(** The guard of the counting pass: a division is expanded only while it
    has no companies. *)
Definition expand_if_empty (site : Site) (d : Division) : Division :=
  if is_nil (companies d) then fst (scrape_division_manufacturers site d)
  else d.

Definition without_subcategories (c : BuildingProductCategory)
  : BuildingProductCategory :=
  {| cname := cname c; curl := curl c; subcategories := [];
     related_csi_divisions := []; ccompanies := ccompanies c |}.

End ArcatNotions.

Module SweetsNotions.
Import Sweets.

(** The detail pages asked for so far are none of the scraped ones. *)
Definition clean (scraped : list string) (s : Scraper) : Prop :=
  Forall (fun u => mem u scraped = false) (details s).

(** The guards of the counting pass: a division is expanded only while
    it has no sections, a section only while it has no products. *)
Definition expand_if_empty (site : Site) (d : Division) : Division :=
  if is_nil (sections d) then fst (scrape_division_sections site d) else d.

Definition expand_section_if_empty (site : Site) (d : Division)
           (sec : Section_) : Section_ :=
  if is_nil (products sec) then fst (scrape_section_products site sec d)
  else sec.

End SweetsNotions.

(* ------------------------------------------------------------------ *)
(** ** Example sites *)
(* ------------------------------------------------------------------ *)

(** Pages are built from their parts; a site is a table of pages, every
    other URL answering with an HTTP error. *)
Definition quote_mark : string := String dq EmptyString.

(** The fields of a serialized record: each in double quotes, commas
    between them. *)
Definition serialized (fields : list string) : string :=
  join "," (map (fun f => (quote_mark ++ f ++ quote_mark)%string) fields).

Definition page_of_markup (markup : string) : Page :=
  {| html := markup; text := EmptyString; text_sep := EmptyString;
     anchors := []; company_info := None; meta_description := None |}.

Definition page_of_links (links : list (string * string)) : Page :=
  {| html := EmptyString; text := EmptyString; text_sep := EmptyString;
     anchors := map (fun l => {| href := fst l; atext := snd l;
                                 parent_text := None |}) links;
     company_info := None; meta_description := None |}.

Fixpoint page_at (pages : list (string * Page)) (u : string) : option Page :=
  match pages with
  | [] => None
  | (k, p) :: rest => if String.eqb k u then Some p else page_at rest u
  end.

Definition site_of (pages : list (string * Page)) : Site :=
  fun u _ => match page_at pages u with Some p => Ok p | None => HttpError end.

Definition no_browser : Browser := fun _ => None.

Definition wall_clock : nat -> Q := fun n => inject_Z (Z.of_nat n).

(** The markup of the address scenario: the serialized fields
    123 Oak Rd., Austin, TX, 78701, 512-555-0100, info@example.com. *)
Definition scenario_markup : string :=
  serialized ["123 Oak Rd."; "Austin"; "TX"; "78701"; "512-555-0100";
              "info@example.com"].

Module ArcatExamples.
Import Arcat.

Definition all_options (r : bool) : Options :=
  {| max_divisions := None; max_companies := None; resume := r |}.

(** A detail page with a serialized address at [street]. *)
Definition company_page (street : string) : Page :=
  page_of_markup
    (serialized [street; "Austin"; "TX"; "78701"; "512-555-0100";
                 "info@example.com"]).

(** A detail page that gives a phone number and no address. *)
Definition bare_page : Page :=
  {| html := "<p>Call us</p>"; text := "Phone: 512-555-0100";
     text_sep := "Phone: 512-555-0100"; anchors := []; company_info := None;
     meta_description := None |}.

Definition masonry_link : string * string :=
  ("/content-type/product/masonry-04/masonry-040000", "04 - MASONRY").
Definition metals_link : string * string :=
  ("/content-type/product/metals-05/metals-050000", "05 - METALS").
Definition masonry_url : string := (BASE_URL ++ fst masonry_link)%string.
Definition metals_url : string := (BASE_URL ++ fst metals_link)%string.

Definition company_url (slug : string) : string :=
  (BASE_URL ++ "/company/" ++ slug)%string.

(** One division with three companies whose pages give an address. *)
Definition three_companies : Site :=
  site_of
    [ (categories_url, page_of_links [masonry_link]);
      (masonry_url,
       page_of_links [("/company/a-1", "A Corp"); ("/company/b-2", "B Corp");
                      ("/company/c-3", "C Corp")]);
      (company_url "a-1", company_page "1 Oak Rd.");
      (company_url "b-2", company_page "2 Oak Rd.");
      (company_url "c-3", company_page "3 Oak Rd.") ].

(** The same division when the pages of the first two companies give no
    address. *)
Definition three_companies_two_bare : Site :=
  site_of
    [ (categories_url, page_of_links [masonry_link]);
      (masonry_url,
       page_of_links [("/company/a-1", "A Corp"); ("/company/b-2", "B Corp");
                      ("/company/c-3", "C Corp")]);
      (company_url "a-1", bare_page);
      (company_url "b-2", bare_page);
      (company_url "c-3", company_page "3 Oak Rd.") ].


(** The scenario: the run is killed when two detail pages are done, a
    periodic checkpoint having been taken after the second (interval 2);
    a new process resumes from the file. *)
Definition killed_after_two (site : Site) : Scraper :=
  scrape_csi_only_every 2 site no_browser wall_clock (KillAfter 2)
                        (all_options false) (new_scraper false None).

Definition resumed_after_two (site : Site) : Scraper :=
  scrape_csi_only_every 2 site no_browser wall_clock Never (all_options true)
                        (new_scraper false (disk (killed_after_two site))).

(** Two divisions that list one company in common: ten companies under
    masonry, the first of them under metals too. *)
Definition ten_slugs : list string :=
  [ "c1-1"; "c2-2"; "c3-3"; "c4-4"; "c5-5"; "c6-6"; "c7-7"; "c8-8"; "c9-9";
    "c10-10" ].

Definition shared_company : Site :=
  site_of
    ([ (categories_url, page_of_links [masonry_link; metals_link]);
       (masonry_url,
        page_of_links
          (map (fun s => (("/company/" ++ s)%string, ("Company " ++ s)%string))
               ten_slugs));
       (metals_url, page_of_links [("/company/c1-1", "Company c1-1")]) ]
     ++ map (fun s => (company_url s, company_page "9 Oak Rd.")) ten_slugs).

(** The crawl in one pass. *)
Definition one_pass (site : Site) : Scraper :=
  scrape_csi_only site no_browser wall_clock Never (all_options false)
                  (new_scraper false None).

(** The crawl killed when [n] detail pages are done, then resumed from
    the checkpoint file by a new process. *)
Definition killed_after (n : nat) (site : Site) : Scraper :=
  scrape_csi_only site no_browser wall_clock (KillAfter n) (all_options false)
                  (new_scraper false None).

Definition resumed_after (n : nat) (site : Site) : Scraper :=
  scrape_csi_only site no_browser wall_clock Never (all_options true)
                  (new_scraper false (disk (killed_after n site))).

Definition without_address (c : Company) : bool := is_empty (address c).

Definition masonry : Division :=
  new_division "04 00 00" "MASONRY" masonry_url.

Definition company_link (h t : string) : Anchor :=
  {| href := h; atext := t; parent_text := None |}.

(** Listing entries that name associations. *)
Definition masonry_institute_link : Anchor :=
  company_link "/company/masonry-institute-of-america-4711"
               "Masonry Institute of America".

Definition spec_institute_link : Anchor :=
  company_link "/company/spec-mix-institute-12" "Spec Mix Institute".

Definition acme_link : Anchor := company_link "/company/acme-7" "Acme Corp".

Definition acme_institute_link : Anchor :=
  company_link "/company/acme-7?tab=training" "Acme Training Institute".

(** The company of the address scenario and the site that serves its
    page: the markup of the scenario and nothing else. *)
Definition scenario_company : Company :=
  new_company "Oak Masonry" (company_url "oak-masonry-1") "1"
              "04 00 00 - MASONRY".

Definition scenario_site : Site :=
  site_of [(company_url "oak-masonry-1", page_of_markup scenario_markup)].

(** A rendered page whose visible text shows one address while its
    markup carries the serialized record of the scenario. *)
Definition rendered_page : Page :=
  {| html := scenario_markup;
     text := "Visit us at 100 Main St, Springfield, IL 62701";
     text_sep := "Visit us at 100 Main St, Springfield, IL 62701";
     anchors := []; company_info := None; meta_description := None |}.

Definition rendering_browser : Browser := fun _ => Some rendered_page.

(** A category page with one sub-category and one related division. *)
Definition masonry_category : BuildingProductCategory :=
  {| cname := "Masonry"; curl := (BASE_URL ++ "/products/masonry")%string;
     subcategories := []; related_csi_divisions := []; ccompanies := [] |}.

Definition category_site : Site :=
  site_of
    [ ((BASE_URL ++ "/products/masonry")%string,
       page_of_links [("/manufacturers/brick", "Brick");
                      ("/content-type/spec/masonry-04", "04 MASONRY")]) ].

End ArcatExamples.

Module SweetsExamples.
Import Sweets.

Definition all_options (r : bool) : Options :=
  {| max_divisions := None; max_sections_per_division := None;
     max_products_per_section := None; resume := r |}.

(** An address element with a street, a city line, a telephone line and
    a mail link. *)
Definition address_tag_of (street phone_line : string) : AddressTag :=
  {| tag_hrefs := ["mailto:info@example.com"];
     tag_markup :=
       ("<address>Acme Inc<br>" ++ street ++ "<br>Austin, TX 78701<br>"
          ++ phone_line ++ "</address>")%string |}.

(** A product page with contact details, and one without any. *)
Definition product_page (street : string) : Page :=
  {| html := "<html>product</html>"; text := EmptyString;
     text_sep := EmptyString; anchors := [];
     company_info := Some (address_tag_of street "Tel: 512-555-0100");
     meta_description := None |}.

Definition silent_page : Page :=
  {| html := "<html>product</html>"; text := EmptyString;
     text_sep := EmptyString; anchors := []; company_info := None;
     meta_description := None |}.

Definition division_href : string :=
  "/quicklinks/3partspecs/04-00-00-masonry".
Definition section_a_href : string :=
  "/masterformat/masonry-04-00-00/unit-masonry-04-20-00".
Definition section_b_href : string :=
  "/masterformat/masonry-04-00-00/stone-04-40-00".

Definition link (h t : string) : Anchor :=
  {| href := h; atext := t; parent_text := None |}.

Definition listing (links : list Anchor) : Page :=
  {| html := "<html>listing</html>"; text := EmptyString;
     text_sep := EmptyString; anchors := links; company_info := None;
     meta_description := None |}.

Definition product_href (slug : string) : string :=
  ("/manufacturer/acme-nst1/products/" ++ slug)%string.

(** One division, one section, three products with contact details. *)
Definition three_products : Site :=
  site_of
    [ (specs_url, listing [link division_href "04 00 00 - Masonry"]);
      ((BASE_URL ++ division_href)%string,
       listing [link section_a_href "04 20 00 - Unit Masonry"]);
      ((BASE_URL ++ section_a_href)%string,
       listing [link (product_href "p1") "Acme Inc - One";
                link (product_href "p2") "Acme Inc - Two";
                link (product_href "p3") "Acme Inc - Three"]);
      ((BASE_URL ++ product_href "p1")%string, product_page "1 Oak Rd.");
      ((BASE_URL ++ product_href "p2")%string, product_page "2 Oak Rd.");
      ((BASE_URL ++ product_href "p3")%string, product_page "3 Oak Rd.") ].

(** The same when the pages of the first two products give no contact
    details. *)
Definition three_products_two_silent : Site :=
  site_of
    [ (specs_url, listing [link division_href "04 00 00 - Masonry"]);
      ((BASE_URL ++ division_href)%string,
       listing [link section_a_href "04 20 00 - Unit Masonry"]);
      ((BASE_URL ++ section_a_href)%string,
       listing [link (product_href "p1") "Acme Inc - One";
                link (product_href "p2") "Acme Inc - Two";
                link (product_href "p3") "Acme Inc - Three"]);
      ((BASE_URL ++ product_href "p1")%string, silent_page);
      ((BASE_URL ++ product_href "p2")%string, silent_page);
      ((BASE_URL ++ product_href "p3")%string, product_page "3 Oak Rd.") ].

Definition killed_after_two (site : Site) : Scraper :=
  scrape_all_every 2 site no_browser wall_clock (KillAfter 2)
                   (all_options false) (new_scraper false None).

Definition resumed_after_two (site : Site) : Scraper :=
  scrape_all_every 2 site no_browser wall_clock Never (all_options true)
                   (new_scraper false (disk (killed_after_two site))).

(** Two sections of one division that list one product in common. *)
Definition shared_product : Site :=
  site_of
    [ (specs_url, listing [link division_href "04 00 00 - Masonry"]);
      ((BASE_URL ++ division_href)%string,
       listing [link section_a_href "04 20 00 - Unit Masonry";
                link section_b_href "04 40 00 - Stone"]);
      ((BASE_URL ++ section_a_href)%string,
       listing [link (product_href "p1") "Acme Inc - One"]);
      ((BASE_URL ++ section_b_href)%string,
       listing [link (product_href "p1") "Acme Inc - One"]);
      ((BASE_URL ++ product_href "p1")%string, product_page "1 Oak Rd.") ].

Definition one_pass (site : Site) : Scraper :=
  scrape_all site no_browser wall_clock Never (all_options false)
             (new_scraper false None).

(** The crawl interrupted by a signal when [n] detail pages are done,
    then resumed from the checkpoint file by a new process. *)
Definition interrupted_after (n : nat) (site : Site) : Scraper :=
  scrape_all site no_browser wall_clock (SignalAfter n) (all_options false)
             (new_scraper false None).

Definition resumed_after (n : nat) (site : Site) : Scraper :=
  scrape_all site no_browser wall_clock Never (all_options true)
             (new_scraper false (disk (interrupted_after n site))).

Definition without_phone (p : Product) : bool := is_empty (phone (contact p)).

(** The address element of the address scenario. *)
Definition scenario_tag : AddressTag :=
  address_tag_of "123 Oak Rd." "Tel: 512-555-0100".

(** A product whose page gives a city and no street, and whose
    manufacturer's page gives a street and no city. *)
Definition city_only_page : Page :=
  {| html := "<html>product</html>"; text := EmptyString;
     text_sep := EmptyString; anchors := [];
     company_info :=
       Some {| tag_hrefs := [];
               tag_markup := "<address>Acme Inc<br>Austin, TX 78701</address>" |};
     meta_description := None |}.

Definition street_only_page : Page :=
  {| html := "<html>manufacturer</html>"; text := EmptyString;
     text_sep := EmptyString; anchors := [];
     company_info :=
       Some {| tag_hrefs := [];
               tag_markup := "<address>Acme Inc<br>5 Main St</address>" |};
     meta_description := None |}.

Definition city_then_street : Site :=
  site_of
    [ ((BASE_URL ++ product_href "p1")%string, city_only_page);
      ((BASE_URL ++ "/manufacturer/acme-nst1")%string, street_only_page) ].

Definition acme_product : Product :=
  {| name := "One"; url := (BASE_URL ++ product_href "p1")%string;
     manufacturer_name := "Acme Inc"; manufacturer_id := "acme-nst1";
     contact := no_contact; division_code := "04 00 00";
     division_name := "Masonry"; section_code := "04 20 00";
     section_name := "Unit Masonry"; category := EmptyString;
     masterformat := EmptyString; flags := no_flags; counts := no_counts;
     description := EmptyString |}.

Definition masonry : Division :=
  {| code := "04 00 00"; dname := "Masonry";
     durl := (BASE_URL ++ division_href)%string; item_count := 0;
     sections := [] |}.

End SweetsExamples.

(* ================================================================== *)
(** * More of the two scrapers *)
(* ================================================================== *)

(* ------------------------------------------------------------------ *)
(** ** Traces of the fetch client *)
(* ------------------------------------------------------------------ *)

(** Every request of a trace comes right after a rate-limit sleep:
    [slept] tells whether the event before was one. *)
Fixpoint paced_from (slept : bool) (evs : list Event) : bool :=
  match evs with
  | [] => true
  | RateSleep :: rest => paced_from true rest
  | Get _ :: rest => slept && paced_from false rest
  | BackoffSleep _ :: rest => paced_from false rest
  end.

Definition paced (evs : list Event) : bool := paced_from false evs.

(** One failed attempt that is retried: the sleep, the request, the
    back-off. *)
Definition retried_attempt (base : nat) (url : string) (attempt : nat)
  : list Event :=
  [RateSleep; Get url; BackoffSleep (base * 2 ^ attempt)].

(** What the result of the fetch routine is when [o] is the outcome of
    its last request. *)
Definition settled (o : Outcome) : option Page :=
  match o with
  | Ok p => Some p
  | _ => None
  end.

(** The failures that [_make_request_raw] retries. *)
Definition is_timeout (o : Outcome) : bool :=
  match o with
  | Timeout => true
  | _ => false
  end.

(* ------------------------------------------------------------------ *)
(** ** The progress tracker over a run *)
(* ------------------------------------------------------------------ *)

Module ProgressRun.
Import ProgressTracker.

(** The calls [update(count)] of a run in order, each with the reading
    of the clock it makes. *)
Definition updates (calls : list (Q * nat)) (p : t) : t :=
  fold_left (fun p call => update (fst call) (snd call) p) calls p.

(** The time between one reading of the clock and the next, [last]
    being the reading before the first. *)
Fixpoint durations (last : Q) (times : list Q) : list Q :=
  match times with
  | [] => []
  | now :: rest => (now - last)%Q :: durations now rest
  end.

End ProgressRun.

(* ------------------------------------------------------------------ *)
(** ** ARCAT: what the checkpoint file keeps *)
(* ------------------------------------------------------------------ *)

Module ArcatCheckpoint.
Import Arcat.

(** The file has no entry for the products of a company nor for the
    specifications of a division: a restored company has no product, a
    restored division no specification. *)
Definition kept_company (c : Company) : Company :=
  {| name := name c; url := url c; company_id := company_id c;
     address := address c; state := state c; phone := phone c;
     website := website c; email := email c;
     product_expert_name := product_expert_name c;
     product_expert_phone := product_expert_phone c;
     product_expert_email := product_expert_email c; products := [];
     building_product_category := building_product_category c |}.

Definition kept_division (d : Division) : Division :=
  {| code := code d; dname := dname d; durl := durl d;
     specifications := []; companies := map kept_company (companies d) |}.

Definition kept_category (c : BuildingProductCategory)
  : BuildingProductCategory :=
  {| cname := cname c; curl := curl c; subcategories := subcategories c;
     related_csi_divisions := related_csi_divisions c;
     ccompanies := map kept_company (ccompanies c) |}.

(** [clear_checkpoint]: the file is removed. *)
Definition clear_checkpoint (s : Scraper) : Scraper := with_disk None s.

End ArcatCheckpoint.

(* ------------------------------------------------------------------ *)
(** ** ARCAT: the other listing pages *)
(* ------------------------------------------------------------------ *)

Module ArcatListings.
Import Arcat.

(** *** [scrape_divisions] *)

Definition divisions_url : string := (BASE_URL ++ "/content-type/spec")%string.

(** ^(\d+)\s+(.+)$ *)
Definition division_text_re : regex :=
  seqs [Bol; Grp 1 (some digit); some space; Grp 2 (some any_char); Eol].

(** The loop over the division links: a link whose [href] was seen is
    skipped; a text of the form code name gives a division. *)
Fixpoint divisions_loop (links : list Anchor) (seen_urls : list string)
  : list Division :=
  match links with
  | [] => []
  | link :: rest =>
      if mem (href link) seen_urls then divisions_loop rest seen_urls
      else
        let seen_urls' := href link :: seen_urls in
        let full_url :=
          if startswith "/" (href link) then (BASE_URL ++ href link)%string
          else href link in
        match rmatch_start division_text_re (atext link) with
        | Some m =>
            new_division (group m 1) (group m 2) full_url
              :: divisions_loop rest seen_urls'
        | None => divisions_loop rest seen_urls'
        end
  end.

(** [scrape_divisions]: the new value of [self.divisions], None when
    the request fails and the attribute is left alone. *)
Definition scrape_divisions (site : Site)
  : option (list Division) * list Event :=
  let '(soup, evs) := _make_request site divisions_url in
  match soup with
  | None => (None, evs)
  | Some p => (Some (divisions_loop (find_links spec_link_re p) []), evs)
  end.

(** *** [scrape_building_product_categories] *)

(** ^/products/[a-z_]+$ *)
Definition category_link_re : regex :=
  seqs [Bol; lit "/products/";
        some (Chr (fun c => is_lower c || Ascii.eqb c "_")); Eol].

Definition categories_href : string := "/products/building_products_categories".

Fixpoint categories_loop (links : list Anchor) (seen_urls : list string)
  : list BuildingProductCategory :=
  match links with
  | [] => []
  | link :: rest =>
      if mem (href link) seen_urls || String.eqb (href link) categories_href
      then categories_loop rest seen_urls
      else
        let full_url := (BASE_URL ++ href link)%string in
        let category_name :=
          title_case (replace_char "_" " " (last_segment (href link))) in
        {| cname := category_name; curl := full_url; subcategories := [];
           related_csi_divisions := []; ccompanies := [] |}
          :: categories_loop rest (href link :: seen_urls)
  end.

(** [scrape_building_product_categories]: the new value of
    [self.building_product_categories], None when the request fails. *)
Definition scrape_building_product_categories (site : Site)
  : option (list BuildingProductCategory) * list Event :=
  let '(soup, evs) := _make_request site categories_url in
  match soup with
  | None => (None, evs)
  | Some p => (Some (categories_loop (find_links category_link_re p) []), evs)
  end.

(** *** [scrape_manufacturers_page] *)

(** /company/[\w-]+-\d+$ *)
Definition company_page_link_re : regex :=
  seqs [lit "/company/"; slug_id; Eol].

(** -(\d+)$ *)
Definition company_id_end_re : regex :=
  seqs [ch "-"; Grp 1 (some digit); Eol].

(** One iteration of the loop over the company links; the state is
    [seen_companies], keyed by the [href], and [skipped_associations]. *)
Definition page_step (category_name : string) (st : seen_dict * nat)
           (link : Anchor) : seen_dict * nat :=
  let '(seen_companies, skipped_associations) := st in
  let h := href link in
  let company_name := atext link in
  if is_empty company_name || dict_has h seen_companies then st
  else if _is_association company_name
  then (seen_companies, S skipped_associations)
  else
    let cid :=
      match search company_id_end_re h with
      | Some m => group m 1
      | None => EmptyString
      end in
    let full_url := if startswith "/" h then (BASE_URL ++ h)%string else h in
    let company := new_company company_name full_url cid category_name in
    (seen_companies ++ [(h, company)], skipped_associations).

Definition page_loop (category_name : string) (links : list Anchor)
  : seen_dict * nat :=
  fold_left (page_step category_name) links ([], 0).

(** [scrape_manufacturers_page]: the companies of the page, none when
    the request fails. *)
Definition scrape_manufacturers_page (site : Site)
           (subcategory_url category_name : string)
  : list Company * list Event :=
  let '(soup, evs) := _make_request site subcategory_url in
  match soup with
  | None => ([], evs)
  | Some p =>
      (map snd (fst (page_loop category_name
                               (find_links company_page_link_re p))), evs)
  end.

(** The URL that the listing loops build from an [href]. *)
Definition absolute (h : string) : string :=
  if startswith "/" h then (BASE_URL ++ h)%string else h.

(** What the loop of [scrape_manufacturers_page] keeps of a link: a
    company, when the link has a text that does not name an
    association. *)
Definition names_company (link : Anchor) : bool :=
  nonempty (atext link) && negb (_is_association (atext link)).

(** What the loop keeps true of an entry of [seen_companies]. *)
Definition entry_ok (category_name : string) (kv : string * Company) : Prop :=
  url (snd kv) = absolute (fst kv) /\
  name (snd kv) <> EmptyString /\
  _is_association (name (snd kv)) = false /\
  building_product_category (snd kv) = category_name /\
  address (snd kv) = EmptyString.

End ArcatListings.

(* ------------------------------------------------------------------ *)
(** ** ARCAT: notions for the runs of [scrape_csi_only] *)
(* ------------------------------------------------------------------ *)

Module ArcatCrawl.
Import Arcat.

(** A scraper that was interrupted has ended, and the file holds the
    checkpoint of the signal handler. *)
Definition signal_saved (s : Scraper) : Prop :=
  interrupted s = true ->
  halted s = true /\ option_map cp_mode (disk s) = Some "divisions".

(** The options with another value of [resume]. *)
Definition with_resume (r : bool) (o : Options) : Options :=
  {| max_divisions := max_divisions o; max_companies := max_companies o;
     resume := r |}.

(** A run that started at count 0 with [file] on the disk and was not
    interrupted: the count is the number of detail calls made, and the
    file is the one of the start until the count reaches [interval],
    then a periodic checkpoint whose count is the last multiple of
    [interval] reached.  If the run has ended, it ended after [k]
    detail calls. *)
Definition periodic (interval k : nat) (file : option Checkpoint)
           (s : Scraper) : Prop :=
  companies_scraped_count s = steps s /\
  interrupted s = false /\
  (halted s = true -> steps s = k) /\
  if steps s <? interval then disk s = file
  else option_map (fun cp => (cp_mode cp, cp_companies_scraped cp)) (disk s)
       = Some (csi_only_mode, interval * (steps s / interval)).

(** The fields of a company that say which company it is. *)
Definition same_identity (c c' : Company) : Prop :=
  name c' = name c /\ url c' = url c /\ company_id c' = company_id c /\
  products c' = products c /\
  building_product_category c' = building_product_category c.

(** Two divisions, and two stores, that differ at most in the contact
    fields of their companies. *)
Definition same_division (d d' : Division) : Prop :=
  code d' = code d /\ dname d' = dname d /\ durl d' = durl d /\
  specifications d' = specifications d /\
  Forall2 same_identity (companies d) (companies d').

Definition same_listing (ds ds' : list Division) : Prop :=
  Forall2 same_division ds ds'.

(** A division that holds nothing the checkpoint file leaves out. *)
Definition plain (d : Division) : Prop :=
  specifications d = [] /\
  Forall (fun c => products c = []) (companies d).

(** What the detail pass makes of a company, of the companies of a
    division within the limit, and the detail pages it asks for. *)
Section Detailed.

Variable sel : bool.
Variable site : Site.
Variable browser : Browser.
Variable scraped : list string.
Variable max_companies : option nat.

Definition detailed (c : Company) : Company :=
  if mem (url c) scraped then c
  else res_company (fst (scrape_company_details sel site browser c)).

Definition detail_events (c : Company) : list DetailEvent :=
  if mem (url c) scraped then []
  else snd (scrape_company_details sel site browser c).

Definition detailed_division (d : Division) : Division :=
  set_companies
    (map detailed (limit max_companies (companies d))
       ++ skipn (List.length (limit max_companies (companies d)))
                (companies d))
    d.

(** The companies of a division that the detail pass has to fetch. *)
Definition due (d : Division) : list Company :=
  filter (not_scraped scraped) (limit max_companies (companies d)).

End Detailed.

(** The scraper [s'] is what [s] becomes by the detail calls for the
    companies [cs], none of which ends the run. *)
Definition advanced (site : Site) (browser : Browser) (scraped : list string)
           (cs : list Company) (s s' : Scraper) : Prop :=
  details s'
  = details s ++ flat_map (detail_events (selenium s) site browser scraped) cs /\
  companies_scraped_count s'
  = companies_scraped_count s
    + List.length (filter (not_scraped scraped) cs) /\
  ProgressTracker.scraped_items (progress s')
  = ProgressTracker.scraped_items (progress s)
    + List.length (filter (not_scraped scraped) cs) /\
  ProgressTracker.total_items (progress s')
  = ProgressTracker.total_items (progress s) /\
  selenium s' = selenium s /\
  halted s' = false /\
  interrupted s' = false /\
  building_product_categories s' = building_product_categories s.

(** The divisions a run works on: those the scraper holds, or those of
    the categories page when it holds none; the ones within the limit
    as the counting pass leaves them, and the ones beyond the limit. *)
Definition starting_divisions (site : Site) (s : Scraper) : list Division :=
  if is_nil (divisions s) then
    match fst (scrape_related_csi_divisions site) with
    | Some l => l
    | None => divisions s
    end
  else divisions s.

Definition entering (site : Site) (o : Options) (s : Scraper)
  : list Division :=
  map (ArcatNotions.expand_if_empty site)
      (limit (max_divisions o) (starting_divisions site s)).

Definition beyond_limit (site : Site) (o : Options) (s : Scraper)
  : list Division :=
  skipn (List.length (limit (max_divisions o) (starting_divisions site s)))
        (starting_divisions site s).

(** [scrape_csi_only] in two parts: what it does up to the end of the
    detail pass, and its last lines. *)
Definition detail_pass (interval : nat) (site : Site) (browser : Browser)
           (clock : nat -> Q) (stop : Stop) (o : Options)
           (scraped_company_urls : list string) (s : Scraper) : Scraper :=
  let s :=
    if is_nil (divisions s) then
      let '(ds, evs) := scrape_related_csi_divisions site in
      log_requests evs
        match ds with
        | Some l => with_divisions l s
        | None => s
        end
    else s in
  let divisions_to_process := limit (max_divisions o) (divisions s) in
  let beyond := skipn (List.length divisions_to_process) (divisions s) in
  let '(ds, total_companies, evs) :=
    count_pass site (max_companies o) scraped_company_urls
               divisions_to_process in
  let s := log_requests evs (with_divisions (ds ++ beyond) s) in
  let s := progress_start clock total_companies s in
  detail_divisions site browser clock interval stop (max_companies o)
                   scraped_company_urls [] ds beyond s.

Definition final_checkpoint (s : Scraper) : Scraper :=
  if halted s then s
  else close (if interrupted s then s else _save_checkpoint csi_only_mode s).

End ArcatCrawl.

(* ------------------------------------------------------------------ *)
(** ** ARCAT: [export_to_excel] *)
(* ------------------------------------------------------------------ *)

(** The sheet that [export_to_excel] fills before it saves the
    workbook: its rows from the top, a row being the cells written,
    [ws.cell(row, column, value)], with their column numbers.  Fonts,
    borders, column widths and the file name are left out. *)
Module ArcatExport.
Import Arcat.

Definition Row : Type := list (nat * string).

Definition headers : list string :=
  [ "Division Code"; "Division Name"; "Building Product Categories";
    "Company"; "Address"; "State"; "Phone"; "Website"; "Email";
    "Product Expert Email"; "Product Expert Phone"; "Company URL";
    "Source" ].

(** [enumerate(headers, 1)] *)
Definition header_row : Row :=
  combine (seq 1 (List.length headers)) headers.

Fixpoint all_chars (p : ascii -> bool) (s : string) : bool :=
  match s with
  | EmptyString => true
  | String c s' => p c && all_chars p s'
  end.

(** [s.isdigit()], for a string of ASCII characters. *)
Definition isdigit (s : string) : bool := nonempty s && all_chars is_digit s.

Fixpoint zeros (n : nat) : string :=
  match n with
  | O => EmptyString
  | S k => String "0" (zeros k)
  end.

(** [s.zfill(width)] *)
Definition zfill (width : nat) (s : string) : string :=
  if width <=? String.length s then s
  else
    let fill := zeros (width - String.length s) in
    match s with
    | String c rest =>
        if char_in "+-" c then String c (fill ++ rest) else (fill ++ s)%string
    | EmptyString => fill
    end.

Definition formatted_code (division : Division) : string :=
  if isdigit (code division)
  then (zfill 2 (code division) ++ " 00 00")%string
  else code division.

(** [x if x else ''] *)
Definition or_empty (x : string) : string :=
  if nonempty x then x else EmptyString.

Definition company_cells (company : Company) : Row :=
  [ (4, name company);
    (5, or_empty (address company));
    (6, or_empty (state company));
    (7, or_empty (phone company));
    (8, or_empty (website company));
    (9, or_empty (email company));
    (10, or_empty (product_expert_email company));
    (11, or_empty (product_expert_phone company));
    (12, or_empty (url company));
    (13, "ARCAT") ].

(** The rows of one division: one row without company cells when the
    division has no companies, else a row for each company. *)
Definition division_rows (division : Division) : list Row :=
  let formatted_code := formatted_code division in
  if is_nil (companies division)
  then [[ (1, formatted_code); (2, dname division); (13, "ARCAT") ]]
  else
    map (fun company =>
           (1, formatted_code) :: (2, dname division)
             :: (3, or_empty (building_product_category company))
             :: company_cells company)
        (companies division).

Definition category_rows (category : BuildingProductCategory) : list Row :=
  map (fun company =>
         (1, EmptyString) :: (2, EmptyString)
           :: (3, building_product_category company)
           :: company_cells company)
      (ccompanies category).

Definition export_to_excel (s : Scraper) : list Row :=
  header_row
    :: flat_map division_rows (divisions s)
    ++ flat_map category_rows (building_product_categories s).

(** The value of the cell of a row in a column, and the values of a
    column over some rows. *)
Fixpoint cell (col : nat) (r : Row) : option string :=
  match r with
  | [] => None
  | (k, v) :: r' => if k =? col then Some v else cell col r'
  end.

Definition column (col : nat) (rows : list Row) : list string :=
  flat_map (fun r => match cell col r with Some v => [v] | None => [] end)
           rows.

End ArcatExport.

(* ------------------------------------------------------------------ *)
(** ** SWEETS: [export_to_excel] *)
(* ------------------------------------------------------------------ *)

(** The sheet of SWEETS.  Every row is written from column 1 on, one
    column after the other, so a row is the list of its cells; a cell
    holds a string or a number. *)
Module SweetsExport.
Import Sweets.

Inductive Cell : Type :=
| Text (s : string)
| Number (n : nat).

Definition headers (use_selenium : bool) : list string :=
  [ "Division Code"; "Division Name"; "Section Code"; "Section Name";
    "Manufacturer"; "Product Name"; "Address"; "City"; "State"; "ZIP";
    "Phone"; "Fax"; "Email"; "Website"; "Category"; "MasterFormat";
    "3-Part Spec"; "BIM"; "CAD"; "CEU"; "Catalog"; "Data Sheet"; "Gallery";
    "Green"; "Product Selector"; "Supporting Material" ]
    ++ (if use_selenium
        then [ "# 3-Part Spec"; "# BIM"; "# CAD"; "# CEU"; "# Catalog";
               "# Gallery"; "# Green"; "# Other"; "# Total Downloads" ]
        else [])
    ++ [ "Product URL"; "Source" ].

(** ["Yes" if flag else "No"] *)
Definition yes_no (flag : bool) : Cell := Text (if flag then "Yes" else "No").

Definition product_row (use_selenium : bool) (product : Product)
  : list Cell :=
  [ Text (division_code product); Text (division_name product);
    Text (section_code product); Text (section_name product);
    Text (manufacturer_name product); Text (name product);
    Text (address (contact product)); Text (city (contact product));
    Text (state (contact product)); Text (zip_code (contact product));
    Text (phone (contact product)); Text (fax (contact product));
    Text (email (contact product)); Text (website (contact product));
    Text (category product); Text (masterformat product);
    yes_no (has_3part_spec (flags product));
    yes_no (has_bim (flags product));
    yes_no (has_cad (flags product));
    yes_no (has_ceu (flags product));
    yes_no (has_catalog (flags product));
    yes_no (has_data_sheet (flags product));
    yes_no (has_gallery (flags product));
    yes_no (has_green (flags product));
    yes_no (has_product_selector (flags product));
    yes_no (has_supporting_material (flags product)) ]
    ++ (if use_selenium
        then [ Number (count_3part_spec (counts product));
               Number (count_bim (counts product));
               Number (count_cad (counts product));
               Number (count_ceu (counts product));
               Number (count_catalog (counts product));
               Number (count_gallery (counts product));
               Number (count_green (counts product));
               Number (count_other (counts product));
               Number (count_total (counts product)) ]
        else [])
    ++ [ Text (url product); Text "SWEETS" ].

Definition export_to_excel (use_selenium : bool) (ds : list Division)
  : list (list Cell) :=
  map Text (headers use_selenium)
    :: flat_map
         (fun division =>
            flat_map (fun section => map (product_row use_selenium)
                                         (products section))
                     (sections division))
         ds.

(** The cell of a row under a header. *)
Fixpoint under (header : string) (hs : list string) (r : list Cell)
  : option Cell :=
  match hs, r with
  | h :: hs', c :: r' =>
      if String.eqb h header then Some c else under header hs' r'
  | _, _ => None
  end.

End SweetsExport.

(* ------------------------------------------------------------------ *)
(** ** SWEETS: the download tabs *)
(* ------------------------------------------------------------------ *)

Module SweetsDownloads.
Import Sweets.

(** A count and its indicator follow a tab of the rendered page: a tab
    that shows [n] gives the count [n] and the indicator [n > 0]; a tab
    that is absent leaves both as they were. *)
Definition follows (tab : option nat) (count old_count : nat)
           (flag old_flag : bool) : Prop :=
  match tab with
  | Some n => count = n /\ flag = (0 <? n)
  | None => count = old_count /\ flag = old_flag
  end.

(** The labels of the tabs. *)
Definition tab_all : regex := lit "ALL".
Definition tab_catalog : regex := Seq (lit "CATALOG") (opt (ch "S")).
Definition tab_cad : regex := lit "CAD".
Definition tab_bim : regex := lit "BIM".
Definition tab_spec : regex :=
  seqs [lit "3-PART"; spaces; lit "SPEC"; opt (ch "S")].
Definition tab_gallery : regex := Seq (lit "GALLER") (Alt (lit "Y") (lit "IES")).
Definition tab_ceu : regex := lit "CEU".
Definition tab_green : regex := lit "GREEN".
Definition tab_other : regex := lit "OTHER".

End SweetsDownloads.

(* ------------------------------------------------------------------ *)
(** ** SWEETS: notions for the runs of [scrape_all] *)
(* ------------------------------------------------------------------ *)

Module SweetsCrawl.
Import Sweets.

(** The fields of a product that say which product it is, and the
    sections, divisions and stores that differ at most in the other
    fields of their products. *)
Definition same_product (p p' : Product) : Prop :=
  name p' = name p /\ url p' = url p /\
  manufacturer_name p' = manufacturer_name p /\
  division_code p' = division_code p /\
  division_name p' = division_name p /\
  section_code p' = section_code p /\
  section_name p' = section_name p.

Definition same_section (sec sec' : Section_) : Prop :=
  scode sec' = scode sec /\ sname sec' = sname sec /\
  surl sec' = surl sec /\ s_item_count sec' = s_item_count sec /\
  Forall2 same_product (products sec) (products sec').

Definition same_division (d d' : Division) : Prop :=
  code d' = code d /\ dname d' = dname d /\ durl d' = durl d /\
  item_count d' = item_count d /\
  Forall2 same_section (sections d) (sections d').

Definition same_listing (ds ds' : list Division) : Prop :=
  Forall2 same_division ds ds'.

(** The divisions a run works on: those the scraper holds, or those of
    the index page when it holds none; the ones within the limit as the
    counting pass leaves them, and the ones beyond the limit. *)
Definition starting_divisions (site : Site) (s : Scraper) : list Division :=
  if is_nil (divisions s) then
    match fst (scrape_divisions site) with
    | Some l => l
    | None => divisions s
    end
  else divisions s.

Definition counted (site : Site) (o : Options) (scraped : list string)
           (s : Scraper) : list Division :=
  fst (fst (count_pass site (max_sections_per_division o)
                       (max_products_per_section o) scraped
                       (limit (max_divisions o)
                              (starting_divisions site s)))).

Definition beyond_limit (site : Site) (o : Options) (s : Scraper)
  : list Division :=
  skipn (List.length (limit (max_divisions o) (starting_divisions site s)))
        (starting_divisions site s).

(** The products of a section, and of a division, that the detail
    pass has to fetch: those within the limits whose URL is not in the
    set of scraped URLs. *)
Definition due_in_section (max_products : option nat)
           (scraped : list string) (sec : Section_) : list Product :=
  filter (not_scraped scraped) (limit max_products (products sec)).

Definition due (max_sections max_products : option nat)
           (scraped : list string) (d : Division) : list Product :=
  flat_map (due_in_section max_products scraped)
           (limit max_sections (sections d)).

End SweetsCrawl.

(* ------------------------------------------------------------------ *)
(** ** ARCAT: [scrape_building_products_all] *)
(* ------------------------------------------------------------------ *)

Module ArcatCategories.
Import Arcat ArcatListings.

Definition categories_mode : string := "categories".

Definition set_ccompanies (cs : list Company) (c : BuildingProductCategory)
  : BuildingProductCategory :=
  {| cname := cname c; curl := curl c; subcategories := subcategories c;
     related_csi_divisions := related_csi_divisions c; ccompanies := cs |}.

(** The URLs of the companies of the categories that have an address:
    the set [scraped_company_urls] built on resume. *)
Definition scraped_urls (cs : list BuildingProductCategory) : list string :=
  flat_map (fun cat =>
              flat_map (fun c => if nonempty (address c) then [url c] else [])
                       (ccompanies cat)) cs.

(** [len(scraped_company_urls)], the set given as the list of the URLs
    added to it. *)
Definition distinct (urls : list string) : nat :=
  List.length (nodup string_dec urls).

Record Options : Type := {
  max_categories : option nat;
  max_subcategories_per_category : option nat;
  max_companies_per_subcategory : option nat;
  resume : bool
}.

(** What [scrape_building_products_all] does on resume before its
    passes: a checkpoint, of whatever mode, is restored. *)
Definition resume_categories (o : Options) (s : Scraper)
  : Scraper * list string :=
  if resume o then
    match _load_checkpoint s with
    | Some checkpoint =>
        let s := _restore_from_checkpoint checkpoint s in
        (s, scraped_urls (building_product_categories s))
    | None => (s, [])
    end
  else (s, []).

Section Crawl.

Variable site : Site.
Variable browser : Browser.
Variable clock : nat -> Q.
Variable interval : nat.
Variable stop : Stop.
Variables max_subcategories max_companies : option nat.
Variable scraped_company_urls : list string.

(** First pass: the manufacturers page of every sub-category is
    fetched and its companies within the limit are counted. *)
Fixpoint count_subcategories (category_name : string) (todo : list NamedLink)
  : nat * list Event :=
  match todo with
  | [] => (0, [])
  | subcat :: rest =>
      let '(companies, evs) :=
        scrape_manufacturers_page site (link_url subcat) category_name in
      let count := List.length (limit max_companies companies) in
      let '(total, evs') := count_subcategories category_name rest in
      (count + total, evs ++ evs')
  end.

Fixpoint count_categories (todo : list BuildingProductCategory)
  : list BuildingProductCategory * nat * list Event :=
  match todo with
  | [] => ([], 0, [])
  | category :: rest =>
      let '(category, evs) :=
        if is_nil (subcategories category)
        then scrape_category_subcategories site category
        else (category, []) in
      let subcats := limit max_subcategories (subcategories category) in
      let '(n, evs1) := count_subcategories (cname category) subcats in
      let '(cs, total, evs2) := count_categories rest in
      (category :: cs, n + total, evs ++ evs1 ++ evs2)
  end.

(** Second pass, the companies of one manufacturers page: they are not
    in the store while the loop runs.  [done] are the companies the
    loop has passed, [todo] those still to come. *)
Fixpoint detail_listed (done todo : list Company) (s : Scraper)
  : list Company * Scraper :=
  match todo with
  | [] => (done, s)
  | company :: rest =>
      if halted s then (done ++ todo, s)
      else if mem (url company) scraped_company_urls
      then detail_listed (done ++ [company]) rest s
      else if interrupted s then (done ++ todo, s)
      else
        match stop_now stop s with
        | Some true => (done ++ todo, signal_handler s)
        | Some false => (done ++ todo, halt false s)
        | None =>
            let '(r, evs) :=
              scrape_company_details (selenium s) site browser company in
            let company := res_company r in
            let s := log_details evs s in
            if raised r
            then (done ++ company :: rest,
                  halt false (_save_checkpoint categories_mode s))
            else
              let s := with_count (S (companies_scraped_count s)) s in
              let s := progress_update clock s in
              let s := maybe_save_checkpoint_every interval categories_mode s in
              detail_listed (done ++ [company]) rest s
        end
  end.

(** Second pass, the sub-categories of one category: the page is
    fetched again, and when the loop over its companies is over those
    not in the set are appended to the companies of the category.
    [view] gives [self.building_product_categories] for a value of
    these companies. *)
Fixpoint detail_subcategories
         (view : list Company -> list BuildingProductCategory)
         (category_name : string) (cs : list Company)
         (todo : list NamedLink) (s : Scraper) : list Company * Scraper :=
  match todo with
  | [] => (cs, s)
  | subcategory :: rest =>
      if halted s || interrupted s then (cs, s)
      else
        let '(companies, evs) :=
          scrape_manufacturers_page site (link_url subcategory)
                                    category_name in
        let s := log_requests evs s in
        let companies_to_process := limit max_companies companies in
        let '(companies_to_process, s) :=
          detail_listed [] companies_to_process s in
        if halted s then (cs, s)
        else
          let new_companies :=
            filter (fun c => negb (mem (url c) scraped_company_urls))
                   companies_to_process in
          let cs := cs ++ new_companies in
          detail_subcategories view category_name cs rest
                               (with_categories (view cs) s)
  end.

(** Second pass, the categories: [pre] are those done, [todo] those to
    come, [post] those beyond [max_categories]. *)
Fixpoint detail_categories (pre todo post : list BuildingProductCategory)
         (s : Scraper) : Scraper :=
  match todo with
  | [] => s
  | category :: rest =>
      if halted s || interrupted s then s
      else
        let subcategories_to_process :=
          limit max_subcategories (subcategories category) in
        let view cs := pre ++ set_ccompanies cs category :: rest ++ post in
        let '(cs, s) :=
          detail_subcategories view (cname category) (ccompanies category)
                               subcategories_to_process s in
        if halted s || interrupted s then s
        else detail_categories (pre ++ [set_ccompanies cs category])
                               rest post s
  end.

End Crawl.

(** The body of [scrape_building_products_all] after the resume: the
    categories, the counting pass, the detail pass, the final
    checkpoint. *)
Definition categories_passes (interval : nat) (site : Site)
           (browser : Browser) (clock : nat -> Q) (stop : Stop)
           (o : Options) (scraped_company_urls : list string) (s : Scraper)
  : Scraper :=
  let s :=
    if is_nil (building_product_categories s) then
      let '(cs, evs) := scrape_building_product_categories site in
      log_requests evs
        match cs with
        | Some l => with_categories l s
        | None => s
        end
    else s in
  let categories_to_process :=
    limit (max_categories o) (building_product_categories s) in
  let beyond :=
    skipn (List.length categories_to_process)
          (building_product_categories s) in
  let '(cs, total_companies, evs) :=
    count_categories site (max_subcategories_per_category o)
                     (max_companies_per_subcategory o)
                     categories_to_process in
  let s := log_requests evs (with_categories (cs ++ beyond) s) in
  let total_companies := total_companies - distinct scraped_company_urls in
  let s := progress_start clock total_companies s in
  let s :=
    detail_categories site browser clock interval stop
                      (max_subcategories_per_category o)
                      (max_companies_per_subcategory o)
                      scraped_company_urls [] cs beyond s in
  if halted s then s
  else close (if interrupted s then s
              else _save_checkpoint categories_mode s).

(** [scrape_building_products_all(max_categories,
    max_subcategories_per_category, max_companies_per_subcategory,
    resume)] with the interval of the periodic checkpoint as a
    parameter. *)
Definition scrape_building_products_all_every (interval : nat) (site : Site)
           (browser : Browser) (clock : nat -> Q) (stop : Stop)
           (o : Options) (s : Scraper) : Scraper :=
  let '(s, scraped_company_urls) := resume_categories o s in
  categories_passes interval site browser clock stop o scraped_company_urls s.

Definition scrape_building_products_all (site : Site) (browser : Browser)
           (clock : nat -> Q) (stop : Stop) (o : Options) (s : Scraper)
  : Scraper :=
  scrape_building_products_all_every CHECKPOINT_INTERVAL site browser clock
                                     stop o s.

(** The categories a run works on: those the scraper holds, or those
    of the categories page when it holds none; and the ones within the
    limit as the counting pass leaves them, with their sub-categories. *)
Definition starting_categories (site : Site) (s : Scraper)
  : list BuildingProductCategory :=
  if is_nil (building_product_categories s) then
    match fst (scrape_building_product_categories site) with
    | Some l => l
    | None => building_product_categories s
    end
  else building_product_categories s.

Definition counted (site : Site) (o : Options) (s : Scraper)
  : list BuildingProductCategory :=
  fst (fst (count_categories site (max_subcategories_per_category o)
                             (max_companies_per_subcategory o)
                             (limit (max_categories o)
                                    (starting_categories site s)))).

(** The companies in the categories of a store, and in those of a
    checkpoint file. *)
Definition stored (s : Scraper) : nat :=
  List.length (flat_map ccompanies (building_product_categories s)).

Definition filed (cp : Checkpoint) : nat :=
  List.length (flat_map j_ccompanies (cp_categories cp)).

(** The store lags the count: since the count was [c0] and the store
    held [st0] companies, the store has gained no more companies than
    the count says were scraped; [level] when it has gained as many. *)
Definition lags (c0 st0 : nat) (s : Scraper) : Prop :=
  stored s + c0 <= companies_scraped_count s + st0.

Definition level (c0 st0 : nat) (s : Scraper) : Prop :=
  stored s + c0 = companies_scraped_count s + st0.

(** The same of the checkpoint file, when it is not the file [file0]
    that the run found. *)
Definition file_lags (c0 st0 : nat) (file0 : option Checkpoint)
           (s : Scraper) : Prop :=
  disk s = file0 \/
  exists cp, disk s = Some cp /\
             filed cp + c0 <= cp_companies_scraped cp + st0.

(** A scraper whose signal handler has not run, or whose process has
    ended. *)
Definition quiet (s : Scraper) : Prop :=
  interrupted s = true -> halted s = true.

(** *** A category with one sub-category of three companies *)

Definition doors_url : string := (BASE_URL ++ "/products/doors")%string.
Definition wood_doors_url : string :=
  (BASE_URL ++ "/manufacturers/wood-doors")%string.

Definition doors_site : Site :=
  site_of
    [ (categories_url, page_of_links [("/products/doors", "Doors")]);
      (doors_url, page_of_links [("/manufacturers/wood-doors", "Wood Doors")]);
      (wood_doors_url,
       page_of_links [("/company/a-1", "A Corp"); ("/company/b-2", "B Corp");
                      ("/company/c-3", "C Corp")]);
      (ArcatExamples.company_url "a-1", ArcatExamples.company_page "1 Oak Rd.");
      (ArcatExamples.company_url "b-2", ArcatExamples.company_page "2 Oak Rd.");
      (ArcatExamples.company_url "c-3", ArcatExamples.company_page "3 Oak Rd.")
    ].

Definition wood_doors : NamedLink :=
  {| link_name := "Wood Doors"; link_url := wood_doors_url |}.

(** The category as the counting pass leaves it. *)
Definition doors : BuildingProductCategory :=
  {| cname := "Doors"; curl := doors_url; subcategories := [wood_doors];
     related_csi_divisions := []; ccompanies := [] |}.

Definition all_categories (r : bool) : Options :=
  {| max_categories := None; max_subcategories_per_category := None;
     max_companies_per_subcategory := None; resume := r |}.

(** The run is killed when two detail pages are done, a periodic
    checkpoint having been taken after the second (interval 2); a new
    process resumes from the file. *)
Definition doors_killed_after_two : Scraper :=
  scrape_building_products_all_every
    2 doors_site no_browser wall_clock (KillAfter 2) (all_categories false)
    (new_scraper false None).

Definition doors_resumed : Scraper :=
  scrape_building_products_all_every
    2 doors_site no_browser wall_clock Never (all_categories true)
    (new_scraper false (disk doors_killed_after_two)).

Definition doors_one_pass : Scraper :=
  scrape_building_products_all_every
    2 doors_site no_browser wall_clock Never (all_categories false)
    (new_scraper false None).

End ArcatCategories.

(* ------------------------------------------------------------------ *)
(** ** Patterns: the groups a pattern binds *)
(* ------------------------------------------------------------------ *)

Module PatternGroups.

(** Whether the pattern has a group numbered [n]. *)
Fixpoint binds (n : nat) (r : regex) : bool :=
  match r with
  | Seq r1 r2 => binds n r1 || binds n r2
  | Alt r1 r2 => binds n r1 || binds n r2
  | Star _ r1 => binds n r1
  | Grp k r1 => (k =? n) || binds n r1
  | NotAhead r1 => binds n r1
  | _ => false
  end.

(** Whether the first character of the string is of the class. *)
Definition starts_in (p : ascii -> bool) (s : string) : bool :=
  match s with
  | String x _ => p x
  | EmptyString => false
  end.

End PatternGroups.

(* ================================================================== *)
(** * Properties *)
(* ================================================================== *)

(* ------------------------------------------------------------------ *)
(** ** Fetch client *)
(* ------------------------------------------------------------------ *)

Section FetchClient.

Variables max_retries base : nat.
Variable outcomes : nat -> Outcome.
Variable url : string.

Lemma request_loop_all_transient :
  forall todo attempt,
    attempt + todo = max_retries ->
    (forall k, attempt <= k < max_retries -> transient (outcomes k) = true) ->
    request_loop max_retries base outcomes url attempt todo
    = (None, flat_map (failed_attempt max_retries base url) (seq attempt todo)).
Proof.
  induction todo as [|todo IH]; intros attempt Hsum Hall; [reflexivity|].
  cbn [request_loop seq flat_map].
  assert (Ht : transient (outcomes attempt) = true) by (apply Hall; lia).
  unfold failed_attempt at 1.
  destruct (outcomes attempt); try discriminate Ht.
  - destruct (attempt <? max_retries - 1) eqn:Hlast.
    + rewrite (IH (S attempt)) by (try lia; intros; apply Hall; lia).
      reflexivity.
    + apply Nat.ltb_ge in Hlast.
      assert (todo = 0) by lia. subst todo. reflexivity.
  - destruct (attempt <? max_retries - 1) eqn:Hlast.
    + rewrite (IH (S attempt)) by (try lia; intros; apply Hall; lia).
      reflexivity.
    + apply Nat.ltb_ge in Hlast.
      assert (todo = 0) by lia. subst todo. reflexivity.
Qed.

Lemma gets_failed_attempts :
  forall todo attempt,
    gets (flat_map (failed_attempt max_retries base url) (seq attempt todo)) = repeat url todo.
Proof.
  induction todo as [|todo IH]; intros attempt; [reflexivity|].
  cbn [seq flat_map repeat]. unfold gets in *. rewrite flat_map_app, IH.
  unfold failed_attempt. destruct (attempt <? max_retries - 1); reflexivity.
Qed.

Lemma backoffs_failed_attempts :
  forall todo attempt,
    attempt + todo = max_retries ->
    backoffs (flat_map (failed_attempt max_retries base url) (seq attempt todo))
    = map (fun k => base * 2 ^ k) (seq attempt (todo - 1)).
Proof.
  induction todo as [|todo IH]; intros attempt Hsum; [reflexivity|].
  cbn [seq flat_map]. unfold backoffs in *. rewrite flat_map_app.
  rewrite (IH (S attempt)) by lia.
  unfold failed_attempt.
  destruct (attempt <? max_retries - 1) eqn:Hlast.
  - apply Nat.ltb_lt in Hlast. destruct todo as [|todo]; [lia|].
    cbn. rewrite Nat.sub_0_r. reflexivity.
  - apply Nat.ltb_ge in Hlast. assert (todo = 0) by lia. subst todo.
    reflexivity.
Qed.

Lemma increasing_backoffs :
  0 < base ->
  forall n attempt, increasing (map (fun k => base * 2 ^ k) (seq attempt n)).
Proof.
  intros Hbase. induction n as [|n IH]; intros attempt; [exact I|].
  cbn [seq map increasing]. specialize (IH (S attempt)).
  destruct n as [|n]; [exact I|].
  cbn [seq map] in *. split; [|exact IH].
  rewrite Nat.pow_succ_r'.
  assert (0 < 2 ^ attempt) by (apply Nat.neq_0_lt_0, Nat.pow_nonzero; lia).
  nia.
Qed.



End FetchClient.

Lemma gets_app : forall a b, gets (a ++ b) = gets a ++ gets b.
Proof. intros. unfold gets. apply flat_map_app. Qed.

Lemma backoffs_app : forall a b, backoffs (a ++ b) = backoffs a ++ backoffs b.
Proof. intros. unfold backoffs. apply flat_map_app. Qed.



(** C6. A URL that fails with a timeout or a connection error on every
    attempt: the fetch routine makes [max_retries] requests and no more,
    sleeps [base * 2 ^ attempt] seconds before each retry, these delays
    grow strictly, and the result is None.  [_make_request] is the
    routine at [MAX_RETRIES] = 3 and [RETRY_DELAY_BASE] = 5; it is a
    total function, so it returns. *)
Theorem make_request_backs_off_and_gives_up :
  forall (max_retries base : nat) (site : Site) (url : string),
    0 < base ->
    (forall attempt, attempt < max_retries ->
                     transient (site url attempt) = true) ->
    fst (make_request_with max_retries base site url) = None /\
    gets (snd (make_request_with max_retries base site url))
      = repeat url max_retries /\
    backoffs (snd (make_request_with max_retries base site url))
      = map (fun attempt => base * 2 ^ attempt) (seq 0 (max_retries - 1)) /\
    increasing (backoffs (snd (make_request_with max_retries base site url))).
Proof.
  intros max_retries base site url Hbase Hall.
  unfold make_request_with.
  rewrite request_loop_all_transient
    by (try reflexivity; intros k Hk; apply Hall; lia).
  cbn [fst snd].
  rewrite gets_failed_attempts, backoffs_failed_attempts by reflexivity.
  repeat split. apply increasing_backoffs. exact Hbase.
Qed.

(** The routine of the source on a site that always times out: three
    requests, sleeps of 5 and 10 seconds, None. *)
Lemma make_request_backs_off_witness :
  fst (_make_request (fun _ _ => Timeout) "https://www.arcat.com/x") = None /\
  gets (snd (_make_request (fun _ _ => Timeout) "https://www.arcat.com/x"))
    = repeat "https://www.arcat.com/x" 3 /\
  backoffs (snd (_make_request (fun _ _ => Timeout) "https://www.arcat.com/x"))
    = [5; 10] /\
  increasing
    (backoffs (snd (_make_request (fun _ _ => Timeout) "https://www.arcat.com/x"))).
Proof.
  exact (make_request_backs_off_and_gives_up
           MAX_RETRIES RETRY_DELAY_BASE (fun _ _ => Timeout)
           "https://www.arcat.com/x" (Nat.lt_0_succ 4)
           (fun _ _ => eq_refl)).
Defined.


(** *** The callers of the fetch routine keep their node when it gives
    None *)







(* ------------------------------------------------------------------ *)
(** ** ARCAT: a crawl that nothing stops runs to its end *)
(* ------------------------------------------------------------------ *)

Module ArcatRun.
Import Arcat ArcatNotions.

(** With a parsed page at hand no fall-back raises. *)
Lemma extract_details_fine :
  forall (html_ : string) (p : Page) (c : Company),
    raised (extract_details html_ (Some p) c) = false.
Proof.
  intros html_ p c. unfold extract_details.
  set (c1 := apply_nuxt _ c). clearbody c1.
  unfold fallback_address.
  destruct (is_empty (address c1)); cbn [bind];
    match goal with
    | |- raised (bind (fallback_phone _ ?c2) _) = _ =>
        set (c3 := c2); clearbody c3
    end;
    unfold fallback_phone;
    destruct (is_empty (phone c3)); cbn [bind];
    match goal with
    | |- raised (bind (fallback_website _ ?c2) _) = _ =>
        set (c4 := c2); clearbody c4
    end;
    unfold fallback_website;
    destruct (is_empty (website c4)); cbn [bind];
    match goal with
    | |- raised (bind (fallback_email _ _ ?c2) _) = _ =>
        set (c5 := c2); clearbody c5
    end;
    unfold fallback_email;
    destruct (is_empty (email c5)); cbn [bind]; try reflexivity;
    destruct (search mailto_attr html_); reflexivity.
Qed.

(** A company that enters [scrape_company_details] without an address
    comes out without an exception. *)
Lemma details_do_not_raise :
  forall (sel : bool) (site : Site) (browser : Browser) (c : Company),
    is_empty (address c) = true ->
    raised (fst (scrape_company_details sel site browser c)) = false.
Proof.
  intros sel site browser c Hempty. unfold scrape_company_details.
  destruct sel.
  - destruct (browser (url c)) as [p|].
    + destruct (is_empty (address (apply_rendered _ c))).
      * destruct (site _ 0); cbn [fst]; try reflexivity.
        apply extract_details_fine.
      * cbn [fst]. apply extract_details_fine.
    + rewrite Hempty. destruct (site _ 0); cbn [fst]; try reflexivity.
      apply extract_details_fine.
  - rewrite Hempty. destruct (site _ 0); cbn [fst]; try reflexivity.
    apply extract_details_fine.
Qed.

Section Loops.

Variable site : Site.
Variable browser : Browser.
Variable clock : nat -> Q.
Variable interval : nat.
Variable max_companies : option nat.
Variable scraped : list string.

Lemma halted_maybe_save :
  forall mode s,
    halted (maybe_save_checkpoint_every interval mode s) = halted s.
Proof.
  intros mode s. unfold maybe_save_checkpoint_every.
  destruct (_ && _); reflexivity.
Qed.

Lemma interrupted_maybe_save :
  forall mode s,
    interrupted (maybe_save_checkpoint_every interval mode s) = interrupted s.
Proof.
  intros mode s. unfold maybe_save_checkpoint_every.
  destruct (_ && _); reflexivity.
Qed.

Lemma detail_companies_runs_on :
  forall todo view done s,
    Forall (ready scraped) todo ->
    halted s = false ->
    interrupted s = false ->
    let r := detail_companies site browser clock interval Never scraped
                              view done todo s in
    halted (snd r) = false /\ interrupted (snd r) = false.
Proof.
  induction todo as [|c rest IH]; intros view done s Hready Hrun Hint;
    cbn [detail_companies]; [cbn [snd]; auto|].
  inversion Hready as [|? ? Hc Hrest]; subst.
  rewrite Hrun.
  destruct (mem (url c) scraped) eqn:Hmem; [apply IH; assumption|].
  rewrite Hint. cbn [stop_now].
  destruct Hc as [Hempty|Hin]; [|congruence].
  pose proof (details_do_not_raise (selenium s) site browser c Hempty) as Hfine.
  destruct (scrape_company_details (selenium s) site browser c) as [r evs].
  cbn [fst] in Hfine. rewrite Hfine.
  apply IH; try assumption.
  - rewrite halted_maybe_save. exact Hrun.
  - rewrite interrupted_maybe_save. exact Hint.
Qed.

Lemma limit_incl :
  forall (A : Type) (n : option nat) (l : list A) (x : A),
    In x (limit n l) -> In x l.
Proof.
  intros A n l x. unfold limit. destruct n as [[|k]|]; auto.
  change (In x (firstn (S k) l) -> In x l).
  rewrite <- (firstn_skipn (S k) l) at 2. intros H. apply in_or_app. auto.
Qed.

Lemma limit_Forall :
  forall (A : Type) (P : A -> Prop) (n : option nat) (l : list A),
    Forall P l -> Forall P (limit n l).
Proof.
  intros A P n l H. rewrite Forall_forall in *. intros x Hx.
  apply H. eapply limit_incl; exact Hx.
Qed.

Lemma detail_divisions_runs_on :
  forall todo pre post s,
    Forall (fun d => Forall (ready scraped) (companies d)) todo ->
    halted s = false ->
    interrupted s = false ->
    let s' := detail_divisions site browser clock interval Never
                               max_companies scraped pre todo post s in
    halted s' = false /\ interrupted s' = false.
Proof.
  induction todo as [|d rest IH]; intros pre post s Hready Hrun Hint;
    cbn [detail_divisions]; [auto|].
  inversion Hready as [|? ? Hd Hrest]; subst.
  rewrite Hrun, Hint. cbn [orb].
  match goal with
  | |- context [detail_companies ?a ?b ?c ?d ?e ?f ?v ?dn ?td ?st] =>
      pose proof (detail_companies_runs_on td v dn st
                    (limit_Forall _ _ _ _ Hd) Hrun Hint) as Hloop;
      destruct (detail_companies a b c d e f v dn td st) as [cs s1]
  end.
  cbn [snd] in Hloop. destruct Hloop as [Hrun1 Hint1].
  rewrite Hrun1, Hint1. cbn [orb]. apply IH; assumption.
Qed.

End Loops.

(** The companies that a listing page gives have no address. *)
Lemma manufacturers_step_fresh :
  forall d st link,
    Forall (fun kv => address (snd kv) = EmptyString) (fst st) ->
    Forall (fun kv => address (snd kv) = EmptyString)
           (fst (manufacturers_step d st link)).
Proof.
  intros d [seen n] link H. unfold manufacturers_step.
  destruct (_ || _); [exact H|].
  destruct (dict_has _ seen); [exact H|].
  destruct (_is_association _); [exact H|].
  cbn [fst] in *. apply Forall_app. split; [exact H|].
  constructor; [reflexivity|constructor].
Qed.

Lemma manufacturers_loop_fresh :
  forall d links st,
    Forall (fun kv => address (snd kv) = EmptyString) (fst st) ->
    Forall (fun kv => address (snd kv) = EmptyString)
           (fst (fold_left (manufacturers_step d) links st)).
Proof.
  intros d links. induction links as [|l links IH]; intros st H; [exact H|].
  cbn [fold_left]. apply IH. apply manufacturers_step_fresh. exact H.
Qed.

Lemma scrape_division_manufacturers_ready :
  forall site scraped d,
    Forall (ready scraped) (companies d) ->
    Forall (ready scraped)
           (companies (fst (scrape_division_manufacturers site d))).
Proof.
  intros site scraped d H. unfold scrape_division_manufacturers.
  destruct (_make_request site (durl d)) as [[p|] evs]; [|exact H].
  pose proof (manufacturers_loop_fresh d (find_links company_link_re p)
                ([], 0) (Forall_nil _)) as Hfresh.
  unfold manufacturers_loop.
  destruct (fold_left _ _ _) as [seen n]. cbn [fst companies set_companies] in *.
  rewrite Forall_forall in *. intros c Hc.
  apply in_map_iff in Hc. destruct Hc as [kv [Heq Hin]]. subst c.
  left. rewrite (Hfresh kv Hin). reflexivity.
Qed.

Lemma count_pass_ready :
  forall site max_companies scraped todo,
    Forall (fun d => Forall (ready scraped) (companies d)) todo ->
    Forall (fun d => Forall (ready scraped) (companies d))
           (fst (fst (count_pass site max_companies scraped todo))).
Proof.
  intros site max_companies scraped.
  induction todo as [|d rest IH]; intros H; [constructor|].
  inversion H as [|? ? Hd Hrest]; subst. cbn [count_pass].
  specialize (IH Hrest).
  destruct (count_pass site max_companies scraped rest) as [[ds total] evs'].
  cbn [fst] in IH.
  destruct (is_nil (companies d)).
  - pose proof (scrape_division_manufacturers_ready site scraped d Hd) as Hd'.
    destruct (scrape_division_manufacturers site d) as [d' evs].
    cbn [fst] in *. constructor; assumption.
  - cbn [fst]. constructor; assumption.
Qed.

(** Every restored company with an address has its URL in the set built
    on resume. *)
Lemma scraped_urls_ready :
  forall ds,
    Forall (fun d => Forall (ready (scraped_urls ds)) (companies d)) ds.
Proof.
  intros ds. rewrite Forall_forall. intros d Hd.
  rewrite Forall_forall. intros c Hc. unfold ready.
  destruct (is_empty (address c)) eqn:Hempty; [left; reflexivity|right].
  unfold mem. apply existsb_exists. exists (url c).
  split; [|apply String.eqb_refl].
  unfold scraped_urls. apply in_flat_map. exists d. split; [exact Hd|].
  apply in_flat_map. exists c. split; [exact Hc|].
  unfold nonempty. rewrite Hempty. left. reflexivity.
Qed.

Lemma csi_divisions_loop_empty :
  forall links seen,
    Forall (fun d => companies d = []) (csi_divisions_loop links seen).
Proof.
  induction links as [|l links IH]; intros seen; cbn [csi_divisions_loop];
    [constructor|].
  destruct (mem (href l) seen); [apply IH|].
  destruct (rmatch_start csi_text_re (atext l)); [|apply IH].
  constructor; [reflexivity|apply IH].
Qed.

Lemma empty_divisions_ready :
  forall scraped ds,
    Forall (fun d => companies d = []) ds ->
    Forall (fun d => Forall (ready scraped) (companies d)) ds.
Proof.
  intros scraped ds H. rewrite Forall_forall in *. intros d Hd.
  rewrite (H d Hd). constructor.
Qed.

Lemma csi_only_passes_run_on :
  forall interval site browser clock o scraped s,
    Forall (fun d => Forall (ready scraped) (companies d)) (divisions s) ->
    halted s = false ->
    interrupted s = false ->
    let s' := csi_only_passes interval site browser clock Never o scraped s in
    halted s' = false /\ interrupted s' = false /\
    disk s'
    = Some {| cp_mode := csi_only_mode;
              cp_companies_scraped := companies_scraped_count s';
              cp_divisions := map division_to_json (divisions s');
              cp_categories :=
                map category_to_json (building_product_categories s') |}.
Proof.
  intros interval site browser clock o scraped s Hready Hrun Hint.
  unfold csi_only_passes.
  set (s1 := if is_nil (divisions s) then _ else s).
  assert (H1 : Forall (fun d => Forall (ready scraped) (companies d))
                      (divisions s1)
               /\ halted s1 = false /\ interrupted s1 = false).
  { subst s1. destruct (is_nil (divisions s)); [|auto].
    unfold scrape_related_csi_divisions.
    destruct (_make_request site categories_url) as [[p|] evs];
      cbn [log_requests with_divisions divisions halted interrupted]; auto.
    split; [|auto]. apply empty_divisions_ready, csi_divisions_loop_empty. }
  clearbody s1. destruct H1 as [Hready1 [Hrun1 Hint1]].
  pose proof (count_pass_ready site (max_companies o) scraped
                (limit (max_divisions o) (divisions s1))
                (limit_Forall _ _ _ _ Hready1)) as Hcount.
  destruct (count_pass site (max_companies o) scraped
                       (limit (max_divisions o) (divisions s1)))
    as [[ds total] evs].
  cbn [fst] in Hcount.
  match goal with
  | |- context [detail_divisions ?a ?b ?c ?d ?e ?f ?g ?pre ?td ?post ?st] =>
      pose proof (detail_divisions_runs_on a b c d f g td pre post st
                    Hcount Hrun1 Hint1) as Hloop;
      set (s2 := detail_divisions a b c d e f g pre td post st) in *
  end.
  clearbody s2. cbv zeta in Hloop. destruct Hloop as [Hrun2 Hint2].
  rewrite Hrun2, Hint2. cbn. auto.
Qed.

(** However the site answers, a crawl that no signal and no kill stops
    runs to its end: it is not halted, and its last act is the
    checkpoint of the whole store. *)
Lemma csi_only_runs_to_completion :
  forall interval site browser clock o use_selenium file,
    let s' := scrape_csi_only_every interval site browser clock Never o
                                    (new_scraper use_selenium file) in
    halted s' = false /\ interrupted s' = false /\
    disk s'
    = Some {| cp_mode := csi_only_mode;
              cp_companies_scraped := companies_scraped_count s';
              cp_divisions := map division_to_json (divisions s');
              cp_categories :=
                map category_to_json (building_product_categories s') |}.
Proof.
  intros interval site browser clock o use_selenium file.
  unfold scrape_csi_only_every, resume_csi_only.
  destruct (resume o).
  - unfold _load_checkpoint. cbn [new_scraper disk].
    destruct file as [cp|].
    + destruct (String.eqb (cp_mode cp) csi_only_mode).
      * apply csi_only_passes_run_on; try reflexivity.
        apply scraped_urls_ready.
      * apply csi_only_passes_run_on; try reflexivity. constructor.
    + apply csi_only_passes_run_on; try reflexivity. constructor.
  - apply csi_only_passes_run_on; try reflexivity. constructor.
Qed.

End ArcatRun.

(* ------------------------------------------------------------------ *)
(** ** SWEETS: a crawl that nothing stops runs to its end *)
(* ------------------------------------------------------------------ *)

Module SweetsRun.
Import Sweets.

Section Loops.

Variable site : Site.
Variable browser : Browser.
Variable clock : nat -> Q.
Variable interval : nat.
Variables max_sections max_products : option nat.
Variable scraped : list string.






End Loops.



End SweetsRun.


(* ------------------------------------------------------------------ *)
(** ** Progress tracker *)
(* ------------------------------------------------------------------ *)

Lemma Qnat_nonzero : forall n, n <> 0 -> Qeq_zero (Qnat n) = false.
Proof.
  intros n Hn. unfold Qeq_zero, Qnat, Qeq_bool. cbn.
  rewrite Z.mul_1_r. destruct n as [|n]; [congruence|reflexivity].
Qed.

Lemma py_div_by_count :
  forall (a : Q) (n : nat), n <> 0 -> py_div a (Qnat n) = Some (a / Qnat n)%Q.
Proof. intros a n Hn. unfold py_div. rewrite Qnat_nonzero by exact Hn. reflexivity. Qed.

(** C10. Every query of the progress tracker returns a value, never a
    division by zero: [get_percentage] gives 0 when the total is 0,
    [get_eta_seconds] gives 0 when no duration is recorded or nothing is
    scraped yet, [get_speed] gives 0 when the window is empty or its
    average duration is 0. *)
Theorem progress_queries_are_total :
  forall p : ProgressTracker.t,
    (exists q, ProgressTracker.get_percentage p = Some q) /\
    (exists q, ProgressTracker.get_eta_seconds p = Some q) /\
    (exists q, ProgressTracker.get_speed p = Some q) /\
    (ProgressTracker.total_items p = 0 ->
     ProgressTracker.get_percentage p = Some 0%Q) /\
    (ProgressTracker.scrape_times p = [] \/ ProgressTracker.scraped_items p = 0 ->
     ProgressTracker.get_eta_seconds p = Some 0%Q) /\
    (ProgressTracker.scrape_times p = [] ->
     ProgressTracker.get_speed p = Some 0%Q) /\
    (forall avg_time,
        py_div (Qsum (ProgressTracker.scrape_times p))
               (Qnat (List.length (ProgressTracker.scrape_times p)))
        = Some avg_time ->
        Qeq_zero avg_time = true ->
        ProgressTracker.get_speed p = Some 0%Q).
Proof.
  intros p.
  unfold ProgressTracker.get_percentage, ProgressTracker.get_eta_seconds,
    ProgressTracker.get_speed.
  repeat split.
  - destruct (ProgressTracker.total_items p =? 0) eqn:Htotal; [eauto|].
    apply Nat.eqb_neq in Htotal. rewrite py_div_by_count by exact Htotal.
    eauto.
  - destruct (ProgressTracker.scrape_times p) as [|x l] eqn:Htimes; [eauto|].
    destruct (ProgressTracker.scraped_items p =? 0); [eauto|].
    rewrite py_div_by_count by (cbn; discriminate). eauto.
  - destruct (ProgressTracker.scrape_times p) as [|x l] eqn:Htimes; [eauto|].
    rewrite py_div_by_count by (cbn; discriminate).
    destruct (Qeq_zero _) eqn:Havg; [eauto|].
    unfold py_div. rewrite Havg. eauto.
  - intros Htotal. rewrite Htotal. reflexivity.
  - intros [Htimes|Hscraped].
    + rewrite Htimes. reflexivity.
    + rewrite Hscraped. destruct (ProgressTracker.scrape_times p); reflexivity.
  - intros Htimes. rewrite Htimes. reflexivity.
  - intros avg_time Hdiv Hzero.
    destruct (ProgressTracker.scrape_times p) as [|x l]; [reflexivity|].
    rewrite Hdiv, Hzero. reflexivity.
Qed.

(* ------------------------------------------------------------------ *)
(** ** Strings *)
(* ------------------------------------------------------------------ *)

Lemma prefix_iff_append :
  forall p s, String.prefix p s = true <-> exists b, s = (p ++ b)%string.
Proof.
  induction p as [|c p IH]; intros s.
  - split; [intros _; exists s; reflexivity|].
    intros _. destruct s; reflexivity.
  - destruct s as [|c' s]; cbn [String.prefix];
      [split; [discriminate|intros [b H]; discriminate H]|].
    destruct (ascii_dec c c') as [->|Hne].
    + rewrite IH. split; intros [b H]; exists b; cbn in *; congruence.
    + split; [discriminate|]. intros [b H]. cbn in H. congruence.
Qed.

(** [contains p s] is Python's [p in s]: [p] occurs somewhere in [s]. *)
Lemma contains_iff_substring :
  forall p s,
    contains p s = true <-> exists a b, s = (a ++ p ++ b)%string.
Proof.
  intros p. induction s as [|c s IH]; cbn [contains].
  - rewrite orb_false_r, prefix_iff_append. split.
    + intros [b H]. exists EmptyString, b. exact H.
    + intros [a [b H]]. destruct a as [|x a]; [exists b; exact H|discriminate H].
  - rewrite orb_true_iff, prefix_iff_append, IH. split.
    + intros [[b H]|[a [b H]]].
      * exists EmptyString, b. exact H.
      * exists (String c a), b. cbn. rewrite H. reflexivity.
    + intros [a [b H]]. destruct a as [|x a].
      * left. exists b. exact H.
      * right. cbn in H. injection H as _ H. exists a, b. exact H.
Qed.

Lemma mem_iff_In : forall u l, mem u l = true <-> In u l.
Proof.
  intros u l. unfold mem. rewrite existsb_exists. split.
  - intros [x [Hin Heq]]. apply String.eqb_eq in Heq. subst. exact Hin.
  - intros H. exists u. split; [exact H|apply String.eqb_refl].
Qed.

(** The part before the first [?] of a string with a prefix that has
    none. *)
Lemma before_char_append :
  forall c p s,
    char_in p c = false ->
    before_char c (p ++ s) = (p ++ before_char c s)%string.
Proof.
  intros c. induction p as [|x p IH]; intros s H; [reflexivity|].
  cbn [char_in] in H. apply orb_false_iff in H. destruct H as [Hx Hp].
  cbn [append before_char]. rewrite Hx, IH by exact Hp. reflexivity.
Qed.

Lemma append_inj_l :
  forall p a b, (p ++ a)%string = (p ++ b)%string -> a = b.
Proof.
  induction p as [|x p IH]; intros a b H; [exact H|].
  cbn in H. injection H as H. apply IH. exact H.
Qed.

(* ------------------------------------------------------------------ *)
(** ** ARCAT: the company links of a listing page *)
(* ------------------------------------------------------------------ *)

Module ArcatListing.
Import Arcat ArcatNotions.

(** The four ways through one iteration of the loop. *)
Lemma step_skipped :
  forall d seen n link,
    reaches_test seen link = false ->
    manufacturers_step d (seen, n) link = (seen, n).
Proof.
  intros d seen n link H. unfold reaches_test in H. unfold manufacturers_step.
  destruct (_ || _); [reflexivity|].
  cbn [negb andb] in H. apply negb_false_iff in H. rewrite H. reflexivity.
Qed.

Lemma step_association :
  forall d seen n link,
    reaches_test seen link = true ->
    _is_association (atext link) = true ->
    manufacturers_step d (seen, n) link = (seen, S n).
Proof.
  intros d seen n link H Hassoc. unfold reaches_test in H.
  apply andb_true_iff in H. destruct H as [H1 H2].
  apply negb_true_iff in H1, H2. unfold manufacturers_step.
  rewrite H1, H2, Hassoc. reflexivity.
Qed.

Lemma step_company :
  forall d seen n link,
    reaches_test seen link = true ->
    _is_association (atext link) = false ->
    manufacturers_step d (seen, n) link
    = (seen ++ [(base_href_of (href link), company_of_link d link)], n).
Proof.
  intros d seen n link H Hassoc. unfold reaches_test in H.
  apply andb_true_iff in H. destruct H as [H1 H2].
  apply negb_true_iff in H1, H2. unfold manufacturers_step.
  rewrite H1, H2, Hassoc. reflexivity.
Qed.

(** A link whose text names an association never adds a company. *)
Lemma association_never_added :
  forall d seen n link,
    _is_association (atext link) = true ->
    fst (manufacturers_step d (seen, n) link) = seen.
Proof.
  intros d seen n link Hassoc.
  destruct (reaches_test seen link) eqn:H.
  - rewrite step_association by assumption. reflexivity.
  - rewrite step_skipped by assumption. reflexivity.
Qed.

(** No company of the store built from a page is an association. *)
Lemma step_keeps_companies :
  forall d st link,
    Forall (fun kv => _is_association (name (snd kv)) = false) (fst st) ->
    Forall (fun kv => _is_association (name (snd kv)) = false)
           (fst (manufacturers_step d st link)).
Proof.
  intros d [seen n] link H. cbn [fst] in H.
  destruct (reaches_test seen link) eqn:Hr.
  - destruct (_is_association (atext link)) eqn:Hassoc.
    + rewrite step_association by assumption. exact H.
    + rewrite step_company by assumption. cbn [fst].
      apply Forall_app. split; [exact H|].
      constructor; [exact Hassoc|constructor].
  - rewrite step_skipped by assumption. exact H.
Qed.

Lemma loop_keeps_companies :
  forall d links st,
    Forall (fun kv => _is_association (name (snd kv)) = false) (fst st) ->
    Forall (fun kv => _is_association (name (snd kv)) = false)
           (fst (fold_left (manufacturers_step d) links st)).
Proof.
  intros d links. induction links as [|l links IH]; intros st H; [exact H|].
  cbn [fold_left]. apply IH, step_keeps_companies, H.
Qed.

Lemma store_has_no_association :
  forall site d,
    fst (_make_request site (durl d)) <> None ->
    Forall (fun c => _is_association (name c) = false)
           (companies (fst (scrape_division_manufacturers site d))).
Proof.
  intros site d Hok. unfold scrape_division_manufacturers.
  destruct (_make_request site (durl d)) as [[p|] evs];
    [|exfalso; apply Hok; reflexivity].
  pose proof (loop_keeps_companies d (find_links company_link_re p) ([], 0)
                (Forall_nil _)) as H.
  unfold manufacturers_loop. destruct (fold_left _ _ _) as [seen n].
  cbn [fst companies set_companies] in *.
  rewrite Forall_forall in *. intros c Hc. apply in_map_iff in Hc.
  destruct Hc as [kv [<- Hin]]. exact (H kv Hin).
Qed.

(** The keys of [seen_companies] are pairwise distinct, and each company
    sits under the key of its link. *)
Lemma dict_has_iff :
  forall k seen, dict_has k seen = true <-> In k (map fst seen).
Proof.
  intros k seen. unfold dict_has. rewrite existsb_exists, in_map_iff. split.
  - intros [kv [Hin Heq]]. apply String.eqb_eq in Heq. exists kv. auto.
  - intros [kv [Heq Hin]]. exists kv. split; [exact Hin|].
    apply String.eqb_eq. auto.
Qed.

Lemma step_keys :
  forall d st link,
    NoDup (map fst (fst st)) /\ Forall keyed (fst st) ->
    NoDup (map fst (fst (manufacturers_step d st link))) /\
    Forall keyed (fst (manufacturers_step d st link)).
Proof.
  intros d [seen n] link [Hnd Hk]. cbn [fst] in *.
  destruct (reaches_test seen link) eqn:Hr.
  - destruct (_is_association (atext link)) eqn:Hassoc.
    + rewrite step_association by assumption. auto.
    + rewrite step_company by assumption. cbn [fst]. split.
      * rewrite map_app. cbn [map fst].
        apply NoDup_app_remove_l with (l := []). cbn [app].
        apply (Permutation_NoDup (l := base_href_of (href link) :: map fst seen)).
        -- apply Permutation_cons_append.
        -- constructor; [|exact Hnd].
           unfold reaches_test in Hr. apply andb_true_iff in Hr.
           destruct Hr as [_ Hr]. apply negb_true_iff in Hr.
           intros Hin. apply dict_has_iff in Hin. congruence.
      * apply Forall_app. split; [exact Hk|].
        constructor; [|constructor]. exists d, link. auto.
  - rewrite step_skipped by assumption. auto.
Qed.

Lemma loop_keys :
  forall d links st,
    NoDup (map fst (fst st)) /\ Forall keyed (fst st) ->
    NoDup (map fst (fst (fold_left (manufacturers_step d) links st))) /\
    Forall keyed (fst (fold_left (manufacturers_step d) links st)).
Proof.
  intros d links. induction links as [|l links IH]; intros st H; [exact H|].
  cbn [fold_left]. apply IH, step_keys, H.
Qed.

(** With site-relative links the key of the dict is the canonical key of
    the company, up to the prefix of the site. *)
Lemma step_canonical :
  forall d st link,
    startswith "/" (href link) = true ->
    Forall key_matches (fst st) ->
    Forall key_matches (fst (manufacturers_step d st link)).
Proof.
  intros d [seen n] link Hrel H. cbn [fst] in *.
  destruct (reaches_test seen link) eqn:Hr.
  - destruct (_is_association (atext link)) eqn:Hassoc.
    + rewrite step_association by assumption. exact H.
    + rewrite step_company by assumption. cbn [fst].
      apply Forall_app. split; [exact H|].
      constructor; [|constructor].
      unfold key_matches, canonical_key, company_of_link. cbn [fst snd].
      cbn [url new_company]. rewrite Hrel.
      apply before_char_append. reflexivity.
  - rewrite step_skipped by assumption. exact H.
Qed.

Lemma loop_canonical :
  forall d links st,
    Forall (fun l => startswith "/" (href l) = true) links ->
    Forall key_matches (fst st) ->
    Forall key_matches (fst (fold_left (manufacturers_step d) links st)).
Proof.
  intros d links. induction links as [|l links IH]; intros st Hrel H;
    [exact H|].
  inversion Hrel; subst. cbn [fold_left].
  apply IH; [assumption|]. apply step_canonical; assumption.
Qed.

Lemma listing_has_distinct_keys :
  forall d links,
    Forall (fun l => startswith "/" (href l) = true) links ->
    NoDup (map canonical_key (map snd (fst (manufacturers_loop d links)))).
Proof.
  intros d links Hrel. unfold manufacturers_loop.
  pose proof (loop_keys d links ([], 0) (conj (NoDup_nil _) (Forall_nil _)))
    as [Hnd _].
  pose proof (loop_canonical d links ([], 0) Hrel (Forall_nil _)) as Hkeys.
  destruct (fold_left _ _ _) as [seen n]. cbn [fst] in *.
  rewrite map_map.
  rewrite (map_ext_in _ (fun kv => (BASE_URL ++ fst kv)%string)).
  - rewrite <- (map_map fst (fun k => (BASE_URL ++ k)%string)).
    apply Finite.Injective_map_NoDup; [|exact Hnd].
    intros a b Hab. eapply append_inj_l. exact Hab.
  - intros kv Hin. rewrite Forall_forall in Hkeys. exact (Hkeys kv Hin).
Qed.

End ArcatListing.

(* ------------------------------------------------------------------ *)
(** ** SWEETS: the product links of a section page *)
(* ------------------------------------------------------------------ *)

Module SweetsListing.
Import Sweets.

(** A link whose key was seen changes nothing. *)
Lemma step_seen :
  forall sec d seen prods link,
    mem (base_href_of (href link)) seen = true ->
    products_step sec d (seen, prods) link = (seen, prods).
Proof.
  intros sec d seen prods link H. unfold products_step.
  rewrite H, orb_true_r. reflexivity.
Qed.

Lemma step_distinct :
  forall sec d st link,
    map canonical_key (snd st)
    = map (fun k => (BASE_URL ++ k)%string) (rev (fst st)) /\ NoDup (fst st) ->
    map canonical_key (snd (products_step sec d st link))
    = map (fun k => (BASE_URL ++ k)%string)
          (rev (fst (products_step sec d st link)))
    /\ NoDup (fst (products_step sec d st link)).
Proof.
  intros sec d [seen prods] link [Hkeys Hnd]. cbn [fst snd] in *.
  unfold products_step.
  destruct (is_empty (href link)); [cbn; auto|]. cbn [orb].
  destruct (mem (base_href_of (href link)) seen) eqn:Hmem; [cbn; auto|].
  destruct (is_empty (atext link)); [cbn; auto|].
  destruct (match split_once " - " (atext link) with
            | Some (a, b) => (strip a, strip b)
            | None => (EmptyString, atext link)
            end) as [mname pname].
  cbn [fst snd]. split.
  - rewrite map_app, Hkeys. cbn [rev map]. rewrite map_app. cbn [map].
    f_equal;
      try (f_equal; unfold canonical_key; cbn [url];
           apply before_char_append; reflexivity).
  - constructor; [|exact Hnd]. intros Hin. apply mem_iff_In in Hin. congruence.
Qed.

Lemma loop_distinct :
  forall sec d links st,
    map canonical_key (snd st)
    = map (fun k => (BASE_URL ++ k)%string) (rev (fst st)) /\ NoDup (fst st) ->
    map canonical_key (snd (fold_left (products_step sec d) links st))
    = map (fun k => (BASE_URL ++ k)%string)
          (rev (fst (fold_left (products_step sec d) links st)))
    /\ NoDup (fst (fold_left (products_step sec d) links st)).
Proof.
  intros sec d links. induction links as [|l links IH]; intros st H;
    [exact H|].
  cbn [fold_left]. apply IH, step_distinct, H.
Qed.

Lemma listing_has_distinct_product_keys :
  forall site sec d,
    products sec = [] ->
    NoDup (map canonical_key
               (products (fst (scrape_section_products site sec d)))).
Proof.
  intros site sec d Hempty. unfold scrape_section_products.
  destruct (_make_request site (surl sec)) as [[p|] evs]; cbn [fst].
  - unfold products_loop. rewrite Hempty.
    pose proof (loop_distinct sec d (find_links product_link_re p) ([], [])
                  (conj eq_refl (NoDup_nil _))) as [Hkeys Hnd].
    cbn [products set_products]. rewrite Hkeys.
    apply Finite.Injective_map_NoDup.
    + intros a b Hab. eapply append_inj_l. exact Hab.
    + apply NoDup_rev. exact Hnd.
  - rewrite Hempty. constructor.
Qed.

End SweetsListing.

(* ------------------------------------------------------------------ *)
(** ** ARCAT: what a resumed crawl fetches *)
(* ------------------------------------------------------------------ *)

Module ArcatResume.
Import Arcat ArcatNotions ArcatExamples.

Lemma url_apply_rendered :
  forall rd c, url (apply_rendered rd c) = url c.
Proof.
  intros rd c. unfold apply_rendered.
  destruct (nonempty (r_address rd)); [destruct (nonempty (r_state rd))|];
    destruct (nonempty (r_phone rd)); destruct (nonempty (r_email rd));
    destruct (nonempty (r_website rd)); reflexivity.
Qed.

(** One call of [scrape_company_details] fetches the page of its
    company and no other. *)
Lemma details_fetch_own_url :
  forall sel site browser c,
    Forall (fun u => u = url c)
           (detail_urls (snd (scrape_company_details sel site browser c))).
Proof.
  intros sel site browser c. unfold scrape_company_details.
  destruct sel.
  - destruct (browser (url c)) as [p|].
    + destruct (is_empty (address (apply_rendered _ c))).
      * rewrite url_apply_rendered.
        destruct (site (url c) 0); cbn; repeat constructor.
      * cbn. repeat constructor.
    + destruct (is_empty (address c)).
      * destruct (site (url c) 0); cbn; repeat constructor.
      * cbn. repeat constructor.
  - destruct (is_empty (address c)).
    + destruct (site (url c) 0); cbn; repeat constructor.
    + cbn. constructor.
Qed.

Lemma detail_urls_app :
  forall a b, detail_urls (a ++ b) = detail_urls a ++ detail_urls b.
Proof. intros. unfold detail_urls. apply map_app. Qed.

Section Loops.

Variable site : Site.
Variable browser : Browser.
Variable clock : nat -> Q.
Variable interval : nat.
Variable stop : Stop.
Variable max_companies : option nat.
Variable scraped : list string.

Lemma clean_maybe_save :
  forall mode s, clean scraped s -> clean scraped (maybe_save_checkpoint_every interval mode s).
Proof.
  intros mode s H. unfold maybe_save_checkpoint_every.
  destruct (_ && _); exact H.
Qed.

Lemma detail_companies_clean :
  forall todo view done s,
    clean scraped s ->
    clean scraped (snd (detail_companies site browser clock interval stop scraped
                                 view done todo s)).
Proof.
  induction todo as [|c rest IH]; intros view done s Hclean;
    cbn [detail_companies]; [exact Hclean|].
  destruct (halted s); [exact Hclean|].
  destruct (mem (url c) scraped) eqn:Hmem; [apply IH; exact Hclean|].
  destruct (interrupted s); [exact Hclean|].
  destruct (stop_now stop s) as [[|]|]; try exact Hclean.
  pose proof (details_fetch_own_url (selenium s) site browser c) as Hown.
  destruct (scrape_company_details (selenium s) site browser c) as [r evs].
  cbn [snd] in Hown.
  assert (Hlogged :
            clean scraped (with_divisions (view (done ++ res_company r :: rest))
                                  (log_details evs s))).
  { unfold clean in *. cbn [details with_divisions log_details].
    rewrite detail_urls_app. apply Forall_app. split; [exact Hclean|].
    eapply Forall_impl; [|exact Hown]. intros u ->. exact Hmem. }
  destruct (raised r); [exact Hlogged|].
  apply IH. apply clean_maybe_save. exact Hlogged.
Qed.

Lemma detail_divisions_clean :
  forall todo pre post s,
    clean scraped s ->
    clean scraped (detail_divisions site browser clock interval stop max_companies
                            scraped pre todo post s).
Proof.
  induction todo as [|d rest IH]; intros pre post s Hclean;
    cbn [detail_divisions]; [exact Hclean|].
  destruct (halted s || interrupted s); [exact Hclean|].
  match goal with
  | |- context [detail_companies ?a ?b ?c ?d ?e ?f ?v ?dn ?td ?st] =>
      pose proof (detail_companies_clean td v dn st Hclean) as Hloop;
      destruct (detail_companies a b c d e f v dn td st) as [cs s1]
  end.
  cbn [snd] in Hloop.
  destruct (halted s1 || interrupted s1); [exact Hloop|].
  apply IH. exact Hloop.
Qed.

End Loops.

Lemma csi_only_passes_clean :
  forall interval site browser clock stop o scraped s,
    clean scraped s ->
    clean scraped
          (csi_only_passes interval site browser clock stop o scraped s).
Proof.
  intros interval site browser clock stop o scraped s Hclean.
  unfold csi_only_passes.
  set (s1 := if is_nil (divisions s) then _ else s).
  assert (H1 : clean scraped s1).
  { subst s1. destruct (is_nil (divisions s)); [|exact Hclean].
    destruct (scrape_related_csi_divisions site) as [[l|] evs]; exact Hclean. }
  clearbody s1.
  destruct (count_pass _ _ _ _) as [[ds total] evs].
  match goal with
  | |- context [detail_divisions ?a ?b ?c ?d ?e ?f ?g ?pre ?td ?post ?st] =>
      assert (Hloop : clean scraped st) by exact H1;
      apply (detail_divisions_clean a b c d e f g td pre post st) in Hloop;
      set (s2 := detail_divisions a b c d e f g pre td post st) in *
  end.
  clearbody s2.
  destruct (halted s2); [exact Hloop|].
  destruct (interrupted s2); exact Hloop.
Qed.

(** What is in the set built on resume. *)
Lemma in_scraped_urls :
  forall ds u,
    In u (scraped_urls ds) <->
    exists d c, In d ds /\ In c (companies d) /\ url c = u
                /\ address c <> EmptyString.
Proof.
  intros ds u. unfold scraped_urls. rewrite in_flat_map. split.
  - intros [d [Hd Hu]]. apply in_flat_map in Hu. destruct Hu as [c [Hc Hu]].
    exists d, c. destruct (address c) eqn:Ha; cbn in Hu.
    + destruct Hu.
    + destruct Hu as [Hu|[]]. repeat split; auto. discriminate.
  - intros [d [c [Hd [Hc [Hu Ha]]]]]. exists d. split; [exact Hd|].
    apply in_flat_map. exists c. split; [exact Hc|].
    destruct (address c); [congruence|]. left. exact Hu.
Qed.

End ArcatResume.

(* ------------------------------------------------------------------ *)
(** ** SWEETS: what a resumed crawl fetches *)
(* ------------------------------------------------------------------ *)

Module SweetsResume.
Import Sweets SweetsNotions.

Section Loops.

Variable site : Site.
Variable browser : Browser.
Variable clock : nat -> Q.
Variable interval : nat.
Variable stop : Stop.
Variables max_sections max_products : option nat.
Variable scraped : list string.

Lemma clean_maybe_save_products :
  forall s, clean scraped s ->
            clean scraped (maybe_save_checkpoint_every interval s).
Proof.
  intros s H. unfold maybe_save_checkpoint_every.
  destruct (_ && _); exact H.
Qed.

Lemma detail_products_clean :
  forall todo view done s,
    clean scraped s ->
    clean scraped
          (snd (detail_products site browser clock interval stop scraped
                                view done todo s)).
Proof.
  induction todo as [|p rest IH]; intros view done s Hclean;
    cbn [detail_products]; [exact Hclean|].
  destruct (halted s); [exact Hclean|].
  destruct (mem (url p) scraped) eqn:Hmem; [apply IH; exact Hclean|].
  destruct (interrupted s); [exact Hclean|].
  destruct (stop_now stop s) as [[|]|]; try exact Hclean.
  destruct (scrape_product_details _ _ _ _ _) as [[p' cache] evs].
  apply IH. apply clean_maybe_save_products.
  unfold clean in *. cbn [details with_progress progress_update with_count
                            with_divisions log_detail].
  apply Forall_app. split; [exact Hclean|].
  constructor; [exact Hmem|constructor].
Qed.

Lemma detail_sections_clean :
  forall todo view done s,
    clean scraped s ->
    clean scraped
          (snd (detail_sections site browser clock interval stop max_products
                                scraped view done todo s)).
Proof.
  induction todo as [|sec rest IH]; intros view done s Hclean;
    cbn [detail_sections]; [exact Hclean|].
  destruct (halted s || interrupted s); [exact Hclean|].
  match goal with
  | |- context [detail_products ?a ?b ?c ?d ?e ?f ?v ?dn ?td ?st] =>
      pose proof (detail_products_clean td v dn st Hclean) as Hloop;
      destruct (detail_products a b c d e f v dn td st) as [ps s1]
  end.
  cbn [snd] in Hloop. apply IH. exact Hloop.
Qed.

Lemma detail_all_divisions_clean :
  forall todo pre post s,
    clean scraped s ->
    clean scraped
          (detail_divisions site browser clock interval stop max_sections
                            max_products scraped pre todo post s).
Proof.
  induction todo as [|d rest IH]; intros pre post s Hclean;
    cbn [detail_divisions]; [exact Hclean|].
  destruct (halted s || interrupted s); [exact Hclean|].
  match goal with
  | |- context [detail_sections ?a ?b ?c ?d ?e ?f ?g ?v ?dn ?td ?st] =>
      pose proof (detail_sections_clean td v dn st Hclean) as Hloop;
      destruct (detail_sections a b c d e f g v dn td st) as [ss s1]
  end.
  cbn [snd] in Hloop.
  destruct (halted s1 || interrupted s1); [exact Hloop|].
  apply IH. exact Hloop.
Qed.

End Loops.

Lemma all_passes_clean :
  forall interval site browser clock stop o scraped s,
    clean scraped s ->
    clean scraped (all_passes interval site browser clock stop o scraped s).
Proof.
  intros interval site browser clock stop o scraped s Hclean.
  unfold all_passes.
  set (s1 := if is_nil (divisions s) then _ else s).
  assert (H1 : clean scraped s1).
  { subst s1. destruct (is_nil (divisions s)); [|exact Hclean].
    destruct (scrape_divisions site) as [[l|] evs]; exact Hclean. }
  clearbody s1.
  destruct (count_pass _ _ _ _ _) as [[ds total] evs].
  match goal with
  | |- context [detail_divisions ?a ?b ?c ?d ?e ?f ?g ?h ?pre ?td ?post ?st] =>
      assert (Hloop : clean scraped st) by exact H1;
      apply (detail_all_divisions_clean a b c d e f g h td pre post st)
        in Hloop;
      set (s2 := detail_divisions a b c d e f g h pre td post st) in *
  end.
  clearbody s2.
  destruct (halted s2); [exact Hloop|].
  destruct (interrupted s2); exact Hloop.
Qed.

Lemma in_scraped_product_urls :
  forall ds u,
    In u (scraped_urls ds) <->
    exists d sec p, In d ds /\ In sec (sections d) /\ In p (products sec)
                    /\ url p = u /\ is_detailed p = true.
Proof.
  intros ds u. unfold scraped_urls. rewrite in_flat_map. split.
  - intros [d [Hd Hu]]. apply in_flat_map in Hu. destruct Hu as [sec [Hs Hu]].
    apply in_flat_map in Hu. destruct Hu as [p [Hp Hu]].
    exists d, sec, p. destruct (is_detailed p); cbn in Hu.
    + destruct Hu as [Hu|[]]. auto.
    + destruct Hu.
  - intros [d [sec [p [Hd [Hs [Hp [Hu Hdet]]]]]]]. exists d. split; [exact Hd|].
    apply in_flat_map. exists sec. split; [exact Hs|].
    apply in_flat_map. exists p. split; [exact Hp|].
    rewrite Hdet. left. exact Hu.
Qed.

End SweetsResume.

(* ------------------------------------------------------------------ *)
(** ** The claims on resuming a crawl *)
(* ------------------------------------------------------------------ *)

(** C1, as the specification states it, fails: an entity whose detail
    fetch is over, and is in the checkpoint, is fetched again on resume
    when that fetch gave it no address.  Three companies, the pages of
    the first two without an address; the run is killed after the second,
    the periodic checkpoint (interval 2) holding both; the resumed run
    fetches all three detail pages. *)
Lemma resume_refetches_entities_without_address :
  Arcat.detail_urls
    (Arcat.details
       (ArcatExamples.killed_after_two ArcatExamples.three_companies_two_bare))
  = [ArcatExamples.company_url "a-1"; ArcatExamples.company_url "b-2"] /\
  option_map Arcat.cp_companies_scraped
    (Arcat.disk
       (ArcatExamples.killed_after_two ArcatExamples.three_companies_two_bare))
  = Some 2 /\
  Arcat.detail_urls
    (Arcat.details
       (ArcatExamples.resumed_after_two ArcatExamples.three_companies_two_bare))
  = [ArcatExamples.company_url "a-1"; ArcatExamples.company_url "b-2";
     ArcatExamples.company_url "c-3"].
Proof. vm_compute. repeat split. Qed.

(** C1, amended.  On resume the detail loop never fetches the page of a
    URL that is in the set built at resume time, however the run goes
    on and wherever it stops; the set holds the URLs of the restored
    entities that have an address (ARCAT) or a phone or an email
    (SWEETS).  In the scenario (three entities, checkpoint after the
    second at interval 2, process killed before the third), the first
    two pages having given an address, resp. a phone, the resumed run
    fetches the detail page of the third entity only. *)
Theorem resume_skips_the_scraped_set :
  (forall interval site browser clock stop o use_selenium file,
      Forall (fun u =>
                ~ In u (snd (Arcat.resume_csi_only
                               o (Arcat.new_scraper use_selenium file))))
             (Arcat.detail_urls
                (Arcat.details
                   (Arcat.scrape_csi_only_every
                      interval site browser clock stop o
                      (Arcat.new_scraper use_selenium file))))) /\
  (forall interval site browser clock stop o use_selenium file,
      Forall (fun u =>
                ~ In u (snd (Sweets.resume_all
                               o (Sweets.new_scraper use_selenium file))))
             (Sweets.details
                (Sweets.scrape_all_every
                   interval site browser clock stop o
                   (Sweets.new_scraper use_selenium file)))) /\
  (forall ds u,
      In u (Arcat.scraped_urls ds) <->
      exists d c, In d ds /\ In c (Arcat.companies d) /\ Arcat.url c = u
                  /\ Arcat.address c <> EmptyString) /\
  (forall ds u,
      In u (Sweets.scraped_urls ds) <->
      exists d sec p, In d ds /\ In sec (Sweets.sections d)
                      /\ In p (Sweets.products sec) /\ Sweets.url p = u
                      /\ Sweets.is_detailed p = true) /\
  Arcat.detail_urls
    (Arcat.details
       (ArcatExamples.resumed_after_two ArcatExamples.three_companies))
  = [ArcatExamples.company_url "c-3"] /\
  Sweets.details
    (SweetsExamples.resumed_after_two SweetsExamples.three_products)
  = [(Sweets.BASE_URL ++ SweetsExamples.product_href "p3")%string].
Proof.
  split; [|split; [|split; [|split; [|split]]]].
  - intros interval site browser clock stop o use_selenium file.
    unfold Arcat.scrape_csi_only_every.
    destruct (Arcat.resume_csi_only o (Arcat.new_scraper use_selenium file))
      as [s scraped] eqn:Hstart.
    cbn [snd].
    assert (Hclean : ArcatNotions.clean scraped s).
    { unfold Arcat.resume_csi_only in Hstart.
      unfold ArcatNotions.clean.
      destruct (Arcat.resume o);
        [cbn [Arcat._load_checkpoint Arcat.new_scraper Arcat.disk] in Hstart;
         destruct file as [cp|];
         [destruct (String.eqb (Arcat.cp_mode cp) Arcat.csi_only_mode)|]|];
        injection Hstart as <- <-; constructor. }
    apply (ArcatResume.csi_only_passes_clean interval site browser clock stop o)
      in Hclean.
    unfold ArcatNotions.clean in Hclean.
    eapply Forall_impl; [|exact Hclean].
    intros u Hu Hin. apply mem_iff_In in Hin. congruence.
  - intros interval site browser clock stop o use_selenium file.
    unfold Sweets.scrape_all_every.
    destruct (Sweets.resume_all o (Sweets.new_scraper use_selenium file))
      as [s scraped] eqn:Hstart.
    cbn [snd].
    assert (Hclean : SweetsNotions.clean scraped s).
    { unfold Sweets.resume_all in Hstart. unfold SweetsNotions.clean.
      destruct (Sweets.resume o);
        [cbn [Sweets._load_checkpoint Sweets.new_scraper Sweets.disk] in Hstart;
         destruct file as [cp|]|];
        injection Hstart as <- <-; constructor. }
    apply (SweetsResume.all_passes_clean interval site browser clock stop o)
      in Hclean.
    unfold SweetsNotions.clean in Hclean.
    eapply Forall_impl; [|exact Hclean].
    intros u Hu Hin. apply mem_iff_In in Hin. congruence.
  - exact ArcatResume.in_scraped_urls.
  - exact SweetsResume.in_scraped_product_urls.
  - vm_compute. reflexivity.
  - vm_compute. reflexivity.
Qed.

Lemma permutation_keeps_count :
  forall (A : Type) (f : A -> bool) (l1 l2 : list A),
    Permutation l1 l2 ->
    List.length (filter f l1) = List.length (filter f l2).
Proof.
  intros A f l1 l2 H. induction H as [|x l l' _ IH|x y l|l l' l'' _ IH1 _ IH2].
  - reflexivity.
  - cbn [filter]. destruct (f x); cbn [List.length]; congruence.
  - cbn [filter]. destruct (f x); destruct (f y); reflexivity.
  - congruence.
Qed.

(** C2 at its failing input, ARCAT.  Two divisions list one company in
    common, ten companies under the first.  In one pass all eleven
    entities get their address.  Killed after the tenth, the periodic
    checkpoint ([CHECKPOINT_INTERVAL] = 10) holding the ten, the resumed
    run skips the eleventh entity, whose URL is among the scraped, and
    fetches nothing: it stays without an address, and the two final
    stores differ whatever the order. *)
Theorem resumed_store_differs_from_one_pass :
  option_map Arcat.cp_companies_scraped
    (Arcat.disk (ArcatExamples.killed_after 10 ArcatExamples.shared_company))
  = Some 10 /\
  List.length
    (filter ArcatExamples.without_address
       (Arcat.entities
          (Arcat.divisions (ArcatExamples.one_pass ArcatExamples.shared_company))))
  = 0 /\
  List.length
    (filter ArcatExamples.without_address
       (Arcat.entities
          (Arcat.divisions
             (ArcatExamples.resumed_after 10 ArcatExamples.shared_company))))
  = 1 /\
  Arcat.details (ArcatExamples.resumed_after 10 ArcatExamples.shared_company)
  = [] /\
  ~ Arcat.same_store
      (Arcat.divisions (ArcatExamples.one_pass ArcatExamples.shared_company))
      (Arcat.divisions
         (ArcatExamples.resumed_after 10 ArcatExamples.shared_company)).
Proof.
  assert (H0 : List.length
                 (filter ArcatExamples.without_address
                    (Arcat.entities
                       (Arcat.divisions
                          (ArcatExamples.one_pass ArcatExamples.shared_company))))
               = 0) by (vm_compute; reflexivity).
  assert (H1 : List.length
                 (filter ArcatExamples.without_address
                    (Arcat.entities
                       (Arcat.divisions
                          (ArcatExamples.resumed_after
                             10 ArcatExamples.shared_company))))
               = 1) by (vm_compute; reflexivity).
  split; [vm_compute; reflexivity|].
  split; [exact H0|]. split; [exact H1|].
  split; [vm_compute; reflexivity|].
  intros Hsame.
  apply (permutation_keeps_count _ ArcatExamples.without_address) in Hsame.
  rewrite H0, H1 in Hsame. discriminate Hsame.
Qed.

(** The same defect in SWEETS: two sections list one product; a signal
    arrives when the first detail page is done; the resumed run skips
    the entity of the second section, which stays without a phone. *)
Lemma resumed_sweets_store_differs_from_one_pass :
  List.length
    (filter SweetsExamples.without_phone
       (Sweets.entities
          (Sweets.divisions
             (SweetsExamples.one_pass SweetsExamples.shared_product))))
  = 0 /\
  List.length
    (filter SweetsExamples.without_phone
       (Sweets.entities
          (Sweets.divisions
             (SweetsExamples.resumed_after 1 SweetsExamples.shared_product))))
  = 1 /\
  ~ Sweets.same_store
      (Sweets.divisions (SweetsExamples.one_pass SweetsExamples.shared_product))
      (Sweets.divisions
         (SweetsExamples.resumed_after 1 SweetsExamples.shared_product)).
Proof.
  assert (H0 : List.length
                 (filter SweetsExamples.without_phone
                    (Sweets.entities
                       (Sweets.divisions
                          (SweetsExamples.one_pass
                             SweetsExamples.shared_product))))
               = 0) by (vm_compute; reflexivity).
  assert (H1 : List.length
                 (filter SweetsExamples.without_phone
                    (Sweets.entities
                       (Sweets.divisions
                          (SweetsExamples.resumed_after
                             1 SweetsExamples.shared_product))))
               = 1) by (vm_compute; reflexivity).
  split; [exact H0|]. split; [exact H1|].
  intros Hsame.
  apply (permutation_keeps_count _ SweetsExamples.without_phone) in Hsame.
  rewrite H0, H1 in Hsame. discriminate Hsame.
Qed.

(* ------------------------------------------------------------------ *)
(** ** The claim on the keys of the store *)
(* ------------------------------------------------------------------ *)

(** C3, as the specification states it, fails: the store of a crawl can
    hold two entities with one canonical key.  Two divisions list one
    company; each division gets an entity of its own. *)
Lemma store_holds_one_key_twice :
  ~ NoDup (map Arcat.canonical_key
               (Arcat.entities
                  (Arcat.divisions
                     (ArcatExamples.one_pass ArcatExamples.shared_company)))).
Proof.
  assert (H : map Arcat.canonical_key
                  (Arcat.entities
                     (Arcat.divisions
                        (ArcatExamples.one_pass ArcatExamples.shared_company)))
              = map ArcatExamples.company_url
                    (ArcatExamples.ten_slugs ++ ["c1-1"]))
    by (vm_compute; reflexivity).
  rewrite H. intros Hnd.
  cbn [map app ArcatExamples.ten_slugs] in Hnd.
  apply NoDup_cons_iff in Hnd. destruct Hnd as [Hnotin _].
  apply Hnotin. do 9 right. left. reflexivity.
Qed.

(** C3, amended.  Within the entity list that one expansion of a
    listing page builds, no two entities have the same canonical key
    (ARCAT: for a page whose company links are site-relative), and a
    later link with a key already seen changes nothing: the entity of
    the first link stays as it is. *)
Theorem one_entity_per_key_in_a_listing :
  forall site : Site,
    (forall d p evs,
        _make_request site (Arcat.durl d) = (Some p, evs) ->
        Forall (fun l => startswith "/" (href l) = true)
               (find_links Arcat.company_link_re p) ->
        NoDup (map Arcat.canonical_key
                   (Arcat.companies
                      (fst (Arcat.scrape_division_manufacturers site d))))) /\
    (forall sec d,
        Sweets.products sec = [] ->
        NoDup (map Sweets.canonical_key
                   (Sweets.products
                      (fst (Sweets.scrape_section_products site sec d))))) /\
    (forall d seen n link,
        Arcat.dict_has (Arcat.base_href_of (href link)) seen = true ->
        Arcat.manufacturers_step d (seen, n) link = (seen, n)) /\
    (forall sec d seen prods link,
        mem (Sweets.base_href_of (href link)) seen = true ->
        Sweets.products_step sec d (seen, prods) link = (seen, prods)).
Proof.
  intros site. repeat split.
  - intros d p evs Hreq Hrel. unfold Arcat.scrape_division_manufacturers.
    rewrite Hreq.
    pose proof (ArcatListing.listing_has_distinct_keys
                  d (find_links Arcat.company_link_re p) Hrel) as H.
    destruct (Arcat.manufacturers_loop d (find_links Arcat.company_link_re p))
      as [seen n].
    exact H.
  - intros sec d. apply SweetsListing.listing_has_distinct_product_keys.
  - intros d seen n link H. apply ArcatListing.step_skipped.
    unfold ArcatNotions.reaches_test. rewrite H. apply andb_false_r.
  - intros sec d seen prods link. apply SweetsListing.step_seen.
Qed.

(** The listing of a division with three companies: three entities,
    three keys. *)
Lemma three_companies_have_distinct_keys :
  NoDup (map Arcat.canonical_key
             (Arcat.companies
                (fst (Arcat.scrape_division_manufacturers
                        ArcatExamples.three_companies
                        ArcatExamples.masonry)))).
Proof.
  eapply (proj1 (one_entity_per_key_in_a_listing
                   ArcatExamples.three_companies)
                ArcatExamples.masonry).
  - cbv. reflexivity.
  - vm_compute. repeat constructor.
Defined.

(* ------------------------------------------------------------------ *)
(** ** The claim on associations *)
(* ------------------------------------------------------------------ *)

(** [_is_association] is the membership test of the claim: some keyword
    occurs in the name put in lower case. *)
Lemma is_association_iff :
  forall company_name,
    Arcat._is_association company_name = true <->
    exists keyword a b,
      In keyword Arcat.ASSOCIATION_KEYWORDS /\
      lower company_name = (a ++ keyword ++ b)%string.
Proof.
  intros company_name. unfold Arcat._is_association, any_in.
  rewrite existsb_exists. split.
  - intros [k [Hin Hc]]. apply contains_iff_substring in Hc.
    destruct Hc as [a [b H]]. exists k, a, b. auto.
  - intros [k [a [b [Hin H]]]]. exists k. split; [exact Hin|].
    apply contains_iff_substring. exists a, b. exact H.
Qed.

(** C9, as the specification states it, fails: an entry whose name has a
    keyword is not counted when an earlier guard of the loop skips it.
    The link of the Spec Mix Institute has /spec in its [href]; the link
    of the Acme Training Institute has the key of a company seen before.
    Both are links that [find_all] gives; the counter stays at 0. *)
Lemma association_entry_skipped_uncounted :
  matches Arcat.company_link_re (href ArcatExamples.spec_institute_link) = true /\
  Arcat._is_association (atext ArcatExamples.spec_institute_link) = true /\
  Arcat.manufacturers_step ArcatExamples.masonry ([], 0)
                           ArcatExamples.spec_institute_link = ([], 0) /\
  matches Arcat.company_link_re (href ArcatExamples.acme_institute_link) = true /\
  Arcat._is_association (atext ArcatExamples.acme_institute_link) = true /\
  snd (Arcat.manufacturers_loop
         ArcatExamples.masonry
         [ArcatExamples.acme_link; ArcatExamples.acme_institute_link]) = 0.
Proof. vm_compute. repeat split. Qed.

(** C9, amended.  A listing entry whose name contains a keyword of the
    association list (in any case) never adds an entity to the store;
    the counter goes up by exactly 1 when the entry reaches the test,
    that is when its name is not empty, its link has none of /cad, /bim,
    /spec and its key was not seen; an entry that an earlier guard skips
    leaves store and counter alone.  An entry that reaches the test and
    whose name has no keyword is added to the store.  No company of the
    store built from a listing page is an association. *)
Theorem association_entries_are_discarded :
  forall (d : Arcat.Division) (seen : Arcat.seen_dict) (n : nat)
         (link : Anchor),
    (Arcat._is_association (atext link) = true <->
     exists keyword a b,
       In keyword Arcat.ASSOCIATION_KEYWORDS /\
       lower (atext link) = (a ++ keyword ++ b)%string) /\
    (Arcat._is_association (atext link) = true ->
     fst (Arcat.manufacturers_step d (seen, n) link) = seen) /\
    (Arcat._is_association (atext link) = true ->
     ArcatNotions.reaches_test seen link = true ->
     Arcat.manufacturers_step d (seen, n) link = (seen, S n)) /\
    (ArcatNotions.reaches_test seen link = false ->
     Arcat.manufacturers_step d (seen, n) link = (seen, n)) /\
    (Arcat._is_association (atext link) = false ->
     ArcatNotions.reaches_test seen link = true ->
     Arcat.manufacturers_step d (seen, n) link
     = (seen ++ [(Arcat.base_href_of (href link),
                  ArcatNotions.company_of_link d link)], n)) /\
    (forall site,
        fst (_make_request site (Arcat.durl d)) <> None ->
        Forall (fun c => Arcat._is_association (Arcat.name c) = false)
               (Arcat.companies
                  (fst (Arcat.scrape_division_manufacturers site d)))).
Proof.
  intros d seen n link.
  split; [apply is_association_iff|].
  split; [apply ArcatListing.association_never_added|].
  split; [intros; apply ArcatListing.step_association; assumption|].
  split; [apply ArcatListing.step_skipped|].
  split; [intros; apply ArcatListing.step_company; assumption|].
  intros site. apply ArcatListing.store_has_no_association.
Qed.

(** The scenario: the entry of the Masonry Institute of America is
    discarded and counted once. *)
Lemma masonry_institute_is_discarded :
  Arcat.manufacturers_step ArcatExamples.masonry ([], 0)
                           ArcatExamples.masonry_institute_link
  = ([], 1).
Proof.
  exact (proj1 (proj2 (proj2 (association_entries_are_discarded
                                ArcatExamples.masonry [] 0
                                ArcatExamples.masonry_institute_link)))
               eq_refl eq_refl).
Defined.

(* ------------------------------------------------------------------ *)
(** ** The claim on expanding a node twice *)
(* ------------------------------------------------------------------ *)

Module Expansion.

(** The loops that append give what the node had, then what the same
    loop gives from nothing. *)
Lemma sections_loop_appends :
  forall links seen acc,
    Sweets.sections_loop links seen acc
    = acc ++ Sweets.sections_loop links seen [].
Proof.
  induction links as [|l links IH]; intros seen acc;
    cbn [Sweets.sections_loop]; [symmetry; apply app_nil_r|].
  destruct (mem (href l) seen); [apply IH|].
  destruct (rmatch_start Sweets.section_text_re (atext l)); [|apply IH].
  rewrite IH. rewrite (IH _ ([] ++ _)). rewrite app_assoc. reflexivity.
Qed.

Lemma subcategories_loop_appends :
  forall links seen acc,
    Arcat.subcategories_loop links seen acc
    = acc ++ Arcat.subcategories_loop links seen [].
Proof.
  induction links as [|l links IH]; intros seen acc;
    cbn [Arcat.subcategories_loop]; [symmetry; apply app_nil_r|].
  destruct (mem (href l) seen); [apply IH|].
  rewrite IH. rewrite (IH _ ([] ++ _)). rewrite app_assoc. reflexivity.
Qed.

Lemma related_csi_loop_appends :
  forall links seen acc,
    Arcat.related_csi_loop links seen acc
    = acc ++ Arcat.related_csi_loop links seen [].
Proof.
  induction links as [|l links IH]; intros seen acc;
    cbn [Arcat.related_csi_loop]; [symmetry; apply app_nil_r|].
  destruct (mem (href l) seen); [apply IH|].
  rewrite IH. rewrite (IH _ ([] ++ _)). rewrite app_assoc. reflexivity.
Qed.

Lemma products_step_appends :
  forall sec d seen prods link,
    Sweets.products_step sec d (seen, prods) link
    = (fst (Sweets.products_step sec d (seen, []) link),
       prods ++ snd (Sweets.products_step sec d (seen, []) link)).
Proof.
  intros sec d seen prods link. unfold Sweets.products_step.
  destruct (_ || _); [cbn; rewrite app_nil_r; reflexivity|].
  destruct (is_empty (atext link)); [cbn; rewrite app_nil_r; reflexivity|].
  destruct (match Sweets.split_once " - " (atext link) with
            | Some (a, b) => (strip a, strip b)
            | None => (EmptyString, atext link)
            end) as [mname pname].
  reflexivity.
Qed.

(** The companies of an ARCAT division are replaced: the loop reads the
    code and the name of the division only. *)
Lemma manufacturers_step_reads_code_and_name :
  forall d cs st link,
    Arcat.manufacturers_step (Arcat.set_companies cs d) st link
    = Arcat.manufacturers_step d st link.
Proof. intros d cs [seen n] link. reflexivity. Qed.

Lemma manufacturers_loop_reads_code_and_name :
  forall d cs links st,
    fold_left (Arcat.manufacturers_step (Arcat.set_companies cs d)) links st
    = fold_left (Arcat.manufacturers_step d) links st.
Proof.
  intros d cs links. induction links as [|l links IH]; intros st;
    [reflexivity|].
  cbn [fold_left]. rewrite manufacturers_step_reads_code_and_name. apply IH.
Qed.

Lemma arcat_expansion_idempotent :
  forall site d,
    fst (Arcat.scrape_division_manufacturers
           site (fst (Arcat.scrape_division_manufacturers site d)))
    = fst (Arcat.scrape_division_manufacturers site d).
Proof.
  intros site d. unfold Arcat.scrape_division_manufacturers at 2.
  destruct (_make_request site (Arcat.durl d)) as [[p|] evs] eqn:Hreq.
  - unfold Arcat.manufacturers_loop.
    destruct (fold_left (Arcat.manufacturers_step d) _ _) as [seen n] eqn:Hloop.
    cbn [fst]. unfold Arcat.scrape_division_manufacturers.
    cbn [Arcat.durl Arcat.set_companies]. rewrite Hreq.
    unfold Arcat.manufacturers_loop.
    rewrite manufacturers_loop_reads_code_and_name, Hloop. reflexivity.
  - cbn [fst]. unfold Arcat.scrape_division_manufacturers. rewrite Hreq.
    reflexivity.
Qed.

Lemma sweets_guarded_expansion_idempotent :
  forall site d,
    SweetsNotions.expand_if_empty site (SweetsNotions.expand_if_empty site d)
    = SweetsNotions.expand_if_empty site d.
Proof.
  intros site d. unfold SweetsNotions.expand_if_empty at 2 3.
  destruct (is_nil (Sweets.sections d)) eqn:Hnil.
  - destruct d as [c n u i ss]. cbn [Sweets.sections] in Hnil.
    destruct ss as [|x ss]; [|discriminate Hnil].
    unfold Sweets.scrape_division_sections. cbn [Sweets.durl Sweets.sections].
    destruct (_make_request site u) as [[p|] evs] eqn:Hreq; cbn [fst].
    + destruct (Sweets.sections_loop _ [] []) as [|x l] eqn:Hloop.
      * unfold SweetsNotions.expand_if_empty, Sweets.scrape_division_sections.
        cbn [Sweets.set_sections Sweets.sections Sweets.durl is_nil].
        rewrite Hreq, Hloop. reflexivity.
      * reflexivity.
    + unfold SweetsNotions.expand_if_empty, Sweets.scrape_division_sections.
      cbn [Sweets.set_sections Sweets.sections Sweets.durl is_nil].
      rewrite Hreq. reflexivity.
  - unfold SweetsNotions.expand_if_empty. rewrite Hnil. reflexivity.
Qed.

End Expansion.

(** C4, as the specification states it, fails: expanding a node a second
    time with the same markup appends to its lists.  A SWEETS division
    whose page lists one section has two sections after the second
    expansion; an ARCAT category whose page lists one sub-category and
    one related division has two of each. *)
Lemma second_expansion_duplicates :
  List.length
    (Sweets.sections
       (fst (Sweets.scrape_division_sections
               SweetsExamples.three_products SweetsExamples.masonry))) = 1 /\
  List.length
    (Sweets.sections
       (fst (Sweets.scrape_division_sections
               SweetsExamples.three_products
               (fst (Sweets.scrape_division_sections
                       SweetsExamples.three_products
                       SweetsExamples.masonry))))) = 2 /\
  List.length
    (Arcat.subcategories
       (fst (Arcat.scrape_category_subcategories
               ArcatExamples.category_site ArcatExamples.masonry_category)))
  = 1 /\
  List.length
    (Arcat.subcategories
       (fst (Arcat.scrape_category_subcategories
               ArcatExamples.category_site
               (fst (Arcat.scrape_category_subcategories
                       ArcatExamples.category_site
                       ArcatExamples.masonry_category))))) = 2 /\
  List.length
    (Arcat.related_csi_divisions
       (fst (Arcat.scrape_category_subcategories
               ArcatExamples.category_site
               (fst (Arcat.scrape_category_subcategories
                       ArcatExamples.category_site
                       ArcatExamples.masonry_category))))) = 2.
Proof. vm_compute. repeat split. Qed.

(** C4, amended.  Expanding a SWEETS division or an ARCAT category
    appends what the page gives to the lists the node has; the crawl
    expands a division only while its list is empty, and under that
    guard a second expansion with the same markup changes nothing.
    Expanding an ARCAT division replaces its companies, so there the
    second expansion gives the same division as the first. *)
Theorem expansion_appends_under_a_guard :
  forall site : Site,
    (forall d,
        Sweets.sections (fst (Sweets.scrape_division_sections site d))
        = Sweets.sections d
          ++ Sweets.sections
               (fst (Sweets.scrape_division_sections
                       site (Sweets.set_sections [] d)))) /\
    (forall c,
        Arcat.subcategories (fst (Arcat.scrape_category_subcategories site c))
        = Arcat.subcategories c
          ++ Arcat.subcategories
               (fst (Arcat.scrape_category_subcategories
                       site (ArcatNotions.without_subcategories c))) /\
        Arcat.related_csi_divisions
          (fst (Arcat.scrape_category_subcategories site c))
        = Arcat.related_csi_divisions c
          ++ Arcat.related_csi_divisions
               (fst (Arcat.scrape_category_subcategories
                       site (ArcatNotions.without_subcategories c)))) /\
    (forall d,
        SweetsNotions.expand_if_empty site (SweetsNotions.expand_if_empty site d)
        = SweetsNotions.expand_if_empty site d) /\
    (forall d,
        fst (Arcat.scrape_division_manufacturers
               site (fst (Arcat.scrape_division_manufacturers site d)))
        = fst (Arcat.scrape_division_manufacturers site d)).
Proof.
  intros site. repeat split.
  - intros d. unfold Sweets.scrape_division_sections.
    cbn [Sweets.durl Sweets.set_sections Sweets.sections].
    destruct (_make_request site (Sweets.durl d)) as [[p|] evs]; cbn [fst].
    + cbn [Sweets.sections Sweets.set_sections].
      apply Expansion.sections_loop_appends.
    + cbn [Sweets.sections Sweets.set_sections]. symmetry. apply app_nil_r.
  - unfold Arcat.scrape_category_subcategories.
    cbn [Arcat.curl ArcatNotions.without_subcategories].
    destruct (_make_request site (Arcat.curl c)) as [[p|] evs]; cbn.
    + apply Expansion.subcategories_loop_appends.
    + symmetry. apply app_nil_r.
  - unfold Arcat.scrape_category_subcategories.
    cbn [Arcat.curl ArcatNotions.without_subcategories].
    destruct (_make_request site (Arcat.curl c)) as [[p|] evs]; cbn.
    + apply Expansion.related_csi_loop_appends.
    + symmetry. apply app_nil_r.
  - apply Expansion.sweets_guarded_expansion_idempotent.
  - apply Expansion.arcat_expansion_idempotent.
Qed.

(* ------------------------------------------------------------------ *)
(** ** The claims on extraction *)
(* ------------------------------------------------------------------ *)

Module Extraction.
Import Arcat.

(** What the serialized record of the scenario gives. *)
Lemma nuxt_of_scenario :
  _extract_from_nuxt_data scenario_markup
  = {| n_address := "123 Oak Rd."; n_city := "Austin"; n_state := "TX";
       n_zip := "78701"; n_phone := "512-555-0100";
       n_email := "info@example.com"; n_website := EmptyString |}.
Proof. vm_compute. reflexivity. Qed.

Lemma no_expert_in_scenario :
  forall c, product_expert scenario_markup c = c.
Proof.
  intros c. unfold product_expert.
  replace (search expert_html_pattern scenario_markup) with (@None rmatch)
    by (vm_compute; reflexivity).
  replace (search expert_pattern scenario_markup) with (@None rmatch)
    by (vm_compute; reflexivity).
  replace (search alt_expert_pattern scenario_markup) with (@None rmatch)
    by (vm_compute; reflexivity).
  reflexivity.
Qed.

(** The fall-backs write a field only while it is empty. *)
Lemma fallback_address_keeps :
  forall soup c, nonempty (address c) = true -> fallback_address soup c = Fine c.
Proof.
  intros soup c H. unfold fallback_address. unfold nonempty in H.
  apply negb_true_iff in H. rewrite H. reflexivity.
Qed.

Lemma fallback_phone_keeps :
  forall soup c, nonempty (phone c) = true -> fallback_phone soup c = Fine c.
Proof.
  intros soup c H. unfold fallback_phone. unfold nonempty in H.
  apply negb_true_iff in H. rewrite H. reflexivity.
Qed.

Lemma fallback_website_keeps :
  forall soup c, nonempty (website c) = true -> fallback_website soup c = Fine c.
Proof.
  intros soup c H. unfold fallback_website. unfold nonempty in H.
  apply negb_true_iff in H. rewrite H. reflexivity.
Qed.

Lemma fallback_email_keeps :
  forall html_ soup c,
    nonempty (email c) = true -> fallback_email html_ soup c = Fine c.
Proof.
  intros html_ soup c H. unfold fallback_email. unfold nonempty in H.
  apply negb_true_iff in H. rewrite H. reflexivity.
Qed.

(** Each fall-back leaves the fields of the others alone. *)
Lemma fallback_phone_frame :
  forall p c,
    address (res_company (fallback_phone (Some p) c)) = address c /\
    state (res_company (fallback_phone (Some p) c)) = state c /\
    email (res_company (fallback_phone (Some p) c)) = email c /\
    website (res_company (fallback_phone (Some p) c)) = website c.
Proof.
  intros p c. unfold fallback_phone.
  destruct (is_empty (phone c)); [|cbn; auto].
  destruct (first_match _ _); cbn; auto.
Qed.

Lemma fallback_website_frame :
  forall p c,
    address (res_company (fallback_website (Some p) c)) = address c /\
    state (res_company (fallback_website (Some p) c)) = state c /\
    phone (res_company (fallback_website (Some p) c)) = phone c /\
    email (res_company (fallback_website (Some p) c)) = email c.
Proof.
  intros p c. unfold fallback_website.
  destruct (is_empty (website c)); [|cbn; auto].
  destruct (find _ _); cbn; auto.
Qed.

Lemma fallback_email_frame :
  forall html_ p c,
    address (res_company (fallback_email html_ (Some p) c)) = address c /\
    state (res_company (fallback_email html_ (Some p) c)) = state c /\
    phone (res_company (fallback_email html_ (Some p) c)) = phone c /\
    website (res_company (fallback_email html_ (Some p) c)) = website c.
Proof.
  intros html_ p c. unfold fallback_email.
  destruct (is_empty (email c)); [|cbn; auto].
  destruct (search mailto_attr html_); [cbn; auto|].
  destruct (search email_in_text (text p)); [|cbn; auto].
  destruct (any_in _ _); cbn; auto.
Qed.

Lemma product_expert_frame :
  forall html_ c,
    address (product_expert html_ c) = address c /\
    state (product_expert html_ c) = state c /\
    phone (product_expert html_ c) = phone c /\
    email (product_expert html_ c) = email c /\
    website (product_expert html_ c) = website c.
Proof.
  intros html_ c. unfold product_expert.
  destruct (search expert_html_pattern html_); [cbn; auto|].
  destruct (search expert_pattern html_); [cbn; auto|].
  destruct (search alt_expert_pattern html_); cbn; auto.
Qed.

(** With a page at hand, [extract_details] is the chain of its steps. *)
Lemma extract_details_steps :
  forall html_ p c,
    extract_details html_ (Some p) c
    = Fine (product_expert html_
              (res_company
                 (fallback_email html_ (Some p)
                    (res_company
                       (fallback_website (Some p)
                          (res_company
                             (fallback_phone (Some p)
                                (res_company
                                   (fallback_address (Some p)
                                      (apply_nuxt
                                         (_extract_from_nuxt_data html_)
                                         c)))))))))).
Proof.
  intros html_ p c. unfold extract_details.
  set (c1 := apply_nuxt _ c). clearbody c1.
  assert (Hfine : forall (r : Res) (k : Company -> Res),
             raised r = false -> bind r k = k (res_company r))
    by (intros [x|x] k H; [reflexivity|discriminate H]).
  rewrite !Hfine; try reflexivity.
  - unfold fallback_email. destruct (is_empty (email _)); [|reflexivity].
    destruct (search mailto_attr html_); reflexivity.
  - unfold fallback_website. destruct (is_empty (website _)); reflexivity.
  - unfold fallback_phone. destruct (is_empty (phone _)); reflexivity.
  - unfold fallback_address. destruct (is_empty (address _)); reflexivity.
Qed.

(** A value of the serialized data is the value of the result, whatever
    the fall-back patterns would find in the text. *)
Lemma nuxt_values_are_final :
  forall html_ p c,
    let c1 := apply_nuxt (_extract_from_nuxt_data html_) c in
    let c' := res_company (extract_details html_ (Some p) c) in
    (nonempty (address c1) = true ->
     address c' = address c1 /\ state c' = state c1) /\
    (nonempty (phone c1) = true -> phone c' = phone c1) /\
    (nonempty (email c1) = true -> email c' = email c1) /\
    (nonempty (website c1) = true -> website c' = website c1).
Proof.
  intros html_ p c c1 c'. subst c'. rewrite extract_details_steps.
  fold c1. cbn [res_company]. clearbody c1.
  split; [intros H; split|split; [intros H|split; intros H]].
  - rewrite (proj1 (product_expert_frame _ _)).
    rewrite (proj1 (fallback_email_frame _ _ _)).
    rewrite (proj1 (fallback_website_frame _ _)).
    rewrite (proj1 (fallback_phone_frame _ _)).
    rewrite fallback_address_keeps by exact H. reflexivity.
  - rewrite (proj1 (proj2 (product_expert_frame _ _))).
    rewrite (proj1 (proj2 (fallback_email_frame _ _ _))).
    rewrite (proj1 (proj2 (fallback_website_frame _ _))).
    rewrite (proj1 (proj2 (fallback_phone_frame _ _))).
    rewrite fallback_address_keeps by exact H. reflexivity.
  - rewrite (proj1 (proj2 (proj2 (product_expert_frame _ _)))).
    rewrite (proj1 (proj2 (proj2 (fallback_email_frame _ _ _)))).
    rewrite (proj1 (proj2 (proj2 (fallback_website_frame _ _)))).
    set (c2 := res_company (fallback_address (Some p) c1)).
    assert (Hc2 : phone c2 = phone c1).
    { subst c2. unfold fallback_address.
      destruct (is_empty (address c1)); [|reflexivity].
      destruct (first_match _ _); cbn [res_company];
        destruct (nonempty (address _)); reflexivity. }
    rewrite fallback_phone_keeps by (rewrite Hc2; exact H).
    cbn [res_company]. exact Hc2.
  - rewrite (proj1 (proj2 (proj2 (proj2 (product_expert_frame _ _))))).
    set (c2 := res_company (fallback_address (Some p) c1)).
    assert (Hc2 : email c2 = email c1).
    { subst c2. unfold fallback_address.
      destruct (is_empty (address c1)); [|reflexivity].
      destruct (first_match _ _); cbn [res_company];
        destruct (nonempty (address _)); reflexivity. }
    set (c3 := res_company (fallback_phone (Some p) c2)).
    assert (Hc3 : email c3 = email c2)
      by apply (proj1 (proj2 (proj2 (fallback_phone_frame p c2)))).
    set (c4 := res_company (fallback_website (Some p) c3)).
    assert (Hc4 : email c4 = email c3)
      by apply (proj2 (proj2 (proj2 (fallback_website_frame p c3)))).
    rewrite fallback_email_keeps by (rewrite Hc4, Hc3, Hc2; exact H).
    cbn [res_company]. congruence.
  - rewrite (proj2 (proj2 (proj2 (proj2 (product_expert_frame _ _))))).
    rewrite (proj2 (proj2 (proj2 (fallback_email_frame _ _ _)))).
    set (c2 := res_company (fallback_address (Some p) c1)).
    assert (Hc2 : website c2 = website c1).
    { subst c2. unfold fallback_address.
      destruct (is_empty (address c1)); [|reflexivity].
      destruct (first_match _ _); cbn [res_company];
        destruct (nonempty (address _)); reflexivity. }
    set (c3 := res_company (fallback_phone (Some p) c2)).
    assert (Hc3 : website c3 = website c2)
      by apply (proj2 (proj2 (proj2 (fallback_phone_frame p c2)))).
    rewrite fallback_website_keeps by (rewrite Hc3, Hc2; exact H).
    cbn [res_company]. congruence.
Qed.

End Extraction.

(** C8, as the specification states it, fails.  On the serialized
    fields of the scenario ARCAT builds the address from the raw tokens,
    with TX in it, and keeps the phone as it is written; the full name of
    the state goes to the state field.  SWEETS, reading the same data
    from an address element, normalises the phone, and its address field
    is the street alone. *)
Lemma scenario_address_is_not_expanded :
  Arcat.address
    (Arcat.res_company
       (fst (Arcat.scrape_company_details
               false ArcatExamples.scenario_site no_browser
               ArcatExamples.scenario_company)))
  <> "123 Oak Rd., Austin, Texas 78701" /\
  Arcat.phone
    (Arcat.res_company
       (fst (Arcat.scrape_company_details
               false ArcatExamples.scenario_site no_browser
               ArcatExamples.scenario_company)))
  <> "(512) 555-0100" /\
  Sweets.address
    (Sweets._parse_address_tag SweetsExamples.scenario_tag "Acme Inc")
  <> "123 Oak Rd., Austin, Texas 78701".
Proof. vm_compute. repeat split; discriminate. Qed.

(** C8, amended.  For a detail page whose markup is the serialized
    record of the scenario, ARCAT yields the address
    123 Oak Rd., Austin, TX 78701, the state Texas (the token TX mapped
    through the table), the phone 512-555-0100 as written and the email
    info@example.com.  For an address element with the same data SWEETS
    yields the street 123 Oak Rd., the city Austin, the state Texas, the
    ZIP 78701, the phone normalised to (512) 555-0100 and the email. *)
Theorem scenario_address_fields :
  forall (site : Site) (browser : Browser) (c : Arcat.Company) (p : Page),
    html p = scenario_markup ->
    site (Arcat.url c) 0 = Ok p ->
    is_empty (Arcat.address c) = true ->
    (Arcat.address
       (Arcat.res_company
          (fst (Arcat.scrape_company_details false site browser c)))
     = "123 Oak Rd., Austin, TX 78701" /\
     Arcat.state
       (Arcat.res_company
          (fst (Arcat.scrape_company_details false site browser c)))
     = "Texas" /\
     Arcat.phone
       (Arcat.res_company
          (fst (Arcat.scrape_company_details false site browser c)))
     = "512-555-0100" /\
     Arcat.email
       (Arcat.res_company
          (fst (Arcat.scrape_company_details false site browser c)))
     = "info@example.com") /\
    Sweets._parse_address_tag SweetsExamples.scenario_tag "Acme Inc"
    = {| Sweets.address := "123 Oak Rd."; Sweets.city := "Austin";
         Sweets.state := "Texas"; Sweets.zip_code := "78701";
         Sweets.phone := "(512) 555-0100"; Sweets.fax := EmptyString;
         Sweets.email := "info@example.com"; Sweets.website := EmptyString |}.
Proof.
  intros site browser c p Hhtml Hsite Hempty.
  split; [|vm_compute; reflexivity].
  unfold Arcat.scrape_company_details. rewrite Hempty, Hsite. cbn [fst].
  pose proof (Extraction.nuxt_values_are_final (html p) p c) as H.
  rewrite Hhtml in *. rewrite Extraction.nuxt_of_scenario in H.
  cbv zeta in H. destruct H as [Haddr [Hphone [Hemail _]]].
  specialize (Haddr eq_refl). specialize (Hphone eq_refl).
  specialize (Hemail eq_refl). destruct Haddr as [Haddr Hstate].
  rewrite Haddr, Hstate, Hphone, Hemail. repeat split.
Qed.

(** The scenario at the page of a company that serves the record. *)
Lemma scenario_address_fields_witness :
  Arcat.address
    (Arcat.res_company
       (fst (Arcat.scrape_company_details
               false ArcatExamples.scenario_site no_browser
               ArcatExamples.scenario_company)))
  = "123 Oak Rd., Austin, TX 78701".
Proof.
  exact (proj1 (proj1 (scenario_address_fields
                         ArcatExamples.scenario_site no_browser
                         ArcatExamples.scenario_company
                         (page_of_markup scenario_markup)
                         eq_refl eq_refl eq_refl))).
Defined.

(* ================================================================== *)
(** * Further properties of the code *)
(* ================================================================== *)

(* ------------------------------------------------------------------ *)
(** ** The fetch client on any site *)
(* ------------------------------------------------------------------ *)

Section FetchShape.

Variables max_retries base : nat.
Variable outcomes : nat -> Outcome.
Variable url : string.

(** The loop stops at the first attempt that is not a transient failure,
    or at the last attempt: [k] attempts are retried, then one request
    settles the result. *)
Lemma request_loop_shape :
  forall todo attempt,
    0 < todo ->
    attempt + todo = max_retries ->
    exists k,
      k < todo /\
      (forall j, attempt <= j < attempt + k -> transient (outcomes j) = true) /\
      (k < todo - 1 -> transient (outcomes (attempt + k)) = false) /\
      request_loop max_retries base outcomes url attempt todo
      = (settled (outcomes (attempt + k)),
         flat_map (retried_attempt base url) (seq attempt k)
           ++ [RateSleep; Get url]).
Proof.
  induction todo as [|todo IH]; intros attempt Hpos Hsum; [lia|].
  cbn [request_loop].
  destruct (transient (outcomes attempt)) eqn:Ht.
  - destruct (attempt <? max_retries - 1) eqn:Hlast.
    + apply Nat.ltb_lt in Hlast.
      destruct (IH (S attempt)) as [k [Hk [Hbefore [Hafter Heq]]]]; try lia.
      exists (S k). split; [lia|]. split; [|split].
      * intros j Hj. destruct (Nat.eq_dec j attempt) as [->|Hne];
          [exact Ht|apply Hbefore; lia].
      * intros Hlt. replace (attempt + S k) with (S attempt + k) by lia.
        apply Hafter. lia.
      * replace (attempt + S k) with (S attempt + k) by lia.
        cbn [seq flat_map]. unfold retried_attempt at 1.
        destruct (outcomes attempt); try discriminate Ht;
          rewrite Heq; reflexivity.
    + apply Nat.ltb_ge in Hlast. assert (todo = 0) by lia. subst todo.
      exists 0. rewrite Nat.add_0_r. split; [lia|]. split; [intros; lia|].
      split; [intros; lia|].
      destruct (outcomes attempt); try discriminate Ht; reflexivity.
  - exists 0. rewrite Nat.add_0_r. split; [lia|]. split; [intros; lia|].
    split; [intros; exact Ht|].
    destruct (outcomes attempt); try discriminate Ht; reflexivity.
Qed.

(** The same for [_make_request_raw], which retries timeouts only. *)
Lemma request_raw_loop_shape :
  forall todo attempt,
    0 < todo ->
    attempt + todo = max_retries ->
    exists k,
      k < todo /\
      (forall j, attempt <= j < attempt + k -> is_timeout (outcomes j) = true) /\
      (k < todo - 1 -> is_timeout (outcomes (attempt + k)) = false) /\
      request_raw_loop max_retries base outcomes url attempt todo
      = (settled (outcomes (attempt + k)),
         flat_map (retried_attempt base url) (seq attempt k)
           ++ [RateSleep; Get url]).
Proof.
  induction todo as [|todo IH]; intros attempt Hpos Hsum; [lia|].
  cbn [request_raw_loop].
  destruct (is_timeout (outcomes attempt)) eqn:Ht.
  - destruct (attempt <? max_retries - 1) eqn:Hlast.
    + apply Nat.ltb_lt in Hlast.
      destruct (IH (S attempt)) as [k [Hk [Hbefore [Hafter Heq]]]]; try lia.
      exists (S k). split; [lia|]. split; [|split].
      * intros j Hj. destruct (Nat.eq_dec j attempt) as [->|Hne];
          [exact Ht|apply Hbefore; lia].
      * intros Hlt. replace (attempt + S k) with (S attempt + k) by lia.
        apply Hafter. lia.
      * replace (attempt + S k) with (S attempt + k) by lia.
        cbn [seq flat_map]. unfold retried_attempt at 1.
        destruct (outcomes attempt); try discriminate Ht;
          rewrite Heq; reflexivity.
    + apply Nat.ltb_ge in Hlast. assert (todo = 0) by lia. subst todo.
      exists 0. rewrite Nat.add_0_r. split; [lia|]. split; [intros; lia|].
      split; [intros; lia|].
      destruct (outcomes attempt); try discriminate Ht; reflexivity.
  - exists 0. rewrite Nat.add_0_r. split; [lia|]. split; [intros; lia|].
    split; [intros; exact Ht|].
    destruct (outcomes attempt); try discriminate Ht; reflexivity.
Qed.

Lemma paced_retried :
  forall k attempt rest,
    paced_from false (flat_map (retried_attempt base url) (seq attempt k) ++ rest)
    = paced_from false rest.
Proof.
  induction k as [|k IH]; intros attempt rest; [reflexivity|].
  cbn [seq flat_map retried_attempt app paced_from andb]. apply IH.
Qed.

Lemma gets_retried :
  forall k attempt,
    gets (flat_map (retried_attempt base url) (seq attempt k)) = repeat url k.
Proof.
  induction k as [|k IH]; intros attempt; [reflexivity|].
  cbn [seq flat_map repeat]. rewrite gets_app, IH. reflexivity.
Qed.

Lemma backoffs_retried :
  forall k attempt,
    backoffs (flat_map (retried_attempt base url) (seq attempt k))
    = map (fun j => base * 2 ^ j) (seq attempt k).
Proof.
  induction k as [|k IH]; intros attempt; [reflexivity|].
  cbn [seq flat_map map]. rewrite backoffs_app, IH. reflexivity.
Qed.

End FetchShape.

(** X1. A page that comes back after transient failures is returned:
    when the first [k] attempts (k below [MAX_RETRIES]) fail with a
    timeout or a connection error and the next one succeeds,
    [_make_request] returns that page after [k + 1] requests, having
    slept [RETRY_DELAY_BASE * 2 ^ j] seconds after the [j]-th failure. *)
Theorem make_request_recovers_after_transient_failures :
  forall (site : Site) (url : string) (k : nat) (p : Page),
    k < MAX_RETRIES ->
    (forall j, j < k -> transient (site url j) = true) ->
    site url k = Ok p ->
    _make_request site url
    = (Some p,
       flat_map (retried_attempt RETRY_DELAY_BASE url) (seq 0 k)
         ++ [RateSleep; Get url]) /\
    gets (snd (_make_request site url)) = repeat url (S k) /\
    backoffs (snd (_make_request site url))
    = map (fun j => RETRY_DELAY_BASE * 2 ^ j) (seq 0 k).
Proof.
  intros site url k p Hk Hbefore Hok.
  destruct (request_loop_shape MAX_RETRIES RETRY_DELAY_BASE (site url) url
              MAX_RETRIES 0) as [k' [Hk' [Hbefore' [Hafter' Heq]]]];
    [unfold MAX_RETRIES; lia|reflexivity|].
  cbn [Nat.add] in *.
  assert (k' = k).
  { destruct (Nat.lt_trichotomy k' k) as [Hlt|[Heq'|Hgt]]; [|exact Heq'|].
    - rewrite (Hbefore k' Hlt) in Hafter'.
      assert (true = false) by (apply Hafter'; unfold MAX_RETRIES in *; lia).
      discriminate.
    - assert (Ht : transient (site url k) = true) by (apply Hbefore'; lia).
      rewrite Hok in Ht. discriminate Ht. }
  subst k'. unfold _make_request, make_request_with. rewrite Heq, Hok.
  cbn [settled fst snd]. split; [reflexivity|].
  rewrite gets_app, backoffs_app, gets_retried, backoffs_retried.
  cbn [gets backoffs flat_map app]. rewrite app_nil_r.
  split; [|reflexivity].
  rewrite <- repeat_cons. reflexivity.
Qed.

(** A site that times out once and then answers. *)
Lemma make_request_recovers_witness :
  fst (_make_request
         (fun _ attempt =>
            match attempt with
            | 0 => Timeout
            | _ => Ok (page_of_markup "<html></html>")
            end)
         "https://www.arcat.com/x")
  = Some (page_of_markup "<html></html>").
Proof.
  refine (f_equal fst
            (proj1 (make_request_recovers_after_transient_failures
                      _ "https://www.arcat.com/x" 1
                      (page_of_markup "<html></html>") _ _ eq_refl))).
  - unfold MAX_RETRIES. lia.
  - intros j Hj. assert (j = 0) by lia. subst j. reflexivity.
Defined.

(** X2. Whatever the site answers, [_make_request] makes [n] requests
    for the URL with 1 <= n <= [MAX_RETRIES], each right after a
    rate-limit sleep, and [n - 1] back-off sleeps of
    [RETRY_DELAY_BASE * 2 ^ j] seconds; the requests before the last
    failed with a timeout or a connection error, the last one was
    something else unless it was the [MAX_RETRIES]-th, and the result is
    the page of the last request when it succeeded, None otherwise. *)
Theorem make_request_is_paced_and_bounded :
  forall (site : Site) (url : string),
    exists n,
      1 <= n <= MAX_RETRIES /\
      gets (snd (_make_request site url)) = repeat url n /\
      backoffs (snd (_make_request site url))
      = map (fun j => RETRY_DELAY_BASE * 2 ^ j) (seq 0 (n - 1)) /\
      paced (snd (_make_request site url)) = true /\
      fst (_make_request site url) = settled (site url (n - 1)) /\
      (forall j, j < n - 1 -> transient (site url j) = true) /\
      (n < MAX_RETRIES -> transient (site url (n - 1)) = false).
Proof.
  intros site url.
  destruct (request_loop_shape MAX_RETRIES RETRY_DELAY_BASE (site url) url
              MAX_RETRIES 0) as [k [Hk [Hbefore [Hafter Heq]]]];
    [unfold MAX_RETRIES; lia|reflexivity|].
  cbn [Nat.add] in *. exists (S k).
  unfold _make_request, make_request_with. rewrite Heq. cbn [fst snd].
  replace (S k - 1) with k by lia.
  split; [lia|]. split; [|split; [|split; [|split; [|split]]]].
  - rewrite gets_app, gets_retried. cbn [gets flat_map app].
    rewrite <- repeat_cons. reflexivity.
  - rewrite backoffs_app, backoffs_retried. cbn [backoffs flat_map app].
    apply app_nil_r.
  - unfold paced. rewrite paced_retried. reflexivity.
  - reflexivity.
  - intros j Hj. apply Hbefore. lia.
  - intros Hn. apply Hafter. lia.
Qed.

(** X3. [_make_request_raw], which fetches the SWEETS detail pages,
    retries timeouts only: it stops at the first request that does not
    time out, so a connection error ends it at once with None, where
    [_make_request] goes on to a second request. *)
Theorem make_request_raw_retries_timeouts_only :
  forall (site : Site) (url : string),
    (exists n,
        1 <= n <= MAX_RETRIES /\
        gets (snd (_make_request_raw site url)) = repeat url n /\
        backoffs (snd (_make_request_raw site url))
        = map (fun j => RETRY_DELAY_BASE * 2 ^ j) (seq 0 (n - 1)) /\
        paced (snd (_make_request_raw site url)) = true /\
        fst (_make_request_raw site url) = settled (site url (n - 1)) /\
        (forall j, j < n - 1 -> site url j = Timeout) /\
        (n < MAX_RETRIES -> site url (n - 1) <> Timeout)) /\
    (site url 0 = ConnectionError ->
     _make_request_raw site url = (None, [RateSleep; Get url]) /\
     2 <= List.length (gets (snd (_make_request site url)))).
Proof.
  intros site url. split.
  - destruct (request_raw_loop_shape MAX_RETRIES RETRY_DELAY_BASE (site url)
                url MAX_RETRIES 0) as [k [Hk [Hbefore [Hafter Heq]]]];
      [unfold MAX_RETRIES; lia|reflexivity|].
    cbn [Nat.add] in *. exists (S k).
    unfold _make_request_raw. rewrite Heq. cbn [fst snd].
    replace (S k - 1) with k by lia.
    split; [lia|]. split; [|split; [|split; [|split; [|split]]]].
    + rewrite gets_app, gets_retried. cbn [gets flat_map app].
      rewrite <- repeat_cons. reflexivity.
    + rewrite backoffs_app, backoffs_retried. cbn [backoffs flat_map app].
      apply app_nil_r.
    + unfold paced. rewrite paced_retried. reflexivity.
    + reflexivity.
    + intros j Hj. specialize (Hbefore j (conj (Nat.le_0_l j) Hj)).
      destruct (site url j); try discriminate Hbefore. reflexivity.
    + intros Hn Ht. assert (Hf : is_timeout (site url k) = false)
        by (apply Hafter; lia).
      rewrite Ht in Hf. discriminate Hf.
  - intros Hconn. split.
    + unfold _make_request_raw. cbn [request_raw_loop MAX_RETRIES].
      rewrite Hconn. reflexivity.
    + destruct (request_loop_shape MAX_RETRIES RETRY_DELAY_BASE (site url)
                  url MAX_RETRIES 0) as [k [Hk [_ [Hafter Heq]]]];
        [unfold MAX_RETRIES; lia|reflexivity|].
      cbn [Nat.add] in *. unfold _make_request, make_request_with.
      rewrite Heq. cbn [snd].
      rewrite gets_app, gets_retried, length_app, repeat_length.
      cbn [gets flat_map app List.length].
      destruct k as [|k]; [|lia].
      rewrite Hconn in Hafter.
      assert (true = false) by (apply Hafter; unfold MAX_RETRIES; lia).
      discriminate.
Qed.

(** A site that refuses the connection. *)
Lemma make_request_raw_witness :
  _make_request_raw (fun _ _ => ConnectionError)
                    "https://sweets.construction.com/x"
  = (None, [RateSleep; Get "https://sweets.construction.com/x"]).
Proof.
  exact (proj1 (proj2 (make_request_raw_retries_timeouts_only
                         (fun _ _ => ConnectionError)
                         "https://sweets.construction.com/x") eq_refl)).
Defined.

(* ------------------------------------------------------------------ *)
(** ** The progress tracker over a run *)
(* ------------------------------------------------------------------ *)

Module ProgressWindow.
Import ProgressTracker ProgressRun.

Lemma updates_snoc :
  forall calls call p,
    updates (calls ++ [call]) p = update (fst call) (snd call) (updates calls p).
Proof. intros. unfold updates. rewrite fold_left_app. reflexivity. Qed.

Lemma last_of_nonempty :
  forall (A : Type) (l : list A) (a d1 d2 : A),
    List.last (a :: l) d1 = List.last (a :: l) d2.
Proof.
  intros A. induction l as [|b l IH]; intros a d1 d2; [reflexivity|].
  change (List.last (b :: l) d1 = List.last (b :: l) d2). apply IH.
Qed.

Lemma durations_snoc :
  forall times last now,
    durations last (times ++ [now])
    = durations last times ++ [(now - List.last times last)%Q].
Proof.
  induction times as [|t times IH]; intros last now; [reflexivity|].
  cbn [app durations]. rewrite IH.
  destruct times as [|q times]; [reflexivity|].
  rewrite (last_of_nonempty _ times q t last). reflexivity.
Qed.

Lemma durations_length :
  forall times last, List.length (durations last times) = List.length times.
Proof.
  induction times as [|t times IH]; intros last; [reflexivity|].
  cbn [durations List.length]. rewrite IH. reflexivity.
Qed.

(** Keeping the newest hundred of the newest hundred and one more is
    keeping the newest hundred of all. *)
Lemma window_slides :
  forall (l : list Q) (d : Q),
    (let w := skipn (List.length l - 100) l ++ [d] in
     if 100 <? List.length w then last100 w else w)
    = skipn (List.length (l ++ [d]) - 100) (l ++ [d]).
Proof.
  intros l d. cbv zeta. unfold last100.
  rewrite !length_app, length_skipn. cbn [List.length].
  destruct (100 <? List.length l - (List.length l - 100) + 1) eqn:Hlong.
  - apply Nat.ltb_lt in Hlong.
    rewrite skipn_app, length_skipn, skipn_skipn.
    replace (List.length l - (List.length l - 100) + 1 - 100
             + (List.length l - 100)) with (List.length l + 1 - 100) by lia.
    rewrite skipn_app.
    replace (List.length l - (List.length l - 100) + 1 - 100
             - (List.length l - (List.length l - 100))) with 0 by lia.
    replace (List.length l + 1 - 100 - List.length l) with 0 by lia.
    reflexivity.
  - apply Nat.ltb_ge in Hlong.
    rewrite skipn_app.
    replace (List.length l + 1 - 100) with 0 by lia.
    replace (List.length l - 100) with 0 by lia.
    reflexivity.
Qed.

End ProgressWindow.

(** X4. From [start] on, whatever the calls of [update]: the count of
    scraped items is the sum of the counts given, the total stays, and
    the window of durations never holds more than 100 entries nor more
    than one per call; when no reading of the clock is 0.0 (a time that
    [update] takes for no time at all), the window is exactly the last
    100 of the durations between consecutive readings. *)
Theorem tracker_keeps_the_last_hundred_durations :
  forall (now1 now2 : Q) (total : nat) (p0 : ProgressTracker.t)
         (calls : list (Q * nat)),
    ProgressTracker.scraped_items
      (ProgressRun.updates calls (ProgressTracker.start now1 now2 total p0))
    = list_sum (map snd calls) /\
    ProgressTracker.total_items
      (ProgressRun.updates calls (ProgressTracker.start now1 now2 total p0))
    = total /\
    List.length
      (ProgressTracker.scrape_times
         (ProgressRun.updates calls (ProgressTracker.start now1 now2 total p0)))
    <= Nat.min 100 (List.length calls) /\
    (Qeq_zero now2 = false ->
     Forall (fun call => Qeq_zero (fst call) = false) calls ->
     ProgressTracker.scrape_times
       (ProgressRun.updates calls (ProgressTracker.start now1 now2 total p0))
     = skipn (List.length calls - 100)
             (ProgressRun.durations now2 (map fst calls))).
Proof.
  intros now1 now2 total p0 calls.
  set (p := fun calls =>
              ProgressRun.updates calls
                (ProgressTracker.start now1 now2 total p0)).
  change (ProgressTracker.scraped_items (p calls) = list_sum (map snd calls) /\
          ProgressTracker.total_items (p calls) = total /\
          List.length (ProgressTracker.scrape_times (p calls))
          <= Nat.min 100 (List.length calls) /\
          (Qeq_zero now2 = false ->
           Forall (fun call => Qeq_zero (fst call) = false) calls ->
           ProgressTracker.scrape_times (p calls)
           = skipn (List.length calls - 100)
                   (ProgressRun.durations now2 (map fst calls)))).
  assert (Hlast : forall calls,
             ProgressTracker.last_update_time (p calls)
             = Some (List.last (map fst calls) now2)).
  { induction calls0 as [|call calls0 _] using rev_ind; [reflexivity|].
    subst p. cbv beta. rewrite ProgressWindow.updates_snoc.
    rewrite map_app. cbn [map]. rewrite last_last. reflexivity. }
  induction calls as [|call calls IH] using rev_ind.
  - subst p. cbn. repeat split; try lia.
  - destruct IH as [Hcount [Htotal [Hlen Hwin]]].
    assert (Hstep : p (calls ++ [call])
                    = ProgressTracker.update (fst call) (snd call) (p calls))
      by (subst p; apply ProgressWindow.updates_snoc).
    rewrite Hstep. unfold ProgressTracker.update at 1 2 3 4.
    cbn [ProgressTracker.scraped_items ProgressTracker.total_items
         ProgressTracker.scrape_times].
    rewrite Hlast, !map_app, !length_app. cbn [map List.length].
    split; [|split; [exact Htotal|split]].
    + rewrite Hcount, list_sum_app. cbn [list_sum fold_right]. lia.
    + unfold ProgressTracker.truthy_time.
      destruct (Qeq_zero (List.last (map fst calls) now2)); [lia|].
      rewrite length_app. cbn [List.length].
      destruct (100 <? List.length (ProgressTracker.scrape_times (p calls)) + 1)
        eqn:Hlong.
      * unfold ProgressTracker.last100.
        rewrite length_skipn, length_app. cbn [List.length].
        apply Nat.ltb_lt in Hlong. lia.
      * apply Nat.ltb_ge in Hlong. rewrite length_app. cbn [List.length]. lia.
    + intros Hnow Hall. apply Forall_app in Hall. destruct Hall as [Hall Hcall].
      specialize (Hwin Hnow Hall).
      assert (Htruthy : Qeq_zero (List.last (map fst calls) now2) = false).
      { destruct calls as [|c0 calls0] using rev_ind; [exact Hnow|].
        rewrite map_app. cbn [map]. rewrite last_last.
        apply Forall_app in Hall. destruct Hall as [_ Hc0].
        inversion Hc0; assumption. }
      unfold ProgressTracker.truthy_time. rewrite Htruthy.
      rewrite Hwin, ProgressWindow.durations_snoc.
      pose proof (ProgressWindow.window_slides
                    (ProgressRun.durations now2 (map fst calls))
                    (fst call - List.last (map fst calls) now2)%Q) as Hslide.
      cbv zeta in Hslide.
      rewrite (length_app (ProgressRun.durations now2 (map fst calls)))
        in Hslide.
      rewrite ProgressWindow.durations_length, length_map in Hslide.
      exact Hslide.
Qed.

(** A tracker started at time 10 and updated at times 12 and 15. *)
Lemma tracker_window_witness :
  ProgressTracker.scrape_times
    (ProgressRun.updates [(12%Q, 1); (15%Q, 1)]
       (ProgressTracker.start 10%Q 10%Q 2 ProgressTracker.init))
  = [(12 - 10)%Q; (15 - 12)%Q].
Proof.
  refine (proj2 (proj2 (proj2 (tracker_keeps_the_last_hundred_durations
                                 10%Q 10%Q 2 ProgressTracker.init
                                 [(12%Q, 1); (15%Q, 1)]))) _ _).
  - reflexivity.
  - repeat constructor.
Defined.

(* ------------------------------------------------------------------ *)
(** ** ARCAT: the checkpoint file read back *)
(* ------------------------------------------------------------------ *)

Module ArcatFile.
Import Arcat ArcatCheckpoint.

Lemma company_round_trip :
  forall c, company_of_json (company_to_json c) = kept_company c.
Proof. intros c. reflexivity. Qed.

Lemma division_round_trip :
  forall d, division_of_json (division_to_json d) = kept_division d.
Proof.
  intros d. unfold division_of_json, division_to_json, kept_division.
  cbn [j_code j_name j_url j_companies]. rewrite map_map. reflexivity.
Qed.

Lemma category_round_trip :
  forall c, category_of_json (category_to_json c) = kept_category c.
Proof.
  intros c. unfold category_of_json, category_to_json, kept_category.
  cbn [j_cname j_curl j_subcategories j_related_csi_divisions j_ccompanies].
  rewrite map_map. reflexivity.
Qed.

Lemma kept_company_plain :
  forall c, products c = [] -> kept_company c = c.
Proof. intros c H. destruct c. cbn in *. subst. reflexivity. Qed.

Lemma kept_division_plain :
  forall d,
    specifications d = [] ->
    Forall (fun c => products c = []) (companies d) ->
    kept_division d = d.
Proof.
  intros d Hspec Hcs. destruct d as [c n u sp cs]. cbn in *. subst sp.
  unfold kept_division. cbn. f_equal.
  induction cs as [|x cs IH]; [reflexivity|].
  inversion Hcs; subst. cbn [map]. rewrite kept_company_plain by assumption.
  rewrite IH by assumption. reflexivity.
Qed.

Lemma kept_store_plain :
  forall ds,
    Forall (fun d =>
              specifications d = [] /\
              Forall (fun c => products c = []) (companies d)) ds ->
    map kept_division ds = ds.
Proof.
  induction ds as [|d ds IH]; intros H; [reflexivity|].
  inversion H as [|? ? [Hspec Hcs] Hrest]; subst.
  cbn [map]. rewrite kept_division_plain by assumption.
  rewrite IH by assumption. reflexivity.
Qed.

End ArcatFile.

(** X7. The checkpoint written by [_save_checkpoint] and read back by
    [_restore_from_checkpoint] in a new process gives the count and
    every division, category and company back with all the fields the
    file has: a company comes back without its products, a division
    without its specifications, and nothing else differs; a store
    without products and specifications comes back as it was.  The
    restore appends to what the scraper holds, so reading the same file
    twice puts every division twice in the store. *)
Theorem checkpoint_round_trip :
  forall (mode : string) (s : Arcat.Scraper),
    exists cp,
      Arcat.disk (Arcat._save_checkpoint mode s) = Some cp /\
      Arcat.cp_mode cp = mode /\
      (forall use_selenium file,
          Arcat.divisions
            (Arcat._restore_from_checkpoint
               cp (Arcat.new_scraper use_selenium file))
          = map ArcatCheckpoint.kept_division (Arcat.divisions s) /\
          Arcat.building_product_categories
            (Arcat._restore_from_checkpoint
               cp (Arcat.new_scraper use_selenium file))
          = map ArcatCheckpoint.kept_category
                (Arcat.building_product_categories s) /\
          Arcat.companies_scraped_count
            (Arcat._restore_from_checkpoint
               cp (Arcat.new_scraper use_selenium file))
          = Arcat.companies_scraped_count s) /\
      (Forall (fun d =>
                 Arcat.specifications d = [] /\
                 Forall (fun c => Arcat.products c = []) (Arcat.companies d))
              (Arcat.divisions s) ->
       forall use_selenium file,
         Arcat.divisions
           (Arcat._restore_from_checkpoint
              cp (Arcat.new_scraper use_selenium file))
         = Arcat.divisions s) /\
      (forall s0,
          Arcat.divisions
            (Arcat._restore_from_checkpoint
               cp (Arcat._restore_from_checkpoint cp s0))
          = Arcat.divisions s0
              ++ map ArcatCheckpoint.kept_division (Arcat.divisions s)
              ++ map ArcatCheckpoint.kept_division (Arcat.divisions s)).
Proof.
  intros mode s. eexists. split; [reflexivity|]. split; [reflexivity|].
  assert (Hdiv : map Arcat.division_of_json
                     (map Arcat.division_to_json (Arcat.divisions s))
                 = map ArcatCheckpoint.kept_division (Arcat.divisions s)).
  { rewrite map_map. apply map_ext. exact ArcatFile.division_round_trip. }
  split; [|split].
  - intros use_selenium file. cbn. rewrite Hdiv.
    split; [reflexivity|]. split; [|reflexivity].
    rewrite map_map. apply map_ext. exact ArcatFile.category_round_trip.
  - intros Hplain use_selenium file. cbn. rewrite Hdiv.
    apply ArcatFile.kept_store_plain. exact Hplain.
  - intros s0. cbn. rewrite Hdiv, <- app_assoc. reflexivity.
Qed.

(** The store of a crawl of the three-company site, written and read. *)
Lemma checkpoint_round_trip_witness :
  option_map
    (fun cp =>
       Arcat.divisions
         (Arcat._restore_from_checkpoint cp (Arcat.new_scraper false None)))
    (Arcat.disk
       (Arcat._save_checkpoint
          "csi-only" (ArcatExamples.one_pass ArcatExamples.three_companies)))
  = Some (Arcat.divisions
            (ArcatExamples.one_pass ArcatExamples.three_companies)).
Proof.
  destruct (checkpoint_round_trip
              "csi-only" (ArcatExamples.one_pass ArcatExamples.three_companies))
    as [cp [Hdisk [_ [_ [Hplain _]]]]].
  rewrite Hdisk. cbn [option_map]. f_equal. apply Hplain.
  vm_compute. repeat constructor.
Defined.

(* ------------------------------------------------------------------ *)
(** ** SWEETS: the cache of manufacturer pages *)
(* ------------------------------------------------------------------ *)

Module SweetsCache.
Import Sweets.

Lemma cache_get_set :
  forall k v d, cache_get k (cache_set k v d) = Some v.
Proof.
  intros k v. induction d as [|[k' v'] d IH]; cbn [cache_set cache_get].
  - rewrite String.eqb_refl. reflexivity.
  - destruct (String.eqb k' k) eqn:Hk; cbn [cache_get].
    + rewrite String.eqb_refl. reflexivity.
    + rewrite Hk. exact IH.
Qed.

Lemma cache_get_set_other :
  forall k k' v d,
    k' <> k -> cache_get k' (cache_set k v d) = cache_get k' d.
Proof.
  intros k k' v. induction d as [|[k0 v0] d IH]; intros Hne;
    cbn [cache_set cache_get].
  - destruct (String.eqb k k') eqn:Hk; [|reflexivity].
    apply String.eqb_eq in Hk. congruence.
  - destruct (String.eqb k0 k) eqn:Hk0; cbn [cache_get].
    + apply String.eqb_eq in Hk0. subst k0.
      destruct (String.eqb k k') eqn:Hk; [|reflexivity].
      apply String.eqb_eq in Hk. congruence.
    + destruct (String.eqb k0 k'); [reflexivity|]. apply IH. exact Hne.
Qed.

End SweetsCache.

(** X6. The page of a manufacturer is asked for once.  The fall-back to
    the manufacturer's page, for a product without address, leaves an
    entry for the manufacturer id in the cache, also when the page gave
    nothing; a second product of the same manufacturer, also without
    address, then causes no request and leaves the cache as it is, and
    gets its address from the same contact as the first.  The entries
    of other manufacturers stay as they are. *)
Theorem manufacturer_page_is_fetched_once :
  forall (site : Site) (cache : Sweets.Cache) (p1 p2 : Sweets.Product),
    is_empty (Sweets.address (Sweets.contact p1)) = true ->
    nonempty (Sweets.manufacturer_id p1) = true ->
    is_empty (Sweets.address (Sweets.contact p2)) = true ->
    Sweets.manufacturer_id p2 = Sweets.manufacturer_id p1 ->
    exists found,
      Sweets.cache_get (Sweets.manufacturer_id p1)
                       (snd (fst (Sweets.manufacturer_fallback site cache p1)))
      = Some found /\
      Sweets.manufacturer_fallback
        site (snd (fst (Sweets.manufacturer_fallback site cache p1))) p2
      = (match found with
         | Some m =>
             Sweets.set_contact
               (Sweets.apply_manufacturer m (Sweets.contact p2)) p2
         | None => p2
         end,
         snd (fst (Sweets.manufacturer_fallback site cache p1)), []) /\
      fst (fst (Sweets.manufacturer_fallback site cache p1))
      = match found with
        | Some m =>
            Sweets.set_contact
              (Sweets.apply_manufacturer m (Sweets.contact p1)) p1
        | None => p1
        end /\
      (forall other,
          other <> Sweets.manufacturer_id p1 ->
          Sweets.cache_get
            other (snd (fst (Sweets.manufacturer_fallback site cache p1)))
          = Sweets.cache_get other cache).
Proof.
  intros site cache p1 p2 Haddr1 Hid1 Haddr2 Hid2.
  assert (Hhit : forall cache' found,
             Sweets.cache_get (Sweets.manufacturer_id p1) cache' = Some found ->
             Sweets.manufacturer_fallback site cache' p2
             = (match found with
                | Some m =>
                    Sweets.set_contact
                      (Sweets.apply_manufacturer m (Sweets.contact p2)) p2
                | None => p2
                end, cache', [])).
  { intros cache' found Hget. unfold Sweets.manufacturer_fallback.
    rewrite Haddr2, Hid2, Hid1, Hget. cbn [andb].
    destruct found; reflexivity. }
  assert (Hfirst : exists found,
             Sweets.cache_get
               (Sweets.manufacturer_id p1)
               (snd (fst (Sweets.manufacturer_fallback site cache p1)))
             = Some found /\
             fst (fst (Sweets.manufacturer_fallback site cache p1))
             = match found with
               | Some m =>
                   Sweets.set_contact
                     (Sweets.apply_manufacturer m (Sweets.contact p1)) p1
               | None => p1
               end /\
             (forall other,
                 other <> Sweets.manufacturer_id p1 ->
                 Sweets.cache_get
                   other
                   (snd (fst (Sweets.manufacturer_fallback site cache p1)))
                 = Sweets.cache_get other cache)).
  { unfold Sweets.manufacturer_fallback. rewrite Haddr1, Hid1. cbn [andb].
    destruct (Sweets.cache_get (Sweets.manufacturer_id p1) cache)
      as [found|] eqn:Hget.
    - exists found. destruct found as [m|]; cbn [fst snd]; auto.
    - destruct (Sweets._scrape_manufacturer_contact
                  site (Sweets.manufacturer_id p1)) as [mfr evs].
      exists mfr.
      pose proof (SweetsCache.cache_get_set
                    (Sweets.manufacturer_id p1) mfr cache) as Hset.
      destruct mfr as [m|]; cbn [fst snd];
        (split; [exact Hset|]); (split; [reflexivity|]);
        intros other Hne; apply SweetsCache.cache_get_set_other; exact Hne. }
  destruct Hfirst as [found [Hget [Hp1 Hframe]]].
  exists found. split; [exact Hget|]. split; [apply Hhit; exact Hget|].
  split; [exact Hp1|exact Hframe].
Qed.

(** Two products of one manufacturer on the site that gives a city on
    the product page and a street on the manufacturer's page. *)
Lemma manufacturer_page_witness :
  snd (Sweets.manufacturer_fallback
         SweetsExamples.city_then_street
         (snd (fst (Sweets.manufacturer_fallback
                      SweetsExamples.city_then_street []
                      SweetsExamples.acme_product)))
         SweetsExamples.acme_product)
  = [].
Proof.
  destruct (manufacturer_page_is_fetched_once
              SweetsExamples.city_then_street []
              SweetsExamples.acme_product SweetsExamples.acme_product
              eq_refl eq_refl eq_refl eq_refl)
    as [found [_ [Hsecond _]]].
  rewrite Hsecond. reflexivity.
Defined.

(* ------------------------------------------------------------------ *)
(** ** ARCAT: when the detail extraction has no page to read *)
(* ------------------------------------------------------------------ *)

Module ArcatNoPage.
Import Arcat.

Lemma nuxt_of_nothing : _extract_from_nuxt_data EmptyString = nuxt_empty.
Proof. vm_compute. reflexivity. Qed.

Lemma no_mailto_in_nothing : search mailto_attr EmptyString = None.
Proof. vm_compute. reflexivity. Qed.

Lemma no_expert_in_nothing :
  forall c, product_expert EmptyString c = c.
Proof.
  intros c. unfold product_expert.
  replace (search expert_html_pattern EmptyString) with (@None rmatch)
    by (vm_compute; reflexivity).
  replace (search expert_pattern EmptyString) with (@None rmatch)
    by (vm_compute; reflexivity).
  replace (search alt_expert_pattern EmptyString) with (@None rmatch)
    by (vm_compute; reflexivity).
  reflexivity.
Qed.

(** Without markup and without a parsed page the extraction changes
    nothing, and it raises at the first fall-back whose field is empty. *)
Lemma extract_details_of_nothing :
  forall c,
    extract_details EmptyString None c
    = if is_empty (address c) || is_empty (phone c) || is_empty (website c)
         || is_empty (email c)
      then Raised c else Fine c.
Proof.
  intros c. unfold extract_details. rewrite nuxt_of_nothing.
  change (apply_nuxt nuxt_empty c) with c.
  unfold fallback_address.
  destruct (is_empty (address c)); [reflexivity|]. cbn [bind orb].
  unfold fallback_phone.
  destruct (is_empty (phone c)); [reflexivity|]. cbn [bind orb].
  unfold fallback_website.
  destruct (is_empty (website c)); [reflexivity|]. cbn [bind orb].
  unfold fallback_email. rewrite no_mailto_in_nothing.
  destruct (is_empty (email c)); [reflexivity|]. cbn [bind].
  rewrite no_expert_in_nothing. reflexivity.
Qed.

End ArcatNoPage.

(** X8. [scrape_company_details] fetches a page only for a company
    without address, and then it never raises.  Called without Selenium
    on a company that has an address it makes no request, has no parsed
    page, and leaves the company as it is: it returns when phone, web
    site and email are all set and otherwise raises, at the first
    fall-back that reads the page that is not there; the same when
    Selenium fails to render.  With a rendered page it does not
    raise. *)
Theorem details_need_a_page_to_fall_back_on :
  forall (site : Site) (browser : Browser) (c : Arcat.Company),
    (is_empty (Arcat.address c) = true ->
     forall sel,
       Arcat.raised (fst (Arcat.scrape_company_details sel site browser c))
       = false) /\
    (nonempty (Arcat.address c) = true ->
     Arcat.scrape_company_details false site browser c
     = (if is_empty (Arcat.phone c) || is_empty (Arcat.website c)
           || is_empty (Arcat.email c)
        then Arcat.Raised c else Arcat.Fine c, []) /\
     (browser (Arcat.url c) = None ->
      Arcat.scrape_company_details true site browser c
      = (if is_empty (Arcat.phone c) || is_empty (Arcat.website c)
            || is_empty (Arcat.email c)
         then Arcat.Raised c else Arcat.Fine c,
         [Arcat.Rendered (Arcat.url c)])) /\
     (browser (Arcat.url c) <> None ->
      Arcat.raised (fst (Arcat.scrape_company_details true site browser c))
      = false)).
Proof.
  intros site browser c. split.
  - intros Hempty sel. apply ArcatRun.details_do_not_raise. exact Hempty.
  - intros Hne. unfold nonempty in Hne. apply negb_true_iff in Hne.
    assert (Hnothing :
              Arcat.extract_details EmptyString None c
              = if is_empty (Arcat.phone c) || is_empty (Arcat.website c)
                   || is_empty (Arcat.email c)
                then Arcat.Raised c else Arcat.Fine c).
    { rewrite ArcatNoPage.extract_details_of_nothing, Hne. reflexivity. }
    split; [|split].
    + unfold Arcat.scrape_company_details. rewrite Hne, Hnothing.
      reflexivity.
    + intros Hnone. unfold Arcat.scrape_company_details.
      rewrite Hnone, Hne, Hnothing. reflexivity.
    + intros Hsome. unfold Arcat.scrape_company_details.
      destruct (browser (Arcat.url c)) as [p|]; [|congruence].
      destruct (is_empty (Arcat.address (Arcat.apply_rendered _ c))).
      * destruct (site _ 0); cbn [fst]; try reflexivity.
        apply ArcatRun.extract_details_fine.
      * cbn [fst]. apply ArcatRun.extract_details_fine.
Qed.

(** A company that has an address and nothing else. *)
Lemma details_without_page_witness :
  Arcat.scrape_company_details
    false ArcatExamples.scenario_site no_browser
    (Arcat.set_address "1 Oak Rd." ArcatExamples.scenario_company)
  = (Arcat.Raised
       (Arcat.set_address "1 Oak Rd." ArcatExamples.scenario_company), []).
Proof.
  exact (proj1 (proj2 (details_need_a_page_to_fall_back_on
                         ArcatExamples.scenario_site no_browser
                         (Arcat.set_address
                            "1 Oak Rd." ArcatExamples.scenario_company))
                      eq_refl)).
Defined.

(* ------------------------------------------------------------------ *)
(** ** ARCAT: the manufacturers page of a sub-category *)
(* ------------------------------------------------------------------ *)

Module ArcatPage.
Import Arcat ArcatListings.

Lemma page_step_cases :
  forall cat (seen : seen_dict) n link,
    (page_step cat (seen, n) link = (seen, n) /\
     (names_company link = true -> In (href link) (map fst seen))) \/
    (page_step cat (seen, n) link = (seen, S n) /\
     names_company link = false) \/
    (exists c,
        page_step cat (seen, n) link = (seen ++ [(href link, c)], n) /\
        ~ In (href link) (map fst seen) /\
        entry_ok cat (href link, c)).
Proof.
  intros cat seen n link. unfold page_step, names_company, nonempty.
  destruct (is_empty (atext link)) eqn:Hname; cbn [orb negb andb].
  - left. split; [reflexivity|discriminate].
  - destruct (dict_has (href link) seen) eqn:Hseen.
    + left. split; [reflexivity|]. intros _.
      apply ArcatListing.dict_has_iff. exact Hseen.
    + destruct (_is_association (atext link)) eqn:Hassoc.
      * right. left. split; reflexivity.
      * right. right. eexists. split; [reflexivity|]. split.
        -- intros Hin. apply ArcatListing.dict_has_iff in Hin. congruence.
        -- unfold entry_ok. cbn [fst snd url name new_company
                                  building_product_category address].
           repeat split; try assumption.
           intros Hempty. rewrite Hempty in Hname. discriminate Hname.
Qed.

Lemma page_loop_invariant :
  forall cat links (seen : seen_dict) n,
    NoDup (map fst seen) ->
    Forall (entry_ok cat) seen ->
    let st := fold_left (page_step cat) links (seen, n) in
    NoDup (map fst (fst st)) /\
    Forall (entry_ok cat) (fst st) /\
    incl (map fst seen) (map fst (fst st)) /\
    (forall link, In link links -> names_company link = true ->
                  In (href link) (map fst (fst st))) /\
    List.length (fst st) + snd st <= List.length seen + n + List.length links.
Proof.
  intros cat. induction links as [|link links IH]; intros seen n Hnd Hok.
  - cbn. repeat split; auto using incl_refl; try lia; intros ? [].
  - cbn [fold_left].
    destruct (page_step_cases cat seen n link)
      as [[Hstep Hin]|[[Hstep Hno]|[c [Hstep [Hfresh Hentry]]]]];
      rewrite Hstep.
    + destruct (IH seen n Hnd Hok) as [H1 [H2 [H3 [H4 H5]]]].
      cbv zeta. repeat split; auto.
      * intros l [<-|Hl] Hl'; [apply H3, Hin, Hl'|apply H4; assumption].
      * cbn [List.length]. lia.
    + destruct (IH seen (S n) Hnd Hok) as [H1 [H2 [H3 [H4 H5]]]].
      cbv zeta. repeat split; auto.
      * intros l [<-|Hl] Hl'; [congruence|apply H4; assumption].
      * cbn [List.length]. lia.
    + assert (Hnd' : NoDup (map fst (seen ++ [(href link, c)]))).
      { rewrite map_app. cbn [map fst].
        apply (Permutation_NoDup (l := href link :: map fst seen)).
        - apply Permutation_cons_append.
        - constructor; assumption. }
      assert (Hok' : Forall (entry_ok cat) (seen ++ [(href link, c)])).
      { apply Forall_app. split; [exact Hok|]. constructor; [exact Hentry|].
        constructor. }
      destruct (IH _ n Hnd' Hok') as [H1 [H2 [H3 [H4 H5]]]].
      cbv zeta. repeat split; auto.
      * intros k Hk. apply H3. rewrite map_app. apply in_or_app. auto.
      * intros l [<-|Hl] Hl'; [|apply H4; assumption].
        apply H3. rewrite map_app. apply in_or_app. right. left. reflexivity.
      * rewrite length_app in H5. cbn [List.length] in *.
        eapply Nat.le_trans; [exact H5|lia].
Qed.

(** The keys of [seen_companies] are [href]s of the links. *)
Lemma page_loop_keys :
  forall (Q : string -> Prop) cat links (seen : seen_dict) n,
    Forall (fun l => Q (href l)) links ->
    Forall (fun kv => Q (fst kv)) seen ->
    Forall (fun kv => Q (fst kv))
           (fst (fold_left (page_step cat) links (seen, n))).
Proof.
  intros Q cat. induction links as [|link links IH]; intros seen n Hl Hs;
    [exact Hs|].
  inversion Hl as [|? ? Hlink Hrest]; subst. cbn [fold_left].
  destruct (page_step_cases cat seen n link)
    as [[Hstep _]|[[Hstep _]|[c [Hstep _]]]]; rewrite Hstep.
  - apply IH; assumption.
  - apply IH; assumption.
  - apply IH; [assumption|]. apply Forall_app. split; [exact Hs|].
    constructor; [exact Hlink|constructor].
Qed.

End ArcatPage.

(** X9. [scrape_manufacturers_page] gives no company when the request
    fails.  From a page it gives, in the order of the page, one company
    for every link target whose text is not empty and names no
    association: no company of the result has an empty name, an
    association keyword in its name or an address, each carries the
    category name given, every such link has its company in the result,
    and, the links being site-relative, no two companies of the result
    have the same URL. *)
Theorem manufacturers_page_lists_each_company_once :
  forall (site : Site) (subcategory_url category_name : string),
    (fst (_make_request site subcategory_url) = None ->
     fst (ArcatListings.scrape_manufacturers_page
            site subcategory_url category_name) = []) /\
    (forall p,
        fst (_make_request site subcategory_url) = Some p ->
        Forall (fun c =>
                  Arcat._is_association (Arcat.name c) = false /\
                  Arcat.name c <> EmptyString /\
                  Arcat.building_product_category c = category_name /\
                  Arcat.address c = EmptyString)
               (fst (ArcatListings.scrape_manufacturers_page
                       site subcategory_url category_name)) /\
        (forall link,
            In link (find_links ArcatListings.company_page_link_re p) ->
            ArcatListings.names_company link = true ->
            In (ArcatListings.absolute (href link))
               (map Arcat.url
                    (fst (ArcatListings.scrape_manufacturers_page
                            site subcategory_url category_name)))) /\
        List.length (fst (ArcatListings.scrape_manufacturers_page
                            site subcategory_url category_name))
        <= List.length (find_links ArcatListings.company_page_link_re p) /\
        (Forall (fun l => startswith "/" (href l) = true)
                (find_links ArcatListings.company_page_link_re p) ->
         NoDup (map Arcat.url
                    (fst (ArcatListings.scrape_manufacturers_page
                            site subcategory_url category_name))))).
Proof.
  intros site subcategory_url category_name.
  unfold ArcatListings.scrape_manufacturers_page.
  destruct (_make_request site subcategory_url) as [[p|] evs]; cbn [fst].
  - split; [discriminate|]. intros p' Hp. injection Hp as <-.
    unfold ArcatListings.page_loop.
    pose proof (ArcatPage.page_loop_invariant
                  category_name
                  (find_links ArcatListings.company_page_link_re p) [] 0
                  (NoDup_nil _) (Forall_nil _)) as Hinv.
    pose proof (fun Q H =>
                  ArcatPage.page_loop_keys
                    Q category_name
                    (find_links ArcatListings.company_page_link_re p) [] 0
                    H (Forall_nil _)) as Hkeys.
    cbv zeta in Hinv.
    destruct (fold_left _ _ _) as [seen n]. cbn [fst snd] in *.
    destruct Hinv as [Hnd [Hok [_ [Hall Hlen]]]].
    split; [|split; [|split]].
    + rewrite Forall_forall in *. intros c Hc. apply in_map_iff in Hc.
      destruct Hc as [kv [<- Hin]].
      destruct (Hok kv Hin) as [_ [H1 [H2 [H3 H4]]]]. auto.
    + intros link Hlink Hgood. specialize (Hall link Hlink Hgood).
      apply in_map_iff in Hall. destruct Hall as [kv [Hk Hin]].
      rewrite map_map. apply in_map_iff. exists kv. split; [|exact Hin].
      rewrite Forall_forall in Hok. destruct (Hok kv Hin) as [Hurl _].
      rewrite Hurl, Hk. reflexivity.
    + rewrite length_map. cbn [List.length] in Hlen. lia.
    + intros Hrel.
      specialize (Hkeys (fun h => startswith "/" h = true) Hrel).
      rewrite map_map.
      rewrite (map_ext_in _ (fun kv => (Arcat.BASE_URL ++ fst kv)%string)).
      * rewrite <- (map_map fst (fun k => (Arcat.BASE_URL ++ k)%string)).
        apply Finite.Injective_map_NoDup; [|exact Hnd].
        intros a b Hab. eapply append_inj_l. exact Hab.
      * intros kv Hin. rewrite Forall_forall in Hok, Hkeys.
        destruct (Hok kv Hin) as [Hurl _]. rewrite Hurl.
        unfold ArcatListings.absolute. rewrite (Hkeys kv Hin). reflexivity.
  - split; [reflexivity|discriminate].
Qed.

(** The page of the wood doors: three companies, no two with the same
    URL. *)
Lemma manufacturers_listing_witness :
  fst (_make_request ArcatCategories.doors_site ArcatCategories.wood_doors_url)
  = Some (page_of_links
            [("/company/a-1", "A Corp"); ("/company/b-2", "B Corp");
             ("/company/c-3", "C Corp")]) /\
  NoDup (map Arcat.url
             (fst (ArcatListings.scrape_manufacturers_page
                     ArcatCategories.doors_site ArcatCategories.wood_doors_url
                     "Doors"))).
Proof.
  assert (H : fst (_make_request ArcatCategories.doors_site
                                 ArcatCategories.wood_doors_url)
              = Some (page_of_links
                        [("/company/a-1", "A Corp"); ("/company/b-2", "B Corp");
                         ("/company/c-3", "C Corp")]))
    by (vm_compute; reflexivity).
  split; [exact H|].
  destruct (manufacturers_page_lists_each_company_once
              ArcatCategories.doors_site ArcatCategories.wood_doors_url
              "Doors") as [_ Hpage].
  destruct (Hpage _ H) as [_ [_ [_ Hdistinct]]].
  apply Hdistinct. vm_compute. repeat constructor.
Defined.

(* ------------------------------------------------------------------ *)
(** ** ARCAT: the index pages *)
(* ------------------------------------------------------------------ *)

Module ArcatIndex.
Import Arcat ArcatListings.

(** Every division of the loop comes from a link that was not seen, and
    no two come from the same link target. *)
Lemma csi_divisions_loop_distinct :
  forall links seen,
    NoDup (map durl (csi_divisions_loop links seen)) /\
    Forall (fun d =>
              exists l, In l links /\ ~ In (href l) seen /\
                        durl d = (BASE_URL ++ href l)%string /\
                        companies d = [] /\ specifications d = [] /\
                        exists n, code d = (n ++ " 00 00")%string)
           (csi_divisions_loop links seen).
Proof.
  induction links as [|link links IH]; intros seen;
    cbn [csi_divisions_loop map]; [split; constructor|].
  destruct (mem (href link) seen) eqn:Hseen.
  - destruct (IH seen) as [Hnd Hall]. split; [exact Hnd|].
    eapply Forall_impl; [|exact Hall].
    intros d [l [Hl Hrest]]. exists l. split; [right; exact Hl|exact Hrest].
  - assert (Hfresh : ~ In (href link) seen).
    { intros Hin. apply mem_iff_In in Hin. congruence. }
    destruct (IH (href link :: seen)) as [Hnd Hall].
    assert (Hall' :
              Forall (fun d =>
                        exists l, In l (link :: links) /\ ~ In (href l) seen /\
                                  durl d = (BASE_URL ++ href l)%string /\
                                  companies d = [] /\ specifications d = [] /\
                                  exists n, code d = (n ++ " 00 00")%string)
                     (csi_divisions_loop links (href link :: seen))).
    { eapply Forall_impl; [|exact Hall].
      intros d [l [Hl [Hnot Hrest]]]. exists l.
      split; [right; exact Hl|]. split; [|exact Hrest].
      intros Hin. apply Hnot. right. exact Hin. }
    destruct (rmatch_start csi_text_re (atext link)) as [m|];
      [|split; assumption].
    cbn [map]. split.
    + constructor; [|exact Hnd].
      cbn [durl new_division]. intros Hin. apply in_map_iff in Hin.
      destruct Hin as [d [Hurl Hd]]. rewrite Forall_forall in Hall.
      destruct (Hall d Hd) as [l [_ [Hnot [Hdurl _]]]].
      rewrite Hdurl in Hurl. apply append_inj_l in Hurl.
      apply Hnot. left. symmetry. exact Hurl.
    + constructor; [|exact Hall'].
      exists link. split; [left; reflexivity|]. split; [exact Hfresh|].
      cbn [durl companies specifications code new_division].
      repeat split. eexists. reflexivity.
Qed.

Lemma categories_loop_distinct :
  forall links seen,
    NoDup (map curl (categories_loop links seen)) /\
    Forall (fun c =>
              exists l, In l links /\ ~ In (href l) seen /\
                        href l <> categories_href /\
                        curl c = (BASE_URL ++ href l)%string /\
                        subcategories c = [] /\ ccompanies c = [])
           (categories_loop links seen).
Proof.
  induction links as [|link links IH]; intros seen;
    cbn [categories_loop map]; [split; constructor|].
  destruct (mem (href link) seen) eqn:Hseen; cbn [orb].
  - destruct (IH seen) as [Hnd Hall]. split; [exact Hnd|].
    eapply Forall_impl; [|exact Hall].
    intros d [l [Hl Hrest]]. exists l. split; [right; exact Hl|exact Hrest].
  - destruct (String.eqb (href link) categories_href) eqn:Hindex.
    + destruct (IH seen) as [Hnd Hall]. split; [exact Hnd|].
      eapply Forall_impl; [|exact Hall].
      intros d [l [Hl Hrest]]. exists l. split; [right; exact Hl|exact Hrest].
    + assert (Hfresh : ~ In (href link) seen).
      { intros Hin. apply mem_iff_In in Hin. congruence. }
      apply String.eqb_neq in Hindex.
      destruct (IH (href link :: seen)) as [Hnd Hall].
      cbn [map]. split.
      * constructor; [|exact Hnd].
        cbn [curl]. intros Hin. apply in_map_iff in Hin.
        destruct Hin as [d [Hurl Hd]]. rewrite Forall_forall in Hall.
        destruct (Hall d Hd) as [l [_ [Hnot [_ [Hcurl _]]]]].
        rewrite Hcurl in Hurl. apply append_inj_l in Hurl.
        apply Hnot. left. symmetry. exact Hurl.
      * constructor.
        -- exists link. split; [left; reflexivity|]. cbn. auto.
        -- eapply Forall_impl; [|exact Hall].
           intros d [l [Hl [Hnot Hrest]]]. exists l.
           split; [right; exact Hl|]. split; [|exact Hrest].
           intros Hin. apply Hnot. right. exact Hin.
Qed.

Lemma divisions_loop_distinct :
  forall links seen,
    Forall (fun l => startswith "/" (href l) = true) links ->
    NoDup (map durl (divisions_loop links seen)) /\
    Forall (fun d =>
              exists l, In l links /\ ~ In (href l) seen /\
                        durl d = (BASE_URL ++ href l)%string /\
                        companies d = [] /\ specifications d = [])
           (divisions_loop links seen).
Proof.
  induction links as [|link links IH]; intros seen Hrel;
    cbn [divisions_loop map]; [split; constructor|].
  inversion Hrel as [|? ? Hlink Hrest]; subst.
  destruct (mem (href link) seen) eqn:Hseen.
  - destruct (IH seen Hrest) as [Hnd Hall]. split; [exact Hnd|].
    eapply Forall_impl; [|exact Hall].
    intros d [l [Hl Hd]]. exists l. split; [right; exact Hl|exact Hd].
  - assert (Hfresh : ~ In (href link) seen).
    { intros Hin. apply mem_iff_In in Hin. congruence. }
    destruct (IH (href link :: seen) Hrest) as [Hnd Hall].
    assert (Hall' :
              Forall (fun d =>
                        exists l, In l (link :: links) /\ ~ In (href l) seen /\
                                  durl d = (BASE_URL ++ href l)%string /\
                                  companies d = [] /\ specifications d = [])
                     (divisions_loop links (href link :: seen))).
    { eapply Forall_impl; [|exact Hall].
      intros d [l [Hl [Hnot Hd]]]. exists l.
      split; [right; exact Hl|]. split; [|exact Hd].
      intros Hin. apply Hnot. right. exact Hin. }
    rewrite Hlink.
    destruct (rmatch_start division_text_re (atext link)) as [m|];
      [|split; assumption].
    cbn [map]. split.
    + constructor; [|exact Hnd].
      cbn [durl new_division]. intros Hin. apply in_map_iff in Hin.
      destruct Hin as [d [Hurl Hd]]. rewrite Forall_forall in Hall.
      destruct (Hall d Hd) as [l [_ [Hnot [Hdurl _]]]].
      rewrite Hdurl in Hurl. apply append_inj_l in Hurl.
      apply Hnot. left. symmetry. exact Hurl.
    + constructor; [|exact Hall'].
      exists link. split; [left; reflexivity|]. split; [exact Hfresh|].
      cbn [durl companies specifications new_division]. auto.
Qed.

(** The first link to a target gives its division when its text has the
    form code - name. *)
Lemma csi_divisions_loop_complete :
  forall pre link post seen m,
    ~ In (href link) (map href pre) ->
    ~ In (href link) seen ->
    rmatch_start csi_text_re (atext link) = Some m ->
    In (new_division (zfill2 (group m 1) ++ " 00 00")%string
                     (strip (group m 2)) (BASE_URL ++ href link)%string)
       (csi_divisions_loop (pre ++ link :: post) seen).
Proof.
  induction pre as [|l pre IH]; intros link post seen m Hpre Hseen Hm;
    cbn [app csi_divisions_loop].
  - destruct (mem (href link) seen) eqn:Hmem.
    + exfalso. apply Hseen. apply mem_iff_In. exact Hmem.
    + rewrite Hm. left. reflexivity.
  - cbn [map] in Hpre.
    assert (Hne : href l <> href link)
      by (intros Heq; apply Hpre; left; exact Heq).
    assert (Hrest : ~ In (href link) (map href pre))
      by (intros Hin; apply Hpre; right; exact Hin).
    destruct (mem (href l) seen); [apply IH; assumption|].
    assert (Hseen' : ~ In (href link) (href l :: seen)).
    { intros [Heq|Hin]; [exact (Hne Heq)|exact (Hseen Hin)]. }
    destruct (rmatch_start csi_text_re (atext l));
      [right|]; apply IH; assumption.
Qed.

(** Every link of the categories page, the page itself apart, has its
    category in the result. *)
Lemma categories_loop_complete :
  forall links link seen,
    In link links ->
    href link <> categories_href ->
    ~ In (href link) seen ->
    In {| cname := title_case
                     (replace_char "_" " " (last_segment (href link)));
          curl := (BASE_URL ++ href link)%string;
          subcategories := []; related_csi_divisions := [];
          ccompanies := [] |}
       (categories_loop links seen).
Proof.
  induction links as [|l links IH]; intros link seen Hin Hindex Hseen;
    [destruct Hin|]. cbn [categories_loop].
  destruct (String.eqb (href l) (href link)) eqn:Hsame.
  - apply String.eqb_eq in Hsame. rewrite Hsame.
    destruct (mem (href link) seen) eqn:Hmem.
    + exfalso. apply Hseen. apply mem_iff_In. exact Hmem.
    + apply String.eqb_neq in Hindex. rewrite Hindex. left. reflexivity.
  - apply String.eqb_neq in Hsame.
    assert (Hrest : In link links).
    { destruct Hin as [Heq|Hin]; [|exact Hin].
      exfalso. apply Hsame. rewrite Heq. reflexivity. }
    destruct (mem (href l) seen || String.eqb (href l) categories_href);
      [apply IH; assumption|].
    right. apply IH; try assumption.
    intros [Heq|Hin']; [exact (Hsame Heq)|exact (Hseen Hin')].
Qed.

Lemma divisions_loop_complete :
  forall pre link post seen m,
    ~ In (href link) (map href pre) ->
    ~ In (href link) seen ->
    rmatch_start division_text_re (atext link) = Some m ->
    In (new_division (group m 1) (group m 2)
                     (if startswith "/" (href link)
                      then (BASE_URL ++ href link)%string else href link))
       (divisions_loop (pre ++ link :: post) seen).
Proof.
  induction pre as [|l pre IH]; intros link post seen m Hpre Hseen Hm;
    cbn [app divisions_loop].
  - destruct (mem (href link) seen) eqn:Hmem.
    + exfalso. apply Hseen. apply mem_iff_In. exact Hmem.
    + rewrite Hm. left. reflexivity.
  - cbn [map] in Hpre.
    assert (Hne : href l <> href link)
      by (intros Heq; apply Hpre; left; exact Heq).
    assert (Hrest : ~ In (href link) (map href pre))
      by (intros Hin; apply Hpre; right; exact Hin).
    destruct (mem (href l) seen); [apply IH; assumption|].
    assert (Hseen' : ~ In (href link) (href l :: seen)).
    { intros [Heq|Hin]; [exact (Hne Heq)|exact (Hseen Hin)]. }
    destruct (rmatch_start division_text_re (atext l));
      [right|]; apply IH; assumption.
Qed.

End ArcatIndex.

(** X10. The index pages of ARCAT give each link target once, and every
    target they link to.  The related CSI divisions and the building
    product categories, both read from the categories page, have
    pairwise distinct URLs below the site; a division starts without
    companies and with a code of the form n 00 00, a category without
    sub-categories and companies, and the categories page itself is
    never listed as a category.  The divisions of the specification
    index have pairwise distinct URLs when its links are site-relative.
    A request that fails gives no new list.  Nothing the page links to
    is lost: the first link to a target whose text has the form of a
    division gives the division with that code, name and URL, in the
    related divisions as in the specification index, and every link of
    the categories page other than the page itself has its category in
    the result.  (A link whose target was linked before is skipped
    whatever its text, so a target whose first link has no text of the
    form gives no division.) *)
Theorem index_pages_list_each_target_once :
  forall site : Site,
    (forall ds,
        fst (Arcat.scrape_related_csi_divisions site) = Some ds ->
        NoDup (map Arcat.durl ds) /\
        Forall (fun d =>
                  startswith Arcat.BASE_URL (Arcat.durl d) = true /\
                  Arcat.companies d = [] /\
                  exists n, Arcat.code d = (n ++ " 00 00")%string) ds) /\
    (forall cs,
        fst (ArcatListings.scrape_building_product_categories site) = Some cs ->
        NoDup (map Arcat.curl cs) /\
        Forall (fun c =>
                  startswith Arcat.BASE_URL (Arcat.curl c) = true /\
                  Arcat.curl c <> Arcat.categories_url /\
                  Arcat.subcategories c = [] /\ Arcat.ccompanies c = []) cs) /\
    (forall p ds,
        fst (_make_request site ArcatListings.divisions_url) = Some p ->
        Forall (fun l => startswith "/" (href l) = true)
               (find_links Arcat.spec_link_re p) ->
        fst (ArcatListings.scrape_divisions site) = Some ds ->
        NoDup (map Arcat.durl ds) /\
        Forall (fun d => Arcat.companies d = []) ds) /\
    (fst (_make_request site Arcat.categories_url) = None ->
     fst (Arcat.scrape_related_csi_divisions site) = None /\
     fst (ArcatListings.scrape_building_product_categories site) = None) /\
    (forall p pre link post m,
        fst (_make_request site Arcat.categories_url) = Some p ->
        find_links Arcat.csi_link_re p = pre ++ link :: post ->
        ~ In (href link) (map href pre) ->
        rmatch_start Arcat.csi_text_re (atext link) = Some m ->
        exists ds,
          fst (Arcat.scrape_related_csi_divisions site) = Some ds /\
          In (Arcat.new_division
                (zfill2 (group m 1) ++ " 00 00")%string
                (strip (group m 2)) (Arcat.BASE_URL ++ href link)%string)
             ds) /\
    (forall p link,
        fst (_make_request site Arcat.categories_url) = Some p ->
        In link (find_links ArcatListings.category_link_re p) ->
        href link <> ArcatListings.categories_href ->
        exists cs,
          fst (ArcatListings.scrape_building_product_categories site)
          = Some cs /\
          In {| Arcat.cname :=
                  Arcat.title_case
                    (Arcat.replace_char "_" " "
                       (Arcat.last_segment (href link)));
                Arcat.curl := (Arcat.BASE_URL ++ href link)%string;
                Arcat.subcategories := [];
                Arcat.related_csi_divisions := [];
                Arcat.ccompanies := [] |} cs) /\
    (forall p pre link post m,
        fst (_make_request site ArcatListings.divisions_url) = Some p ->
        find_links Arcat.spec_link_re p = pre ++ link :: post ->
        ~ In (href link) (map href pre) ->
        rmatch_start ArcatListings.division_text_re (atext link) = Some m ->
        exists ds,
          fst (ArcatListings.scrape_divisions site) = Some ds /\
          In (Arcat.new_division
                (group m 1) (group m 2)
                (if startswith "/" (href link)
                 then (Arcat.BASE_URL ++ href link)%string else href link))
             ds).
Proof.
  intros site. split; [|split; [|split; [|split; [|split; [|split]]]]].
  - intros ds. unfold Arcat.scrape_related_csi_divisions.
    destruct (_make_request site Arcat.categories_url) as [[p|] evs];
      cbn [fst]; [|discriminate].
    intros H. injection H as <-.
    destruct (ArcatIndex.csi_divisions_loop_distinct
                (find_links Arcat.csi_link_re p) []) as [Hnd Hall].
    split; [exact Hnd|]. eapply Forall_impl; [|exact Hall].
    intros d [l [_ [_ [Hurl [Hcs [_ Hcode]]]]]].
    split; [|split; assumption].
    rewrite Hurl. apply prefix_iff_append. eexists. reflexivity.
  - intros cs. unfold ArcatListings.scrape_building_product_categories.
    destruct (_make_request site Arcat.categories_url) as [[p|] evs];
      cbn [fst]; [|discriminate].
    intros H. injection H as <-.
    destruct (ArcatIndex.categories_loop_distinct
                (find_links ArcatListings.category_link_re p) [])
      as [Hnd Hall].
    split; [exact Hnd|]. eapply Forall_impl; [|exact Hall].
    intros c [l [_ [_ [Hindex [Hurl [Hsub Hcs]]]]]].
    split; [|split; [|split; assumption]].
    + rewrite Hurl. apply prefix_iff_append. eexists. reflexivity.
    + rewrite Hurl. unfold Arcat.categories_url. intros Heq.
      apply append_inj_l in Heq. exact (Hindex Heq).
  - intros p ds Hp Hrel. unfold ArcatListings.scrape_divisions.
    destruct (_make_request site ArcatListings.divisions_url) as [[p'|] evs];
      cbn [fst] in *; [|discriminate].
    injection Hp as ->. intros H. injection H as <-.
    destruct (ArcatIndex.divisions_loop_distinct
                (find_links Arcat.spec_link_re p) [] Hrel) as [Hnd Hall].
    split; [exact Hnd|]. eapply Forall_impl; [|exact Hall].
    intros d [l [_ [_ [_ [Hcs _]]]]]. exact Hcs.
  - intros Hnone. unfold Arcat.scrape_related_csi_divisions,
      ArcatListings.scrape_building_product_categories.
    destruct (_make_request site Arcat.categories_url) as [[p|] evs];
      cbn [fst] in *; [discriminate|]. split; reflexivity.
  - intros p pre link post m Hp Hlinks Hfirst Hm.
    unfold Arcat.scrape_related_csi_divisions.
    destruct (_make_request site Arcat.categories_url) as [[p'|] evs];
      cbn [fst] in *; [|discriminate].
    injection Hp as ->. eexists. split; [reflexivity|].
    rewrite Hlinks.
    apply ArcatIndex.csi_divisions_loop_complete;
      [exact Hfirst|intros []|exact Hm].
  - intros p link Hp Hlink Hindex.
    unfold ArcatListings.scrape_building_product_categories.
    destruct (_make_request site Arcat.categories_url) as [[p'|] evs];
      cbn [fst] in *; [|discriminate].
    injection Hp as ->. eexists. split; [reflexivity|].
    apply ArcatIndex.categories_loop_complete;
      [exact Hlink|exact Hindex|intros []].
  - intros p pre link post m Hp Hlinks Hfirst Hm.
    unfold ArcatListings.scrape_divisions.
    destruct (_make_request site ArcatListings.divisions_url)
      as [[p'|] evs]; cbn [fst] in *; [|discriminate].
    injection Hp as ->. eexists. split; [reflexivity|].
    rewrite Hlinks.
    apply ArcatIndex.divisions_loop_complete;
      [exact Hfirst|intros []|exact Hm].
Qed.

(** The categories page of the doors site: its one link gives the
    category of the doors, and no URL is listed twice. *)
Lemma index_pages_witness :
  fst (_make_request ArcatCategories.doors_site Arcat.categories_url)
  = Some (page_of_links [("/products/doors", "Doors")]) /\
  exists cs,
    fst (ArcatListings.scrape_building_product_categories
           ArcatCategories.doors_site) = Some cs /\
    In {| Arcat.cname := "Doors";
          Arcat.curl := ArcatCategories.doors_url;
          Arcat.subcategories := [];
          Arcat.related_csi_divisions := [];
          Arcat.ccompanies := [] |} cs /\
    NoDup (map Arcat.curl cs).
Proof.
  assert (Hp : fst (_make_request ArcatCategories.doors_site
                                  Arcat.categories_url)
               = Some (page_of_links [("/products/doors", "Doors")]))
    by (vm_compute; reflexivity).
  split; [exact Hp|].
  destruct (index_pages_list_each_target_once ArcatCategories.doors_site)
    as [_ [Hcats [_ [_ [_ [Hall _]]]]]].
  destruct (Hall (page_of_links [("/products/doors", "Doors")])
                 {| href := "/products/doors"; atext := "Doors";
                    parent_text := None |} Hp)
    as [cs [Hcs Hin]].
  - vm_compute. left. reflexivity.
  - vm_compute. discriminate.
  - exists cs. split; [exact Hcs|]. split; [exact Hin|].
    exact (proj1 (Hcats cs Hcs)).
Defined.

(* ------------------------------------------------------------------ *)
(** ** ARCAT: what every step of the detail pass keeps *)
(* ------------------------------------------------------------------ *)

Module ArcatSteps.
Import Arcat.

Section Invariant.

Variable site : Site.
Variable browser : Browser.
Variable clock : nat -> Q.
Variable interval : nat.
Variable stop : Stop.
Variable max_companies : option nat.
Variable scraped : list string.

(** A property [I] of the scraper that the signal handler, a kill and
    one iteration of the detail loop keep, for companies that have the
    property [P]. *)
Variable P : Company -> Prop.
Variable I : Scraper -> Prop.

Hypothesis I_signal :
  forall s,
    I s -> halted s = false -> interrupted s = false ->
    stop_now stop s = Some true -> I (signal_handler s).

Hypothesis I_kill :
  forall s,
    I s -> halted s = false -> interrupted s = false ->
    stop_now stop s = Some false -> I (halt false s).

Hypothesis I_raise :
  forall s c ds,
    I s -> P c -> halted s = false -> interrupted s = false ->
    stop_now stop s = None -> mem (url c) scraped = false ->
    raised (fst (scrape_company_details (selenium s) site browser c)) = true ->
    I (halt false
         (_save_checkpoint
            "csi-only"
            (with_divisions
               ds (log_details
                     (snd (scrape_company_details (selenium s) site browser c))
                     s)))).

Hypothesis I_step :
  forall s c ds,
    I s -> P c -> halted s = false -> interrupted s = false ->
    stop_now stop s = None -> mem (url c) scraped = false ->
    raised (fst (scrape_company_details (selenium s) site browser c)) = false ->
    I (maybe_save_checkpoint_every
         interval "csi-only"
         (progress_update
            clock
            (with_count
               (S (companies_scraped_count s))
               (with_divisions
                  ds (log_details
                        (snd (scrape_company_details (selenium s) site browser c))
                        s))))).

Lemma detail_companies_keeps :
  forall todo view done s,
    Forall P todo ->
    I s ->
    I (snd (detail_companies site browser clock interval stop scraped
                             view done todo s)).
Proof.
  induction todo as [|c rest IH]; intros view done s HP HI;
    cbn [detail_companies]; [exact HI|].
  inversion HP as [|? ? Hc Hrest]; subst.
  destruct (halted s) eqn:Hrun; [exact HI|].
  destruct (mem (url c) scraped) eqn:Hmem; [apply IH; assumption|].
  destruct (interrupted s) eqn:Hint; [exact HI|].
  destruct (stop_now stop s) as [[|]|] eqn:Hstop; cbn [snd].
  - apply I_signal; assumption.
  - apply I_kill; assumption.
  - pose proof (I_raise s c (view (done ++ res_company
                                     (fst (scrape_company_details
                                             (selenium s) site browser c))
                                     :: rest))
                        HI Hc Hrun Hint Hstop Hmem) as Hr.
    pose proof (I_step s c (view (done ++ res_company
                                    (fst (scrape_company_details
                                            (selenium s) site browser c))
                                    :: rest))
                       HI Hc Hrun Hint Hstop Hmem) as Hs.
    destruct (scrape_company_details (selenium s) site browser c) as [r evs].
    cbn [fst snd] in *.
    destruct (raised r); [apply Hr; reflexivity|].
    apply IH; [assumption|]. apply Hs. reflexivity.
Qed.

Lemma detail_divisions_keeps :
  forall todo pre post s,
    Forall (fun d => Forall P (companies d)) todo ->
    I s ->
    I (detail_divisions site browser clock interval stop max_companies
                        scraped pre todo post s).
Proof.
  induction todo as [|d rest IH]; intros pre post s HP HI;
    cbn [detail_divisions]; [exact HI|].
  inversion HP as [|? ? Hd Hrest]; subst.
  destruct (halted s || interrupted s); [exact HI|].
  match goal with
  | |- context [detail_companies ?a ?b ?c ?d ?e ?f ?v ?dn ?td ?st] =>
      pose proof (detail_companies_keeps
                    td v dn st (ArcatRun.limit_Forall _ _ _ _ Hd) HI)
        as Hloop;
      destruct (detail_companies a b c d e f v dn td st) as [cs s1]
  end.
  cbn [snd] in Hloop.
  destruct (halted s1 || interrupted s1); [exact Hloop|].
  apply IH; assumption.
Qed.

End Invariant.

End ArcatSteps.

(* ------------------------------------------------------------------ *)
(** ** ARCAT: the checkpoint of the signal handler *)
(* ------------------------------------------------------------------ *)

Module ArcatSignal.
Import Arcat ArcatCrawl.

Lemma detail_divisions_signal_saved :
  forall site browser clock interval stop max_companies scraped
         todo pre post s,
    signal_saved s ->
    signal_saved (detail_divisions site browser clock interval stop
                                   max_companies scraped pre todo post s).
Proof.
  intros site browser clock interval stop max_companies scraped
         todo pre post s HI.
  apply (ArcatSteps.detail_divisions_keeps
           site browser clock interval stop max_companies scraped
           (fun _ => True) signal_saved); try assumption.
  - intros s0 _ _ _ _ _. split; reflexivity.
  - intros s0 _ _ Hint _. unfold signal_saved. cbn [interrupted halt].
    rewrite Hint. discriminate.
  - intros s0 c ds _ _ _ Hint _ _ _. unfold signal_saved.
    cbn. rewrite Hint. discriminate.
  - intros s0 c ds _ _ _ Hint _ _ _. unfold signal_saved.
    rewrite ArcatRun.interrupted_maybe_save. cbn. rewrite Hint. discriminate.
  - rewrite Forall_forall. intros d _. rewrite Forall_forall. auto.
Qed.

Lemma csi_only_passes_signal_saved :
  forall interval site browser clock stop o scraped s,
    interrupted s = false ->
    signal_saved (csi_only_passes interval site browser clock stop o scraped s).
Proof.
  intros interval site browser clock stop o scraped s Hint.
  unfold csi_only_passes.
  set (s1 := if is_nil (divisions s) then _ else s).
  assert (Hint1 : interrupted s1 = false).
  { subst s1. destruct (is_nil (divisions s)); [|exact Hint].
    destruct (scrape_related_csi_divisions site) as [[l|] evs]; exact Hint. }
  clearbody s1.
  destruct (count_pass site (max_companies o) scraped
                       (limit (max_divisions o) (divisions s1)))
    as [[ds total] evs].
  match goal with
  | |- context [detail_divisions ?a ?b ?c ?d ?e ?f ?g ?pre ?td ?post ?st] =>
      assert (Hsaved : signal_saved
                         (detail_divisions a b c d e f g pre td post st))
        by (apply detail_divisions_signal_saved;
            unfold signal_saved; cbn; rewrite Hint1; discriminate);
      set (s2 := detail_divisions a b c d e f g pre td post st) in *
  end.
  clearbody s2.
  destruct (halted s2) eqn:Hrun; [exact Hsaved|].
  destruct (interrupted s2) eqn:Hint2.
  - destruct (Hsaved Hint2) as [Hhalt _]. congruence.
  - unfold signal_saved. cbn. rewrite Hint2. discriminate.
Qed.

Lemma resume_keeps_running :
  forall o s,
    interrupted s = false -> interrupted (fst (resume_csi_only o s)) = false.
Proof.
  intros o s H. unfold resume_csi_only.
  destruct (resume o); [|exact H].
  destruct (_load_checkpoint s) as [cp|]; [|exact H].
  destruct (String.eqb (cp_mode cp) csi_only_mode); exact H.
Qed.

(** Only the signal handler sets [interrupted]. *)
Lemma csi_only_passes_not_interrupted :
  forall interval site browser clock stop o scraped s,
    (forall s0, stop_now stop s0 <> Some true) ->
    interrupted s = false ->
    interrupted
      (csi_only_passes interval site browser clock stop o scraped s) = false.
Proof.
  intros interval site browser clock stop o scraped s Hstop Hint.
  unfold csi_only_passes.
  set (s1 := if is_nil (divisions s) then _ else s).
  assert (Hint1 : interrupted s1 = false).
  { subst s1. destruct (is_nil (divisions s)); [|exact Hint].
    destruct (scrape_related_csi_divisions site) as [[l|] evs]; exact Hint. }
  clearbody s1.
  destruct (count_pass site (max_companies o) scraped
                       (limit (max_divisions o) (divisions s1)))
    as [[ds total] evs].
  match goal with
  | |- context [detail_divisions ?a ?b ?c ?d ?e ?f ?g ?pre ?td ?post ?st] =>
      assert (Hint2 : interrupted
                        (detail_divisions a b c d e f g pre td post st)
                      = false);
      [|set (s2 := detail_divisions a b c d e f g pre td post st) in *]
  end.
  { apply (ArcatSteps.detail_divisions_keeps
             site browser clock interval stop (max_companies o) scraped
             (fun _ => True) (fun s0 => interrupted s0 = false)).
    - intros s0 _ _ _ H. exfalso. exact (Hstop s0 H).
    - intros s0 H _ _ _. cbn. rewrite H. reflexivity.
    - intros s0 c ds0 H _ _ _ _ _ _. cbn. rewrite H. reflexivity.
    - intros s0 c ds0 H _ _ _ _ _ _.
      rewrite ArcatRun.interrupted_maybe_save. exact H.
    - rewrite Forall_forall. intros d _. rewrite Forall_forall. auto.
    - exact Hint1. }
  clearbody s2.
  destruct (halted s2); [exact Hint2|]. rewrite Hint2. exact Hint2.
Qed.

End ArcatSignal.

(** X11. A run of [scrape_csi_only] that a signal ends leaves the
    checkpoint of the signal handler in the file, whose mode is
    divisions, whatever periodic checkpoint was there before.
    [scrape_csi_only] resumes only from a checkpoint of mode csi-only:
    a new process that is told to resume from that file restores
    nothing and skips nothing, and runs as a process that was not told
    to resume. *)
Theorem signal_checkpoint_is_not_resumed :
  forall (interval : nat) (site : Site) (browser : Browser)
         (clock : nat -> Q) (stop : Arcat.Stop) (o : Arcat.Options)
         (use_selenium : bool) (file : option Arcat.Checkpoint),
    Arcat.interrupted
      (Arcat.scrape_csi_only_every interval site browser clock stop o
                                   (Arcat.new_scraper use_selenium file))
    = true ->
    Arcat.halted
      (Arcat.scrape_csi_only_every interval site browser clock stop o
                                   (Arcat.new_scraper use_selenium file))
    = true /\
    option_map Arcat.cp_mode
      (Arcat.disk
         (Arcat.scrape_csi_only_every interval site browser clock stop o
                                      (Arcat.new_scraper use_selenium file)))
    = Some "divisions" /\
    (exists n, stop = Arcat.SignalAfter n) /\
    forall interval' site' browser' clock' stop' o' use_selenium',
      Arcat.scrape_csi_only_every
        interval' site' browser' clock' stop' o'
        (Arcat.new_scraper
           use_selenium'
           (Arcat.disk
              (Arcat.scrape_csi_only_every
                 interval site browser clock stop o
                 (Arcat.new_scraper use_selenium file))))
      = Arcat.scrape_csi_only_every
          interval' site' browser' clock' stop'
          (ArcatCrawl.with_resume false o')
          (Arcat.new_scraper
             use_selenium'
             (Arcat.disk
                (Arcat.scrape_csi_only_every
                   interval site browser clock stop o
                   (Arcat.new_scraper use_selenium file)))).
Proof.
  intros interval site browser clock stop o use_selenium file Hint.
  assert (Hsaved : ArcatCrawl.signal_saved
                     (Arcat.scrape_csi_only_every
                        interval site browser clock stop o
                        (Arcat.new_scraper use_selenium file))).
  { unfold Arcat.scrape_csi_only_every.
    pose proof (ArcatSignal.resume_keeps_running
                  o (Arcat.new_scraper use_selenium file) eq_refl) as Hrun.
    destruct (Arcat.resume_csi_only o (Arcat.new_scraper use_selenium file))
      as [s scraped].
    apply ArcatSignal.csi_only_passes_signal_saved. exact Hrun. }
  destruct (Hsaved Hint) as [Hhalt Hmode].
  split; [exact Hhalt|]. split; [exact Hmode|]. split.
  - destruct stop as [|n|n]; [| |exists n; reflexivity].
    + destruct (ArcatRun.csi_only_runs_to_completion
                  interval site browser clock o use_selenium file)
        as [_ [Hnot _]]. congruence.
    + assert (Hnot : Arcat.interrupted
                       (Arcat.scrape_csi_only_every
                          interval site browser clock (Arcat.KillAfter n) o
                          (Arcat.new_scraper use_selenium file)) = false).
      { unfold Arcat.scrape_csi_only_every.
        pose proof (ArcatSignal.resume_keeps_running
                      o (Arcat.new_scraper use_selenium file) eq_refl) as Hrun.
        destruct (Arcat.resume_csi_only o (Arcat.new_scraper use_selenium file))
          as [s scraped].
        apply ArcatSignal.csi_only_passes_not_interrupted; [|exact Hrun].
        intros s0. cbn [Arcat.stop_now].
        destruct (Arcat.steps s0 =? n); discriminate. }
      congruence.
  - intros interval' site' browser' clock' stop' o' use_selenium'.
    destruct (Arcat.disk _) as [cp|]; [|discriminate Hmode].
    cbn [option_map] in Hmode. injection Hmode as Hmode.
    unfold Arcat.scrape_csi_only_every, Arcat.resume_csi_only.
    cbn [Arcat.resume ArcatCrawl.with_resume Arcat._load_checkpoint
         Arcat.new_scraper Arcat.disk].
    rewrite Hmode.
    destruct (Arcat.resume o'); reflexivity.
Qed.

(** A signal when one detail page is done: the new process told to
    resume fetches that page again. *)
Lemma signal_checkpoint_witness :
  Arcat.detail_urls
    (Arcat.details
       (Arcat.scrape_csi_only_every
          2 ArcatExamples.three_companies no_browser wall_clock Arcat.Never
          (ArcatExamples.all_options true)
          (Arcat.new_scraper
             false
             (Arcat.disk
                (Arcat.scrape_csi_only_every
                   2 ArcatExamples.three_companies no_browser wall_clock
                   (Arcat.SignalAfter 1) (ArcatExamples.all_options false)
                   (Arcat.new_scraper false None))))))
  = [ArcatExamples.company_url "a-1"; ArcatExamples.company_url "b-2";
     ArcatExamples.company_url "c-3"].
Proof.
  refine (eq_trans
            (f_equal
               (fun s => Arcat.detail_urls (Arcat.details s))
               (proj2 (proj2 (proj2
                  (signal_checkpoint_is_not_resumed
                     2 ArcatExamples.three_companies no_browser wall_clock
                     (Arcat.SignalAfter 1) (ArcatExamples.all_options false)
                     false None _)))
                  2 ArcatExamples.three_companies no_browser wall_clock
                  Arcat.Never (ArcatExamples.all_options true) false))
            _).
  - vm_compute. reflexivity.
  - vm_compute. reflexivity.
Defined.

(* ------------------------------------------------------------------ *)
(** ** ARCAT: the periodic checkpoint *)
(* ------------------------------------------------------------------ *)

Module ArcatPeriodic.
Import Arcat ArcatCrawl ArcatNotions.

(** Between two multiples of the interval the quotient stays. *)
Lemma div_succ_between :
  forall n i, 0 < i -> S n mod i <> 0 -> S n / i = n / i.
Proof.
  intros n i Hi Hmod.
  pose proof (Nat.div_mod_eq n i) as Hn.
  pose proof (Nat.mod_upper_bound n i ltac:(lia)) as Hr.
  symmetry. apply (Nat.div_unique (S n) i (n / i) (S (n mod i))); [|lia].
  destruct (Nat.eq_dec (S (n mod i)) i) as [Heq|Hne]; [|lia].
  exfalso. apply Hmod.
  replace (S n) with ((n / i + 1) * i) by nia.
  apply Nat.Div0.mod_mul.
Qed.

Lemma div_small_succ :
  forall n i, n < i -> S n mod i <> 0 -> S n < i.
Proof.
  intros n i Hn Hmod. destruct (Nat.eq_dec (S n) i) as [Heq|Hne]; [|lia].
  exfalso. apply Hmod. subst i. apply Nat.Div0.mod_same.
Qed.

Lemma step_periodic :
  forall interval k file clock s ds evs,
    0 < interval ->
    periodic interval k file s ->
    halted s = false ->
    periodic interval k file
      (maybe_save_checkpoint_every
         interval "csi-only"
         (progress_update
            clock
            (with_count (S (companies_scraped_count s))
                        (with_divisions ds (log_details evs s))))).
Proof.
  intros interval k file clock s ds evs Hi [Hcount [Hint [Hend Hdisk]]] Hrun.
  set (s' := progress_update
               clock
               (with_count (S (companies_scraped_count s))
                           (with_divisions ds (log_details evs s)))).
  assert (Hc : companies_scraped_count s' = S (steps s))
    by (cbn; rewrite Hcount; reflexivity).
  assert (Hs : steps s' = S (steps s)) by reflexivity.
  assert (Hd : disk s' = disk s) by reflexivity.
  assert (Hi' : interrupted s' = false) by exact Hint.
  assert (Hh : halted s' = false) by exact Hrun.
  clearbody s'.
  unfold periodic, maybe_save_checkpoint_every. rewrite Hc.
  change (0 <? S (steps s)) with true. cbn [andb].
  destruct (S (steps s) mod interval =? 0) eqn:Hmod.
  - apply Nat.eqb_eq in Hmod.
    unfold _save_checkpoint.
    cbn [companies_scraped_count steps interrupted halted disk with_disk].
    rewrite Hc, Hs, Hi', Hh.
    split; [reflexivity|]. split; [reflexivity|]. split; [discriminate|].
    destruct (S (steps s) <? interval) eqn:Hlt.
    + apply Nat.ltb_lt in Hlt. rewrite Nat.mod_small in Hmod by lia.
      discriminate Hmod.
    + cbn [option_map cp_mode cp_companies_scraped]. do 2 f_equal.
      apply Nat.Div0.div_exact in Hmod. exact Hmod.
  - apply Nat.eqb_neq in Hmod. rewrite Hc, Hs, Hi', Hh, Hd.
    split; [reflexivity|]. split; [reflexivity|]. split; [discriminate|].
    destruct (steps s <? interval) eqn:Hlt0.
    + apply Nat.ltb_lt in Hlt0.
      pose proof (div_small_succ _ _ Hlt0 Hmod) as Hlt.
      apply Nat.ltb_lt in Hlt. rewrite Hlt. exact Hdisk.
    + apply Nat.ltb_ge in Hlt0.
      assert (Hlt : (S (steps s) <? interval) = false)
        by (apply Nat.ltb_ge; lia).
      rewrite Hlt, div_succ_between by assumption. exact Hdisk.
Qed.

End ArcatPeriodic.

(* ------------------------------------------------------------------ *)
(** ** ARCAT: properties kept by a whole run *)
(* ------------------------------------------------------------------ *)

Module ArcatWhole.
Import Arcat ArcatCrawl ArcatNotions.

Lemma csi_only_passes_parts :
  forall interval site browser clock stop o scraped s,
    csi_only_passes interval site browser clock stop o scraped s
    = final_checkpoint
        (detail_pass interval site browser clock stop o scraped s).
Proof.
  intros. unfold csi_only_passes, detail_pass, final_checkpoint.
  destruct (count_pass _ _ _ _) as [[ds total] evs]. reflexivity.
Qed.

Section Invariant.

Variable site : Site.
Variable browser : Browser.
Variable clock : nat -> Q.
Variable interval : nat.
Variable stop : Stop.
Variable o : Options.
Variable scraped : list string.
Variable I : Scraper -> Prop.

Hypothesis I_divisions : forall s ds, I s -> I (with_divisions ds s).
Hypothesis I_requests : forall s evs, I s -> I (log_requests evs s).
Hypothesis I_progress : forall s p n, I s -> I (with_progress p n s).

Hypothesis I_signal :
  forall s,
    I s -> halted s = false -> interrupted s = false ->
    stop_now stop s = Some true -> I (signal_handler s).

Hypothesis I_kill :
  forall s,
    I s -> halted s = false -> interrupted s = false ->
    stop_now stop s = Some false -> I (halt false s).

Hypothesis I_step :
  forall s c ds,
    I s -> halted s = false -> interrupted s = false ->
    stop_now stop s = None -> mem (url c) scraped = false ->
    I (maybe_save_checkpoint_every
         interval "csi-only"
         (progress_update
            clock
            (with_count
               (S (companies_scraped_count s))
               (with_divisions
                  ds (log_details
                        (snd (scrape_company_details (selenium s) site browser c))
                        s))))).

(** The divisions that enter the detail pass hold companies that are
    ready: their detail calls do not raise. *)
Lemma detail_pass_keeps :
  forall s,
    Forall (fun d => Forall (ready scraped) (companies d)) (divisions s) ->
    I s ->
    I (detail_pass interval site browser clock stop o scraped s).
Proof.
  intros s Hready HI. unfold detail_pass.
  set (s1 := if is_nil (divisions s) then _ else s).
  assert (H1 : Forall (fun d => Forall (ready scraped) (companies d))
                      (divisions s1) /\ I s1).
  { subst s1. destruct (is_nil (divisions s)); [|auto].
    unfold scrape_related_csi_divisions.
    destruct (_make_request site categories_url) as [[p|] evs].
    - split.
      + apply ArcatRun.empty_divisions_ready,
          ArcatRun.csi_divisions_loop_empty.
      + apply I_requests, I_divisions, HI.
    - split; [exact Hready|]. apply I_requests, HI. }
  clearbody s1. destruct H1 as [Hready1 HI1].
  pose proof (ArcatRun.count_pass_ready
                site (max_companies o) scraped
                (limit (max_divisions o) (divisions s1))
                (ArcatRun.limit_Forall _ _ _ _ Hready1)) as Hcount.
  destruct (count_pass site (max_companies o) scraped
                       (limit (max_divisions o) (divisions s1)))
    as [[ds total] evs].
  cbn [fst] in Hcount.
  apply (ArcatSteps.detail_divisions_keeps
           site browser clock interval stop (max_companies o) scraped
           (ready scraped) I); try assumption.
  - intros s0 c ds0 _ Hc _ _ _ Hmem Hraised. exfalso.
    destruct Hc as [Hempty|Hin]; [|congruence].
    rewrite ArcatRun.details_do_not_raise in Hraised by exact Hempty.
    discriminate Hraised.
  - intros s0 c ds0 H0 _ Hrun Hint Hstop Hmem _.
    apply I_step; assumption.
  - unfold progress_start. apply I_progress, I_requests, I_divisions, HI1.
Qed.

End Invariant.

End ArcatWhole.

(** X12. The periodic checkpoint of [scrape_csi_only], read at two
    points of the detail loop.  A process is started without resume and
    stops at the boundary where [k] iterations are complete, each with
    its fetch, its count, its update of the tracker and its call of
    [_maybe_save_checkpoint], and the fetch of the next company is due.
    At that boundary it has scraped [k] companies; if [k] is below the
    checkpoint interval the file is the one the process found, otherwise
    the file is a periodic checkpoint of mode csi-only whose count is
    the last multiple of the interval that the run reached, so at the
    boundary the file is behind the run by fewer details than the
    interval.  Inside the next iteration, when the company is counted
    and [_maybe_save_checkpoint] is not yet called, the count is [k + 1]
    and the file is the same: it is behind by at most the interval, and
    by the whole interval when [k + 1] is a multiple of it, which is
    when the call that follows writes the file with the count [k + 1].
    The write of the file is taken to succeed at once: a process that
    ends during the write is outside the statement. *)
Theorem periodic_checkpoint_lags_at_most_an_interval :
  forall (interval : nat) (site : Site) (browser : Browser)
         (clock : nat -> Q) (k : nat) (o : Arcat.Options)
         (use_selenium : bool) (file : option Arcat.Checkpoint),
    0 < interval ->
    Arcat.resume o = false ->
    Arcat.halted
      (Arcat.scrape_csi_only_every interval site browser clock
                                   (Arcat.KillAfter k) o
                                   (Arcat.new_scraper use_selenium file))
    = true ->
    Arcat.steps
      (Arcat.scrape_csi_only_every interval site browser clock
                                   (Arcat.KillAfter k) o
                                   (Arcat.new_scraper use_selenium file))
    = k /\
    Arcat.companies_scraped_count
      (Arcat.scrape_csi_only_every interval site browser clock
                                   (Arcat.KillAfter k) o
                                   (Arcat.new_scraper use_selenium file))
    = k /\
    (k < interval ->
     Arcat.disk
       (Arcat.scrape_csi_only_every interval site browser clock
                                    (Arcat.KillAfter k) o
                                    (Arcat.new_scraper use_selenium file))
     = file) /\
    (interval <= k ->
     exists cp,
       Arcat.disk
         (Arcat.scrape_csi_only_every interval site browser clock
                                      (Arcat.KillAfter k) o
                                      (Arcat.new_scraper use_selenium file))
       = Some cp /\
       Arcat.cp_mode cp = "csi-only" /\
       Arcat.cp_companies_scraped cp = interval * (k / interval) /\
       k - Arcat.cp_companies_scraped cp < interval) /\
    (interval <= k ->
     forall ds evs,
       let counted :=
         Arcat.progress_update
           clock
           (Arcat.with_count
              (S (Arcat.companies_scraped_count
                    (Arcat.scrape_csi_only_every
                       interval site browser clock (Arcat.KillAfter k) o
                       (Arcat.new_scraper use_selenium file))))
              (Arcat.with_divisions
                 ds
                 (Arcat.log_details
                    evs
                    (Arcat.scrape_csi_only_every
                       interval site browser clock (Arcat.KillAfter k) o
                       (Arcat.new_scraper use_selenium file))))) in
       exists cp,
         Arcat.disk counted = Some cp /\
         Arcat.companies_scraped_count counted = S k /\
         Arcat.companies_scraped_count counted - Arcat.cp_companies_scraped cp
         <= interval /\
         (S k mod interval = 0 ->
          Arcat.companies_scraped_count counted
          - Arcat.cp_companies_scraped cp = interval /\
          option_map Arcat.cp_companies_scraped
            (Arcat.disk
               (Arcat.maybe_save_checkpoint_every interval "csi-only"
                                                  counted))
          = Some (S k))).
Proof.
  intros interval site browser clock k o use_selenium file Hi Hresume.
  unfold Arcat.scrape_csi_only_every, Arcat.resume_csi_only.
  rewrite Hresume, ArcatWhole.csi_only_passes_parts.
  assert (Hper : ArcatCrawl.periodic
                   interval k file
                   (ArcatCrawl.detail_pass
                      interval site browser clock (Arcat.KillAfter k) o []
                      (Arcat.new_scraper use_selenium file))).
  { apply ArcatWhole.detail_pass_keeps.
    - intros s ds H. exact H.
    - intros s evs H. exact H.
    - intros s p n H. exact H.
    - intros s _ _ _ Hstop. cbn [Arcat.stop_now] in Hstop.
      destruct (Arcat.steps s =? k); discriminate Hstop.
    - intros s [Hc [Hint [Hend Hdisk]]] _ _ Hstop.
      cbn [Arcat.stop_now] in Hstop.
      destruct (Arcat.steps s =? k) eqn:Hk; [|discriminate Hstop].
      apply Nat.eqb_eq in Hk.
      unfold ArcatCrawl.periodic.
      cbn [Arcat.steps Arcat.companies_scraped_count Arcat.interrupted
           Arcat.halted Arcat.disk Arcat.halt].
      rewrite Hint. repeat split; auto.
    - intros s c ds H Hrun _ _ _.
      apply ArcatPeriodic.step_periodic; assumption.
    - constructor.
    - unfold ArcatCrawl.periodic.
      cbn [Arcat.steps Arcat.companies_scraped_count Arcat.interrupted
           Arcat.halted Arcat.disk Arcat.new_scraper].
      apply Nat.ltb_lt in Hi. rewrite Hi.
      repeat split; auto. discriminate. }
  set (s2 := ArcatCrawl.detail_pass _ _ _ _ _ _ _ _) in *. clearbody s2.
  unfold ArcatCrawl.final_checkpoint.
  destruct (Arcat.halted s2) eqn:Hrun;
    [|destruct (Arcat.interrupted s2); cbn; rewrite Hrun; discriminate].
  intros _. destruct Hper as [Hc [Hint [Hend Hdisk]]].
  specialize (Hend Hrun). rewrite Hend in *.
  split; [reflexivity|]. split; [exact Hc|]. split; [|split].
  - intros Hlt. apply Nat.ltb_lt in Hlt. rewrite Hlt in Hdisk. exact Hdisk.
  - intros Hge. apply Nat.ltb_ge in Hge. rewrite Hge in Hdisk.
    destruct (Arcat.disk s2) as [cp|]; [|discriminate Hdisk].
    cbn [option_map] in Hdisk. injection Hdisk as Hmode Hcount.
    exists cp. split; [reflexivity|]. split; [exact Hmode|].
    split; [exact Hcount|]. rewrite Hcount.
    pose proof (Nat.div_mod_eq k interval) as Hk.
    pose proof (Nat.mod_upper_bound k interval ltac:(lia)) as Hr. lia.
  - intros Hge ds evs. apply Nat.ltb_ge in Hge. rewrite Hge in Hdisk.
    cbv zeta. unfold Arcat.maybe_save_checkpoint_every.
    cbn [Arcat.progress_update Arcat.with_progress Arcat.with_count
         Arcat.with_divisions Arcat.log_details Arcat.disk
         Arcat.companies_scraped_count].
    destruct (Arcat.disk s2) as [cp|]; [|discriminate Hdisk].
    cbn [option_map] in Hdisk. injection Hdisk as Hmode Hcount.
    exists cp. split; [reflexivity|]. rewrite Hc.
    split; [reflexivity|]. rewrite Hcount.
    pose proof (Nat.div_mod_eq k interval) as Hk.
    pose proof (Nat.mod_upper_bound k interval ltac:(lia)) as Hr.
    split; [lia|]. intros Hmod.
    assert (Hlast : k mod interval = interval - 1).
    { destruct (Nat.eq_dec (k mod interval) (interval - 1)) as [E|E];
        [exact E|].
      assert (Hsmall : S (k mod interval) < interval) by lia.
      replace (S k) with (S (k mod interval) + (k / interval) * interval)
        in Hmod by lia.
      rewrite Nat.Div0.mod_add, Nat.mod_small in Hmod by exact Hsmall.
      discriminate Hmod. }
    split; [lia|].
    change (0 <? S k) with true. rewrite Hmod. cbn [Nat.eqb andb].
    reflexivity.
Qed.

(** The scenario: three companies, interval 2, stopped when two
    iterations are complete. *)
Lemma periodic_checkpoint_witness :
  option_map Arcat.cp_companies_scraped
    (Arcat.disk
       (Arcat.scrape_csi_only_every
          2 ArcatExamples.three_companies no_browser wall_clock
          (Arcat.KillAfter 2) (ArcatExamples.all_options false)
          (Arcat.new_scraper false None)))
  = Some 2.
Proof.
  destruct (periodic_checkpoint_lags_at_most_an_interval
              2 ArcatExamples.three_companies no_browser wall_clock 2
              (ArcatExamples.all_options false) false None)
    as [_ [_ [_ [Hfile _]]]].
  - lia.
  - reflexivity.
  - vm_compute. reflexivity.
  - destruct (Hfile (Nat.le_refl 2)) as [cp [Hdisk [_ [Hcount _]]]].
    rewrite Hdisk. cbn [option_map]. rewrite Hcount. reflexivity.
Defined.

(* ------------------------------------------------------------------ *)
(** ** ARCAT: what the detail extraction leaves alone *)
(* ------------------------------------------------------------------ *)

Module ArcatFrame.
Import Arcat ArcatCrawl.

Lemma same_identity_refl : forall c, same_identity c c.
Proof. intros c. unfold same_identity. auto. Qed.

Lemma same_identity_trans :
  forall a b c, same_identity a b -> same_identity b c -> same_identity a c.
Proof.
  unfold same_identity. intros a b c [H1 [H2 [H3 [H4 H5]]]]
                               [G1 [G2 [G3 [G4 G5]]]].
  repeat split; congruence.
Qed.

Ltac same := unfold same_identity; cbn; auto.

Lemma apply_rendered_identity :
  forall rd c, same_identity c (apply_rendered rd c).
Proof.
  intros rd c. unfold apply_rendered.
  destruct (nonempty (r_address rd)); [destruct (nonempty (r_state rd))|];
    destruct (nonempty (r_phone rd)); destruct (nonempty (r_email rd));
    destruct (nonempty (r_website rd)); same.
Qed.

Lemma apply_nuxt_identity :
  forall nd c, same_identity c (apply_nuxt nd c).
Proof.
  intros nd c. unfold apply_nuxt.
  destruct (nonempty (n_address nd)); destruct (nonempty (n_phone nd));
    destruct (nonempty (n_email nd)); destruct (nonempty (n_website nd));
    same.
Qed.

Lemma fallback_address_identity :
  forall soup c, same_identity c (res_company (fallback_address soup c)).
Proof.
  intros soup c. unfold fallback_address.
  destruct (is_empty (address c)); [|same].
  destruct soup as [p|]; [|same].
  destruct (first_match _ _); cbn [res_company];
    match goal with
    | |- context [if ?b then _ else _] => destruct b
    end; same.
Qed.

Lemma fallback_phone_identity :
  forall soup c, same_identity c (res_company (fallback_phone soup c)).
Proof.
  intros soup c. unfold fallback_phone.
  destruct (is_empty (phone c)); [|same].
  destruct soup as [p|]; [|same].
  destruct (first_match _ _); same.
Qed.

Lemma fallback_website_identity :
  forall soup c, same_identity c (res_company (fallback_website soup c)).
Proof.
  intros soup c. unfold fallback_website.
  destruct (is_empty (website c)); [|same].
  destruct soup as [p|]; [|same].
  destruct (find _ _); same.
Qed.

Lemma fallback_email_identity :
  forall html_ soup c,
    same_identity c (res_company (fallback_email html_ soup c)).
Proof.
  intros html_ soup c. unfold fallback_email.
  destruct (is_empty (email c)); [|same].
  destruct (search mailto_attr html_); [same|].
  destruct soup as [p|]; [|same].
  destruct (search email_in_text (text p)); [|same].
  destruct (any_in _ _); same.
Qed.

Lemma product_expert_identity :
  forall html_ c, same_identity c (product_expert html_ c).
Proof.
  intros html_ c. unfold product_expert.
  destruct (search expert_html_pattern html_); [same|].
  destruct (search expert_pattern html_); [same|].
  destruct (search alt_expert_pattern html_); same.
Qed.

Lemma bind_identity :
  forall r f c0,
    same_identity c0 (res_company r) ->
    (forall c, same_identity c (res_company (f c))) ->
    same_identity c0 (res_company (bind r f)).
Proof.
  intros r f c0 Hr Hf. destruct r as [c|c]; cbn [bind]; [|exact Hr].
  eapply same_identity_trans; [exact Hr|apply Hf].
Qed.

Lemma extract_details_identity :
  forall html_ soup c,
    same_identity c (res_company (extract_details html_ soup c)).
Proof.
  intros html_ soup c. unfold extract_details.
  eapply same_identity_trans; [apply apply_nuxt_identity|].
  apply bind_identity; [apply fallback_address_identity|]. intros c1.
  apply bind_identity; [apply fallback_phone_identity|]. intros c2.
  apply bind_identity; [apply fallback_website_identity|]. intros c3.
  apply bind_identity; [apply fallback_email_identity|]. intros c4.
  cbn [res_company]. apply product_expert_identity.
Qed.

Lemma details_identity :
  forall sel site browser c,
    same_identity
      c (res_company (fst (scrape_company_details sel site browser c))).
Proof.
  intros sel site browser c. unfold scrape_company_details.
  destruct sel.
  - destruct (browser (url c)) as [p|].
    + destruct (is_empty (address (apply_rendered _ c))).
      * destruct (site _ 0); cbn [fst res_company];
          try apply apply_rendered_identity.
        eapply same_identity_trans; [apply apply_rendered_identity|].
        apply extract_details_identity.
      * cbn [fst].
        eapply same_identity_trans; [apply apply_rendered_identity|].
        apply extract_details_identity.
    + destruct (is_empty (address c)).
      * destruct (site _ 0); cbn [fst res_company];
          try apply same_identity_refl.
        apply extract_details_identity.
      * cbn [fst]. apply extract_details_identity.
  - destruct (is_empty (address c)).
    + destruct (site _ 0); cbn [fst res_company];
        try apply same_identity_refl.
      apply extract_details_identity.
    + cbn [fst]. apply extract_details_identity.
Qed.

End ArcatFrame.

(* ------------------------------------------------------------------ *)
(** ** ARCAT: the detail pass of a run that nothing stops *)
(* ------------------------------------------------------------------ *)

Module ArcatPass.
Import Arcat ArcatCrawl ArcatNotions.

(** What the scraper is after a pass over some companies: its store,
    what it fetched, its count and its tracker. *)
Lemma step_fields :
  forall interval clock s ds evs,
    let s' :=
      maybe_save_checkpoint_every
        interval "csi-only"
        (progress_update
           clock
           (with_count
              (S (companies_scraped_count
                    (with_divisions ds (log_details evs s))))
              (with_divisions ds (log_details evs s)))) in
    divisions s' = ds /\
    details s' = details s ++ evs /\
    companies_scraped_count s' = S (companies_scraped_count s) /\
    ProgressTracker.scraped_items (progress s')
    = ProgressTracker.scraped_items (progress s) + 1 /\
    ProgressTracker.total_items (progress s')
    = ProgressTracker.total_items (progress s) /\
    selenium s' = selenium s /\
    halted s' = halted s /\
    interrupted s' = interrupted s /\
    building_product_categories s' = building_product_categories s.
Proof.
  intros interval clock s ds evs. cbv zeta.
  unfold maybe_save_checkpoint_every.
  destruct (_ && _); cbn; repeat split; reflexivity.
Qed.

Lemma advanced_nil :
  forall site browser scraped s,
    halted s = false -> interrupted s = false ->
    advanced site browser scraped [] s s.
Proof.
  intros site browser scraped s Hrun Hint. unfold advanced.
  cbn [flat_map filter List.length]. rewrite app_nil_r, !Nat.add_0_r.
  repeat split; assumption.
Qed.

Lemma advanced_app :
  forall site browser scraped cs1 cs2 s s1 s2,
    advanced site browser scraped cs1 s s1 ->
    advanced site browser scraped cs2 s1 s2 ->
    advanced site browser scraped (cs1 ++ cs2) s s2.
Proof.
  intros site browser scraped cs1 cs2 s s1 s2
         [Hd1 [Hc1 [Hp1 [Ht1 [Hs1 [Hh1 [Hi1 Hb1]]]]]]]
         [Hd2 [Hc2 [Hp2 [Ht2 [Hs2 [Hh2 [Hi2 Hb2]]]]]]].
  unfold advanced.
  rewrite flat_map_app, filter_app, length_app.
  rewrite Hd2, Hd1, Hc2, Hc1, Hp2, Hp1, Ht2, Ht1, Hs2, Hb2, Hs1.
  rewrite <- !app_assoc, !Nat.add_assoc.
  repeat split; assumption.
Qed.

Section Never.

Variable site : Site.
Variable browser : Browser.
Variable clock : nat -> Q.
Variable interval : nat.
Variable max_companies : option nat.
Variable scraped : list string.

(** The inner loop of the detail pass when nothing stops it: every
    company comes out detailed, the store is the view of the companies
    as they come out. *)
Lemma detail_companies_never :
  forall todo view done s,
    halted s = false ->
    interrupted s = false ->
    Forall (ready scraped) todo ->
    divisions s = view (done ++ todo) ->
    fst (detail_companies site browser clock interval Never scraped
                          view done todo s)
    = done ++ map (detailed (selenium s) site browser scraped) todo /\
    divisions (snd (detail_companies site browser clock interval Never
                                     scraped view done todo s))
    = view (done ++ map (detailed (selenium s) site browser scraped) todo) /\
    advanced site browser scraped todo s
             (snd (detail_companies site browser clock interval Never
                                    scraped view done todo s)).
Proof.
  induction todo as [|c rest IH]; intros view done s Hrun Hint Hready Hview.
  - cbn [detail_companies fst snd map]. rewrite app_nil_r in *.
    split; [reflexivity|].
    split; [exact Hview|]. apply advanced_nil; assumption.
  - inversion Hready as [|? ? Hc Hrest]; subst.
    cbn [detail_companies map]. rewrite Hrun.
    destruct (mem (url c) scraped) eqn:Hmem.
    + assert (Hsame : detailed (selenium s) site browser scraped c = c)
        by (unfold detailed; rewrite Hmem; reflexivity).
      rewrite Hsame.
      destruct (IH view (done ++ [c]) s Hrun Hint Hrest) as [H1 [H2 H3]];
        [rewrite <- app_assoc; exact Hview|].
      rewrite <- app_assoc in H1, H2. cbn [app] in H1, H2.
      split; [exact H1|]. split; [exact H2|].
      apply (advanced_app site browser scraped [c] rest s s); [|exact H3].
      unfold advanced, detail_events, not_scraped.
      cbn [flat_map filter]. rewrite Hmem. cbn [negb List.length app].
      rewrite app_nil_r, !Nat.add_0_r. repeat split; assumption.
    + rewrite Hint. cbn [stop_now].
      destruct Hc as [Hempty|Hin]; [|congruence].
      pose proof (ArcatRun.details_do_not_raise
                    (selenium s) site browser c Hempty) as Hfine.
      assert (Hnew : detailed (selenium s) site browser scraped c
                     = res_company
                         (fst (scrape_company_details
                                 (selenium s) site browser c)))
        by (unfold detailed; rewrite Hmem; reflexivity).
      rewrite Hnew.
      destruct (scrape_company_details (selenium s) site browser c)
        as [r evs] eqn:Hcall.
      cbn [fst] in Hfine. rewrite Hfine. cbn [fst].
      match goal with
      | |- context [detail_companies _ _ _ _ _ _ _ _ _ ?st] =>
          set (s1 := st)
      end.
      destruct (step_fields interval clock s
                            (view (done ++ res_company r :: rest)) evs)
        as [Fd [Fe [Fc [Fp [Ft [Fs [Fh [Fi Fb]]]]]]]].
      fold s1 in Fd, Fe, Fc, Fp, Ft, Fs, Fh, Fi, Fb.
      destruct (IH view (done ++ [res_company r]) s1) as [H1 [H2 H3]];
        [congruence|congruence|exact Hrest
        |rewrite <- app_assoc; exact Fd|].
      rewrite Fs in H1, H2.
      rewrite <- app_assoc in H1, H2. cbn [app] in H1, H2.
      split; [exact H1|]. split; [exact H2|].
      apply (advanced_app site browser scraped [c] rest s s1).
      * unfold advanced, detail_events, not_scraped.
        cbn [flat_map filter]. rewrite Hmem, Hcall.
        cbn [negb List.length app snd]. rewrite app_nil_r.
        repeat split; try congruence.
        rewrite Fc. cbn. lia.
      * exact H3.
Qed.

Lemma firstn_skipn_length :
  forall (A : Type) (k : nat) (l : list A),
    firstn k l ++ skipn (List.length (firstn k l)) l = l.
Proof.
  intros A. induction k as [|k IH]; intros l; [reflexivity|].
  destruct l as [|x l]; [reflexivity|].
  cbn [firstn List.length skipn app]. rewrite IH. reflexivity.
Qed.

Lemma limit_skipn :
  forall (A : Type) (n : option nat) (l : list A),
    limit n l ++ skipn (List.length (limit n l)) l = l.
Proof.
  intros A n l. unfold limit. destruct n as [[|k]|].
  - rewrite skipn_all. apply app_nil_r.
  - apply firstn_skipn_length.
  - rewrite skipn_all. apply app_nil_r.
Qed.

Lemma set_companies_same :
  forall d, set_companies (companies d) d = d.
Proof. intros d. destruct d. reflexivity. Qed.

(** The outer loop: every division to process comes out with its
    companies within the limit detailed. *)
Lemma detail_divisions_never :
  forall todo pre post s,
    halted s = false ->
    interrupted s = false ->
    Forall (fun d => Forall (ready scraped) (companies d)) todo ->
    divisions s = pre ++ todo ++ post ->
    divisions (detail_divisions site browser clock interval Never
                                max_companies scraped pre todo post s)
    = pre ++ map (detailed_division (selenium s) site browser scraped
                                    max_companies) todo ++ post /\
    advanced site browser scraped
             (flat_map (fun d => limit max_companies (companies d)) todo) s
             (detail_divisions site browser clock interval Never
                               max_companies scraped pre todo post s).
Proof.
  induction todo as [|d rest IH]; intros pre post s Hrun Hint Hready Hdivs.
  - cbn [detail_divisions map flat_map]. split; [exact Hdivs|].
    apply advanced_nil; assumption.
  - inversion Hready as [|? ? Hd Hrest]; subst.
    cbn [detail_divisions map flat_map]. rewrite Hrun, Hint. cbn [orb].
    match goal with
    | |- context [detail_companies ?a ?b ?c ?i ?e ?f ?v ?dn ?td ?st] =>
        destruct (detail_companies_never td v dn st Hrun Hint
                    (ArcatRun.limit_Forall _ _ _ _ Hd)) as [H1 [H2 H3]];
        [|destruct (detail_companies a b c i e f v dn td st) as [cs s1]]
    end.
    { cbn [app]. rewrite limit_skipn, set_companies_same. exact Hdivs. }
    cbn [fst snd app] in H1, H2, H3. subst cs.
    destruct H3 as [Hd3 [Hc3 [Hp3 [Ht3 [Hs3 [Hh3 [Hi3 Hb3]]]]]]].
    rewrite Hh3, Hi3. cbn [orb].
    fold (detailed_division (selenium s) site browser scraped
                            max_companies d) in *.
    destruct (IH (pre ++ [detailed_division (selenium s) site browser scraped
                                            max_companies d])
                 post s1 Hh3 Hi3 Hrest) as [G1 G2].
    { rewrite H2, <- app_assoc. reflexivity. }
    rewrite Hs3 in G1. rewrite <- app_assoc in G1. cbn [app] in G1.
    split; [exact G1|].
    apply (advanced_app site browser scraped _ _ s s1); [|exact G2].
    unfold advanced. repeat split; assumption.
Qed.

End Never.

Lemma filter_flat_map :
  forall (A B : Type) (f : B -> bool) (g : A -> list B) (l : list A),
    filter f (flat_map g l) = flat_map (fun x => filter f (g x)) l.
Proof.
  intros A B f g. induction l as [|x l IH]; [reflexivity|].
  cbn [flat_map]. rewrite filter_app, IH. reflexivity.
Qed.

(** The counting pass expands the divisions without companies and
    counts the companies that are due. *)
Lemma count_pass_spec :
  forall site max_companies scraped todo,
    fst (fst (count_pass site max_companies scraped todo))
    = map (expand_if_empty site) todo /\
    snd (fst (count_pass site max_companies scraped todo))
    = List.length (flat_map (due scraped max_companies)
                            (map (expand_if_empty site) todo)).
Proof.
  intros site max_companies scraped.
  induction todo as [|d rest IH]; [split; reflexivity|].
  cbn [count_pass map flat_map]. destruct IH as [IH1 IH2].
  destruct (count_pass site max_companies scraped rest) as [[ds total] evs'].
  cbn [fst snd] in IH1, IH2. subst ds total.
  unfold expand_if_empty, due.
  destruct (is_nil (companies d)).
  - destruct (scrape_division_manufacturers site d) as [d' evs].
    cbn [fst snd]. rewrite length_app. split; reflexivity.
  - cbn [fst snd]. rewrite length_app. split; reflexivity.
Qed.

(** A whole detail pass that nothing stops. *)
Lemma detail_pass_never :
  forall interval site browser clock o scraped s,
    halted s = false ->
    interrupted s = false ->
    Forall (fun d => Forall (ready scraped) (companies d)) (divisions s) ->
    let s2 := detail_pass interval site browser clock Never o scraped s in
    divisions s2
    = map (detailed_division (selenium s) site browser scraped
                             (max_companies o))
          (entering site o s)
        ++ beyond_limit site o s /\
    details s2
    = details s
        ++ flat_map (detail_events (selenium s) site browser scraped)
                    (flat_map (fun d => limit (max_companies o) (companies d))
                              (entering site o s)) /\
    companies_scraped_count s2
    = companies_scraped_count s
      + List.length (flat_map (due scraped (max_companies o))
                              (entering site o s)) /\
    ProgressTracker.scraped_items (progress s2)
    = List.length (flat_map (due scraped (max_companies o))
                            (entering site o s)) /\
    ProgressTracker.total_items (progress s2)
    = List.length (flat_map (due scraped (max_companies o))
                            (entering site o s)) /\
    halted s2 = false /\ interrupted s2 = false /\
    selenium s2 = selenium s /\
    building_product_categories s2 = building_product_categories s /\
    Forall (fun d => Forall (ready scraped) (companies d)) (entering site o s).
Proof.
  intros interval site browser clock o scraped s Hrun Hint Hready.
  unfold detail_pass, entering, beyond_limit, starting_divisions.
  unfold scrape_related_csi_divisions.
  set (s1 := if is_nil (divisions s) then _ else s).
  set (start := if is_nil (divisions s) then _ else divisions s).
  assert (H1 : divisions s1 = start /\ halted s1 = false /\
               interrupted s1 = false /\ selenium s1 = selenium s /\
               details s1 = details s /\
               companies_scraped_count s1 = companies_scraped_count s /\
               building_product_categories s1 = building_product_categories s /\
               Forall (fun d => Forall (ready scraped) (companies d)) start).
  { subst s1 start. destruct (is_nil (divisions s)).
    - destruct (_make_request site categories_url) as [[p|] evs]; cbn;
        repeat split; auto.
      apply ArcatRun.empty_divisions_ready, ArcatRun.csi_divisions_loop_empty.
    - repeat split; auto. }
  clearbody s1 start.
  destruct H1 as [Hd1 [Hh1 [Hi1 [Hs1 [He1 [Hc1 [Hb1 Hr1]]]]]]].
  rewrite Hd1.
  destruct (count_pass_spec site (max_companies o) scraped
                            (limit (max_divisions o) start)) as [Hds Htotal].
  pose proof (ArcatRun.count_pass_ready
                site (max_companies o) scraped (limit (max_divisions o) start)
                (ArcatRun.limit_Forall _ _ _ _ Hr1)) as Hcount.
  destruct (count_pass site (max_companies o) scraped
                       (limit (max_divisions o) start)) as [[ds total] evs].
  cbn [fst snd] in Hds, Htotal, Hcount. subst ds total.
  set (ds := map (expand_if_empty site) (limit (max_divisions o) start)) in *.
  set (beyond := skipn (List.length (limit (max_divisions o) start)) start).
  match goal with
  | |- context [detail_divisions _ _ _ _ _ _ _ _ _ _ ?st] => set (s0 := st)
  end.
  destruct (detail_divisions_never
              site browser clock interval (max_companies o) scraped
              ds [] beyond s0 Hh1 Hi1 Hcount eq_refl) as [G1 G2].
  cbv zeta.
  destruct G2 as [Gd [Gc [Gp [Gt [Gs [Gh [Gi Gb]]]]]]].
  change (selenium s0) with (selenium s1) in *.
  rewrite Hs1 in *.
  cbn [app] in G1.
  rewrite filter_flat_map in Gc, Gp. fold (due scraped (max_companies o)) in *.
  split; [exact G1|]. split; [rewrite Gd; cbn; rewrite He1; reflexivity|].
  split; [rewrite Gc; cbn; rewrite Hc1; reflexivity|].
  split; [rewrite Gp; reflexivity|].
  split; [rewrite Gt; reflexivity|].
  split; [exact Gh|]. split; [exact Gi|]. split; [exact Gs|].
  split; [rewrite Gb; exact Hb1|exact Hcount].
Qed.

End ArcatPass.

(* ------------------------------------------------------------------ *)
(** ** ARCAT: the detail pass keeps the listing *)
(* ------------------------------------------------------------------ *)

Module ArcatKept.
Import Arcat ArcatCrawl ArcatNotions.

Lemma same_identities_refl :
  forall cs, Forall2 same_identity cs cs.
Proof.
  induction cs; constructor; [apply ArcatFrame.same_identity_refl|assumption].
Qed.

Lemma same_identities_trans :
  forall cs1 cs2 cs3,
    Forall2 same_identity cs1 cs2 -> Forall2 same_identity cs2 cs3 ->
    Forall2 same_identity cs1 cs3.
Proof.
  intros cs1 cs2 cs3 H. revert cs3.
  induction H as [|c1 c2 l1 l2 Hc H IH]; intros cs3 H3;
    inversion H3; subst; constructor.
  - eapply ArcatFrame.same_identity_trans; eassumption.
  - apply IH. assumption.
Qed.

Lemma same_division_refl : forall d, same_division d d.
Proof.
  intros d. unfold same_division. repeat split.
  apply same_identities_refl.
Qed.

Lemma same_division_trans :
  forall d1 d2 d3,
    same_division d1 d2 -> same_division d2 d3 -> same_division d1 d3.
Proof.
  intros d1 d2 d3 [A1 [A2 [A3 [A4 A5]]]] [B1 [B2 [B3 [B4 B5]]]].
  unfold same_division. repeat split; try congruence.
  eapply same_identities_trans; eassumption.
Qed.

Lemma same_listing_refl : forall ds, same_listing ds ds.
Proof.
  induction ds; constructor; [apply same_division_refl|assumption].
Qed.

Lemma same_listing_trans :
  forall l1 l2 l3,
    same_listing l1 l2 -> same_listing l2 l3 -> same_listing l1 l3.
Proof.
  intros l1 l2 l3 H. revert l3.
  induction H as [|d1 d2 l1 l2 Hd H IH]; intros l3 H3;
    inversion H3; subst; constructor.
  - eapply same_division_trans; eassumption.
  - apply IH. assumption.
Qed.

(** A view of the store that changes with the companies of one division
    only. *)
Lemma view_same :
  forall pre d beyond post cs cs',
    Forall2 same_identity cs cs' ->
    same_listing (pre ++ set_companies (cs ++ beyond) d :: post)
                 (pre ++ set_companies (cs' ++ beyond) d :: post).
Proof.
  intros pre d beyond post cs cs' H. unfold same_listing.
  apply Forall2_app; [apply same_listing_refl|].
  constructor; [|apply same_listing_refl].
  unfold same_division. cbn [set_companies code dname durl specifications
                                           companies].
  repeat split. apply Forall2_app; [exact H|apply same_identities_refl].
Qed.

Section Loops.

Variable site : Site.
Variable browser : Browser.
Variable clock : nat -> Q.
Variable interval : nat.
Variable stop : Stop.
Variable max_companies : option nat.
Variable scraped : list string.
Variable L : list Division.

Lemma divisions_maybe_save :
  forall mode s,
    divisions (maybe_save_checkpoint_every interval mode s) = divisions s.
Proof.
  intros mode s. unfold maybe_save_checkpoint_every.
  destruct (_ && _); reflexivity.
Qed.

Lemma detail_companies_same :
  forall todo view done s,
    (forall cs cs',
        Forall2 same_identity cs cs' ->
        same_listing (view cs) (view cs')) ->
    same_listing L (view (done ++ todo)) ->
    same_listing L (divisions s) ->
    same_listing
      L (view (fst (detail_companies site browser clock interval stop scraped
                                     view done todo s))) /\
    same_listing
      L (divisions (snd (detail_companies site browser clock interval stop
                                          scraped view done todo s))).
Proof.
  induction todo as [|c rest IH]; intros view done s Hview Hv Hs;
    cbn [detail_companies].
  - rewrite app_nil_r in Hv. split; assumption.
  - destruct (halted s); [split; assumption|].
    destruct (mem (url c) scraped).
    { apply IH; [exact Hview| |exact Hs].
      rewrite <- app_assoc. exact Hv. }
    destruct (interrupted s); [split; assumption|].
    destruct (stop_now stop s) as [[|]|]; cbn [fst snd];
      [split; assumption|split; assumption|].
    pose proof (ArcatFrame.details_identity (selenium s) site browser c)
      as Hid.
    destruct (scrape_company_details (selenium s) site browser c) as [r evs].
    cbn [fst] in Hid.
    assert (Hv' : same_listing L (view (done ++ res_company r :: rest))).
    { eapply same_listing_trans; [exact Hv|]. apply Hview.
      apply Forall2_app; [apply same_identities_refl|].
      constructor; [exact Hid|apply same_identities_refl]. }
    destruct (raised r); cbn [fst snd].
    + split; exact Hv'.
    + apply IH; [exact Hview| |].
      * rewrite <- app_assoc. exact Hv'.
      * rewrite divisions_maybe_save. exact Hv'.
Qed.

Lemma detail_divisions_same :
  forall todo pre post s,
    same_listing L (pre ++ todo ++ post) ->
    same_listing L (divisions s) ->
    same_listing
      L (divisions (detail_divisions site browser clock interval stop
                                     max_companies scraped pre todo post s)).
Proof.
  induction todo as [|d rest IH]; intros pre post s Hl Hs;
    cbn [detail_divisions]; [exact Hs|].
  destruct (halted s || interrupted s); [exact Hs|].
  set (view := fun cs : list Company =>
                 pre ++ set_companies
                          (cs ++ skipn (List.length
                                          (limit max_companies (companies d)))
                                       (companies d)) d :: rest ++ post).
  destruct (detail_companies_same
              (limit max_companies (companies d)) view [] s) as [H1 H2].
  - intros cs cs' H. apply view_same. exact H.
  - subst view. cbn beta. cbn [app].
    rewrite ArcatPass.limit_skipn, ArcatPass.set_companies_same. exact Hl.
  - exact Hs.
  - destruct (detail_companies site browser clock interval stop scraped
                               view [] (limit max_companies (companies d)) s)
      as [cs s1].
    cbn [fst snd] in H1, H2.
    destruct (halted s1 || interrupted s1); [exact H2|].
    apply IH; [|exact H2].
    subst view. cbn beta in H1. rewrite <- app_assoc. exact H1.
Qed.

End Loops.

End ArcatKept.

(* ------------------------------------------------------------------ *)
(** ** ARCAT: the store of a run, however it is stopped *)
(* ------------------------------------------------------------------ *)

Module ArcatStore.
Import Arcat ArcatCrawl ArcatNotions.

Lemma divisions_final_checkpoint :
  forall s, divisions (final_checkpoint s) = divisions s.
Proof.
  intros s. unfold final_checkpoint.
  destruct (halted s); [reflexivity|].
  destruct (interrupted s); reflexivity.
Qed.

(** The divisions with which the detail pass starts. *)
Lemma detail_pass_same :
  forall interval site browser clock stop o scraped s,
    same_listing
      (entering site o s ++ beyond_limit site o s)
      (divisions (detail_pass interval site browser clock stop o scraped s)).
Proof.
  intros interval site browser clock stop o scraped s.
  unfold detail_pass, entering, beyond_limit, starting_divisions.
  unfold scrape_related_csi_divisions.
  set (s1 := if is_nil (divisions s) then _ else s).
  set (start := if is_nil (divisions s) then _ else divisions s).
  assert (H1 : divisions s1 = start).
  { subst s1 start. destruct (is_nil (divisions s)); [|reflexivity].
    destruct (_make_request site categories_url) as [[p|] evs]; reflexivity. }
  clearbody s1 start. rewrite H1.
  destruct (ArcatPass.count_pass_spec
              site (max_companies o) scraped (limit (max_divisions o) start))
    as [Hds _].
  destruct (count_pass site (max_companies o) scraped
                       (limit (max_divisions o) start)) as [[ds total] evs].
  cbn [fst] in Hds. subst ds.
  apply ArcatKept.detail_divisions_same; cbn [app];
    apply ArcatKept.same_listing_refl.
Qed.

Lemma same_listing_urls :
  forall l l',
    same_listing l l' -> map url (entities l') = map url (entities l).
Proof.
  intros l l' H. unfold entities.
  induction H as [|d d' l l' [_ [_ [_ [_ Hcs]]]] H IH]; [reflexivity|].
  cbn [flat_map]. rewrite !map_app, IH. f_equal.
  clear -Hcs. induction Hcs as [|c c' cs cs' [_ [Hu _]] H IH]; [reflexivity|].
  cbn [map]. rewrite Hu, IH. reflexivity.
Qed.

Lemma same_listing_length :
  forall l l', same_listing l l' -> List.length l' = List.length l.
Proof.
  intros l l' H. induction H; cbn [List.length]; congruence.
Qed.

Lemma same_listing_plain :
  forall l l', same_listing l l' -> Forall plain l -> Forall plain l'.
Proof.
  intros l l' H.
  induction H as [|d d' l l' [_ [_ [_ [Hsp Hcs]]]] H IH]; intros Hp;
    [constructor|].
  inversion Hp as [|? ? [Hd1 Hd2] Hrest]; subst.
  constructor; [|apply IH; exact Hrest].
  split; [congruence|].
  clear -Hcs Hd2.
  induction Hcs as [|c c' cs cs' [_ [_ [_ [Hpr _]]]] H IH]; [constructor|].
  inversion Hd2; subst. constructor; [congruence|apply IH; assumption].
Qed.

(** The companies that a listing page gives have no products. *)
Lemma manufacturers_loop_plain :
  forall d links st,
    Forall (fun kv => products (snd kv) = []) (fst st) ->
    Forall (fun kv => products (snd kv) = [])
           (fst (fold_left (manufacturers_step d) links st)).
Proof.
  intros d links. induction links as [|l links IH]; intros st H; [exact H|].
  cbn [fold_left]. apply IH. destruct st as [seen n].
  unfold manufacturers_step.
  destruct (_ || _); [exact H|].
  destruct (dict_has _ seen); [exact H|].
  destruct (_is_association _); [exact H|].
  cbn [fst] in *. apply Forall_app. split; [exact H|].
  constructor; [reflexivity|constructor].
Qed.

Lemma expand_if_empty_plain :
  forall site d, plain d -> plain (expand_if_empty site d).
Proof.
  intros site d [Hsp Hcs]. unfold expand_if_empty.
  destruct (is_nil (companies d)); [|split; assumption].
  unfold scrape_division_manufacturers.
  destruct (_make_request site (durl d)) as [[p|] evs]; [|split; assumption].
  pose proof (manufacturers_loop_plain d (find_links company_link_re p)
                ([], 0) (Forall_nil _)) as H.
  unfold manufacturers_loop.
  destruct (fold_left _ _ _) as [seen n].
  cbn [fst set_companies] in *. split; [exact Hsp|].
  cbn [companies]. rewrite Forall_forall in *. intros c Hc.
  apply in_map_iff in Hc. destruct Hc as [kv [<- Hin]]. exact (H kv Hin).
Qed.

Lemma csi_divisions_loop_plain :
  forall links seen, Forall plain (csi_divisions_loop links seen).
Proof.
  induction links as [|l links IH]; intros seen; cbn [csi_divisions_loop];
    [constructor|].
  destruct (mem (href l) seen); [apply IH|].
  destruct (rmatch_start csi_text_re (atext l)); [|apply IH].
  constructor; [|apply IH]. split; [reflexivity|constructor].
Qed.

Lemma restored_plain :
  forall js, Forall plain (map division_of_json js).
Proof.
  induction js as [|j js IH]; [constructor|].
  cbn [map]. constructor; [|exact IH].
  split; [reflexivity|]. cbn [division_of_json companies].
  induction (j_companies j) as [|t ts IHt]; constructor;
    [reflexivity|exact IHt].
Qed.

Lemma limit_plain :
  forall n ds, Forall plain ds -> Forall plain (limit n ds).
Proof. intros n ds H. apply ArcatRun.limit_Forall. exact H. Qed.

Lemma skipn_Forall :
  forall (A : Type) (P : A -> Prop) k (l : list A),
    Forall P l -> Forall P (skipn k l).
Proof.
  intros A P. induction k as [|k IH]; intros l H; [exact H|].
  destruct l as [|x l]; [constructor|].
  inversion H; subst. cbn [skipn]. apply IH. assumption.
Qed.

(** The divisions with which a run starts hold nothing that the
    checkpoint file leaves out. *)
Lemma start_plain :
  forall site o s,
    Forall plain (divisions s) ->
    Forall plain (entering site o s ++ beyond_limit site o s).
Proof.
  intros site o s Hs.
  assert (Hstart : Forall plain (starting_divisions site s)).
  { unfold starting_divisions, scrape_related_csi_divisions.
    destruct (is_nil (divisions s)); [|exact Hs].
    destruct (_make_request site categories_url) as [[p|] evs]; cbn [fst];
      [apply csi_divisions_loop_plain|exact Hs]. }
  apply Forall_app. split.
  - unfold entering. apply Forall_forall. intros d Hd.
    apply in_map_iff in Hd. destruct Hd as [d0 [<- Hin]].
    apply expand_if_empty_plain.
    pose proof (limit_plain (max_divisions o) _ Hstart) as Hl.
    rewrite Forall_forall in Hl. exact (Hl d0 Hin).
  - unfold beyond_limit. apply skipn_Forall. exact Hstart.
Qed.

Lemma resumed_plain :
  forall o use_selenium file,
    Forall plain
           (divisions (fst (resume_csi_only
                              o (new_scraper use_selenium file)))).
Proof.
  intros o use_selenium file. unfold resume_csi_only.
  destruct (resume o); [|constructor].
  cbn [_load_checkpoint new_scraper disk]. destruct file as [cp|];
    [|constructor].
  destruct (String.eqb (cp_mode cp) csi_only_mode); [|constructor].
  cbn. apply restored_plain.
Qed.

End ArcatStore.

(** X13. The detail pass of [scrape_csi_only] keeps the listing, however
    the site answers and wherever the run is stopped: the store ends
    with the divisions it had when the counting pass was over, in the
    same order, each with the same code, name, URL and companies, and
    each company with the name, URL, id, products and category it had;
    only the contact fields of a company can differ. *)
Theorem detail_pass_keeps_the_listing :
  forall interval site browser clock stop o (s : Arcat.Scraper),
    let start := fst (Arcat.resume_csi_only o s) in
    let s' := Arcat.scrape_csi_only_every
                interval site browser clock stop o s in
    ArcatCrawl.same_listing
      (ArcatCrawl.entering site o start ++ ArcatCrawl.beyond_limit site o start)
      (Arcat.divisions s') /\
    List.length (Arcat.divisions s')
    = List.length (ArcatCrawl.starting_divisions site start) /\
    map Arcat.url (Arcat.entities (Arcat.divisions s'))
    = map Arcat.url
          (Arcat.entities (ArcatCrawl.entering site o start
                             ++ ArcatCrawl.beyond_limit site o start)).
Proof.
  intros interval site browser clock stop o s. cbv zeta.
  unfold Arcat.scrape_csi_only_every.
  destruct (Arcat.resume_csi_only o s) as [s0 scraped]. cbn [fst].
  rewrite ArcatWhole.csi_only_passes_parts,
    ArcatStore.divisions_final_checkpoint.
  pose proof (ArcatStore.detail_pass_same
                interval site browser clock stop o scraped s0) as H.
  split; [exact H|]. split.
  - rewrite (ArcatStore.same_listing_length _ _ H).
    unfold ArcatCrawl.entering, ArcatCrawl.beyond_limit.
    rewrite length_app, length_map, <- length_app,
      ArcatPass.limit_skipn. reflexivity.
  - apply ArcatStore.same_listing_urls. exact H.
Qed.

(** X14. In a run of [scrape_csi_only] by a new process, with or
    without a checkpoint file to resume from, however the site answers
    and wherever the run is stopped, no division of the store has
    specifications and no company has products: the store holds nothing
    that the checkpoint file leaves out, and writing it and reading it
    back gives the same divisions. *)
Theorem run_store_survives_the_checkpoint :
  forall interval site browser clock stop o use_selenium file,
    let s' := Arcat.scrape_csi_only_every
                interval site browser clock stop o
                (Arcat.new_scraper use_selenium file) in
    Forall ArcatCrawl.plain (Arcat.divisions s') /\
    map Arcat.division_of_json
        (map Arcat.division_to_json (Arcat.divisions s'))
    = Arcat.divisions s'.
Proof.
  intros interval site browser clock stop o use_selenium file. cbv zeta.
  assert (Hplain :
            Forall ArcatCrawl.plain
                   (Arcat.divisions
                      (Arcat.scrape_csi_only_every
                         interval site browser clock stop o
                         (Arcat.new_scraper use_selenium file)))).
  { pose proof (ArcatStore.resumed_plain o use_selenium file) as Hstart.
    unfold Arcat.scrape_csi_only_every.
    destruct (Arcat.resume_csi_only o (Arcat.new_scraper use_selenium file))
      as [s0 scraped].
    cbn [fst] in Hstart.
    rewrite ArcatWhole.csi_only_passes_parts,
      ArcatStore.divisions_final_checkpoint.
    eapply ArcatStore.same_listing_plain.
    - apply ArcatStore.detail_pass_same.
    - apply ArcatStore.start_plain. exact Hstart. }
  split; [exact Hplain|].
  rewrite map_map.
  rewrite (map_ext _ _ ArcatFile.division_round_trip).
  apply ArcatFile.kept_store_plain. exact Hplain.
Qed.

(* ------------------------------------------------------------------ *)
(** ** ARCAT: a run that nothing stops, from its start to its end *)
(* ------------------------------------------------------------------ *)

Module ArcatFinished.
Import Arcat ArcatCrawl ArcatNotions.

(** The scraper with which the passes of a new process start. *)
Lemma resumed_start :
  forall o use_selenium file,
    let r := resume_csi_only o (new_scraper use_selenium file) in
    halted (fst r) = false /\ interrupted (fst r) = false /\
    selenium (fst r) = use_selenium /\ details (fst r) = [] /\
    Forall (fun d => Forall (ready (snd r)) (companies d))
           (divisions (fst r)).
Proof.
  intros o use_selenium file. cbv zeta. unfold resume_csi_only.
  destruct (resume o);
    [cbn [_load_checkpoint new_scraper disk]; destruct file as [cp|];
     [destruct (String.eqb (cp_mode cp) csi_only_mode)|]|];
    cbn [fst snd]; repeat split; try reflexivity; try constructor.
  apply ArcatRun.scraped_urls_ready.
Qed.

Lemma final_checkpoint_fields :
  forall s,
    halted s = false ->
    divisions (final_checkpoint s) = divisions s /\
    details (final_checkpoint s) = details s /\
    companies_scraped_count (final_checkpoint s) = companies_scraped_count s /\
    progress (final_checkpoint s) = progress s /\
    selenium (final_checkpoint s) = false.
Proof.
  intros s Hrun. unfold final_checkpoint. rewrite Hrun.
  destruct (interrupted s); repeat split; reflexivity.
Qed.

(** The run of a new process that nothing stops. *)
Lemma run_never :
  forall interval site browser clock o use_selenium file,
    let start := fst (resume_csi_only o (new_scraper use_selenium file)) in
    let scraped := snd (resume_csi_only o (new_scraper use_selenium file)) in
    let s' := scrape_csi_only_every interval site browser clock Never o
                                    (new_scraper use_selenium file) in
    divisions s'
    = map (detailed_division use_selenium site browser scraped
                             (max_companies o))
          (entering site o start)
        ++ beyond_limit site o start /\
    details s'
    = flat_map (detail_events use_selenium site browser scraped)
               (flat_map (fun d => limit (max_companies o) (companies d))
                         (entering site o start)) /\
    companies_scraped_count s'
    = companies_scraped_count start
      + List.length (flat_map (due scraped (max_companies o))
                              (entering site o start)) /\
    ProgressTracker.scraped_items (progress s')
    = List.length (flat_map (due scraped (max_companies o))
                            (entering site o start)) /\
    ProgressTracker.total_items (progress s')
    = List.length (flat_map (due scraped (max_companies o))
                            (entering site o start)) /\
    Forall (fun d => Forall (ready scraped) (companies d))
           (entering site o start).
Proof.
  intros interval site browser clock o use_selenium file. cbv zeta.
  pose proof (resumed_start o use_selenium file) as Hstart. cbv zeta in Hstart.
  unfold scrape_csi_only_every.
  destruct (resume_csi_only o (new_scraper use_selenium file))
    as [s0 scraped].
  cbn [fst snd] in *.
  destruct Hstart as [Hrun [Hint [Hsel [Hdet Hready]]]].
  rewrite ArcatWhole.csi_only_passes_parts.
  pose proof (ArcatPass.detail_pass_never
                interval site browser clock o scraped s0 Hrun Hint Hready)
    as H.
  cbv zeta in H.
  destruct H as [H1 [H2 [H3 [H4 [H5 [H6 [_ [_ [_ H10]]]]]]]]].
  destruct (final_checkpoint_fields _ H6) as [F1 [F2 [F3 [F4 _]]]].
  rewrite F1, F2, F3, F4, H1, H2, H3, H4, H5, Hsel, Hdet.
  repeat split; try reflexivity. exact H10.
Qed.

(** Without a browser, the detail call of a company without address
    asks for its page once. *)
Lemma detail_events_requested :
  forall site browser scraped c,
    mem (url c) scraped = false ->
    is_empty (address c) = true ->
    detail_events false site browser scraped c = [Requested (url c)].
Proof.
  intros site browser scraped c Hmem Hempty.
  unfold detail_events, scrape_company_details. rewrite Hmem, Hempty.
  destruct (site (url c) 0); reflexivity.
Qed.

(** With or without a browser, the detail call of a company without
    address asks for its page. *)
Lemma detail_events_own_page :
  forall sel site browser scraped c,
    mem (url c) scraped = false ->
    is_empty (address c) = true ->
    In (url c) (detail_urls (detail_events sel site browser scraped c)).
Proof.
  intros sel site browser scraped c Hmem Hempty.
  unfold detail_events, scrape_company_details. rewrite Hmem.
  destruct sel.
  - destruct (browser (url c)) as [p|].
    + destruct (is_empty (address (apply_rendered _ c)));
        [destruct (site (url (apply_rendered _ c)) 0)|]; left; reflexivity.
    + rewrite Hempty. destruct (site (url c) 0); left; reflexivity.
  - rewrite Hempty. destruct (site (url c) 0); left; reflexivity.
Qed.

Lemma ready_due :
  forall scraped c,
    ready scraped c -> not_scraped scraped c = true ->
    mem (url c) scraped = false /\ is_empty (address c) = true.
Proof.
  intros scraped c [H|H] Hn; unfold not_scraped in Hn;
    destruct (mem (url c) scraped); try discriminate; auto.
Qed.

Lemma requested_due :
  forall site browser scraped cs,
    Forall (ready scraped) cs ->
    flat_map (detail_events false site browser scraped) cs
    = map (fun c => Requested (url c)) (filter (not_scraped scraped) cs).
Proof.
  intros site browser scraped. induction cs as [|c cs IH]; intros H;
    [reflexivity|].
  inversion H as [|? ? Hc Hcs]; subst. cbn [flat_map filter].
  rewrite (IH Hcs).
  destruct (not_scraped scraped c) eqn:Hn.
  - destruct (ready_due _ _ Hc Hn) as [Hmem Hempty].
    rewrite detail_events_requested by assumption. reflexivity.
  - unfold detail_events. unfold not_scraped in Hn.
    destruct (mem (url c) scraped); [reflexivity|discriminate].
Qed.

Lemma ready_within :
  forall scraped max_companies ds,
    Forall (fun d => Forall (ready scraped) (companies d)) ds ->
    Forall (ready scraped)
           (flat_map (fun d => limit max_companies (companies d)) ds).
Proof.
  intros scraped max_companies. induction ds as [|d ds IH]; intros H;
    [constructor|].
  inversion H; subst. cbn [flat_map]. apply Forall_app. split.
  - apply ArcatRun.limit_Forall. assumption.
  - apply IH. assumption.
Qed.

(** In a run that nothing stops every company that is due has its page
    asked for, with a browser or without. *)
Lemma due_pages_are_requested :
  forall interval site browser clock o use_selenium file c,
    In c (flat_map
            (due (snd (resume_csi_only o (new_scraper use_selenium file)))
                 (max_companies o))
            (entering site o
                      (fst (resume_csi_only
                              o (new_scraper use_selenium file))))) ->
    In (url c)
       (detail_urls
          (details
             (scrape_csi_only_every interval site browser clock Never o
                                    (new_scraper use_selenium file)))).
Proof.
  intros interval site browser clock o use_selenium file c Hc.
  destruct (run_never
              interval site browser clock o use_selenium file)
    as [_ [T2 [_ [_ [_ T6]]]]].
  cbv zeta in *. rewrite T2.
  set (scraped := snd (Arcat.resume_csi_only
                         o (Arcat.new_scraper use_selenium file))) in *.
  apply in_flat_map in Hc. destruct Hc as [d [Hd Hc]].
  unfold ArcatCrawl.due in Hc. apply filter_In in Hc.
  destruct Hc as [Hin Hn].
  assert (Hr : ArcatNotions.ready scraped c).
  { rewrite Forall_forall in T6. pose proof (T6 d Hd) as Hd'.
    pose proof (ArcatRun.limit_Forall
                  _ _ (Arcat.max_companies o) _ Hd') as Hl.
    rewrite Forall_forall in Hl. exact (Hl c Hin). }
  destruct (ready_due _ _ Hr Hn) as [Hmem Hempty].
  unfold Arcat.detail_urls. rewrite flat_map_concat_map, concat_map, map_map.
  rewrite <- flat_map_concat_map. apply in_flat_map.
  exists c. split.
  + apply in_flat_map. exists d. split; assumption.
  + apply (detail_events_own_page
             use_selenium site browser scraped c Hmem Hempty).
Qed.

End ArcatFinished.

(** X15. When nothing stops [scrape_csi_only], the progress tracker ends
    complete, however the site answers: the number of companies scraped
    that it shows is the total announced at the start of the detail
    pass, which is the number of companies within the limits whose URL
    is not in the set built on resume, and the count of the scraper is
    the count it resumed with plus that number.  The
    checkpoint file that a resuming process finds is one the restore can
    read: its entries have the keys that [_restore_from_checkpoint]
    indexes, as every file written by [_save_checkpoint] has. *)
Theorem unstopped_run_completes_its_total :
  forall interval site browser clock o use_selenium file,
    let start :=
      fst (Arcat.resume_csi_only o (Arcat.new_scraper use_selenium file)) in
    let scraped :=
      snd (Arcat.resume_csi_only o (Arcat.new_scraper use_selenium file)) in
    let s' := Arcat.scrape_csi_only_every
                interval site browser clock Arcat.Never o
                (Arcat.new_scraper use_selenium file) in
    ProgressTracker.scraped_items (Arcat.progress s')
    = ProgressTracker.total_items (Arcat.progress s') /\
    ProgressTracker.total_items (Arcat.progress s')
    = List.length
        (flat_map (ArcatCrawl.due scraped (Arcat.max_companies o))
                  (ArcatCrawl.entering site o start)) /\
    Arcat.companies_scraped_count s'
    = Arcat.companies_scraped_count start
      + ProgressTracker.total_items (Arcat.progress s').
Proof.
  intros interval site browser clock o use_selenium file. cbv zeta.
  destruct (ArcatFinished.run_never
              interval site browser clock o use_selenium file)
    as [_ [_ [H3 [H4 [H5 _]]]]].
  cbv zeta in *. rewrite H3, H4, H5. repeat split; reflexivity.
Qed.

(** X16. When nothing stops [scrape_csi_only] and no browser is used,
    the run requests the detail page of every company within the limits
    whose URL is not in the set built on resume, once each and in the
    order of the store, and no other detail page; the store ends with
    those companies as their pages filled them and all others as they
    were.  With a browser every such page is still asked for.  The
    checkpoint file that a resuming process finds is one the restore can
    read: its entries have the keys that [_restore_from_checkpoint]
    indexes, as every file written by [_save_checkpoint] has. *)
Theorem unstopped_run_fetches_each_due_page_once :
  forall interval site browser clock o file,
    let start := fst (Arcat.resume_csi_only o (Arcat.new_scraper false file)) in
    let scraped :=
      snd (Arcat.resume_csi_only o (Arcat.new_scraper false file)) in
    let s' := Arcat.scrape_csi_only_every
                interval site browser clock Arcat.Never o
                (Arcat.new_scraper false file) in
    Arcat.details s'
    = map (fun c => Arcat.Requested (Arcat.url c))
          (flat_map (ArcatCrawl.due scraped (Arcat.max_companies o))
                    (ArcatCrawl.entering site o start)) /\
    Arcat.divisions s'
    = map (ArcatCrawl.detailed_division false site browser scraped
                                        (Arcat.max_companies o))
          (ArcatCrawl.entering site o start)
        ++ ArcatCrawl.beyond_limit site o start /\
    (forall use_selenium c,
        In c (flat_map
                (ArcatCrawl.due
                   (snd (Arcat.resume_csi_only
                           o (Arcat.new_scraper use_selenium file)))
                   (Arcat.max_companies o))
                (ArcatCrawl.entering
                   site o
                   (fst (Arcat.resume_csi_only
                           o (Arcat.new_scraper use_selenium file))))) ->
        In (Arcat.url c)
           (Arcat.detail_urls
              (Arcat.details
                 (Arcat.scrape_csi_only_every
                    interval site browser clock Arcat.Never
                    o (Arcat.new_scraper use_selenium file))))).
Proof.
  intros interval site browser clock o file. cbv zeta.
  destruct (ArcatFinished.run_never interval site browser clock o false file)
    as [H1 [H2 [_ [_ [_ H6]]]]].
  cbv zeta in *.
  split; [|split].
  - rewrite H2.
    rewrite ArcatFinished.requested_due
      by (apply ArcatFinished.ready_within; exact H6).
    rewrite ArcatPass.filter_flat_map. reflexivity.
  - exact H1.
  - intros use_selenium c Hc.
    exact (ArcatFinished.due_pages_are_requested
             interval site browser clock o use_selenium file c Hc).
Qed.

(* ------------------------------------------------------------------ *)
(** ** ARCAT: the exported sheet *)
(* ------------------------------------------------------------------ *)

Module ArcatSheet.
Import Arcat ArcatExport ArcatCheckpoint.

Lemma or_empty_id : forall x, or_empty x = x.
Proof. intros [|c x]; reflexivity. Qed.

Lemma column_app :
  forall col a b, column col (a ++ b) = column col a ++ column col b.
Proof. intros. unfold column. apply flat_map_app. Qed.

Lemma division_rows_length :
  forall d,
    List.length (division_rows d) = Nat.max 1 (List.length (companies d)).
Proof.
  intros d. unfold division_rows.
  destruct (companies d) as [|c cs]; [reflexivity|].
  cbn [is_nil]. rewrite length_map. cbn [List.length]. lia.
Qed.

Lemma data_rows_length :
  forall ds,
    List.length (flat_map division_rows ds)
    = list_sum (map (fun d => Nat.max 1 (List.length (companies d))) ds).
Proof.
  induction ds as [|d ds IH]; [reflexivity|].
  cbn [flat_map map list_sum fold_right]. rewrite length_app, IH.
  rewrite division_rows_length. reflexivity.
Qed.

Lemma category_rows_length :
  forall cs,
    List.length (flat_map category_rows cs)
    = List.length (flat_map ccompanies cs).
Proof.
  induction cs as [|c cs IH]; [reflexivity|].
  cbn [flat_map]. rewrite !length_app, IH. unfold category_rows.
  rewrite length_map. reflexivity.
Qed.

(** What a data row holds. *)
Lemma division_rows_well_formed :
  forall d,
    Forall (fun r =>
              cell 13 r = Some "ARCAT" /\
              Forall (fun kv => 1 <= fst kv <= List.length headers) r)
           (division_rows d).
Proof.
  intros d. unfold division_rows.
  destruct (is_nil (companies d)).
  - constructor; [|constructor]. split; [reflexivity|].
    repeat constructor.
  - apply Forall_forall. intros r Hr. apply in_map_iff in Hr.
    destruct Hr as [c [<- _]]. split; [reflexivity|].
    cbn. repeat constructor.
Qed.

Lemma category_rows_well_formed :
  forall c,
    Forall (fun r =>
              cell 13 r = Some "ARCAT" /\
              Forall (fun kv => 1 <= fst kv <= List.length headers) r)
           (category_rows c).
Proof.
  intros c. unfold category_rows. apply Forall_forall. intros r Hr.
  apply in_map_iff in Hr. destruct Hr as [x [<- _]].
  split; [reflexivity|]. cbn. repeat constructor.
Qed.

Lemma flat_map_Forall :
  forall (A B : Type) (P : B -> Prop) (f : A -> list B) (l : list A),
    (forall x, Forall P (f x)) -> Forall P (flat_map f l).
Proof.
  intros A B P f l H. induction l as [|x l IH]; [constructor|].
  cbn [flat_map]. apply Forall_app. split; [apply H|exact IH].
Qed.

Lemma division_rows_urls :
  forall d, column 12 (division_rows d) = map url (companies d).
Proof.
  intros d. unfold division_rows.
  destruct (companies d) as [|c cs]; [reflexivity|].
  cbn [is_nil]. generalize (c :: cs). intros l.
  induction l as [|x l IH]; [reflexivity|].
  cbn [map]. unfold column in *. cbn [flat_map]. rewrite IH.
  cbn. rewrite or_empty_id. reflexivity.
Qed.

Lemma category_rows_urls :
  forall c, column 12 (category_rows c) = map url (ccompanies c).
Proof.
  intros c. unfold category_rows.
  induction (ccompanies c) as [|x l IH]; [reflexivity|].
  cbn [map]. unfold column in *. cbn [flat_map]. rewrite IH.
  cbn. rewrite or_empty_id. reflexivity.
Qed.

Lemma data_rows_urls :
  forall ds,
    column 12 (flat_map division_rows ds) = map url (entities ds).
Proof.
  induction ds as [|d ds IH]; [reflexivity|].
  unfold entities in *. cbn [flat_map].
  rewrite column_app, map_app, IH, division_rows_urls. reflexivity.
Qed.

Lemma categories_urls :
  forall cs,
    column 12 (flat_map category_rows cs)
    = map url (flat_map ccompanies cs).
Proof.
  induction cs as [|c cs IH]; [reflexivity|].
  cbn [flat_map].
  rewrite column_app, map_app, IH, category_rows_urls. reflexivity.
Qed.

Lemma division_rows_name :
  forall d, In (dname d) (column 2 (division_rows d)).
Proof.
  intros d. unfold division_rows.
  destruct (companies d) as [|c cs]; [left; reflexivity|].
  cbn [is_nil map]. left. reflexivity.
Qed.

Lemma division_rows_codes :
  forall d,
    Forall (fun v => v = formatted_code d) (column 1 (division_rows d)).
Proof.
  intros d. unfold division_rows.
  destruct (is_nil (companies d)); [repeat constructor|].
  induction (companies d) as [|x l IH]; [constructor|].
  cbn [map]. unfold column in *. cbn [flat_map].
  constructor; [reflexivity|exact IH].
Qed.

(** A code with a space in it is not made of digits. *)
Lemma all_chars_app :
  forall p a b, all_chars p (a ++ b) = all_chars p a && all_chars p b.
Proof.
  intros p. induction a as [|c a IH]; intros b; [reflexivity|].
  cbn [append all_chars]. rewrite IH. apply andb_assoc.
Qed.

Lemma formatted_code_of_csi :
  forall d n, code d = (n ++ " 00 00")%string -> formatted_code d = code d.
Proof.
  intros d n H. unfold formatted_code, isdigit. rewrite H at 1 2.
  rewrite all_chars_app. cbn [all_chars].
  replace (is_digit " ") with false by reflexivity.
  cbn [andb]. rewrite !andb_false_r. reflexivity.
Qed.

(** The rows do not depend on what the checkpoint file leaves out. *)
Lemma division_rows_kept :
  forall d, division_rows (kept_division d) = division_rows d.
Proof.
  intros d. unfold division_rows, kept_division, formatted_code.
  cbn [code dname companies].
  destruct (companies d) as [|c cs]; [reflexivity|].
  cbn [map is_nil]. f_equal. rewrite map_map. reflexivity.
Qed.

Lemma category_rows_kept :
  forall c, category_rows (kept_category c) = category_rows c.
Proof.
  intros c. unfold category_rows, kept_category. cbn [ccompanies].
  rewrite map_map. reflexivity.
Qed.

Lemma flat_map_map :
  forall (A B C : Type) (f : A -> B) (g : B -> list C) (l : list A),
    flat_map g (map f l) = flat_map (fun x => g (f x)) l.
Proof.
  intros A B C f g. induction l as [|x l IH]; [reflexivity|].
  cbn [map flat_map]. rewrite IH. reflexivity.
Qed.

End ArcatSheet.

(** X17. The sheet of ARCAT [export_to_excel] loses nothing of the
    store: under the header row it has one row for every company of
    every division, one row for every division without companies and
    one for every company of a category, in the order of the store, so
    the column of the company URLs lists the URLs of all companies and
    every division has its name in the sheet; every row ends with the
    source ARCAT in column 13 and writes no column outside the
    headers; a division code of the form n 00 00 is written as it is.
    The sheet does not depend on what the checkpoint leaves out: the
    store restored from a checkpoint exports to the same sheet. *)
Theorem export_lists_the_whole_store :
  forall s : Arcat.Scraper,
    List.length (ArcatExport.export_to_excel s)
    = 1 + list_sum (map (fun d =>
                           Nat.max 1 (List.length (Arcat.companies d)))
                        (Arcat.divisions s))
        + List.length (flat_map Arcat.ccompanies
                                (Arcat.building_product_categories s)) /\
    Forall (fun r =>
              ArcatExport.cell 13 r = Some "ARCAT" /\
              Forall (fun kv =>
                        1 <= fst kv <= List.length ArcatExport.headers) r)
           (tl (ArcatExport.export_to_excel s)) /\
    ArcatExport.column 12 (tl (ArcatExport.export_to_excel s))
    = map Arcat.url (Arcat.entities (Arcat.divisions s))
        ++ map Arcat.url (flat_map Arcat.ccompanies
                                   (Arcat.building_product_categories s)) /\
    (forall d,
        In d (Arcat.divisions s) ->
        In (Arcat.dname d)
           (ArcatExport.column 2 (tl (ArcatExport.export_to_excel s))) /\
        forall n,
          Arcat.code d = (n ++ " 00 00")%string ->
          ArcatExport.column 1 (ArcatExport.division_rows d)
          = repeat (Arcat.code d)
                   (Nat.max 1 (List.length (Arcat.companies d)))) /\
    (forall mode use_selenium file,
        option_map
          (fun cp =>
             ArcatExport.export_to_excel
               (Arcat._restore_from_checkpoint
                  cp (Arcat.new_scraper use_selenium file)))
          (Arcat.disk (Arcat._save_checkpoint mode s))
        = Some (ArcatExport.export_to_excel s)).
Proof.
  intros s. unfold ArcatExport.export_to_excel. cbn [tl List.length].
  split; [|split; [|split; [|split]]].
  - rewrite length_app, ArcatSheet.data_rows_length,
      ArcatSheet.category_rows_length. lia.
  - apply Forall_app. split; apply ArcatSheet.flat_map_Forall.
    + exact ArcatSheet.division_rows_well_formed.
    + exact ArcatSheet.category_rows_well_formed.
  - rewrite ArcatSheet.column_app, ArcatSheet.data_rows_urls,
      ArcatSheet.categories_urls. reflexivity.
  - intros d Hd. split.
    + rewrite ArcatSheet.column_app. apply in_or_app. left.
      unfold ArcatExport.column. apply in_flat_map.
      apply in_split in Hd. destruct Hd as [l1 [l2 ->]].
      pose proof (ArcatSheet.division_rows_name d) as Hn.
      unfold ArcatExport.column in Hn. apply in_flat_map in Hn.
      destruct Hn as [r [Hr Hv]]. exists r. split; [|exact Hv].
      rewrite flat_map_app. apply in_or_app. right.
      cbn [flat_map]. apply in_or_app. left. exact Hr.
    + intros n Hcode.
      pose proof (ArcatSheet.division_rows_codes d) as Hc.
      rewrite (ArcatSheet.formatted_code_of_csi d n Hcode) in Hc.
      assert (Hlen : List.length
                       (ArcatExport.column 1 (ArcatExport.division_rows d))
                     = Nat.max 1 (List.length (Arcat.companies d))).
      { rewrite <- ArcatSheet.division_rows_length.
        unfold ArcatExport.division_rows, ArcatExport.column.
        destruct (is_nil (Arcat.companies d)); [reflexivity|].
        induction (Arcat.companies d) as [|x l IH]; [reflexivity|].
        cbn [map flat_map List.length]. rewrite length_app, IH.
        reflexivity. }
      rewrite <- Hlen. apply Forall_eq_repeat.
      eapply Forall_impl; [|exact Hc]. intros v Hv. symmetry. exact Hv.
  - intros mode use_selenium file. cbn. f_equal. f_equal. f_equal.
    + rewrite map_map, ArcatSheet.flat_map_map.
      apply flat_map_ext. intros d.
      rewrite ArcatFile.division_round_trip.
      apply ArcatSheet.division_rows_kept.
    + rewrite map_map, ArcatSheet.flat_map_map.
      apply flat_map_ext. intros c.
      rewrite ArcatFile.category_round_trip.
      apply ArcatSheet.category_rows_kept.
Qed.

(* ------------------------------------------------------------------ *)
(** ** SWEETS: the exported sheet *)
(* ------------------------------------------------------------------ *)

Module SweetsSheet.
Import Sweets SweetsExport.

Lemma product_rows_length :
  forall use_selenium ds,
    List.length
      (flat_map (fun d =>
                   flat_map (fun sec => map (product_row use_selenium)
                                            (products sec))
                            (sections d)) ds)
    = List.length (entities ds).
Proof.
  intros use_selenium. unfold entities.
  induction ds as [|d ds IH]; [reflexivity|].
  cbn [flat_map]. rewrite !length_app, IH. f_equal.
  induction (sections d) as [|sec ss IHs]; [reflexivity|].
  cbn [flat_map]. rewrite !length_app, IHs, length_map. reflexivity.
Qed.

Lemma product_rows_are_rows :
  forall use_selenium ds r,
    In r (flat_map (fun d =>
                      flat_map (fun sec => map (product_row use_selenium)
                                               (products sec))
                               (sections d)) ds) <->
    exists p, In p (entities ds) /\ r = product_row use_selenium p.
Proof.
  intros use_selenium ds r. unfold entities. split.
  - intros H. apply in_flat_map in H. destruct H as [d [Hd H]].
    apply in_flat_map in H. destruct H as [sec [Hsec H]].
    apply in_map_iff in H. destruct H as [p [<- Hp]].
    exists p. split; [|reflexivity].
    apply in_flat_map. exists d. split; [exact Hd|].
    apply in_flat_map. exists sec. split; assumption.
  - intros [p [H ->]]. apply in_flat_map in H. destruct H as [d [Hd H]].
    apply in_flat_map in H. destruct H as [sec [Hsec Hp]].
    apply in_flat_map. exists d. split; [exact Hd|].
    apply in_flat_map. exists sec. split; [exact Hsec|].
    apply in_map. exact Hp.
Qed.

End SweetsSheet.

(** X18. The sheet of SWEETS [export_to_excel] has, under the header
    row, one row for every product of the store, and in both modes,
    with and without the nine download-count columns of the Selenium
    mode, every product row has exactly as many cells as there are
    headers, with the product URL under the header Product URL, the
    manufacturer and the product name under theirs and SWEETS under
    Source; the download counts are in the sheet only in Selenium
    mode, the total under its header. *)
Theorem sweets_rows_line_up_with_the_headers :
  forall (use_selenium : bool) (ds : list Sweets.Division),
    List.length (SweetsExport.export_to_excel use_selenium ds)
    = 1 + List.length (Sweets.entities ds) /\
    Forall (fun r =>
              List.length r
              = List.length (SweetsExport.headers use_selenium))
           (SweetsExport.export_to_excel use_selenium ds) /\
    List.length (SweetsExport.headers use_selenium)
    = (if use_selenium then 37 else 28) /\
    (forall r,
        In r (tl (SweetsExport.export_to_excel use_selenium ds)) <->
        exists p, In p (Sweets.entities ds)
                  /\ r = SweetsExport.product_row use_selenium p) /\
    (forall p,
        let under h :=
          SweetsExport.under h (SweetsExport.headers use_selenium)
                             (SweetsExport.product_row use_selenium p) in
        under "Product URL" = Some (SweetsExport.Text (Sweets.url p)) /\
        under "Source" = Some (SweetsExport.Text "SWEETS") /\
        under "Manufacturer"
        = Some (SweetsExport.Text (Sweets.manufacturer_name p)) /\
        under "Product Name" = Some (SweetsExport.Text (Sweets.name p)) /\
        under "# Total Downloads"
        = (if use_selenium
           then Some (SweetsExport.Number
                        (Sweets.count_total (Sweets.counts p)))
           else None)).
Proof.
  intros use_selenium ds. unfold SweetsExport.export_to_excel.
  cbn [tl List.length].
  split; [|split; [|split; [|split]]].
  - rewrite SweetsSheet.product_rows_length. reflexivity.
  - constructor; [apply length_map|].
    apply Forall_forall. intros r Hr.
    apply SweetsSheet.product_rows_are_rows in Hr.
    destruct Hr as [p [_ ->]]. destruct use_selenium; reflexivity.
  - destruct use_selenium; reflexivity.
  - intros r. apply SweetsSheet.product_rows_are_rows.
  - intros p. cbv zeta. destruct use_selenium; repeat split; reflexivity.
Qed.

(* ------------------------------------------------------------------ *)
(** ** SWEETS: download indicators and counts *)
(* ------------------------------------------------------------------ *)

Module SweetsTabs.
Import Sweets SweetsDownloads.

Lemma follows_or :
  forall tab count flag,
    follows tab (or_count tab count) count (or_flag tab flag) flag.
Proof. intros [n|] count flag; split; reflexivity. Qed.

Lemma manufacturer_fallback_keeps :
  forall site cache p,
    url (fst (fst (manufacturer_fallback site cache p))) = url p /\
    counts (fst (fst (manufacturer_fallback site cache p))) = counts p.
Proof.
  intros site cache p. unfold manufacturer_fallback.
  destruct (_ && _); [|split; reflexivity].
  destruct (cache_get _ _) as [[m|]|]; try (split; reflexivity).
  destruct (_scrape_manufacturer_contact _ _) as [[m|] evs];
    split; reflexivity.
Qed.

(** The product as it is when the download counts are read: it has the
    URL and the counts it came with, and the indicators found in the
    markup of the page. *)
Lemma extract_product_before_counts :
  forall selenium site browser cache pg product,
    exists q,
      fst (fst (extract_product selenium site browser cache pg product))
      = (if selenium then _extract_download_counts_selenium browser q else q)
      /\ url q = url product /\ counts q = counts product
      /\ flags q = detect_flags (lower (html pg)).
Proof.
  intros selenium site browser cache pg product. unfold extract_product.
  match goal with
  | |- context [manufacturer_fallback site cache ?p0] =>
      assert (H0 : url p0 = url product /\ counts p0 = counts product)
        by (destruct (company_info pg); split; reflexivity);
      pose proof (manufacturer_fallback_keeps site cache p0) as Hk;
      destruct (manufacturer_fallback site cache p0) as [[q c] e]
  end.
  cbn [fst] in Hk. destruct Hk as [Hu Hc]. destruct H0 as [Hu0 Hc0].
  eexists. split; [reflexivity|].
  destruct (labelled_value "Category:" (html pg));
    destruct (labelled_value "MasterFormat:" (html pg));
    destruct (meta_description pg);
    destruct (search product_id_re (html pg));
    cbn [url counts flags set_flags set_manufacturer_id set_description
             set_masterformat set_category];
    repeat split; congruence.
Qed.

End SweetsTabs.

(** X19. In SWEETS [scrape_product_details] the indicators of the
    download kinds are first set from the markup of the product page;
    in Selenium mode the tabs of the rendered page then decide: for each
    of catalog, CAD, BIM, 3-part spec, gallery, CEU and green whose tab
    is shown with a number, the count is that number and the indicator
    says whether it is positive, whatever the markup said; a kind whose
    tab is absent keeps the count it had and the indicator of the
    markup; data sheet, product selector and supporting material always
    keep the indicator of the markup.  Without Selenium, or when the
    page cannot be rendered, the counts are not touched. *)
Theorem tabs_decide_the_download_indicators :
  forall site browser cache pg product,
    let markup := Sweets.detect_flags (lower (html pg)) in
    let plain :=
      fst (fst (Sweets.extract_product false site browser cache pg product)) in
    let p' :=
      fst (fst (Sweets.extract_product true site browser cache pg product)) in
    Sweets.flags plain = markup /\
    Sweets.counts plain = Sweets.counts product /\
    match browser (Sweets.url product) with
    | None =>
        Sweets.flags p' = markup /\ Sweets.counts p' = Sweets.counts product
    | Some shown =>
        let tab label := Sweets.tab_count label (html shown) in
        let fs := Sweets.flags p' in
        let cs := Sweets.counts p' in
        let cs0 := Sweets.counts product in
        SweetsDownloads.follows
          (tab SweetsDownloads.tab_catalog)
          (Sweets.count_catalog cs) (Sweets.count_catalog cs0)
          (Sweets.has_catalog fs) (Sweets.has_catalog markup) /\
        SweetsDownloads.follows
          (tab SweetsDownloads.tab_cad)
          (Sweets.count_cad cs) (Sweets.count_cad cs0)
          (Sweets.has_cad fs) (Sweets.has_cad markup) /\
        SweetsDownloads.follows
          (tab SweetsDownloads.tab_bim)
          (Sweets.count_bim cs) (Sweets.count_bim cs0)
          (Sweets.has_bim fs) (Sweets.has_bim markup) /\
        SweetsDownloads.follows
          (tab SweetsDownloads.tab_spec)
          (Sweets.count_3part_spec cs) (Sweets.count_3part_spec cs0)
          (Sweets.has_3part_spec fs) (Sweets.has_3part_spec markup) /\
        SweetsDownloads.follows
          (tab SweetsDownloads.tab_gallery)
          (Sweets.count_gallery cs) (Sweets.count_gallery cs0)
          (Sweets.has_gallery fs) (Sweets.has_gallery markup) /\
        SweetsDownloads.follows
          (tab SweetsDownloads.tab_ceu)
          (Sweets.count_ceu cs) (Sweets.count_ceu cs0)
          (Sweets.has_ceu fs) (Sweets.has_ceu markup) /\
        SweetsDownloads.follows
          (tab SweetsDownloads.tab_green)
          (Sweets.count_green cs) (Sweets.count_green cs0)
          (Sweets.has_green fs) (Sweets.has_green markup) /\
        Sweets.count_other cs
        = Sweets.or_count (tab SweetsDownloads.tab_other)
                          (Sweets.count_other cs0) /\
        Sweets.count_total cs
        = Sweets.or_count (tab SweetsDownloads.tab_all)
                          (Sweets.count_total cs0) /\
        Sweets.has_data_sheet fs = Sweets.has_data_sheet markup /\
        Sweets.has_product_selector fs = Sweets.has_product_selector markup /\
        Sweets.has_supporting_material fs
        = Sweets.has_supporting_material markup
    end.
Proof.
  intros site browser cache pg product. cbv zeta.
  destruct (SweetsTabs.extract_product_before_counts
              false site browser cache pg product) as [q [-> [_ [Hc Hf]]]].
  destruct (SweetsTabs.extract_product_before_counts
              true site browser cache pg product) as [r [-> [Hu [Hc' Hf']]]].
  split; [exact Hf|]. split; [exact Hc|].
  unfold Sweets._extract_download_counts_selenium. rewrite Hu.
  destruct (browser (Sweets.url product)) as [shown|];
    [|split; assumption].
  cbn [Sweets.flags Sweets.counts Sweets.set_flags Sweets.set_counts
         Sweets.has_3part_spec Sweets.has_bim Sweets.has_cad Sweets.has_ceu
         Sweets.has_catalog Sweets.has_data_sheet Sweets.has_gallery
         Sweets.has_green Sweets.has_product_selector
         Sweets.has_supporting_material Sweets.count_3part_spec
         Sweets.count_bim Sweets.count_cad Sweets.count_ceu
         Sweets.count_catalog Sweets.count_gallery Sweets.count_green
         Sweets.count_other Sweets.count_total].
  rewrite Hc', Hf'.
  repeat split; try apply SweetsTabs.follows_or; reflexivity.
Qed.

(* ------------------------------------------------------------------ *)
(** ** SWEETS: the index pages *)
(* ------------------------------------------------------------------ *)

Module SweetsIndex.
Import Sweets.

Lemma sweets_divisions_loop_distinct :
  forall links seen,
    NoDup (map durl (divisions_loop links seen)) /\
    Forall (fun d =>
              exists l, In l links /\ ~ In (href l) seen /\
                        durl d = (BASE_URL ++ href l)%string /\
                        sections d = [])
           (divisions_loop links seen).
Proof.
  induction links as [|link links IH]; intros seen;
    cbn [divisions_loop map]; [split; constructor|].
  destruct (mem (href link) seen) eqn:Hseen.
  - destruct (IH seen) as [Hnd Hall]. split; [exact Hnd|].
    eapply Forall_impl; [|exact Hall].
    intros d [l [Hl Hrest]]. exists l. split; [right; exact Hl|exact Hrest].
  - assert (Hfresh : ~ In (href link) seen).
    { intros Hin. apply mem_iff_In in Hin. congruence. }
    destruct (IH (href link :: seen)) as [Hnd Hall].
    assert (Hall' :
              Forall (fun d =>
                        exists l, In l (link :: links) /\ ~ In (href l) seen /\
                                  durl d = (BASE_URL ++ href l)%string /\
                                  sections d = [])
                     (divisions_loop links (href link :: seen))).
    { eapply Forall_impl; [|exact Hall].
      intros d [l [Hl [Hnot Hrest]]]. exists l.
      split; [right; exact Hl|]. split; [|exact Hrest].
      intros Hin. apply Hnot. right. exact Hin. }
    destruct (rmatch_start division_text_re (atext link)) as [m|];
      [|split; assumption].
    cbn [map]. split.
    + constructor; [|exact Hnd].
      cbn [durl]. intros Hin. apply in_map_iff in Hin.
      destruct Hin as [d [Hurl Hd]]. rewrite Forall_forall in Hall.
      destruct (Hall d Hd) as [l [_ [Hnot [Hdurl _]]]].
      rewrite Hdurl in Hurl. apply append_inj_l in Hurl.
      apply Hnot. left. symmetry. exact Hurl.
    + constructor; [|exact Hall'].
      exists link. split; [left; reflexivity|]. split; [exact Hfresh|].
      split; reflexivity.
Qed.

(** The sections that the loop finds come after those it was given,
    from links not seen, no two from the same link target. *)
Lemma sweets_sections_loop_distinct :
  forall links seen acc,
    exists found,
      sections_loop links seen acc = acc ++ found /\
      NoDup (map surl found) /\
      List.length found <= List.length links /\
      Forall (fun sec =>
                exists l, In l links /\ ~ In (href l) seen /\
                          surl sec = (BASE_URL ++ href l)%string /\
                          products sec = [])
             found.
Proof.
  induction links as [|link links IH]; intros seen acc;
    cbn [sections_loop].
  - exists []. rewrite app_nil_r. repeat split; constructor.
  - destruct (mem (href link) seen) eqn:Hseen.
    + destruct (IH seen acc) as [found [Heq [Hnd [Hlen Hall]]]].
      exists found. split; [exact Heq|]. split; [exact Hnd|].
      split; [cbn [List.length]; lia|].
      eapply Forall_impl; [|exact Hall].
      intros d [l [Hl Hrest]]. exists l.
      split; [right; exact Hl|exact Hrest].
    + assert (Hfresh : ~ In (href link) seen).
      { intros Hin. apply mem_iff_In in Hin. congruence. }
      assert (Hweak :
                forall found,
                  Forall (fun sec =>
                            exists l, In l links /\
                                      ~ In (href l) (href link :: seen) /\
                                      surl sec = (BASE_URL ++ href l)%string /\
                                      products sec = []) found ->
                  Forall (fun sec =>
                            exists l, In l (link :: links) /\
                                      ~ In (href l) seen /\
                                      surl sec = (BASE_URL ++ href l)%string /\
                                      products sec = []) found).
      { intros found Hall. eapply Forall_impl; [|exact Hall].
        intros d [l [Hl [Hnot Hrest]]]. exists l.
        split; [right; exact Hl|]. split; [|exact Hrest].
        intros Hin. apply Hnot. right. exact Hin. }
      destruct (rmatch_start section_text_re (atext link)) as [m|].
      * match goal with
        | |- context [sections_loop links _ (acc ++ [?x])] =>
            set (sec := x);
            destruct (IH (href link :: seen) (acc ++ [sec]))
              as [found [Heq [Hnd [Hlen Hall]]]]
        end.
        exists (sec :: found). rewrite Heq, <- app_assoc.
        split; [reflexivity|]. split; [|split].
        -- cbn [map]. constructor; [|exact Hnd].
           intros Hin. apply in_map_iff in Hin.
           destruct Hin as [d [Hurl Hd]]. rewrite Forall_forall in Hall.
           destruct (Hall d Hd) as [l [_ [Hnot [Hsurl _]]]].
           subst sec. cbn [surl] in Hurl. rewrite Hsurl in Hurl.
           apply append_inj_l in Hurl. apply Hnot. left. symmetry.
           exact Hurl.
        -- cbn [List.length]. lia.
        -- constructor; [|apply Hweak; exact Hall].
           exists link. split; [left; reflexivity|].
           split; [exact Hfresh|]. split; reflexivity.
      * destruct (IH (href link :: seen) acc)
          as [found [Heq [Hnd [Hlen Hall]]]].
        exists found. split; [exact Heq|]. split; [exact Hnd|].
        split; [cbn [List.length]; lia|]. apply Hweak. exact Hall.
Qed.

(** The first link to a target gives its division when its text has the
    form of a division. *)
Lemma sweets_divisions_loop_complete :
  forall pre link post seen m,
    ~ In (href link) (map href pre) ->
    ~ In (href link) seen ->
    rmatch_start division_text_re (atext link) = Some m ->
    In {| code := group m 1; dname := strip (group m 2);
          durl := (BASE_URL ++ href link)%string;
          item_count := item_count_of link; sections := [] |}
       (divisions_loop (pre ++ link :: post) seen).
Proof.
  induction pre as [|l pre IH]; intros link post seen m Hpre Hseen Hm;
    cbn [app divisions_loop].
  - destruct (mem (href link) seen) eqn:Hmem.
    + exfalso. apply Hseen. apply mem_iff_In. exact Hmem.
    + rewrite Hm. left. reflexivity.
  - cbn [map] in Hpre.
    assert (Hne : href l <> href link)
      by (intros Heq; apply Hpre; left; exact Heq).
    assert (Hrest : ~ In (href link) (map href pre))
      by (intros Hin; apply Hpre; right; exact Hin).
    destruct (mem (href l) seen); [apply IH; assumption|].
    assert (Hseen' : ~ In (href link) (href l :: seen)).
    { intros [Heq|Hin]; [exact (Hne Heq)|exact (Hseen Hin)]. }
    destruct (rmatch_start division_text_re (atext l));
      [right|]; apply IH; assumption.
Qed.

(** The loop over the section links only appends. *)
Lemma sweets_sections_loop_keeps :
  forall links seen acc sec,
    In sec acc -> In sec (sections_loop links seen acc).
Proof.
  induction links as [|l links IH]; intros seen acc sec Hin;
    cbn [sections_loop]; [exact Hin|].
  destruct (mem (href l) seen); [apply IH; exact Hin|].
  destruct (rmatch_start section_text_re (atext l)); apply IH;
    [apply in_or_app; left; exact Hin|exact Hin].
Qed.

(** The first link to a target gives its section when its text has the
    form of a section. *)
Lemma sweets_sections_loop_complete :
  forall pre link post seen acc m,
    ~ In (href link) (map href pre) ->
    ~ In (href link) seen ->
    rmatch_start section_text_re (atext link) = Some m ->
    In {| scode := group m 1; sname := strip (group m 2);
          surl := (BASE_URL ++ href link)%string;
          s_item_count := item_count_of link; products := [] |}
       (sections_loop (pre ++ link :: post) seen acc).
Proof.
  induction pre as [|l pre IH]; intros link post seen acc m Hpre Hseen Hm;
    cbn [app sections_loop].
  - destruct (mem (href link) seen) eqn:Hmem.
    + exfalso. apply Hseen. apply mem_iff_In. exact Hmem.
    + rewrite Hm. apply sweets_sections_loop_keeps.
      apply in_or_app. right. left. reflexivity.
  - cbn [map] in Hpre.
    assert (Hne : href l <> href link)
      by (intros Heq; apply Hpre; left; exact Heq).
    assert (Hrest : ~ In (href link) (map href pre))
      by (intros Hin; apply Hpre; right; exact Hin).
    destruct (mem (href l) seen); [apply IH; assumption|].
    assert (Hseen' : ~ In (href link) (href l :: seen)).
    { intros [Heq|Hin]; [exact (Hne Heq)|exact (Hseen Hin)]. }
    destruct (rmatch_start section_text_re (atext l)); apply IH; assumption.
Qed.

End SweetsIndex.

(** X20. The index pages of SWEETS give each link target once, and
    every target they link to.  The divisions of the specification index
    have pairwise distinct URLs below the site and start without
    sections; a failed request gives no list.
    [scrape_division_sections] keeps the code, name, URL and item count
    of the division and the sections it has, and puts after them at most
    one section for every link of the page, the new sections with
    pairwise distinct URLs below the site and without products; so a
    division that had no sections gets sections with pairwise distinct
    URLs.  Nothing the page links to is lost: the first link to a target
    whose text has the form of a division gives the division with that
    code, name, URL and item count, and the first link to a target whose
    text has the form of a section gives that section among the sections
    of the division.  (A link whose target was linked before is skipped
    whatever its text, so a target whose first link has no text of the
    form gives nothing.) *)
Theorem sweets_index_pages_list_each_target_once :
  forall site : Site,
    (forall ds,
        fst (Sweets.scrape_divisions site) = Some ds ->
        NoDup (map Sweets.durl ds) /\
        Forall (fun d =>
                  startswith Sweets.BASE_URL (Sweets.durl d) = true /\
                  Sweets.sections d = []) ds) /\
    (fst (_make_request site Sweets.specs_url) = None ->
     fst (Sweets.scrape_divisions site) = None) /\
    (forall d,
        let d' := fst (Sweets.scrape_division_sections site d) in
        Sweets.code d' = Sweets.code d /\
        Sweets.dname d' = Sweets.dname d /\
        Sweets.durl d' = Sweets.durl d /\
        Sweets.item_count d' = Sweets.item_count d /\
        exists found,
          Sweets.sections d' = Sweets.sections d ++ found /\
          NoDup (map Sweets.surl found) /\
          Forall (fun sec =>
                    startswith Sweets.BASE_URL (Sweets.surl sec) = true /\
                    Sweets.products sec = []) found /\
          (forall p,
              fst (_make_request site (Sweets.durl d)) = Some p ->
              List.length found
              <= List.length (find_links Sweets.section_link_re p)) /\
          (fst (_make_request site (Sweets.durl d)) = None -> found = [])) /\
    (forall p pre link post m,
        fst (_make_request site Sweets.specs_url) = Some p ->
        find_links Sweets.division_link_re p = pre ++ link :: post ->
        ~ In (href link) (map href pre) ->
        rmatch_start Sweets.division_text_re (atext link) = Some m ->
        exists ds,
          fst (Sweets.scrape_divisions site) = Some ds /\
          In {| Sweets.code := group m 1;
                Sweets.dname := strip (group m 2);
                Sweets.durl := (Sweets.BASE_URL ++ href link)%string;
                Sweets.item_count := Sweets.item_count_of link;
                Sweets.sections := [] |} ds) /\
    (forall d p pre link post m,
        fst (_make_request site (Sweets.durl d)) = Some p ->
        find_links Sweets.section_link_re p = pre ++ link :: post ->
        ~ In (href link) (map href pre) ->
        rmatch_start Sweets.section_text_re (atext link) = Some m ->
        In {| Sweets.scode := group m 1;
              Sweets.sname := strip (group m 2);
              Sweets.surl := (Sweets.BASE_URL ++ href link)%string;
              Sweets.s_item_count := Sweets.item_count_of link;
              Sweets.products := [] |}
           (Sweets.sections (fst (Sweets.scrape_division_sections site d)))).
Proof.
  intros site. split; [|split; [|split; [|split]]].
  - intros ds. unfold Sweets.scrape_divisions.
    destruct (_make_request site Sweets.specs_url) as [[p|] evs];
      cbn [fst]; [|discriminate].
    intros H. injection H as <-.
    destruct (SweetsIndex.sweets_divisions_loop_distinct
                (find_links Sweets.division_link_re p) []) as [Hnd Hall].
    split; [exact Hnd|]. eapply Forall_impl; [|exact Hall].
    intros d [l [_ [_ [Hurl Hs]]]]. split; [|exact Hs].
    unfold startswith. apply prefix_iff_append. eexists. exact Hurl.
  - unfold Sweets.scrape_divisions.
    destruct (_make_request site Sweets.specs_url) as [[p|] evs];
      cbn [fst]; [discriminate|reflexivity].
  - intros d. cbv zeta. unfold Sweets.scrape_division_sections.
    destruct (_make_request site (Sweets.durl d)) as [[p|] evs]; cbn [fst].
    + destruct (SweetsIndex.sweets_sections_loop_distinct
                  (find_links Sweets.section_link_re p) []
                  (Sweets.sections d)) as [found [Heq [Hnd [Hlen Hall]]]].
      cbn [Sweets.set_sections Sweets.code Sweets.dname Sweets.durl
             Sweets.item_count Sweets.sections].
      repeat split. exists found. split; [exact Heq|].
      split; [exact Hnd|]. split; [|split].
      * eapply Forall_impl; [|exact Hall].
        intros sec [l [_ [_ [Hurl Hp]]]]. split; [|exact Hp].
        unfold startswith. apply prefix_iff_append. eexists. exact Hurl.
      * intros p0 H. injection H as <-. exact Hlen.
      * discriminate.
    + repeat split. exists []. rewrite app_nil_r.
      split; [reflexivity|]. split; [constructor|].
      split; [constructor|]. split; [discriminate|reflexivity].
  - intros p pre link post m Hp Hlinks Hfirst Hm.
    unfold Sweets.scrape_divisions.
    destruct (_make_request site Sweets.specs_url) as [[p'|] evs];
      cbn [fst] in *; [|discriminate].
    injection Hp as ->. eexists. split; [reflexivity|].
    rewrite Hlinks.
    apply SweetsIndex.sweets_divisions_loop_complete;
      [exact Hfirst|intros []|exact Hm].
  - intros d p pre link post m Hp Hlinks Hfirst Hm.
    unfold Sweets.scrape_division_sections.
    destruct (_make_request site (Sweets.durl d)) as [[p'|] evs];
      cbn [fst] in *; [|discriminate].
    injection Hp as ->. cbn [Sweets.set_sections Sweets.sections].
    rewrite Hlinks.
    apply SweetsIndex.sweets_sections_loop_complete;
      [exact Hfirst|intros []|exact Hm].
Qed.

(** The index of the masonry site: its one link gives the division, and
    the page of the division gives the section of its one link. *)
Lemma sweets_index_pages_witness :
  (exists ds,
      fst (Sweets.scrape_divisions SweetsExamples.three_products) = Some ds /\
      In SweetsExamples.masonry ds) /\
  In {| Sweets.scode := "04 20 00"; Sweets.sname := "Unit Masonry";
        Sweets.surl :=
          (Sweets.BASE_URL ++ SweetsExamples.section_a_href)%string;
        Sweets.s_item_count := 0; Sweets.products := [] |}
     (Sweets.sections
        (fst (Sweets.scrape_division_sections
                SweetsExamples.three_products SweetsExamples.masonry))).
Proof.
  destruct (sweets_index_pages_list_each_target_once
              SweetsExamples.three_products)
    as [_ [_ [_ [Hdivisions Hsections]]]].
  split.
  - destruct (rmatch_start Sweets.division_text_re "04 00 00 - Masonry")
      as [m|] eqn:Hm; [|vm_compute in Hm; discriminate Hm].
    destruct (Hdivisions
                (SweetsExamples.listing
                   [SweetsExamples.link SweetsExamples.division_href
                                        "04 00 00 - Masonry"])
                []
                (SweetsExamples.link SweetsExamples.division_href
                                     "04 00 00 - Masonry")
                [] m)
      as [ds [Hds Hin]].
    + vm_compute. reflexivity.
    + vm_compute. reflexivity.
    + intros [].
    + exact Hm.
    + exists ds. split; [exact Hds|].
      vm_compute in Hm. injection Hm as <-. exact Hin.
  - destruct (rmatch_start Sweets.section_text_re "04 20 00 - Unit Masonry")
      as [m|] eqn:Hm; [|vm_compute in Hm; discriminate Hm].
    pose proof (Hsections
                  SweetsExamples.masonry
                  (SweetsExamples.listing
                     [SweetsExamples.link SweetsExamples.section_a_href
                                          "04 20 00 - Unit Masonry"])
                  []
                  (SweetsExamples.link SweetsExamples.section_a_href
                                       "04 20 00 - Unit Masonry")
                  [] m) as Hin.
    vm_compute in Hm. injection Hm as <-.
    apply Hin.
    + vm_compute. reflexivity.
    + vm_compute. reflexivity.
    + intros [].
    + vm_compute. reflexivity.
Defined.

(* ------------------------------------------------------------------ *)
(** ** SWEETS: the detail pass keeps the listing *)
(* ------------------------------------------------------------------ *)

Module SweetsKept.
Import Sweets SweetsCrawl.

Lemma all2_refl :
  forall (A : Type) (R : A -> A -> Prop),
    (forall x, R x x) -> forall l, Forall2 R l l.
Proof. intros A R H. induction l; constructor; auto. Qed.

Lemma all2_trans :
  forall (A : Type) (R : A -> A -> Prop),
    (forall x y z, R x y -> R y z -> R x z) ->
    forall l1 l2 l3, Forall2 R l1 l2 -> Forall2 R l2 l3 -> Forall2 R l1 l3.
Proof.
  intros A R H l1 l2 l3 H12. revert l3.
  induction H12 as [|x y l1 l2 Hxy H12 IH]; intros l3 H23;
    inversion H23; subst; constructor; eauto.
Qed.

Lemma same_product_refl : forall p, same_product p p.
Proof. intros p. unfold same_product. repeat split. Qed.

Lemma same_product_trans :
  forall p1 p2 p3,
    same_product p1 p2 -> same_product p2 p3 -> same_product p1 p3.
Proof.
  intros p1 p2 p3 [A1 [A2 [A3 [A4 [A5 [A6 A7]]]]]]
         [B1 [B2 [B3 [B4 [B5 [B6 B7]]]]]].
  unfold same_product. repeat split; congruence.
Qed.

Lemma same_section_refl : forall sec, same_section sec sec.
Proof.
  intros sec. unfold same_section. repeat split.
  apply all2_refl, same_product_refl.
Qed.

Lemma same_section_trans :
  forall s1 s2 s3,
    same_section s1 s2 -> same_section s2 s3 -> same_section s1 s3.
Proof.
  intros s1 s2 s3 [A1 [A2 [A3 [A4 A5]]]] [B1 [B2 [B3 [B4 B5]]]].
  unfold same_section. repeat split; try congruence.
  eapply all2_trans; [exact same_product_trans| |]; eassumption.
Qed.

Lemma sweets_division_refl : forall d, same_division d d.
Proof.
  intros d. unfold same_division. repeat split.
  apply all2_refl, same_section_refl.
Qed.

Lemma sweets_division_trans :
  forall d1 d2 d3,
    same_division d1 d2 -> same_division d2 d3 -> same_division d1 d3.
Proof.
  intros d1 d2 d3 [A1 [A2 [A3 [A4 A5]]]] [B1 [B2 [B3 [B4 B5]]]].
  unfold same_division. repeat split; try congruence.
  eapply all2_trans; [exact same_section_trans| |]; eassumption.
Qed.

Lemma sweets_listing_refl : forall ds, same_listing ds ds.
Proof. intros ds. apply all2_refl, sweets_division_refl. Qed.

Lemma sweets_listing_trans :
  forall l1 l2 l3,
    same_listing l1 l2 -> same_listing l2 l3 -> same_listing l1 l3.
Proof. apply all2_trans. exact sweets_division_trans. Qed.

(** *** One call of [scrape_product_details] *)

Lemma download_counts_same :
  forall browser p,
    same_product p (_extract_download_counts_selenium browser p).
Proof.
  intros browser p. unfold _extract_download_counts_selenium.
  destruct (browser (url p)); unfold same_product; repeat split.
Qed.

Lemma manufacturer_fallback_same :
  forall site cache p,
    same_product p (fst (fst (manufacturer_fallback site cache p))).
Proof.
  intros site cache p. unfold manufacturer_fallback.
  destruct (_ && _); [|apply same_product_refl].
  destruct (cache_get _ _) as [[m|]|];
    try (unfold same_product; repeat split; fail).
  destruct (_scrape_manufacturer_contact _ _) as [[m|] evs];
    unfold same_product; repeat split.
Qed.

Lemma extract_product_same :
  forall selenium site browser cache pg p,
    same_product
      p (fst (fst (extract_product selenium site browser cache pg p))).
Proof.
  intros selenium site browser cache pg p. unfold extract_product.
  match goal with
  | |- context [manufacturer_fallback site cache ?p0] =>
      assert (H0 : same_product p p0)
        by (destruct (company_info pg); unfold same_product; repeat split);
      pose proof (manufacturer_fallback_same site cache p0) as Hk;
      destruct (manufacturer_fallback site cache p0) as [[q c] e]
  end.
  cbn [fst] in *.
  pose proof (same_product_trans _ _ _ H0 Hk) as Hq.
  match goal with
  | |- same_product p (if selenium then _ ?b ?r else ?r) =>
      assert (Hr : same_product p r)
  end.
  { eapply same_product_trans; [exact Hq|].
    destruct (labelled_value "Category:" (html pg));
      destruct (labelled_value "MasterFormat:" (html pg));
      destruct (meta_description pg);
      destruct (search product_id_re (html pg));
      unfold same_product; repeat split. }
  destruct selenium; [|exact Hr].
  eapply same_product_trans; [exact Hr|apply download_counts_same].
Qed.

Lemma product_details_same :
  forall selenium site browser cache p,
    same_product
      p (fst (fst (scrape_product_details selenium site browser cache p))).
Proof.
  intros selenium site browser cache p. unfold scrape_product_details.
  destruct (_make_request_raw site (url p)) as [[pg|] evs];
    [|apply same_product_refl].
  destruct (is_empty (html pg)); [apply same_product_refl|].
  pose proof (extract_product_same selenium site browser cache pg p) as H.
  destruct (extract_product selenium site browser cache pg p) as [[q c] e].
  exact H.
Qed.

(** *** The loops *)

Lemma set_products_same :
  forall sec, set_products (products sec) sec = sec.
Proof. intros sec. destruct sec. reflexivity. Qed.

Lemma set_sections_same :
  forall d, set_sections (sections d) d = d.
Proof. intros d. destruct d. reflexivity. Qed.

Lemma section_with_same :
  forall sec beyond ps ps',
    Forall2 same_product ps ps' ->
    same_section (set_products (ps ++ beyond) sec)
                 (set_products (ps' ++ beyond) sec).
Proof.
  intros sec beyond ps ps' H. unfold same_section.
  cbn [set_products scode sname surl s_item_count products].
  repeat split. apply Forall2_app; [exact H|].
  apply all2_refl, same_product_refl.
Qed.

Lemma division_with_same :
  forall d beyond ss ss',
    Forall2 same_section ss ss' ->
    same_division (set_sections (ss ++ beyond) d)
                  (set_sections (ss' ++ beyond) d).
Proof.
  intros d beyond ss ss' H. unfold same_division.
  cbn [set_sections code dname durl item_count sections].
  repeat split. apply Forall2_app; [exact H|].
  apply all2_refl, same_section_refl.
Qed.

Lemma around_same :
  forall (A : Type) (R : A -> A -> Prop),
    (forall x, R x x) ->
    forall pre x x' post,
      R x x' -> Forall2 R (pre ++ x :: post) (pre ++ x' :: post).
Proof.
  intros A R Hrefl pre x x' post H.
  apply Forall2_app; [apply all2_refl; exact Hrefl|].
  constructor; [exact H|apply all2_refl; exact Hrefl].
Qed.

Section Loops.

Variable site : Site.
Variable browser : Browser.
Variable clock : nat -> Q.
Variable interval : nat.
Variable stop : Stop.
Variables max_sections max_products : option nat.
Variable scraped : list string.
Variable L : list Division.

Lemma sweets_divisions_maybe_save :
  forall s, divisions (maybe_save_checkpoint_every interval s) = divisions s.
Proof.
  intros s. unfold maybe_save_checkpoint_every.
  destruct (_ && _); reflexivity.
Qed.

Lemma detail_products_same :
  forall todo view done s,
    (forall ps ps',
        Forall2 same_product ps ps' -> same_listing (view ps) (view ps')) ->
    same_listing L (view (done ++ todo)) ->
    same_listing L (divisions s) ->
    same_listing
      L (view (fst (detail_products site browser clock interval stop scraped
                                    view done todo s))) /\
    same_listing
      L (divisions (snd (detail_products site browser clock interval stop
                                         scraped view done todo s))).
Proof.
  induction todo as [|p rest IH]; intros view done s Hview Hv Hs;
    cbn [detail_products].
  - rewrite app_nil_r in Hv. split; assumption.
  - destruct (halted s); [split; assumption|].
    destruct (mem (url p) scraped).
    { apply IH; [exact Hview| |exact Hs].
      rewrite <- app_assoc. exact Hv. }
    destruct (interrupted s); [split; assumption|].
    destruct (stop_now stop s) as [[|]|]; cbn [fst snd];
      [split; assumption|split; assumption|].
    pose proof (product_details_same
                  (selenium s) site browser (manufacturer_cache s) p) as Hid.
    destruct (scrape_product_details (selenium s) site browser
                                     (manufacturer_cache s) p)
      as [[p' cache] evs].
    cbn [fst] in Hid.
    assert (Hv' : same_listing L (view (done ++ p' :: rest))).
    { eapply sweets_listing_trans; [exact Hv|]. apply Hview.
      apply around_same; [exact same_product_refl|exact Hid]. }
    apply IH; [exact Hview| |].
    + rewrite <- app_assoc. exact Hv'.
    + rewrite sweets_divisions_maybe_save. exact Hv'.
Qed.

Lemma detail_sections_same :
  forall todo view done s,
    (forall ss ss',
        Forall2 same_section ss ss' -> same_listing (view ss) (view ss')) ->
    same_listing L (view (done ++ todo)) ->
    same_listing L (divisions s) ->
    same_listing
      L (view (fst (detail_sections site browser clock interval stop
                                    max_products scraped view done todo s)))
    /\
    same_listing
      L (divisions (snd (detail_sections site browser clock interval stop
                                         max_products scraped view done todo
                                         s))).
Proof.
  induction todo as [|sec rest IH]; intros view done s Hview Hv Hs;
    cbn [detail_sections].
  - rewrite app_nil_r in Hv. split; assumption.
  - destruct (halted s || interrupted s); [split; assumption|].
    set (beyond := skipn (List.length (limit max_products (products sec)))
                         (products sec)).
    set (inner := fun ps : list Product =>
                    view (done ++ set_products (ps ++ beyond) sec :: rest)).
    destruct (detail_products_same
                (limit max_products (products sec)) inner [] s)
      as [H1 H2].
    + intros ps ps' H. subst inner. cbn beta. apply Hview.
      apply around_same; [exact same_section_refl|].
      apply section_with_same. exact H.
    + subst inner beyond. cbn beta. cbn [app].
      rewrite ArcatPass.limit_skipn, set_products_same. exact Hv.
    + exact Hs.
    + destruct (detail_products site browser clock interval stop scraped
                                inner [] (limit max_products (products sec)) s)
        as [ps s1].
      cbn [fst snd] in H1, H2.
      apply IH; [exact Hview| |exact H2].
      subst inner. cbn beta in H1. rewrite <- app_assoc. exact H1.
Qed.

Lemma sweets_detail_divisions_same :
  forall todo pre post s,
    same_listing L (pre ++ todo ++ post) ->
    same_listing L (divisions s) ->
    same_listing
      L (divisions (detail_divisions site browser clock interval stop
                                     max_sections max_products scraped
                                     pre todo post s)).
Proof.
  induction todo as [|d rest IH]; intros pre post s Hl Hs;
    cbn [detail_divisions]; [exact Hs|].
  destruct (halted s || interrupted s); [exact Hs|].
  set (beyond := skipn (List.length (limit max_sections (sections d)))
                       (sections d)).
  set (view := fun ss : list Section_ =>
                 pre ++ set_sections (ss ++ beyond) d :: rest ++ post).
  destruct (detail_sections_same
              (limit max_sections (sections d)) view [] s) as [H1 H2].
  - intros ss ss' H. subst view. cbn beta.
    apply around_same; [exact sweets_division_refl|].
    apply division_with_same. exact H.
  - subst view beyond. cbn beta. cbn [app].
    rewrite ArcatPass.limit_skipn, set_sections_same. exact Hl.
  - exact Hs.
  - destruct (detail_sections site browser clock interval stop max_products
                              scraped view [] (limit max_sections (sections d))
                              s) as [ss s1].
    cbn [fst snd] in H1, H2.
    destruct (halted s1 || interrupted s1); [exact H2|].
    apply IH; [|exact H2].
    subst view. cbn beta in H1. rewrite <- app_assoc. exact H1.
Qed.

End Loops.

Lemma count_pass_length :
  forall site max_sections max_products scraped todo,
    List.length (fst (fst (count_pass site max_sections max_products scraped
                                      todo)))
    = List.length todo.
Proof.
  intros site max_sections max_products scraped.
  induction todo as [|d rest IH]; [reflexivity|].
  cbn [count_pass].
  destruct (if is_nil (sections d) then _ else _) as [d' evs].
  destruct (count_sections _ _ _ _ _) as [[ss n] evs1].
  destruct (count_pass site max_sections max_products scraped rest)
    as [[ds total] evs2].
  cbn [fst List.length] in *. rewrite IH. reflexivity.
Qed.

Lemma all_passes_same :
  forall interval site browser clock stop o scraped s,
    same_listing
      (counted site o scraped s ++ beyond_limit site o s)
      (divisions (all_passes interval site browser clock stop o scraped s)).
Proof.
  intros interval site browser clock stop o scraped s.
  unfold all_passes, counted, beyond_limit, starting_divisions.
  unfold scrape_divisions.
  set (s1 := if is_nil (divisions s) then _ else s).
  set (start := if is_nil (divisions s) then _ else divisions s).
  assert (H1 : divisions s1 = start).
  { subst s1 start. destruct (is_nil (divisions s)); [|reflexivity].
    destruct (_make_request site specs_url) as [[p|] evs]; reflexivity. }
  clearbody s1 start. rewrite H1.
  destruct (count_pass site (max_sections_per_division o)
                       (max_products_per_section o) scraped
                       (limit (max_divisions o) start)) as [[ds total] evs].
  cbn [fst].
  match goal with
  | |- context [detail_divisions ?a ?b ?c ?d ?e ?f ?g ?h ?pre ?td ?post ?st] =>
      pose proof (sweets_detail_divisions_same
                    a b c d e f g h (ds ++ skipn (List.length
                                                    (limit (max_divisions o)
                                                           start)) start)
                    td pre post st) as H;
      set (s2 := detail_divisions a b c d e f g h pre td post st) in *
  end.
  cbn [app] in H.
  assert (H2 : same_listing
                 (ds ++ skipn (List.length (limit (max_divisions o) start))
                              start)
                 (divisions s2)).
  { apply H; apply sweets_listing_refl. }
  clearbody s2.
  destruct (halted s2); [exact H2|].
  destruct (interrupted s2); exact H2.
Qed.

Lemma sweets_listing_urls :
  forall l l',
    same_listing l l' -> map url (entities l') = map url (entities l).
Proof.
  intros l l' H. unfold entities.
  induction H as [|d d' l l' [_ [_ [_ [_ Hss]]]] H IH]; [reflexivity|].
  cbn [flat_map]. rewrite !map_app, IH. f_equal.
  clear -Hss.
  induction Hss as [|sec sec' ss ss' [_ [_ [_ [_ Hps]]]] H IH];
    [reflexivity|].
  cbn [flat_map]. rewrite !map_app, IH. f_equal.
  clear -Hps. induction Hps as [|p p' ps ps' [_ [Hu _]] H IH]; [reflexivity|].
  cbn [map]. rewrite Hu, IH. reflexivity.
Qed.

End SweetsKept.

(** X21. The detail pass of SWEETS [scrape_all] keeps the listing,
    however the site answers and wherever the run is stopped: the store
    ends with the divisions it had when the counting pass was over, in
    the same order, each with the same code, name, URL, item count and
    sections, each section with the same code, name, URL, item count
    and products in the same order, and each product with the name, URL,
    manufacturer name and division and section codes and names it had;
    only the other fields of a product can differ.  No division of the
    index is lost. *)
Theorem sweets_detail_pass_keeps_the_listing :
  forall interval site browser clock stop o (s : Sweets.Scraper),
    let start := fst (Sweets.resume_all o s) in
    let scraped := snd (Sweets.resume_all o s) in
    let s' := Sweets.scrape_all_every interval site browser clock stop o s in
    SweetsCrawl.same_listing
      (SweetsCrawl.counted site o scraped start
         ++ SweetsCrawl.beyond_limit site o start)
      (Sweets.divisions s') /\
    List.length (Sweets.divisions s')
    = List.length (SweetsCrawl.starting_divisions site start) /\
    map Sweets.url (Sweets.entities (Sweets.divisions s'))
    = map Sweets.url
          (Sweets.entities (SweetsCrawl.counted site o scraped start
                              ++ SweetsCrawl.beyond_limit site o start)).
Proof.
  intros interval site browser clock stop o s. cbv zeta.
  unfold Sweets.scrape_all_every.
  destruct (Sweets.resume_all o s) as [s0 scraped]. cbn [fst snd].
  pose proof (SweetsKept.all_passes_same
                interval site browser clock stop o scraped s0) as H.
  split; [exact H|]. split.
  - rewrite <- (Forall2_length H).
    unfold SweetsCrawl.counted, SweetsCrawl.beyond_limit.
    rewrite length_app, SweetsKept.count_pass_length, <- length_app,
      ArcatPass.limit_skipn. reflexivity.
  - apply SweetsKept.sweets_listing_urls. exact H.
Qed.

(* ------------------------------------------------------------------ *)
(** ** ARCAT: the store of the categories mode lags its count *)
(* ------------------------------------------------------------------ *)

Module ArcatLag.
Import Arcat ArcatListings ArcatCategories.

Lemma filed_saved :
  forall mode s cp,
    disk (_save_checkpoint mode s) = Some cp ->
    filed cp = stored s /\
    cp_companies_scraped cp = companies_scraped_count s.
Proof.
  intros mode s cp H. cbn in H. injection H as <-.
  unfold filed, stored. cbn [cp_categories cp_companies_scraped].
  split; [|reflexivity].
  induction (building_product_categories s) as [|c cs IH]; [reflexivity|].
  cbn [map flat_map]. rewrite !length_app, IH.
  cbn [category_to_json j_ccompanies]. rewrite length_map. reflexivity.
Qed.

Section Loops.

Variable site : Site.
Variable browser : Browser.
Variable clock : nat -> Q.
Variable interval : nat.
Variable stop : Stop.
Variables max_subcategories max_companies : option nat.
Variable scraped : list string.
Variables c0 st0 : nat.
Variable file0 : option Checkpoint.

Lemma saved_file_lags :
  forall mode s,
    lags c0 st0 s -> file_lags c0 st0 file0 (_save_checkpoint mode s).
Proof.
  intros mode s H. right.
  destruct (disk (_save_checkpoint mode s)) as [cp|] eqn:Hd;
    [|discriminate Hd].
  exists cp. split; [reflexivity|].
  destruct (filed_saved mode s cp Hd) as [-> ->]. exact H.
Qed.

Lemma halt_file_lags :
  forall b s, file_lags c0 st0 file0 s -> file_lags c0 st0 file0 (halt b s).
Proof. intros b s H. exact H. Qed.

(** One iteration of the loop over the companies of a page. *)
Lemma listed_step :
  forall s evs,
    let s' :=
      maybe_save_checkpoint_every
        interval categories_mode
        (progress_update
           clock
           (with_count (S (companies_scraped_count (log_details evs s)))
                       (log_details evs s))) in
    building_product_categories s' = building_product_categories s /\
    companies_scraped_count s' = S (companies_scraped_count s) /\
    halted s' = halted s /\ interrupted s' = interrupted s /\
    (lags c0 st0 s -> file_lags c0 st0 file0 s ->
     file_lags c0 st0 file0 s').
Proof.
  intros s evs. cbv zeta. unfold maybe_save_checkpoint_every.
  destruct (_ && _).
  - repeat split. intros Hl _. apply saved_file_lags.
    unfold lags, stored in *. cbn. lia.
  - repeat split. intros _ Hf. exact Hf.
Qed.

Lemma not_scraped_same :
  forall sel c,
    negb (mem (url (res_company
                      (fst (scrape_company_details sel site browser c))))
              scraped)
    = negb (mem (url c) scraped).
Proof.
  intros sel c.
  destruct (ArcatFrame.details_identity sel site browser c) as [_ [-> _]].
  reflexivity.
Qed.

Lemma filter_middle :
  forall (f : Company -> bool) done c c' rest,
    f c' = f c ->
    List.length (filter f (done ++ c' :: rest))
    = List.length (filter f (done ++ c :: rest)).
Proof.
  intros f done c c' rest H. rewrite !filter_app, !length_app.
  cbn [filter]. rewrite H. destruct (f c); reflexivity.
Qed.

(** The loop over the companies of a page leaves the store alone and
    raises the count by one for every company it details. *)
Lemma detail_listed_lags :
  forall todo done s,
    quiet s -> lags c0 st0 s -> file_lags c0 st0 file0 s ->
    let r := detail_listed site browser clock interval stop scraped
                           done todo s in
    building_product_categories (snd r) = building_product_categories s /\
    quiet (snd r) /\ file_lags c0 st0 file0 (snd r) /\
    companies_scraped_count s <= companies_scraped_count (snd r) /\
    (halted (snd r) = false ->
     companies_scraped_count (snd r)
     = companies_scraped_count s
       + List.length (filter (fun c => negb (mem (url c) scraped)) todo) /\
     List.length (filter (fun c => negb (mem (url c) scraped)) (fst r))
     = List.length (filter (fun c => negb (mem (url c) scraped))
                           (done ++ todo))) /\
    (stop = Never ->
     Forall (fun c => is_empty (address c) = true) todo ->
     halted (snd r) = halted s).
Proof.
  induction todo as [|c rest IH]; intros done s Hq Hl Hf;
    cbn [detail_listed]; cbv zeta.
  - cbn [fst snd filter List.length]. rewrite app_nil_r, Nat.add_0_r.
    repeat split; auto.
  - destruct (halted s) eqn:Hrun.
    { cbn [fst snd]. repeat split; auto; congruence. }
    destruct (mem (url c) scraped) eqn:Hmem.
    { destruct (IH (done ++ [c]) s Hq Hl Hf)
        as [H1 [H2 [H3 [H4 [H5 H6]]]]].
      cbv zeta in *. rewrite <- app_assoc in H5. cbn [app] in H5.
      cbn [filter]. rewrite Hmem. cbn [negb].
      repeat split; auto; try (apply H5; assumption).
      intros Hn Hall. inversion Hall as [|? ? Hc Hrest].
      rewrite (H6 Hn Hrest). exact Hrun. }
    destruct (interrupted s) eqn:Hint.
    { specialize (Hq Hint). congruence. }
    destruct (stop_now stop s) as [[|]|] eqn:Hstop; cbn [fst snd].
    + split; [reflexivity|]. split; [intros _; reflexivity|].
      split; [apply saved_file_lags; exact Hl|].
      split; [apply Nat.le_refl|]. split; [cbn; discriminate|].
      intros Hn. rewrite Hn in Hstop. discriminate Hstop.
    + split; [reflexivity|]. split; [intros _; reflexivity|].
      split; [exact Hf|].
      split; [apply Nat.le_refl|]. split; [cbn; discriminate|].
      intros Hn. rewrite Hn in Hstop. discriminate Hstop.
    + pose proof (not_scraped_same (selenium s) c) as Hsame.
      pose proof (ArcatRun.details_do_not_raise (selenium s) site browser c)
        as Hfine.
      destruct (scrape_company_details (selenium s) site browser c)
        as [r evs].
      cbn [fst] in Hsame, Hfine.
      destruct (raised r) eqn:Hraised; cbn [fst snd].
      * split; [reflexivity|]. split; [intros _; reflexivity|].
        split; [apply saved_file_lags; exact Hl|].
        split; [apply Nat.le_refl|]. split; [cbn; discriminate|].
        intros _ Hall. inversion Hall as [|? ? Hc Hrest].
        discriminate (Hfine Hc).
      * destruct (listed_step s evs) as [S1 [S2 [S3 [S4 S5]]]].
        cbv zeta in *.
        match goal with
        | |- context [detail_listed _ _ _ _ _ _ _ rest ?st] =>
            set (s1 := st) in *
        end.
        assert (Hq1 : quiet s1).
        { unfold quiet. rewrite S4, Hint. discriminate. }
        assert (Hl1 : lags c0 st0 s1).
        { unfold lags, stored in *. rewrite S1, S2. lia. }
        destruct (IH (done ++ [res_company r]) s1 Hq1 Hl1 (S5 Hl Hf))
          as [H1 [H2 [H3 [H4 [H5 H6]]]]].
        cbv zeta in *. rewrite <- app_assoc in H5. cbn [app] in H5.
        cbn [filter]. rewrite Hmem. cbn [negb List.length].
        split; [rewrite H1; exact S1|]. split; [exact H2|].
        split; [exact H3|]. split; [lia|]. split.
        -- intros Hn. destruct (H5 Hn) as [H5a H5b]. split; [lia|].
           rewrite H5b. apply filter_middle. exact Hsame.
        -- intros Hn Hall. inversion Hall as [|? ? Hc Hrest].
           rewrite (H6 Hn Hrest). rewrite S3. exact Hrun.
Qed.

(** The companies of a manufacturers page have no address. *)
Lemma manufacturers_page_fresh :
  forall subcategory_url category_name,
    Forall (fun c => is_empty (address c) = true)
           (fst (scrape_manufacturers_page site subcategory_url
                                           category_name)).
Proof.
  intros subcategory_url category_name. unfold scrape_manufacturers_page.
  destruct (_make_request site subcategory_url) as [[p|] evs];
    cbn [fst]; [|constructor].
  pose proof (ArcatPage.page_loop_invariant
                category_name (find_links company_page_link_re p) [] 0
                (NoDup_nil _) (Forall_nil _)) as Hpage.
  cbv zeta in Hpage. destruct Hpage as [_ [Hok _]].
  unfold page_loop. apply Forall_forall. intros c Hc.
  apply in_map_iff in Hc. destruct Hc as [kv [<- Hkv]].
  rewrite Forall_forall in Hok.
  destruct (Hok kv Hkv) as [_ [_ [_ [_ Ha]]]]. rewrite Ha. reflexivity.
Qed.

(** The loop over the sub-categories of one category. *)
Lemma detail_subcategories_lags :
  forall todo view category_name cs s K,
    (forall cs, List.length (flat_map ccompanies (view cs))
                = K + List.length cs) ->
    building_product_categories s = view cs ->
    quiet s -> lags c0 st0 s -> file_lags c0 st0 file0 s ->
    let r := detail_subcategories site browser clock interval stop
                                  max_companies scraped view category_name
                                  cs todo s in
    quiet (snd r) /\ lags c0 st0 (snd r) /\ file_lags c0 st0 file0 (snd r) /\
    (halted (snd r) = false ->
     building_product_categories (snd r) = view (fst r) /\
     (level c0 st0 s -> level c0 st0 (snd r))) /\
    (stop = Never -> halted (snd r) = halted s).
Proof.
  induction todo as [|sub rest IH]; intros view category_name cs s K
                                           Hview Hstore Hq Hl Hf;
    cbn [detail_subcategories]; cbv zeta.
  - cbn [fst snd]. repeat split; auto.
  - destruct (halted s || interrupted s) eqn:Hgo.
    { cbn [fst snd]. repeat split; auto. }
    apply orb_false_iff in Hgo. destruct Hgo as [Hrun Hint].
    pose proof (manufacturers_page_fresh (link_url sub) category_name)
      as Hfresh.
    destruct (scrape_manufacturers_page site (link_url sub) category_name)
      as [companies evs].
    cbn [fst] in Hfresh.
    assert (Hstored : stored s = K + List.length cs).
    { unfold stored. rewrite Hstore. apply Hview. }
    destruct (detail_listed_lags
                (limit max_companies companies) [] (log_requests evs s)
                Hq Hl Hf) as [L1 [L2 [L3 [L4 [L5 L6]]]]].
    cbv zeta in *.
    destruct (detail_listed site browser clock interval stop scraped []
                            (limit max_companies companies)
                            (log_requests evs s)) as [processed s1].
    cbn [fst snd app] in *.
    change (building_product_categories (log_requests evs s))
      with (building_product_categories s) in L1.
    change (companies_scraped_count (log_requests evs s))
      with (companies_scraped_count s) in L4, L5.
    change (halted (log_requests evs s)) with (halted s) in L6.
    assert (Hstored1 : stored s1 = stored s).
    { unfold stored. rewrite L1. reflexivity. }
    destruct (halted s1) eqn:Hrun1.
    + cbn [fst snd]. split; [exact L2|]. split.
      * unfold lags in *. rewrite Hstored1. lia.
      * split; [exact L3|]. split; [congruence|].
        intros Hn. rewrite Hrun1. apply L6; [exact Hn|].
        apply ArcatRun.limit_Forall. exact Hfresh.
    + destruct (L5 eq_refl) as [Hcount Hnew].
      set (new := filter (fun c => negb (mem (url c) scraped)) processed)
        in *.
      set (s2 := with_categories (view (cs ++ new)) s1).
      assert (Hstored2 : stored s2
                         = stored s + List.length new).
      { unfold stored. subst s2. cbn [with_categories
                                        building_product_categories].
        rewrite Hview, length_app. fold (stored s). lia. }
      assert (Hq2 : quiet s2) by exact L2.
      assert (Hl2 : lags c0 st0 s2).
      { unfold lags in *. rewrite Hstored2.
        change (companies_scraped_count s2)
          with (companies_scraped_count s1). lia. }
      assert (Hf2 : file_lags c0 st0 file0 s2) by exact L3.
      destruct (IH view category_name (cs ++ new) s2 K Hview eq_refl
                   Hq2 Hl2 Hf2) as [I1 [I2 [I3 [I4 I5]]]].
      cbv zeta in *.
      split; [exact I1|]. split; [exact I2|]. split; [exact I3|]. split.
      * intros Hn. destruct (I4 Hn) as [I4a I4b]. split; [exact I4a|].
        intros Hlevel. apply I4b. unfold level in *. rewrite Hstored2.
        change (companies_scraped_count s2)
          with (companies_scraped_count s1). lia.
      * intros Hn. rewrite (I5 Hn).
        change (halted s2) with (halted s1). congruence.
Qed.

Lemma set_ccompanies_same :
  forall c, set_ccompanies (ccompanies c) c = c.
Proof. intros c. destruct c. reflexivity. Qed.

(** The loop over the categories. *)
Lemma detail_categories_lags :
  forall todo pre post s,
    building_product_categories s = pre ++ todo ++ post ->
    quiet s -> lags c0 st0 s -> file_lags c0 st0 file0 s ->
    let s' := detail_categories site browser clock interval stop
                                max_subcategories max_companies scraped
                                pre todo post s in
    quiet s' /\ lags c0 st0 s' /\ file_lags c0 st0 file0 s' /\
    (halted s' = false -> level c0 st0 s -> level c0 st0 s') /\
    (stop = Never -> halted s' = halted s).
Proof.
  induction todo as [|cat rest IH]; intros pre post s Hstore Hq Hl Hf;
    cbn [detail_categories]; cbv zeta.
  - repeat split; auto.
  - destruct (halted s || interrupted s) eqn:Hgo.
    { repeat split; auto. }
    set (view := fun cs : list Company =>
                   pre ++ set_ccompanies cs cat :: rest ++ post).
    assert (Hview :
              forall cs,
                List.length (flat_map ccompanies (view cs))
                = (List.length (flat_map ccompanies pre)
                   + List.length (flat_map ccompanies (rest ++ post)))
                  + List.length cs).
    { intros cs. subst view. cbn beta.
      rewrite flat_map_app. cbn [flat_map set_ccompanies ccompanies].
      rewrite !length_app. lia. }
    assert (Hstore' : building_product_categories s
                      = view (ccompanies cat)).
    { subst view. cbn beta. rewrite set_ccompanies_same. exact Hstore. }
    destruct (detail_subcategories_lags
                (limit max_subcategories (subcategories cat)) view
                (cname cat) (ccompanies cat) s _ Hview Hstore' Hq Hl Hf)
      as [S1 [S2 [S3 [S4 S5]]]].
    cbv zeta in *.
    destruct (detail_subcategories
                site browser clock interval stop max_companies scraped view
                (cname cat) (ccompanies cat)
                (limit max_subcategories (subcategories cat)) s)
      as [cs s1].
    cbn [fst snd] in *.
    destruct (halted s1 || interrupted s1) eqn:Hgo1.
    + split; [exact S1|]. split; [exact S2|]. split; [exact S3|].
      split; [intros Hn; apply S4; exact Hn|exact S5].
    + apply orb_false_iff in Hgo1. destruct Hgo1 as [Hrun1 Hint1].
      destruct (S4 Hrun1) as [Hcats Hlev].
      assert (Hstore1 : building_product_categories s1
                        = (pre ++ [set_ccompanies cs cat]) ++ rest ++ post).
      { rewrite Hcats. subst view. cbn beta. rewrite <- app_assoc.
        reflexivity. }
      destruct (IH (pre ++ [set_ccompanies cs cat]) post s1 Hstore1 S1 S2 S3)
        as [I1 [I2 [I3 [I4 I5]]]].
      cbv zeta in *.
      split; [exact I1|]. split; [exact I2|]. split; [exact I3|]. split.
      * intros Hn Hlevel. apply I4; [exact Hn|]. apply Hlev. exact Hlevel.
      * intros Hn. rewrite (I5 Hn). apply S5. exact Hn.
Qed.

End Loops.

(** The counting pass leaves the companies of the categories alone. *)
Lemma count_categories_keeps_companies :
  forall site max_subcategories max_companies todo,
    flat_map ccompanies
             (fst (fst (count_categories site max_subcategories max_companies
                                         todo)))
    = flat_map ccompanies todo.
Proof.
  intros site max_subcategories max_companies.
  induction todo as [|cat rest IH]; [reflexivity|].
  cbn [count_categories].
  assert (Hcat : ccompanies
                   (fst (if is_nil (subcategories cat)
                         then scrape_category_subcategories site cat
                         else (cat, [])))
                 = ccompanies cat).
  { destruct (is_nil (subcategories cat)); [|reflexivity].
    unfold scrape_category_subcategories.
    destruct (_make_request site (curl cat)) as [[p|] evs]; reflexivity. }
  destruct (if is_nil (subcategories cat) then _ else _) as [cat' evs].
  cbn [fst] in Hcat.
  destruct (count_subcategories _ _ _ _) as [n evs1].
  destruct (count_categories site max_subcategories max_companies rest)
    as [[cs total] evs2].
  cbn [fst flat_map] in *. rewrite IH, Hcat. reflexivity.
Qed.

Lemma categories_loop_empty :
  forall links seen,
    flat_map ccompanies (categories_loop links seen) = [].
Proof.
  induction links as [|l links IH]; intros seen; cbn [categories_loop];
    [reflexivity|].
  destruct (_ || _); [apply IH|]. cbn [flat_map ccompanies app]. apply IH.
Qed.

Lemma flat_map_limit_skipn :
  forall (A B : Type) (f : A -> list B) n (l l' : list A),
    flat_map f l' = flat_map f (limit n l) ->
    flat_map f (l' ++ skipn (List.length (limit n l)) l) = flat_map f l.
Proof.
  intros A B f n l l' H. rewrite flat_map_app, H, <- flat_map_app.
  rewrite ArcatPass.limit_skipn. reflexivity.
Qed.

(** The passes of a run. *)
Lemma categories_passes_lags :
  forall interval site browser clock stop o scraped s,
    quiet s ->
    let s' := categories_passes interval site browser clock stop o
                                scraped s in
    lags (companies_scraped_count s) (stored s) s' /\
    file_lags (companies_scraped_count s) (stored s) (disk s) s' /\
    (halted s' = false ->
     level (companies_scraped_count s) (stored s) s') /\
    (stop = Never -> halted s = false -> halted s' = false).
Proof.
  intros interval site browser clock stop o scraped s Hq.
  unfold categories_passes, scrape_building_product_categories.
  set (s1 := if is_nil (building_product_categories s) then _ else s).
  assert (H1 : stored s1 = stored s /\
               companies_scraped_count s1 = companies_scraped_count s /\
               disk s1 = disk s /\ halted s1 = halted s /\
               interrupted s1 = interrupted s).
  { subst s1. unfold stored.
    destruct (building_product_categories s) eqn:Hcats;
      cbn [is_nil]; [|rewrite Hcats; repeat split].
    destruct (_make_request site categories_url) as [[p|] evs]; cbn;
      rewrite ?Hcats, ?categories_loop_empty; repeat split. }
  clearbody s1. destruct H1 as [Hst1 [Hc1 [Hd1 [Hh1 Hi1]]]].
  pose proof (count_categories_keeps_companies
                site (max_subcategories_per_category o)
                (max_companies_per_subcategory o)
                (limit (max_categories o) (building_product_categories s1)))
    as Hkeep.
  destruct (count_categories site (max_subcategories_per_category o)
                             (max_companies_per_subcategory o)
                             (limit (max_categories o)
                                    (building_product_categories s1)))
    as [[cs total] evs].
  cbn [fst] in Hkeep.
  set (beyond := skipn (List.length
                          (limit (max_categories o)
                                 (building_product_categories s1)))
                       (building_product_categories s1)).
  match goal with
  | |- context [detail_categories _ _ _ _ _ _ _ _ _ _ _ ?st] =>
      set (s2 := st)
  end.
  assert (Hst2 : stored s2 = stored s).
  { rewrite <- Hst1. unfold stored. subst s2 beyond. cbn.
    rewrite (flat_map_limit_skipn _ _ _ _ _ _ Hkeep). reflexivity. }
  assert (Hq2 : quiet s2).
  { unfold quiet. subst s2. cbn. rewrite Hi1, Hh1. exact Hq. }
  assert (Hl2 : lags (companies_scraped_count s) (stored s) s2).
  { unfold lags. rewrite Hst2. subst s2. cbn. rewrite Hc1. lia. }
  assert (Hv2 : level (companies_scraped_count s) (stored s) s2).
  { unfold level. rewrite Hst2. subst s2. cbn. rewrite Hc1. lia. }
  assert (Hf2 : file_lags (companies_scraped_count s) (stored s) (disk s) s2).
  { left. subst s2. cbn. exact Hd1. }
  assert (Hh2 : halted s2 = halted s) by (subst s2; cbn; exact Hh1).
  destruct (detail_categories_lags
              site browser clock interval stop
              (max_subcategories_per_category o)
              (max_companies_per_subcategory o) scraped
              (companies_scraped_count s) (stored s) (disk s)
              cs [] beyond s2 eq_refl Hq2 Hl2 Hf2)
    as [D1 [D2 [D3 [D4 D5]]]].
  cbv zeta in *.
  set (s3 := detail_categories _ _ _ _ _ _ _ _ _ _ _ s2) in *.
  clearbody s3.
  destruct (halted s3) eqn:Hh3.
  - split; [exact D2|]. split; [exact D3|].
    split; [intros H; cbn in H; congruence|].
    intros Hn Hrun. pose proof (D5 Hn) as E. rewrite Hh2, Hrun in E.
    congruence.
  - destruct (interrupted s3).
    + split; [exact D2|]. split; [exact D3|].
      split; [intros _; apply D4; [reflexivity|exact Hv2]|].
      intros _ _. exact Hh3.
    + split; [exact D2|]. split.
      * apply saved_file_lags. exact D2.
      * split; [intros _; apply (D4 eq_refl Hv2)|]. intros _ _. exact Hh3.
Qed.

End ArcatLag.

(** X22. In the categories mode of ARCAT the store lags the count.
    [scrape_building_products_all] counts a company as scraped when its
    detail page is done, but puts the companies of a manufacturers page
    into their category only when the page is finished.  So, however
    the site answers and wherever the run is stopped, the store has
    gained at most as many companies as the count has risen, and so has
    every checkpoint the run has written; when the run ends without
    being stopped the two are equal, and a run that nothing stops does
    end so.  The lag can be the whole page: in a run over one page of
    three companies that is killed after two details, the periodic
    checkpoint (interval 2) has the count 2 and no company, and the
    process that resumes from it fetches all three detail pages.  The
    checkpoint file that a resuming process finds is one the restore can
    read: its entries have the keys that [_restore_from_checkpoint]
    indexes, as every file written by [_save_checkpoint] has. *)
Theorem categories_store_lags_the_count :
  (forall interval site browser clock stop o use_selenium file,
      let start :=
        fst (ArcatCategories.resume_categories
               o (Arcat.new_scraper use_selenium file)) in
      let s' :=
        ArcatCategories.scrape_building_products_all_every
          interval site browser clock stop o
          (Arcat.new_scraper use_selenium file) in
      ArcatCategories.lags (Arcat.companies_scraped_count start)
                           (ArcatCategories.stored start) s' /\
      ArcatCategories.file_lags (Arcat.companies_scraped_count start)
                                (ArcatCategories.stored start) file s' /\
      (Arcat.halted s' = false ->
       ArcatCategories.level (Arcat.companies_scraped_count start)
                             (ArcatCategories.stored start) s')) /\
  (forall interval site browser clock o use_selenium file,
      let start :=
        fst (ArcatCategories.resume_categories
               o (Arcat.new_scraper use_selenium file)) in
      let s' :=
        ArcatCategories.scrape_building_products_all_every
          interval site browser clock Arcat.Never o
          (Arcat.new_scraper use_selenium file) in
      Arcat.halted s' = false /\
      ArcatCategories.stored s' + Arcat.companies_scraped_count start
      = Arcat.companies_scraped_count s' + ArcatCategories.stored start) /\
  Arcat.companies_scraped_count ArcatCategories.doors_killed_after_two = 2 /\
  ArcatCategories.stored ArcatCategories.doors_killed_after_two = 0 /\
  option_map (fun cp => (Arcat.cp_mode cp, Arcat.cp_companies_scraped cp,
                         ArcatCategories.filed cp))
             (Arcat.disk ArcatCategories.doors_killed_after_two)
  = Some ("categories", 2, 0) /\
  Arcat.detail_urls (Arcat.details ArcatCategories.doors_resumed)
  = [ArcatExamples.company_url "a-1"; ArcatExamples.company_url "b-2";
     ArcatExamples.company_url "c-3"].
Proof.
  assert (Hstart :
            forall o use_selenium file,
              ArcatCategories.quiet
                (fst (ArcatCategories.resume_categories
                        o (Arcat.new_scraper use_selenium file))) /\
              Arcat.halted
                (fst (ArcatCategories.resume_categories
                        o (Arcat.new_scraper use_selenium file))) = false /\
              Arcat.disk
                (fst (ArcatCategories.resume_categories
                        o (Arcat.new_scraper use_selenium file))) = file).
  { intros o use_selenium file. unfold ArcatCategories.resume_categories.
    destruct (ArcatCategories.resume o);
      [cbn [Arcat._load_checkpoint Arcat.new_scraper Arcat.disk];
       destruct file as [cp|]|];
      cbn; repeat split; intros H; discriminate H. }
  split; [|split].
  - intros interval site browser clock stop o use_selenium file. cbv zeta.
    destruct (Hstart o use_selenium file) as [Hq [_ Hd]].
    unfold ArcatCategories.scrape_building_products_all_every.
    destruct (ArcatCategories.resume_categories
                o (Arcat.new_scraper use_selenium file)) as [s0 scraped].
    cbn [fst] in *.
    destruct (ArcatLag.categories_passes_lags
                interval site browser clock stop o scraped s0 Hq)
      as [H1 [H2 [H3 _]]].
    cbv zeta in *. rewrite Hd in H2. repeat split; assumption.
  - intros interval site browser clock o use_selenium file. cbv zeta.
    destruct (Hstart o use_selenium file) as [Hq [Hrun _]].
    unfold ArcatCategories.scrape_building_products_all_every.
    destruct (ArcatCategories.resume_categories
                o (Arcat.new_scraper use_selenium file)) as [s0 scraped].
    cbn [fst] in *.
    destruct (ArcatLag.categories_passes_lags
                interval site browser clock Arcat.Never o scraped s0 Hq)
      as [_ [_ [H3 H4]]].
    cbv zeta in *. split; [exact (H4 eq_refl Hrun)|].
    exact (H3 (H4 eq_refl Hrun)).
  - vm_compute. repeat split.
Qed.

(* ------------------------------------------------------------------ *)
(** ** ARCAT: the manufacturers pages of the categories mode *)
(* ------------------------------------------------------------------ *)

Module ArcatTwice.
Import Arcat ArcatListings ArcatCategories.

Lemma make_request_gets :
  forall site u, In u (gets (snd (_make_request site u))).
Proof.
  intros site u. unfold _make_request, make_request_with.
  destruct (request_loop_shape MAX_RETRIES RETRY_DELAY_BASE (site u) u
                               MAX_RETRIES 0)
    as [k [_ [_ [_ Heq]]]]; [unfold MAX_RETRIES; lia|reflexivity|].
  rewrite Heq. cbn [snd]. rewrite gets_app. apply in_or_app. right.
  left. reflexivity.
Qed.

Lemma manufacturers_page_gets :
  forall site u category_name,
    In u (gets (snd (scrape_manufacturers_page site u category_name))).
Proof.
  intros site u category_name. unfold scrape_manufacturers_page.
  pose proof (make_request_gets site u) as H.
  destruct (_make_request site u) as [[p|] evs]; exact H.
Qed.

Lemma count_subcategories_gets :
  forall site max_companies category_name todo sub,
    In sub todo ->
    In (link_url sub)
       (gets (snd (count_subcategories site max_companies category_name
                                       todo))).
Proof.
  intros site max_companies category_name.
  induction todo as [|x rest IH]; intros sub Hin; [destruct Hin|].
  cbn [count_subcategories].
  pose proof (manufacturers_page_gets site (link_url x) category_name) as Hx.
  destruct (scrape_manufacturers_page site (link_url x) category_name)
    as [companies evs].
  specialize (IH sub).
  destruct (count_subcategories site max_companies category_name rest)
    as [total evs'].
  cbn [snd] in *. rewrite gets_app. apply in_or_app.
  destruct Hin as [->|Hin]; [left; exact Hx|right; apply IH; exact Hin].
Qed.

(** The pages of the sub-categories of some categories, within the
    limits, as the counting pass fetches them. *)
Lemma count_categories_gets :
  forall site max_subcategories max_companies todo cat sub,
    In cat (fst (fst (count_categories site max_subcategories max_companies
                                       todo))) ->
    In sub (limit max_subcategories (subcategories cat)) ->
    In (link_url sub)
       (gets (snd (count_categories site max_subcategories max_companies
                                    todo))).
Proof.
  intros site max_subcategories max_companies.
  induction todo as [|x rest IH]; intros cat sub Hcat Hsub;
    [destruct Hcat|].
  cbn [count_categories] in *.
  destruct (if is_nil (subcategories x) then _ else _) as [x' evs].
  pose proof (count_subcategories_gets
                site max_companies (cname x')
                (limit max_subcategories (subcategories x'))) as Hx.
  destruct (count_subcategories site max_companies (cname x')
                                (limit max_subcategories (subcategories x')))
    as [n evs1].
  specialize (IH cat sub).
  destruct (count_categories site max_subcategories max_companies rest)
    as [[cs total] evs2].
  cbn [fst snd] in *. rewrite !gets_app.
  apply in_or_app. right. apply in_or_app.
  destruct Hcat as [<-|Hcat]; [left; apply Hx; exact Hsub|].
  right. apply IH; assumption.
Qed.

Section Never.

Variable site : Site.
Variable browser : Browser.
Variable clock : nat -> Q.
Variable interval : nat.
Variables max_subcategories max_companies : option nat.
Variable scraped : list string.

Lemma requests_maybe_save :
  forall mode s,
    requests (maybe_save_checkpoint_every interval mode s) = requests s.
Proof.
  intros mode s. unfold maybe_save_checkpoint_every.
  destruct (_ && _); reflexivity.
Qed.

(** The loop over the companies of a page makes no request of the
    fetch client. *)
Lemma detail_listed_requests :
  forall stop todo done s,
    requests (snd (detail_listed site browser clock interval stop scraped
                                 done todo s))
    = requests s.
Proof.
  intros stop. induction todo as [|c rest IH]; intros done s;
    cbn [detail_listed]; [reflexivity|].
  destruct (halted s); [reflexivity|].
  destruct (mem (url c) scraped); [apply IH|].
  destruct (interrupted s); [reflexivity|].
  destruct (stop_now stop s) as [[|]|]; try reflexivity.
  destruct (scrape_company_details (selenium s) site browser c) as [r evs].
  destruct (raised r); [reflexivity|].
  rewrite IH, requests_maybe_save. reflexivity.
Qed.

(** The second pass over the sub-categories of a category fetches the
    pages that the first pass has fetched. *)
Lemma detail_subcategories_requests :
  forall todo view category_name cs s,
    halted s = false -> quiet s ->
    let r := detail_subcategories site browser clock interval Never
                                  max_companies scraped view category_name
                                  cs todo s in
    requests (snd r)
    = requests s
        ++ snd (count_subcategories site max_companies category_name todo) /\
    halted (snd r) = false /\ quiet (snd r).
Proof.
  induction todo as [|sub rest IH]; intros view category_name cs s Hrun Hq;
    cbn [detail_subcategories count_subcategories]; cbv zeta.
  - cbn [fst snd]. rewrite app_nil_r. repeat split; assumption.
  - assert (Hint : interrupted s = false).
    { destruct (interrupted s) eqn:E; [|reflexivity].
      rewrite (Hq E) in Hrun. discriminate Hrun. }
    rewrite Hrun, Hint. cbn [orb].
    pose proof (ArcatLag.manufacturers_page_fresh
                  site (link_url sub) category_name) as Hfresh.
    destruct (scrape_manufacturers_page site (link_url sub) category_name)
      as [companies evs].
    cbn [fst] in Hfresh.
    assert (Hl0 : lags 0 (stored (log_requests evs s)) (log_requests evs s))
      by (unfold lags; lia).
    destruct (ArcatLag.detail_listed_lags
                site browser clock interval Never scraped
                0 (stored (log_requests evs s)) (disk (log_requests evs s))
                (limit max_companies companies) [] (log_requests evs s)
                Hq Hl0 (or_introl eq_refl))
      as [_ [L2 [_ [_ [_ L6]]]]].
    pose proof (detail_listed_requests
                  Never (limit max_companies companies) []
                  (log_requests evs s)) as Hreq.
    cbv zeta in *.
    specialize (L6 eq_refl (ArcatRun.limit_Forall _ _ _ _ Hfresh)).
    destruct (detail_listed site browser clock interval Never scraped []
                            (limit max_companies companies)
                            (log_requests evs s)) as [processed s1].
    cbn [fst snd] in *.
    change (halted (log_requests evs s)) with (halted s) in L6.
    rewrite Hrun in L6. rewrite L6.
    match goal with
    | |- context [detail_subcategories _ _ _ _ _ _ _ _ _ ?cs' rest ?st] =>
        destruct (IH view category_name cs' st L6 L2) as [I1 [I2 I3]]
    end.
    cbv zeta in *.
    destruct (count_subcategories site max_companies category_name rest)
      as [total evs'].
    cbn [snd] in *.
    split; [|split; assumption].
    rewrite I1. cbn [with_categories requests]. rewrite Hreq.
    cbn [log_requests requests]. rewrite <- app_assoc. reflexivity.
Qed.

(** The second pass over the categories. *)
Lemma detail_categories_requests :
  forall todo pre post s,
    halted s = false -> quiet s ->
    exists evs,
      requests (detail_categories site browser clock interval Never
                                  max_subcategories max_companies scraped
                                  pre todo post s)
      = requests s ++ evs /\
      forall cat sub,
        In cat todo ->
        In sub (limit max_subcategories (subcategories cat)) ->
        In (link_url sub) (gets evs).
Proof.
  induction todo as [|cat rest IH]; intros pre post s Hrun Hq;
    cbn [detail_categories]; cbv zeta.
  - exists []. rewrite app_nil_r. split; [reflexivity|]. intros ? ? [].
  - assert (Hint : interrupted s = false).
    { destruct (interrupted s) eqn:E; [|reflexivity].
      rewrite (Hq E) in Hrun. discriminate Hrun. }
    rewrite Hrun, Hint. cbn [orb].
    match goal with
    | |- context [detail_subcategories _ _ _ _ _ _ _ ?v ?n ?cs ?td s] =>
        destruct (detail_subcategories_requests td v n cs s Hrun Hq)
          as [S1 [S2 S3]];
        destruct (detail_subcategories site browser clock interval Never
                                       max_companies scraped v n cs td s)
          as [cs1 s1]
    end.
    cbv zeta in *. cbn [fst snd] in *.
    assert (Hint1 : interrupted s1 = false).
    { destruct (interrupted s1) eqn:E; [|reflexivity].
      rewrite (S3 E) in S2. discriminate S2. }
    rewrite S2, Hint1. cbn [orb].
    destruct (IH (pre ++ [set_ccompanies cs1 cat]) post s1 S2 S3)
      as [evs [E1 E2]].
    eexists. split.
    + rewrite E1, S1, <- app_assoc. reflexivity.
    + intros c sub [<-|Hc] Hsub; rewrite gets_app; apply in_or_app.
      * left. apply count_subcategories_gets. exact Hsub.
      * right. apply (E2 c sub); assumption.
Qed.

End Never.

Lemma count_occ_twice :
  forall (u : string) (a b c d : list string),
    In u b -> In u c ->
    2 <= count_occ string_dec (a ++ b ++ c ++ d) u.
Proof.
  intros u a b c d Hb Hc. rewrite !count_occ_app.
  apply (count_occ_In string_dec) in Hb.
  apply (count_occ_In string_dec) in Hc. lia.
Qed.

End ArcatTwice.

(** X23. In a run of [scrape_building_products_all] that nothing stops,
    the manufacturers page of every sub-category within the limits is
    requested at least twice, whatever the site answers: once by the
    counting pass and once more by the detail pass, which fetches the
    page again instead of keeping the companies of the first fetch.  The
    checkpoint file that a resuming process finds is one the restore can
    read: its entries have the keys that [_restore_from_checkpoint]
    indexes, as every file written by [_save_checkpoint] has. *)
Theorem categories_mode_fetches_each_page_twice :
  forall interval site browser clock o use_selenium file,
    let start :=
      fst (ArcatCategories.resume_categories
             o (Arcat.new_scraper use_selenium file)) in
    let s' :=
      ArcatCategories.scrape_building_products_all_every
        interval site browser clock Arcat.Never o
        (Arcat.new_scraper use_selenium file) in
    forall cat sub,
      In cat (ArcatCategories.counted site o start) ->
      In sub (limit (ArcatCategories.max_subcategories_per_category o)
                    (Arcat.subcategories cat)) ->
      2 <= count_occ string_dec (gets (Arcat.requests s'))
                     (Arcat.link_url sub).
Proof.
  intros interval site browser clock o use_selenium file. cbv zeta.
  assert (Hstart :
            ArcatCategories.quiet
              (fst (ArcatCategories.resume_categories
                      o (Arcat.new_scraper use_selenium file))) /\
            Arcat.halted
              (fst (ArcatCategories.resume_categories
                      o (Arcat.new_scraper use_selenium file))) = false).
  { unfold ArcatCategories.resume_categories.
    destruct (ArcatCategories.resume o);
      [cbn [Arcat._load_checkpoint Arcat.new_scraper Arcat.disk];
       destruct file as [cp|]|];
      cbn; repeat split; intros H; discriminate H. }
  unfold ArcatCategories.scrape_building_products_all_every.
  destruct (ArcatCategories.resume_categories
              o (Arcat.new_scraper use_selenium file)) as [s0 scraped].
  cbn [fst] in *. destruct Hstart as [Hq Hrun].
  intros cat sub Hcat Hsub.
  unfold ArcatCategories.counted, ArcatCategories.starting_categories in Hcat.
  unfold ArcatCategories.categories_passes.
  unfold ArcatListings.scrape_building_product_categories in *.
  set (s1 := if is_nil (Arcat.building_product_categories s0) then _ else s0).
  set (cats1 := if is_nil (Arcat.building_product_categories s0)
                then _ else Arcat.building_product_categories s0) in Hcat.
  assert (H1 : Arcat.building_product_categories s1 = cats1 /\
               Arcat.halted s1 = false /\ ArcatCategories.quiet s1).
  { subst s1 cats1.
    destruct (is_nil (Arcat.building_product_categories s0));
      [|repeat split; assumption].
    destruct (_make_request site Arcat.categories_url) as [[p|] evs];
      repeat split; assumption. }
  clearbody s1 cats1. destruct H1 as [Hc1 [Hh1 Hq1]]. rewrite Hc1.
  pose proof (ArcatTwice.count_categories_gets
                site (ArcatCategories.max_subcategories_per_category o)
                (ArcatCategories.max_companies_per_subcategory o)
                (limit (ArcatCategories.max_categories o) cats1)
                cat sub Hcat Hsub) as Hfirst.
  destruct (ArcatCategories.count_categories
              site (ArcatCategories.max_subcategories_per_category o)
              (ArcatCategories.max_companies_per_subcategory o)
              (limit (ArcatCategories.max_categories o) cats1))
    as [[cs total] evs].
  cbn [fst snd] in *.
  match goal with
  | |- context [ArcatCategories.detail_categories
                  _ _ _ _ _ _ _ _ ?pre ?td ?post ?st] =>
      destruct (ArcatTwice.detail_categories_requests
                  site browser clock interval
                  (ArcatCategories.max_subcategories_per_category o)
                  (ArcatCategories.max_companies_per_subcategory o)
                  scraped td pre post st Hh1 Hq1) as [evs2 [E1 E2]];
      set (s3 := ArcatCategories.detail_categories
                   site browser clock interval Arcat.Never
                   (ArcatCategories.max_subcategories_per_category o)
                   (ArcatCategories.max_companies_per_subcategory o)
                   scraped pre td post st) in *
  end.
  cbn [Arcat.progress_start Arcat.with_progress Arcat.log_requests
         Arcat.with_categories Arcat.requests] in E1.
  assert (Hreq : Arcat.requests
                   (if Arcat.halted s3 then s3
                    else Arcat.close
                           (if Arcat.interrupted s3 then s3
                            else Arcat._save_checkpoint
                                   ArcatCategories.categories_mode s3))
                 = Arcat.requests s3).
  { destruct (Arcat.halted s3); [reflexivity|].
    destruct (Arcat.interrupted s3); reflexivity. }
  rewrite Hreq, E1. rewrite !gets_app.
  rewrite <- (app_nil_r (gets evs2)), <- app_assoc.
  apply ArcatTwice.count_occ_twice; [exact Hfirst|].
  apply (E2 cat sub Hcat Hsub).
Qed.

(** The page of the wood doors in the run over the doors site. *)
Lemma categories_mode_twice_witness :
  In ArcatCategories.doors
     (ArcatCategories.counted
        ArcatCategories.doors_site (ArcatCategories.all_categories false)
        (fst (ArcatCategories.resume_categories
                (ArcatCategories.all_categories false)
                (Arcat.new_scraper false None)))) /\
  2 <= count_occ string_dec
                 (gets (Arcat.requests ArcatCategories.doors_one_pass))
                 ArcatCategories.wood_doors_url.
Proof.
  assert (H1 : In ArcatCategories.doors
                  (ArcatCategories.counted
                     ArcatCategories.doors_site
                     (ArcatCategories.all_categories false)
                     (fst (ArcatCategories.resume_categories
                             (ArcatCategories.all_categories false)
                             (Arcat.new_scraper false None)))))
    by (vm_compute; left; reflexivity).
  split; [exact H1|].
  apply (categories_mode_fetches_each_page_twice
           2 ArcatCategories.doors_site no_browser wall_clock
           (ArcatCategories.all_categories false) false None
           ArcatCategories.doors ArcatCategories.wood_doors H1).
  left. reflexivity.
Defined.

(* ------------------------------------------------------------------ *)
(** ** SWEETS: a run that nothing stops, from its start to its end *)
(* ------------------------------------------------------------------ *)

Module SweetsFinished.
Import Sweets SweetsCrawl.

Lemma firstn_restored :
  forall (A : Type) (n : nat) (l l1 : list A),
    List.length l1 = List.length (firstn n l) ->
    firstn n (l1 ++ skipn (List.length (firstn n l)) l) = l1.
Proof.
  intros A n l l1 H. rewrite length_firstn in *.
  rewrite firstn_app.
  destruct (Nat.le_gt_cases (List.length l) n) as [Hle|Hgt].
  - rewrite Nat.min_r in * by exact Hle.
    rewrite skipn_all. rewrite firstn_nil, app_nil_r.
    apply firstn_all2. lia.
  - rewrite Nat.min_l in * by lia.
    rewrite H, Nat.sub_diag. cbn [firstn]. rewrite app_nil_r.
    rewrite <- H. apply firstn_all.
Qed.

Lemma limit_restored :
  forall (A : Type) (n : option nat) (l l1 : list A),
    List.length l1 = List.length (limit n l) ->
    limit n (l1 ++ skipn (List.length (limit n l)) l) = l1.
Proof.
  intros A n l l1 H. unfold limit in *. destruct n as [[|k]|].
  - rewrite skipn_all, app_nil_r. reflexivity.
  - apply firstn_restored. exact H.
  - rewrite skipn_all, app_nil_r. reflexivity.
Qed.

Section Loops.

Variable site : Site.
Variable browser : Browser.
Variable clock : nat -> Q.
Variable interval : nat.
Variables max_sections max_products : option nat.
Variable scraped : list string.

(** The counting pass counts the products that are due. *)
Lemma count_sections_spec :
  forall d todo,
    let r := count_sections site max_products scraped d todo in
    List.length (fst (fst r)) = List.length todo /\
    snd (fst r)
    = List.length (flat_map (due_in_section max_products scraped)
                            (fst (fst r))).
Proof.
  intros d. induction todo as [|sec rest IH]; [split; reflexivity|].
  cbn [count_sections]. cbv zeta in *.
  destruct (if is_nil (products sec) then _ else _) as [sec' evs].
  destruct (count_sections site max_products scraped d rest)
    as [[ss total] evs'].
  cbn [fst snd List.length flat_map] in *. destruct IH as [IH1 IH2].
  rewrite length_app, IH1, IH2. split; reflexivity.
Qed.

Lemma sweets_count_pass_spec :
  forall todo,
    snd (fst (count_pass site max_sections max_products scraped todo))
    = List.length
        (flat_map (due max_sections max_products scraped)
                  (fst (fst (count_pass site max_sections max_products
                                        scraped todo)))).
Proof.
  induction todo as [|d rest IH]; [reflexivity|].
  cbn [count_pass].
  destruct (if is_nil (sections d) then _ else _) as [d' evs].
  pose proof (count_sections_spec
                d' (limit max_sections (sections d'))) as Hs.
  cbv zeta in Hs.
  destruct (count_sections site max_products scraped d'
                           (limit max_sections (sections d')))
    as [[ss n] evs1].
  destruct (count_pass site max_sections max_products scraped rest)
    as [[ds total] evs2].
  cbn [fst snd flat_map] in *. destruct Hs as [Hlen Hn].
  rewrite length_app, <- IH. f_equal.
  unfold due. cbn [set_sections sections].
  rewrite limit_restored by exact Hlen. exact Hn.
Qed.

(** What the scraper is after the detail calls for the products [ps],
    none of which ends the run. *)
Lemma detail_products_never :
  forall todo view done s,
    halted s = false -> interrupted s = false ->
    let r := detail_products site browser clock interval Never scraped
                             view done todo s in
    details (snd r)
    = details s ++ map url (filter (not_scraped scraped) todo) /\
    products_scraped_count (snd r)
    = products_scraped_count s
      + List.length (filter (not_scraped scraped) todo) /\
    ProgressTracker.scraped_items (progress (snd r))
    = ProgressTracker.scraped_items (progress s)
      + List.length (filter (not_scraped scraped) todo) /\
    ProgressTracker.total_items (progress (snd r))
    = ProgressTracker.total_items (progress s) /\
    halted (snd r) = false /\ interrupted (snd r) = false.
Proof.
  induction todo as [|p rest IH]; intros view done s Hrun Hint;
    cbn [detail_products]; cbv zeta.
  - cbn [snd filter map List.length]. rewrite app_nil_r, !Nat.add_0_r.
    repeat split; assumption.
  - rewrite Hrun.
    assert (Hf : filter (not_scraped scraped) (p :: rest)
                 = if mem (url p) scraped
                   then filter (not_scraped scraped) rest
                   else p :: filter (not_scraped scraped) rest).
    { cbn [filter]. unfold not_scraped at 1.
      destruct (mem (url p) scraped); reflexivity. }
    rewrite Hf. clear Hf.
    destruct (mem (url p) scraped) eqn:Hmem.
    { apply IH; assumption. }
    rewrite Hint. cbn [stop_now].
    destruct (scrape_product_details (selenium s) site browser
                                     (manufacturer_cache s) p)
      as [[p' cache] evs].
    match goal with
    | |- context [detail_products _ _ _ _ _ _ _ _ rest ?st] =>
        set (s1 := st)
    end.
    assert (F : details s1 = details s ++ [url p] /\
                products_scraped_count s1 = S (products_scraped_count s) /\
                ProgressTracker.scraped_items (progress s1)
                = ProgressTracker.scraped_items (progress s) + 1 /\
                ProgressTracker.total_items (progress s1)
                = ProgressTracker.total_items (progress s) /\
                halted s1 = false /\ interrupted s1 = false).
    { subst s1. unfold maybe_save_checkpoint_every.
      destruct (_ && _); cbn; repeat split; assumption. }
    clearbody s1. destruct F as [F1 [F2 [F3 [F4 [F5 F6]]]]].
    destruct (IH view (done ++ [p']) s1 F5 F6)
      as [H1 [H2 [H3 [H4 [H5 H6]]]]].
    cbv zeta in *. cbn [map List.length].
    rewrite H1, H2, H3, H4, F1, F2, F3, F4, <- app_assoc.
    repeat split; try assumption; try reflexivity; lia.
Qed.

Lemma detail_sections_never :
  forall todo view done s,
    halted s = false -> interrupted s = false ->
    let r := detail_sections site browser clock interval Never max_products
                             scraped view done todo s in
    details (snd r)
    = details s
        ++ map url (flat_map (due_in_section max_products scraped) todo) /\
    products_scraped_count (snd r)
    = products_scraped_count s
      + List.length (flat_map (due_in_section max_products scraped) todo) /\
    ProgressTracker.scraped_items (progress (snd r))
    = ProgressTracker.scraped_items (progress s)
      + List.length (flat_map (due_in_section max_products scraped) todo) /\
    ProgressTracker.total_items (progress (snd r))
    = ProgressTracker.total_items (progress s) /\
    halted (snd r) = false /\ interrupted (snd r) = false.
Proof.
  induction todo as [|sec rest IH]; intros view done s Hrun Hint;
    cbn [detail_sections]; cbv zeta.
  - cbn [snd flat_map map List.length]. rewrite app_nil_r, !Nat.add_0_r.
    repeat split; assumption.
  - rewrite Hrun, Hint. cbn [orb].
    match goal with
    | |- context [detail_products _ _ _ _ _ _ ?v ?dn ?td s] =>
        destruct (detail_products_never td v dn s Hrun Hint)
          as [P1 [P2 [P3 [P4 [P5 P6]]]]];
        destruct (detail_products site browser clock interval Never scraped
                                  v dn td s) as [ps s1]
    end.
    cbv zeta in *. cbn [fst snd] in *.
    match goal with
    | |- context [detail_sections _ _ _ _ _ _ _ ?v ?dn rest s1] =>
        destruct (IH v dn s1 P5 P6) as [H1 [H2 [H3 [H4 [H5 H6]]]]]
    end.
    cbv zeta in *. cbn [flat_map].
    rewrite map_app, length_app.
    rewrite H1, H2, H3, H4, P1, P2, P3, P4, <- app_assoc.
    unfold due_in_section.
    repeat split; try assumption; try reflexivity; lia.
Qed.

Lemma sweets_detail_divisions_never :
  forall todo pre post s,
    halted s = false -> interrupted s = false ->
    let s' := detail_divisions site browser clock interval Never
                               max_sections max_products scraped
                               pre todo post s in
    details s'
    = details s
        ++ map url (flat_map (due max_sections max_products scraped) todo) /\
    products_scraped_count s'
    = products_scraped_count s
      + List.length (flat_map (due max_sections max_products scraped) todo)
    /\
    ProgressTracker.scraped_items (progress s')
    = ProgressTracker.scraped_items (progress s)
      + List.length (flat_map (due max_sections max_products scraped) todo)
    /\
    ProgressTracker.total_items (progress s')
    = ProgressTracker.total_items (progress s) /\
    halted s' = false /\ interrupted s' = false.
Proof.
  induction todo as [|d rest IH]; intros pre post s Hrun Hint;
    cbn [detail_divisions]; cbv zeta.
  - cbn [flat_map map List.length]. rewrite app_nil_r, !Nat.add_0_r.
    repeat split; assumption.
  - rewrite Hrun, Hint. cbn [orb].
    match goal with
    | |- context [detail_sections _ _ _ _ _ _ _ ?v ?dn ?td s] =>
        destruct (detail_sections_never td v dn s Hrun Hint)
          as [P1 [P2 [P3 [P4 [P5 P6]]]]];
        destruct (detail_sections site browser clock interval Never
                                  max_products scraped v dn td s) as [ss s1]
    end.
    cbv zeta in *. cbn [fst snd] in *.
    rewrite P5, P6. cbn [orb].
    match goal with
    | |- context [detail_divisions _ _ _ _ _ _ _ _ ?p rest post s1] =>
        destruct (IH p post s1 P5 P6) as [H1 [H2 [H3 [H4 [H5 H6]]]]]
    end.
    cbv zeta in *. cbn [flat_map].
    rewrite map_app, length_app.
    rewrite H1, H2, H3, H4, P1, P2, P3, P4, <- app_assoc.
    unfold due.
    repeat split; try assumption; try reflexivity; lia.
Qed.

End Loops.

(** The run of a new process that nothing stops. *)
Lemma sweets_run_never :
  forall interval site browser clock o use_selenium file,
    let start :=
      fst (Sweets.resume_all o (Sweets.new_scraper use_selenium file)) in
    let scraped :=
      snd (Sweets.resume_all o (Sweets.new_scraper use_selenium file)) in
    let s' := Sweets.scrape_all_every
                interval site browser clock Sweets.Never o
                (Sweets.new_scraper use_selenium file) in
    let todo :=
      flat_map (SweetsCrawl.due (Sweets.max_sections_per_division o)
                                (Sweets.max_products_per_section o) scraped)
               (SweetsCrawl.counted site o scraped start) in
    Sweets.details s' = map Sweets.url todo /\
    Sweets.products_scraped_count s'
    = Sweets.products_scraped_count start + List.length todo /\
    ProgressTracker.scraped_items (Sweets.progress s') = List.length todo /\
    ProgressTracker.total_items (Sweets.progress s') = List.length todo.
Proof.
  intros interval site browser clock o use_selenium file. cbv zeta.
  assert (Hstart :
            Sweets.halted
              (fst (Sweets.resume_all
                      o (Sweets.new_scraper use_selenium file))) = false /\
            Sweets.interrupted
              (fst (Sweets.resume_all
                      o (Sweets.new_scraper use_selenium file))) = false /\
            Sweets.details
              (fst (Sweets.resume_all
                      o (Sweets.new_scraper use_selenium file))) = []).
  { unfold Sweets.resume_all.
    destruct (Sweets.resume o);
      [cbn [Sweets._load_checkpoint Sweets.new_scraper Sweets.disk];
       destruct file as [cp|]|];
      repeat split. }
  unfold Sweets.scrape_all_every.
  destruct (Sweets.resume_all o (Sweets.new_scraper use_selenium file))
    as [s0 scraped].
  cbn [fst snd] in *. destruct Hstart as [Hrun [Hint Hdet]].
  unfold Sweets.all_passes, SweetsCrawl.counted,
    SweetsCrawl.starting_divisions, Sweets.scrape_divisions.
  set (s1 := if is_nil (Sweets.divisions s0) then _ else s0).
  set (start := if is_nil (Sweets.divisions s0)
                then _ else Sweets.divisions s0).
  assert (H1 : Sweets.divisions s1 = start /\ Sweets.halted s1 = false /\
               Sweets.interrupted s1 = false /\ Sweets.details s1 = [] /\
               Sweets.products_scraped_count s1
               = Sweets.products_scraped_count s0).
  { subst s1 start. destruct (is_nil (Sweets.divisions s0));
      [|repeat split; assumption].
    destruct (_make_request site Sweets.specs_url) as [[p|] evs];
      repeat split; assumption. }
  clearbody s1 start. destruct H1 as [Hd1 [Hh1 [Hi1 [He1 Hc1]]]].
  rewrite Hd1.
  pose proof (SweetsFinished.sweets_count_pass_spec
                site (Sweets.max_sections_per_division o)
                (Sweets.max_products_per_section o) scraped
                (limit (Sweets.max_divisions o) start)) as Htotal.
  destruct (Sweets.count_pass
              site (Sweets.max_sections_per_division o)
              (Sweets.max_products_per_section o) scraped
              (limit (Sweets.max_divisions o) start)) as [[ds total] evs].
  cbn [fst snd] in *.
  match goal with
  | |- context [Sweets.detail_divisions _ _ _ _ _ _ _ _ ?pre ?td ?post ?st] =>
      destruct (SweetsFinished.sweets_detail_divisions_never
                  site browser clock interval
                  (Sweets.max_sections_per_division o)
                  (Sweets.max_products_per_section o) scraped
                  td pre post st Hh1 Hi1)
        as [D1 [D2 [D3 [D4 [D5 D6]]]]];
      set (s3 := Sweets.detail_divisions
                   site browser clock interval Sweets.Never
                   (Sweets.max_sections_per_division o)
                   (Sweets.max_products_per_section o) scraped
                   pre td post st) in *
  end.
  cbv zeta in *. clearbody s3. rewrite D5, D6.
  cbn [Sweets._save_checkpoint Sweets.with_disk Sweets.details
         Sweets.products_scraped_count Sweets.progress].
  rewrite D1, D2, D3, D4. cbn. rewrite He1, Hc1, Htotal.
  repeat split; reflexivity.
Qed.

End SweetsFinished.

(** X24. When nothing stops SWEETS [scrape_all], the run makes one
    detail call for every product within the limits whose URL is not in
    the set built on resume, in the order of the store, and no other;
    the progress tracker ends complete, the number of products scraped
    that it shows being the total announced at the start of the detail
    pass, and the count of the scraper is the count it resumed with
    plus that number. *)
Theorem sweets_unstopped_run_details_what_is_due :
  forall interval site browser clock o use_selenium file,
    let start :=
      fst (Sweets.resume_all o (Sweets.new_scraper use_selenium file)) in
    let scraped :=
      snd (Sweets.resume_all o (Sweets.new_scraper use_selenium file)) in
    let s' := Sweets.scrape_all_every
                interval site browser clock Sweets.Never o
                (Sweets.new_scraper use_selenium file) in
    let todo :=
      flat_map (SweetsCrawl.due (Sweets.max_sections_per_division o)
                                (Sweets.max_products_per_section o) scraped)
               (SweetsCrawl.counted site o scraped start) in
    Sweets.details s' = map Sweets.url todo /\
    Sweets.products_scraped_count s'
    = Sweets.products_scraped_count start + List.length todo /\
    ProgressTracker.scraped_items (Sweets.progress s') = List.length todo /\
    ProgressTracker.total_items (Sweets.progress s') = List.length todo.
Proof.
  exact SweetsFinished.sweets_run_never.
Qed.

(* ------------------------------------------------------------------ *)
(** ** The order of the extraction strategies *)
(* ------------------------------------------------------------------ *)

Module PatternStreet.
Import PatternGroups.

(** A pattern that has no group [n] leaves the binding of [n] as it
    finds it. *)
Lemma run_keeps_group :
  forall (n : nat) (P : string -> Prop) (r : regex),
    binds n r = false ->
    forall k : cont,
      (forall b a c res,
          P (lookup_group n c) -> k b a c = Some res ->
          P (lookup_group n (snd res))) ->
      forall b a c res,
        P (lookup_group n c) -> run r b a c k = Some res ->
        P (lookup_group n (snd res)).
Proof.
  intros n P.
  induction r as [|p|p|r1 IH1 r2 IH2|r1 IH1 r2 IH2|g r1 IH1|m r1 IH1| | |
                  |r1 IH1|p];
    intros Hb k Hk b a c res Hc Hrun; cbn [run binds] in *.
  - eapply Hk; eassumption.
  - destruct a as [|x a']; [discriminate|].
    destruct (p x); [|discriminate]. eapply Hk; eassumption.
  - destruct a as [|x a']; [discriminate|].
    destruct (p x); [discriminate|]. eapply Hk; eassumption.
  - apply orb_false_iff in Hb. destruct Hb as [Hb1 Hb2].
    eapply (IH1 Hb1); [|exact Hc|exact Hrun].
    intros b' a' c' res' Hc' Hrun'.
    eapply (IH2 Hb2 k Hk); [exact Hc'|exact Hrun'].
  - apply orb_false_iff in Hb. destruct Hb as [Hb1 Hb2].
    unfold or_else in Hrun.
    destruct (run r1 b a c k) eqn:H1.
    + injection Hrun as <-. eapply (IH1 Hb1 k Hk); eassumption.
    + eapply (IH2 Hb2 k Hk); eassumption.
  - assert (Hstar :
              forall fuel b a c res,
                P (lookup_group n c) ->
                star (run r1) g fuel b a c k = Some res ->
                P (lookup_group n (snd res)));
      [|eapply Hstar; [exact Hc|exact Hrun]].
    clear b a c res Hc Hrun.
    induction fuel as [|fuel IHf]; intros b a c res Hc Hrun;
      cbn [star] in Hrun.
    + eapply Hk; eassumption.
    + assert (Hagain :
                forall res',
                  run r1 b a c
                      (fun b' a' c' =>
                         if List.length a' <? List.length a
                         then star (run r1) g fuel b' a' c' k else None)
                  = Some res' ->
                  P (lookup_group n (snd res'))).
      { intros res' H. eapply (IH1 Hb); [|exact Hc|exact H].
        intros b' a' c' res'' Hc' H'. cbv beta in H'.
        destruct (List.length a' <? List.length a); [|discriminate].
        eapply IHf; [exact Hc'|exact H']. }
      unfold or_else in Hrun. destruct g.
      * destruct (run r1 b a c _) eqn:H1.
        -- injection Hrun as <-. apply Hagain. reflexivity.
        -- eapply Hk; eassumption.
      * destruct (k b a c) eqn:H1.
        -- injection Hrun as <-. eapply Hk; eassumption.
        -- apply Hagain. exact Hrun.
  - apply orb_false_iff in Hb. destruct Hb as [Hm Hb].
    eapply (IH1 Hb); [|exact Hc|exact Hrun].
    intros b' a' c' res' Hc' Hrun'. cbv beta in Hrun'.
    eapply Hk; [|exact Hrun']. cbn [lookup_group]. rewrite Hm. exact Hc'.
  - destruct b; [|discriminate]. eapply Hk; eassumption.
  - destruct (at_eol a); [|discriminate]. eapply Hk; eassumption.
  - destruct (at_word_boundary b a); [|discriminate].
    eapply Hk; eassumption.
  - destruct (run r1 b a c _); [discriminate|]. eapply Hk; eassumption.
  - destruct b as [|x b']; [eapply Hk; eassumption|].
    destruct (p x); [discriminate|]. eapply Hk; eassumption.
Qed.

(** A pattern hands to what follows it a text that is not longer than
    the one it was given. *)
Lemma run_consumes :
  forall (Q : result -> Prop) (n : nat) (r : regex) (k : cont),
    (forall b a c res,
        List.length a <= n -> k b a c = Some res -> Q res) ->
    forall b a c res,
      List.length a <= n -> run r b a c k = Some res -> Q res.
Proof.
  intros Q n.
  induction r as [|p|p|r1 IH1 r2 IH2|r1 IH1 r2 IH2|g r1 IH1|m r1 IH1| | |
                  |r1 IH1|p];
    intros k Hk b a c res Hlen Hrun; cbn [run] in *.
  - eapply Hk; eassumption.
  - destruct a as [|x a']; [discriminate|].
    destruct (p x); [|discriminate].
    eapply Hk; [|exact Hrun]. cbn [List.length] in Hlen. lia.
  - destruct a as [|x a']; [discriminate|].
    destruct (p x); [discriminate|].
    eapply Hk; [|exact Hrun]. cbn [List.length] in Hlen. lia.
  - eapply IH1; [|exact Hlen|exact Hrun].
    intros b' a' c' res' Hlen' Hrun'.
    eapply (IH2 k Hk); [exact Hlen'|exact Hrun'].
  - unfold or_else in Hrun.
    destruct (run r1 b a c k) eqn:H1.
    + injection Hrun as <-. eapply (IH1 k Hk); eassumption.
    + eapply (IH2 k Hk); eassumption.
  - assert (Hstar :
              forall fuel b a c res,
                List.length a <= n ->
                star (run r1) g fuel b a c k = Some res -> Q res);
      [|eapply Hstar; [exact Hlen|exact Hrun]].
    clear b a c res Hlen Hrun.
    induction fuel as [|fuel IHf]; intros b a c res Hlen Hrun;
      cbn [star] in Hrun.
    + eapply Hk; eassumption.
    + assert (Hagain :
                forall res',
                  run r1 b a c
                      (fun b' a' c' =>
                         if List.length a' <? List.length a
                         then star (run r1) g fuel b' a' c' k else None)
                  = Some res' ->
                  Q res').
      { intros res' H. eapply IH1; [|exact Hlen|exact H].
        intros b' a' c' res'' Hlen' H'. cbv beta in H'.
        destruct (List.length a' <? List.length a); [|discriminate].
        eapply IHf; [exact Hlen'|exact H']. }
      unfold or_else in Hrun. destruct g.
      * destruct (run r1 b a c _) eqn:H1.
        -- injection Hrun as <-. apply Hagain. reflexivity.
        -- eapply Hk; eassumption.
      * destruct (k b a c) eqn:H1.
        -- injection Hrun as <-. eapply Hk; eassumption.
        -- apply Hagain. exact Hrun.
  - eapply IH1; [|exact Hlen|exact Hrun].
    intros b' a' c' res' Hlen' Hrun'. cbv beta in Hrun'.
    eapply Hk; [exact Hlen'|exact Hrun'].
  - destruct b; [|discriminate]. eapply Hk; eassumption.
  - destruct (at_eol a); [|discriminate]. eapply Hk; eassumption.
  - destruct (at_word_boundary b a); [|discriminate].
    eapply Hk; eassumption.
  - destruct (run r1 b a c _); [discriminate|]. eapply Hk; eassumption.
  - destruct b as [|x b']; [eapply Hk; eassumption|].
    destruct (p x); [discriminate|]. eapply Hk; eassumption.
Qed.

(** A match of a pattern that opens with a quoted group 1 whose first
    character is of the class [D], and has no other group 1: the text
    of group 1 starts with a character of [D]. *)
Lemma first_group_starts_in :
  forall (q q' D : ascii -> bool) (more tail rest : regex) b a res,
    binds 1 rest = false ->
    run (Seq (Seq (Chr q)
                  (Seq (Grp 1 (Seq (Seq (Chr D) more) tail)) (Chr q')))
             rest) b a [] finish = Some res ->
    starts_in D (lookup_group 1 (snd res)) = true.
Proof.
  intros q q' D more tail rest b a res Hb Hrun. cbn [run] in Hrun.
  destruct a as [|x a1]; [discriminate Hrun|].
  destruct (q x); [|discriminate Hrun].
  destruct a1 as [|d a2]; [discriminate Hrun|].
  destruct (D d) eqn:Hd; [|discriminate Hrun].
  eapply (run_consumes
            (fun res => starts_in D (lookup_group 1 (snd res)) = true)
            (List.length a2) more);
    [|apply Nat.le_refl|exact Hrun].
  intros b1 a' c1 res1 Hlen1 H1. cbv beta in H1.
  eapply (run_consumes
            (fun res => starts_in D (lookup_group 1 (snd res)) = true)
            (List.length a2) tail);
    [|exact Hlen1|exact H1].
  intros b2 a'' c2 res2 Hlen2 H2. cbv beta in H2.
  destruct a'' as [|y a3]; [discriminate H2|].
  destruct (q' y); [|discriminate H2].
  eapply (run_keeps_group 1 (fun s => starts_in D s = true) rest Hb finish);
    [| |exact H2].
  - intros b3 a4 c3 res3 HP Hf. unfold finish in Hf.
    injection Hf as <-. exact HP.
  - cbn [lookup_group Nat.eqb].
    replace (List.length (d :: a2) - List.length (y :: a3))
      with (S (List.length a2 - List.length (y :: a3)))
      by (cbn [List.length] in *; lia).
    cbn [firstn string_of_list_ascii starts_in]. exact Hd.
Qed.

(** A match found by [re.search] is a match at some position. *)
Lemma search_from_match :
  forall r a pos b m,
    search_from r pos b a = Some m ->
    exists b' a' rest, run r b' a' [] finish = Some (rest, m_caps m).
Proof.
  intros r. induction a as [|x a IH]; intros pos b m H;
    cbn [search_from] in H.
  - unfold match_here in H.
    destruct (run r b [] [] finish) as [[a' c]|] eqn:Hrun;
      [|discriminate H].
    injection H as <-. exists b, [], a'. exact Hrun.
  - unfold match_here in H.
    destruct (run r b (x :: a) [] finish) as [[a' c]|] eqn:Hrun.
    + injection H as <-. exists b, (x :: a), a'. exact Hrun.
    + eapply IH. exact H.
Qed.

(** The four patterns of the serialized data open with the quoted
    street, group 1, which starts with a digit; no other group of theirs
    has the number 1. *)
Lemma street_patterns_shape :
  Forall (fun r =>
            exists q q' more tail rest,
              r = Seq (Seq (Chr q)
                           (Seq (Grp 1 (Seq (Seq (Chr (fold_case is_digit))
                                                 more) tail))
                                (Chr q')))
                      rest /\
              binds 1 rest = false)
         [Arcat.pattern_with_null; Arcat.pattern_direct; Arcat.pattern3;
          Arcat.pattern_canada].
Proof.
  repeat constructor; do 5 eexists; (split; [reflexivity|reflexivity]).
Qed.

Lemma digit_is_no_space :
  forall d, fold_case is_digit d = true -> is_space d = false.
Proof.
  intros [[] [] [] [] [] [] [] []]; vm_compute; intros H;
    try reflexivity; discriminate H.
Qed.

Lemma strip_keeps_a_first_character :
  forall s, starts_in (fold_case is_digit) s = true ->
            nonempty (strip s) = true.
Proof.
  intros [|x s] H; [discriminate H|]. cbn [starts_in] in H.
  apply digit_is_no_space in H.
  unfold strip, strip_by. cbn [lstrip_by]. rewrite H. cbn [rstrip_by].
  destruct (rstrip_by is_space s); [rewrite H|]; reflexivity.
Qed.

(** The street of a match of one of the four patterns is not blank. *)
Lemma matched_street_is_not_blank :
  forall r html_ m,
    In r [Arcat.pattern_with_null; Arcat.pattern_direct; Arcat.pattern3;
          Arcat.pattern_canada] ->
    search r html_ = Some m ->
    is_empty (strip (group m 1)) = false.
Proof.
  intros r html_ m Hr Hm.
  pose proof street_patterns_shape as Hshape.
  rewrite Forall_forall in Hshape.
  destruct (Hshape r Hr) as [q [q' [more [tail [rest [-> Hb]]]]]].
  unfold search in Hm. apply search_from_match in Hm.
  destruct Hm as [b [a [left_ Hrun]]].
  apply first_group_starts_in in Hrun; [|exact Hb].
  apply strip_keeps_a_first_character in Hrun.
  unfold nonempty in Hrun. apply negb_true_iff in Hrun. exact Hrun.
Qed.

End PatternStreet.

Module Precedence.
Import PyStr PyRe.

Ltac first_match r H :=
  let Hne := fresh "Hne" in
  pose proof (PatternStreet.matched_street_is_not_blank
                r _ _ ltac:(cbn [In]; auto 10) H) as Hne;
  repeat (cbn [Arcat.nuxt_empty Arcat.set_contact Arcat.n_address is_empty];
          rewrite ?Hne);
  destruct (find _ _);
  cbn [Arcat.set_n_website Arcat.set_contact Arcat.nuxt_empty
       Arcat.n_address Arcat.n_city Arcat.n_state Arcat.n_zip Arcat.n_phone
       Arcat.n_email];
  repeat split; reflexivity.

(** The patterns of the serialized data are tried in their order until
    one matches: the first that matches gives the contact, and no later
    pattern is tried after it. *)
Lemma nuxt_pattern_order :
  forall html_,
    let data := Arcat._extract_from_nuxt_data html_ in
    (forall m,
        search Arcat.pattern_with_null html_ = Some m ->
        Arcat.n_address data = strip (group m 1) /\
        Arcat.n_city data = strip (group m 2) /\
        Arcat.n_state data = strip (group m 3) /\
        Arcat.n_zip data = strip (group m 4) /\
        Arcat.n_phone data = strip (group m 5) /\
        Arcat.n_email data = strip (group m 6)) /\
    (forall m,
        search Arcat.pattern_with_null html_ = None ->
        search Arcat.pattern_direct html_ = Some m ->
        Arcat.n_address data = strip (group m 1) /\
        Arcat.n_city data = strip (group m 2) /\
        Arcat.n_state data = strip (group m 3) /\
        Arcat.n_zip data = strip (group m 4) /\
        Arcat.n_phone data = strip (group m 5) /\
        Arcat.n_email data = strip (group m 6)) /\
    (forall m,
        search Arcat.pattern_with_null html_ = None ->
        search Arcat.pattern_direct html_ = None ->
        search Arcat.pattern3 html_ = Some m ->
        Arcat.n_address data = strip (group m 1) /\
        Arcat.n_city data = strip (group m 2) /\
        Arcat.n_state data = strip (group m 3) /\
        Arcat.n_zip data = strip (group m 4) /\
        Arcat.n_phone data = strip (group m 5) /\
        Arcat.n_email data = EmptyString) /\
    (forall m,
        search Arcat.pattern_with_null html_ = None ->
        search Arcat.pattern_direct html_ = None ->
        search Arcat.pattern3 html_ = None ->
        search Arcat.pattern_canada html_ = Some m ->
        Arcat.n_address data = strip (group m 1) /\
        Arcat.n_city data = strip (group m 2) /\
        Arcat.n_state data = strip (group m 3) /\
        Arcat.n_zip data = strip (group m 4) /\
        Arcat.n_phone data
        = Arcat.str_or (strip (group m 5)) (strip (group m 6)) /\
        Arcat.n_email data = strip (group m 7)) /\
    (search Arcat.pattern_with_null html_ = None ->
     search Arcat.pattern_direct html_ = None ->
     search Arcat.pattern3 html_ = None ->
     search Arcat.pattern_canada html_ = None ->
     Arcat.n_address data = EmptyString /\
     Arcat.n_city data = EmptyString /\
     Arcat.n_state data = EmptyString /\
     Arcat.n_zip data = EmptyString /\
     Arcat.n_phone data = EmptyString /\
     Arcat.n_email data = EmptyString).
Proof.
  intros html_. cbv zeta. unfold Arcat._extract_from_nuxt_data.
  split; [|split; [|split; [|split]]].
  - intros m H1. rewrite H1. cbv zeta.
    first_match Arcat.pattern_with_null H1.
  - intros m H1 H2. rewrite H1, H2. cbv zeta.
    first_match Arcat.pattern_direct H2.
  - intros m H1 H2 H3. rewrite H1, H2, H3. cbv zeta.
    first_match Arcat.pattern3 H3.
  - intros m H1 H2 H3 H4. rewrite H1, H2, H3, H4. cbv zeta.
    first_match Arcat.pattern_canada H4.
  - intros H1 H2 H3 H4. rewrite H1, H2, H3, H4. cbv zeta.
    cbn [Arcat.nuxt_empty Arcat.n_address is_empty].
    destruct (find _ _);
      cbn [Arcat.set_n_website Arcat.nuxt_empty
           Arcat.n_address Arcat.n_city Arcat.n_state Arcat.n_zip
           Arcat.n_phone Arcat.n_email];
      repeat split; reflexivity.
Qed.

(** The serialized data replace what a company already holds, for
    instance from the rendered page: the address and the state when
    they have a street, and the phone, the email and the web site when
    they have one.  A field they do not have is left as it is. *)
Lemma apply_nuxt_replaces :
  forall nd c,
    (nonempty (Arcat.n_address nd) = true ->
     Arcat.address (Arcat.apply_nuxt nd c)
     = strip_chars ", "
         (Arcat.n_address nd ++ ", " ++ strip (Arcat.n_city nd) ++ ", "
            ++ strip (Arcat.n_state nd) ++ " "
            ++ strip (Arcat.n_zip nd))%string /\
     Arcat.state (Arcat.apply_nuxt nd c)
     = table_get Arcat.STATE_ABBREV_TO_FULL
                 (upper (strip (Arcat.n_state nd)))
                 (strip (Arcat.n_state nd))) /\
    (nonempty (Arcat.n_phone nd) = true ->
     Arcat.phone (Arcat.apply_nuxt nd c) = Arcat.n_phone nd) /\
    (nonempty (Arcat.n_email nd) = true ->
     Arcat.email (Arcat.apply_nuxt nd c) = Arcat.n_email nd) /\
    (nonempty (Arcat.n_website nd) = true ->
     Arcat.website (Arcat.apply_nuxt nd c) = Arcat.n_website nd) /\
    (is_empty (Arcat.n_address nd) = true ->
     Arcat.address (Arcat.apply_nuxt nd c) = Arcat.address c /\
     Arcat.state (Arcat.apply_nuxt nd c) = Arcat.state c) /\
    (is_empty (Arcat.n_phone nd) = true ->
     Arcat.phone (Arcat.apply_nuxt nd c) = Arcat.phone c) /\
    (is_empty (Arcat.n_email nd) = true ->
     Arcat.email (Arcat.apply_nuxt nd c) = Arcat.email c) /\
    (is_empty (Arcat.n_website nd) = true ->
     Arcat.website (Arcat.apply_nuxt nd c) = Arcat.website c).
Proof.
  intros nd c. unfold Arcat.apply_nuxt, nonempty. cbv zeta.
  destruct (is_empty (Arcat.n_address nd));
    destruct (is_empty (Arcat.n_phone nd));
    destruct (is_empty (Arcat.n_email nd));
    destruct (is_empty (Arcat.n_website nd));
    cbn [negb];
    repeat split; intros; try reflexivity; congruence.
Qed.

(** The manufacturer's page is not consulted for a product that has an
    address. *)
Lemma manufacturer_fallback_guarded :
  forall site cache product,
    nonempty (Sweets.address (Sweets.contact product)) = true ->
    Sweets.manufacturer_fallback site cache product = (product, cache, []).
Proof.
  intros site cache product Hne. unfold Sweets.manufacturer_fallback.
  unfold nonempty in Hne. apply negb_true_iff in Hne. rewrite Hne.
  reflexivity.
Qed.

(** Where it is consulted and gives a contact, be it from the cache or
    from the page, the product gets that contact over its own. *)
Lemma manufacturer_fallback_applies :
  forall site cache product m,
    is_empty (Sweets.address (Sweets.contact product)) = true ->
    nonempty (Sweets.manufacturer_id product) = true ->
    Sweets.cache_get (Sweets.manufacturer_id product) cache = Some (Some m) \/
    (Sweets.cache_get (Sweets.manufacturer_id product) cache = None /\
     fst (Sweets._scrape_manufacturer_contact
            site (Sweets.manufacturer_id product)) = Some m) ->
    fst (fst (Sweets.manufacturer_fallback site cache product))
    = Sweets.set_contact
        (Sweets.apply_manufacturer m (Sweets.contact product)) product.
Proof.
  intros site cache product m Hempty Hid Hm.
  unfold Sweets.manufacturer_fallback. rewrite Hempty, Hid. cbn [andb].
  destruct Hm as [Hm|[Hm Hpage]].
  - rewrite Hm. reflexivity.
  - rewrite Hm.
    destruct (Sweets._scrape_manufacturer_contact _ _) as [r evs].
    cbn [fst] in Hpage. subst r. reflexivity.
Qed.

(** Where the manufacturer gives nothing, the product stays as it is. *)
Lemma manufacturer_fallback_finds_nothing :
  forall site cache product,
    Sweets.cache_get (Sweets.manufacturer_id product) cache = Some None \/
    (Sweets.cache_get (Sweets.manufacturer_id product) cache = None /\
     fst (Sweets._scrape_manufacturer_contact
            site (Sweets.manufacturer_id product)) = None) ->
    fst (fst (Sweets.manufacturer_fallback site cache product)) = product.
Proof.
  intros site cache product Hm.
  unfold Sweets.manufacturer_fallback.
  destruct (is_empty _ && nonempty _); [|reflexivity].
  destruct Hm as [Hm|[Hm Hpage]].
  - rewrite Hm. reflexivity.
  - rewrite Hm.
    destruct (Sweets._scrape_manufacturer_contact _ _) as [r evs].
    cbn [fst] in Hpage. subst r. reflexivity.
Qed.

(** What follows the fall-back in the pass over a product page leaves
    the contact alone. *)
Lemma later_steps_keep_the_contact :
  forall selenium site browser cache pg product,
    Sweets.contact
      (fst (fst (Sweets.extract_product selenium site browser cache pg
                                        product)))
    = Sweets.contact
        (fst (fst (Sweets.manufacturer_fallback
                     site cache
                     (match company_info pg with
                      | Some address_tag =>
                          Sweets.set_contact
                            (Sweets._parse_address_tag
                               address_tag (Sweets.manufacturer_name product))
                            product
                      | None =>
                          Sweets.set_contact
                            (Sweets.regex_fallback
                               (html pg) (Sweets.contact product))
                            product
                      end)))).
Proof.
  intros selenium site browser cache pg product.
  unfold Sweets.extract_product. cbv zeta.
  destruct (Sweets.manufacturer_fallback _ _ _) as [[q cache'] evs].
  cbn [fst].
  destruct (Sweets.labelled_value "Category:" (html pg));
    destruct (Sweets.labelled_value "MasterFormat:" (html pg));
    destruct (meta_description pg);
    destruct (search Sweets.product_id_re (html pg));
    destruct selenium; cbn [fst];
    unfold Sweets._extract_download_counts_selenium;
    try destruct (browser _); reflexivity.
Qed.

End Precedence.

(** C5, as the specification states it, fails.  In ARCAT the rendered
    page is read first and gives an address and a state; the serialized
    data, read next in the same pass, replace both.  In SWEETS the
    address element of the product page gives the city, and the
    manufacturer's page, consulted because the street is missing,
    replaces the city by its own, here none. *)
Lemma later_strategy_replaces_earlier_value :
  (Arcat.address
     (Arcat.apply_rendered
        (Arcat._extract_from_rendered_html ArcatExamples.rendered_page)
        ArcatExamples.scenario_company)
   = "100 Main St, Springfield, IL 62701" /\
   Arcat.state
     (Arcat.apply_rendered
        (Arcat._extract_from_rendered_html ArcatExamples.rendered_page)
        ArcatExamples.scenario_company)
   = "Illinois" /\
   Arcat.address
     (Arcat.res_company
        (fst (Arcat.scrape_company_details
                true ArcatExamples.scenario_site
                ArcatExamples.rendering_browser
                ArcatExamples.scenario_company)))
   = "123 Oak Rd., Austin, TX 78701" /\
   Arcat.state
     (Arcat.res_company
        (fst (Arcat.scrape_company_details
                true ArcatExamples.scenario_site
                ArcatExamples.rendering_browser
                ArcatExamples.scenario_company)))
   = "Texas") /\
  (Sweets.city
     (Sweets._parse_address_tag
        {| tag_hrefs := [];
           tag_markup := "<address>Acme Inc<br>Austin, TX 78701</address>" |}
        "Acme Inc")
   = "Austin" /\
   SweetsExamples.city_then_street
     (Sweets.url SweetsExamples.acme_product) 0
   = Ok SweetsExamples.city_only_page /\
   Sweets.city
     (Sweets.contact
        (fst (fst (Sweets.scrape_product_details
                     false SweetsExamples.city_then_street no_browser []
                     SweetsExamples.acme_product))))
   = EmptyString).
Proof. vm_compute. repeat split; reflexivity. Qed.

(** C5, amended.  The strategies of an extraction pass run in a fixed
    order, and which value stays depends on the step.  In ARCAT the four
    patterns of the serialized data are tried in their order and the
    first that matches gives the contact: street, city, state, ZIP and
    phone, and the email where the pattern has one (the third has none;
    the fourth takes the second phone where the first is blank); when
    none matches the serialized data have no contact.  The serialized
    data replace what the company holds, whatever gave it: the address
    and the state when they have a street, the phone, the email and the
    web site when they have one; a field they do not have is left as it
    is.  Once they are applied, the pattern fall-backs leave alone every
    field that is populated.  In SWEETS the manufacturer's page is not
    consulted for a product with an address; for a product without one
    that has a manufacturer id, a contact found in the cache or on the
    page replaces address, city, state and ZIP, keeps a populated phone,
    fax, email and web site and fills the blank ones; a manufacturer
    that gives nothing leaves the product as it is; and the steps after
    the fall-back leave the contact alone. *)
Theorem extraction_precedence :
  (forall html_,
      let data := Arcat._extract_from_nuxt_data html_ in
      (forall m,
          PyRe.search Arcat.pattern_with_null html_ = Some m ->
          Arcat.n_address data = strip (PyRe.group m 1) /\
          Arcat.n_city data = strip (PyRe.group m 2) /\
          Arcat.n_state data = strip (PyRe.group m 3) /\
          Arcat.n_zip data = strip (PyRe.group m 4) /\
          Arcat.n_phone data = strip (PyRe.group m 5) /\
          Arcat.n_email data = strip (PyRe.group m 6)) /\
      (forall m,
          PyRe.search Arcat.pattern_with_null html_ = None ->
          PyRe.search Arcat.pattern_direct html_ = Some m ->
          Arcat.n_address data = strip (PyRe.group m 1) /\
          Arcat.n_city data = strip (PyRe.group m 2) /\
          Arcat.n_state data = strip (PyRe.group m 3) /\
          Arcat.n_zip data = strip (PyRe.group m 4) /\
          Arcat.n_phone data = strip (PyRe.group m 5) /\
          Arcat.n_email data = strip (PyRe.group m 6)) /\
      (forall m,
          PyRe.search Arcat.pattern_with_null html_ = None ->
          PyRe.search Arcat.pattern_direct html_ = None ->
          PyRe.search Arcat.pattern3 html_ = Some m ->
          Arcat.n_address data = strip (PyRe.group m 1) /\
          Arcat.n_city data = strip (PyRe.group m 2) /\
          Arcat.n_state data = strip (PyRe.group m 3) /\
          Arcat.n_zip data = strip (PyRe.group m 4) /\
          Arcat.n_phone data = strip (PyRe.group m 5) /\
          Arcat.n_email data = EmptyString) /\
      (forall m,
          PyRe.search Arcat.pattern_with_null html_ = None ->
          PyRe.search Arcat.pattern_direct html_ = None ->
          PyRe.search Arcat.pattern3 html_ = None ->
          PyRe.search Arcat.pattern_canada html_ = Some m ->
          Arcat.n_address data = strip (PyRe.group m 1) /\
          Arcat.n_city data = strip (PyRe.group m 2) /\
          Arcat.n_state data = strip (PyRe.group m 3) /\
          Arcat.n_zip data = strip (PyRe.group m 4) /\
          Arcat.n_phone data
          = Arcat.str_or (strip (PyRe.group m 5)) (strip (PyRe.group m 6)) /\
          Arcat.n_email data = strip (PyRe.group m 7)) /\
      (PyRe.search Arcat.pattern_with_null html_ = None ->
       PyRe.search Arcat.pattern_direct html_ = None ->
       PyRe.search Arcat.pattern3 html_ = None ->
       PyRe.search Arcat.pattern_canada html_ = None ->
       Arcat.n_address data = EmptyString /\
       Arcat.n_city data = EmptyString /\
       Arcat.n_state data = EmptyString /\
       Arcat.n_zip data = EmptyString /\
       Arcat.n_phone data = EmptyString /\
       Arcat.n_email data = EmptyString)) /\
  (forall nd c,
      (nonempty (Arcat.n_address nd) = true ->
       Arcat.address (Arcat.apply_nuxt nd c)
       = strip_chars ", "
           (Arcat.n_address nd ++ ", " ++ strip (Arcat.n_city nd) ++ ", "
              ++ strip (Arcat.n_state nd) ++ " "
              ++ strip (Arcat.n_zip nd))%string /\
       Arcat.state (Arcat.apply_nuxt nd c)
       = table_get Arcat.STATE_ABBREV_TO_FULL
                   (upper (strip (Arcat.n_state nd)))
                   (strip (Arcat.n_state nd))) /\
      (nonempty (Arcat.n_phone nd) = true ->
       Arcat.phone (Arcat.apply_nuxt nd c) = Arcat.n_phone nd) /\
      (nonempty (Arcat.n_email nd) = true ->
       Arcat.email (Arcat.apply_nuxt nd c) = Arcat.n_email nd) /\
      (nonempty (Arcat.n_website nd) = true ->
       Arcat.website (Arcat.apply_nuxt nd c) = Arcat.n_website nd) /\
      (is_empty (Arcat.n_address nd) = true ->
       Arcat.address (Arcat.apply_nuxt nd c) = Arcat.address c /\
       Arcat.state (Arcat.apply_nuxt nd c) = Arcat.state c) /\
      (is_empty (Arcat.n_phone nd) = true ->
       Arcat.phone (Arcat.apply_nuxt nd c) = Arcat.phone c) /\
      (is_empty (Arcat.n_email nd) = true ->
       Arcat.email (Arcat.apply_nuxt nd c) = Arcat.email c) /\
      (is_empty (Arcat.n_website nd) = true ->
       Arcat.website (Arcat.apply_nuxt nd c) = Arcat.website c)) /\
  (forall html_ p c,
      let c1 := Arcat.apply_nuxt (Arcat._extract_from_nuxt_data html_) c in
      let c' := Arcat.res_company (Arcat.extract_details html_ (Some p) c) in
      (nonempty (Arcat.address c1) = true ->
       Arcat.address c' = Arcat.address c1 /\
       Arcat.state c' = Arcat.state c1) /\
      (nonempty (Arcat.phone c1) = true -> Arcat.phone c' = Arcat.phone c1) /\
      (nonempty (Arcat.email c1) = true -> Arcat.email c' = Arcat.email c1) /\
      (nonempty (Arcat.website c1) = true ->
       Arcat.website c' = Arcat.website c1)) /\
  (forall site cache product,
      nonempty (Sweets.address (Sweets.contact product)) = true ->
      Sweets.manufacturer_fallback site cache product
      = (product, cache, [])) /\
  (forall site cache product m,
      is_empty (Sweets.address (Sweets.contact product)) = true ->
      nonempty (Sweets.manufacturer_id product) = true ->
      Sweets.cache_get (Sweets.manufacturer_id product) cache
      = Some (Some m) \/
      (Sweets.cache_get (Sweets.manufacturer_id product) cache = None /\
       fst (Sweets._scrape_manufacturer_contact
              site (Sweets.manufacturer_id product)) = Some m) ->
      let c := Sweets.contact product in
      let c' :=
        Sweets.contact
          (fst (fst (Sweets.manufacturer_fallback site cache product))) in
      Sweets.address c' = Sweets.address m /\
      Sweets.city c' = Sweets.city m /\
      Sweets.state c' = Sweets.state m /\
      Sweets.zip_code c' = Sweets.zip_code m /\
      (nonempty (Sweets.phone c) = true -> Sweets.phone c' = Sweets.phone c) /\
      (nonempty (Sweets.fax c) = true -> Sweets.fax c' = Sweets.fax c) /\
      (nonempty (Sweets.email c) = true -> Sweets.email c' = Sweets.email c) /\
      (nonempty (Sweets.website c) = true ->
       Sweets.website c' = Sweets.website c) /\
      (is_empty (Sweets.phone c) = true -> Sweets.phone c' = Sweets.phone m) /\
      (is_empty (Sweets.fax c) = true -> Sweets.fax c' = Sweets.fax m) /\
      (is_empty (Sweets.email c) = true -> Sweets.email c' = Sweets.email m) /\
      (is_empty (Sweets.website c) = true ->
       Sweets.website c' = Sweets.website m)) /\
  (forall site cache product,
      Sweets.cache_get (Sweets.manufacturer_id product) cache = Some None \/
      (Sweets.cache_get (Sweets.manufacturer_id product) cache = None /\
       fst (Sweets._scrape_manufacturer_contact
              site (Sweets.manufacturer_id product)) = None) ->
      fst (fst (Sweets.manufacturer_fallback site cache product)) = product) /\
  (forall selenium site browser cache pg product,
      Sweets.contact
        (fst (fst (Sweets.extract_product selenium site browser cache pg
                                          product)))
      = Sweets.contact
          (fst (fst (Sweets.manufacturer_fallback
                       site cache
                       (match company_info pg with
                        | Some address_tag =>
                            Sweets.set_contact
                              (Sweets._parse_address_tag
                                 address_tag
                                 (Sweets.manufacturer_name product))
                              product
                        | None =>
                            Sweets.set_contact
                              (Sweets.regex_fallback
                                 (html pg) (Sweets.contact product))
                              product
                        end))))).
Proof.
  split; [exact Precedence.nuxt_pattern_order|].
  split; [exact Precedence.apply_nuxt_replaces|].
  split; [exact Extraction.nuxt_values_are_final|].
  split; [exact Precedence.manufacturer_fallback_guarded|].
  split; [|split;
           [exact Precedence.manufacturer_fallback_finds_nothing
           |exact Precedence.later_steps_keep_the_contact]].
  intros site cache product m Hempty Hid Hm. cbv zeta.
  rewrite (Precedence.manufacturer_fallback_applies
             site cache product m Hempty Hid Hm).
  cbn [Sweets.contact Sweets.set_contact].
  unfold Sweets.apply_manufacturer, nonempty.
  cbn [Sweets.address Sweets.city Sweets.state Sweets.zip_code Sweets.phone
       Sweets.fax Sweets.email Sweets.website].
  repeat split; intros H; try apply negb_true_iff in H; rewrite H;
    reflexivity.
Qed.

(** The serialized record of the scenario on the rendered page.  The
    first pattern, which wants a null before the phone, does not match
    it and the second does, so the second gives the street; and the
    values of the serialized data are the ones the pass ends with. *)
Lemma extraction_precedence_witness :
  (PyRe.search Arcat.pattern_with_null scenario_markup = None /\
   Arcat.n_address (Arcat._extract_from_nuxt_data scenario_markup)
   = "123 Oak Rd.") /\
  nonempty
    (Arcat.address
       (Arcat.apply_nuxt (Arcat._extract_from_nuxt_data scenario_markup)
                         ArcatExamples.scenario_company)) = true /\
  Arcat.address
    (Arcat.res_company
       (Arcat.extract_details scenario_markup
                              (Some ArcatExamples.rendered_page)
                              ArcatExamples.scenario_company))
  = Arcat.address
      (Arcat.apply_nuxt (Arcat._extract_from_nuxt_data scenario_markup)
                        ArcatExamples.scenario_company).
Proof.
  assert (H1 : PyRe.search Arcat.pattern_with_null scenario_markup = None)
    by (vm_compute; reflexivity).
  split; [split; [exact H1|]|split].
  - destruct (PyRe.search Arcat.pattern_direct scenario_markup)
      as [m|] eqn:H2; [|vm_compute in H2; discriminate H2].
    rewrite (proj1
               (proj1 (proj2 (proj1 extraction_precedence scenario_markup))
                      m H1 H2)).
    vm_compute in H2. injection H2 as <-. vm_compute. reflexivity.
  - vm_compute. reflexivity.
  - refine (proj1 (proj1 (proj1 (proj2 (proj2 extraction_precedence))
                            scenario_markup ArcatExamples.rendered_page
                            ArcatExamples.scenario_company) _)).
    vm_compute. reflexivity.
Defined.

(* ------------------------------------------------------------------ *)
(** ** A fatal fetch error and the crawl around it *)
(* ------------------------------------------------------------------ *)


